(* ===== verification/_CoqProject ===== *)
-Q . S2P
Prelude.v
BytesApi.v
Codec.v
Framing.v
DeviceMsg.v
Utf8.v
Ctl.v
Cli.v
AsyncPty.v
TcpBridge.v
Connection.v
Registry.v
Daemon.v
Tool.v
System.v
Mailbox.v
History.v
Blocking.v
Clients.v
Firmware.v
FirmwareTasks.v
StatusLed.v
Wifi.v
Startup.v
EndToEnd.v
Device.v
LineSync.v
Resets.v
TestServer.v
