(* ===== verification/Prelude.v ===== *)
(** * tcpuart: a verification library

    tcpuart makes a serial device behind an ESP32 look like a local terminal.  A
    daemon keeps, for every connection, a pseudo-terminal that applications open
    and a TCP connection to the device, and moves bytes and line settings
    between the two; a command-line tool talks to the daemon over a Unix socket;
    firmware on the device moves bytes between TCP and the UART.  This library
    models the Rust programs (daemon, cli, test-server and common under src/) and
    the firmware above its drivers (server/main) as executable definitions
    and step relations over them, and proves what makes them correct.

    ** The files

    - [Prelude] (this file): bytes, big-endian numbers, [io::Error], results and
      panics, and the lemmas on them every component uses.
    - [BytesApi]: the operations of the bytes crate the codecs call, as a class
      with laws; [ListBytes] is a buffer that satisfies them.
    - [Codec]: the reader and writer monads in which the codecs are written
      (early returns of [Ok(None)], errors and panics are outcomes of a read),
      and a small calculus of what a reader reads and a writer writes.
    - [Framing]: what a stream decoder promises ([StreamDecoder]), the receiving
      side of a framed stream, and the independence of chunk boundaries, proved
      once against that interface.
    - [DeviceMsg]: common/src/msg.rs, the protocol with the device.
    - [Utf8]: [String::from_utf8] and [String::from_utf8_lossy].
    - [Ctl]: common/src/ctl.rs, the protocol between the tool and the daemon.
    - [Cli]: cli/src/main.rs, with the address syntax of [Ipv4Addr].
    - [AsyncPty]: daemon/src/async_pty.rs, over a class of [termios] views.
    - [TcpBridge]: daemon/src/tcp_bridge.rs.
    - [Connection]: daemon/src/connection.rs, the task of one connection.
    - [Registry]: daemon/src/state.rs and the handle of a connection.
    - [Daemon]: daemon/src/main.rs and event.rs: requests, main loop, clients,
      and the socket file around them ([daemon_main]).
    - [Tool]: one run of the tool against the daemon, through the bytes of
      their socket in both directions ([tool_run]).
    - [System]: the main loop, the tasks and the event queue as one transition
      system; a request to a task is one step here.
    - [Mailbox]: the same system with the channels of the code: a list or a
      reset is a request queued to a task ([Asking]), a wait ([Awaiting]), and
      the rest of the handler ([resume]); with a log of what the main loop did
      ([happening]) and what explains it ([history]).
    - [History]: that the answers in this log are what the tasks replied, and so
      what explains every response of the daemon.
    - [Blocking]: which steps of [Mailbox] can end a wait, and which waits
      nothing ends.
    - [Clients]: the [handle_stream] tasks of all clients next to [Mailbox], with
      the bytes of their sockets.
    - [Firmware]: server/main/message.h, tcp.c and uart.c: reading frames, what
      they do to the UART, framing what the UART receives.
    - [FirmwareTasks]: the three tasks of tcp.c and uart.c with the queues and
      the eventfd of main.c between them.
    - [StatusLed]: server/main/status.c.
    - [Wifi]: server/main/wifi.c, the event handler and the wait of [wifi_init].
    - [Startup]: server/main/main.c, [app_main], how long the parameters of the
      Wi-Fi event handler live, and what the tasks of tcp.c and uart.c set up.
    - [EndToEnd]: the task of a connection and the functions of [Firmware]
      composed through the bytes of their TCP connections.
    - [Device]: the tasks of [FirmwareTasks] with the TCP streams of the clients
      and the receive buffer of the UART, composed with the connection task as
      in [EndToEnd], now with bounded queues and any interleaving.
    - [LineSync]: what the UART is set to, against the settings of the terminal.
    - [Resets]: the stages of a reset, from the request of a user to the answer.
    - [TestServer]: test-server/src/main.rs.

    ** How the code is modelled

    Names are those of the source, qualified where two Rust types share a name
    ([request_msg_type], [RespList], [tcp_send]).  A struct is a record, an enum
    an inductive type, [u8] is [Byte.byte], wider integers are [Z] with their
    range in the theorems that need it and casts written out.  A string is the
    list of its bytes.  Milliseconds are [Z].

    An [async] function that waits for the outside is a function of what the
    awaited calls returned.  [select!] is an event type with a constructor per
    branch that carries the results of the I/O the branch goes on to do, so
    every schedule is some list of events.  Where the program waits for itself
    (the daemon's channels, the queues of the firmware), the tasks are step
    relations over a shared state that says where each of them is
    ([main_pc], [tcp_pc], [uart_pc]).  The connection task is a state
    monad over [ConnectionTask]; it logs each interaction with the outside, and
    the theorems about it read that log.  A panic is a value ([Panicked],
    [TaskPanic], [StreamPanic]).  A [oneshot] channel is a number.

    Third-party code is a parameter: the bytes crate ([BytesCrate], with
    [BytesLaws]), nix's [termios] ([NixTermios]; only the range of the
    configurations needs the constants, [TermiosMasks]), tokio's framed streams
    ([Framing]) and sockets (results given to the functions that use them).

    ** What is proved

    - Protocols: decoding inverts encoding whatever follows, decoded values are
      well-typed and encode back to the bytes consumed, partial frames wait, and
      streams give the same items however they are cut; the device decoder
      computes a pure parser ([device_spec]).
    - Terminal: a change of line settings is reported exactly when there is one
      and with values the firmware accepts; [read] passes nothing over.
    - Connection task: no message of the application is lost, duplicated or
      reordered while the task lives, what the device says reaches the terminal
      in order, every control request is answered exactly once, each sleep
      before an attempt is as long as the failures since the last loss make it,
      the task never panics, is stopped by its shutdown signal in every state,
      and otherwise only by a failure of the terminal.
    - Registry and daemon: the vector refines a map from names to connections,
      requests refine their specification on that map, every command is
      answered, a client whose exchanges go well reads the responses it was
      given, and the daemon leaves no socket file when it is told to stop.
    - Tool and daemon: a command does what its request is specified to do on the
      daemon's map of connections and the user sees the response to it, however
      the sockets cut the bytes; a list shows what was typed to add a connection.
    - Device: the firmware does what the daemon's frames ask, in order, applies
      the line settings of the terminal, and its own frames carry the bytes of
      the UART to the daemon.
    - End to end: over any number of TCP connections and any interleaving of the
      firmware's tasks, what is typed reaches the UART in order and without
      duplicates, and completely while the connection holds; what the UART
      had room for reaches the terminal in order; a device left alone, with a
      client that is not in the middle of a frame, comes to rest in a bounded
      number of calls, with everything done or in the deadlock of its queues.
    - Settings and resets: over an unbroken session the UART is set as the
      terminal is; no reset is repeated, and none is reported as done that did
      not happen.
    - System: however everything interleaves, registered connections have
      running tasks under their names and running tasks are registered or told
      to stop.
    - Channels: the system with its channels refines [System]; commands are
      answered once and in the order in which they were queued, each as
      specified on the connections of that moment from what the kernel gave and
      the tasks truly answered in this run; at most one request is on its way; a list can be completed while the queue has
      room; the daemon is stuck in exactly one situation, which is described.
    - Clients: however many there are and however everything interleaves, each
      is written the responses to its own requests, in order, and one history
      of the run explains the responses of all; a queued command is never lost
      and has at most 128 others before it.
    - Queues of the firmware: no message is lost, duplicated or reordered
      between the tasks, capacities are kept, an eventfd is pending whenever
      messages wait, except after a failed send; the tasks are stuck for ever
      exactly when both queues are full and both ends wait.
    - Startup: the bridge is started exactly when Wi-Fi is joined and Tailscale,
      if there is one, says yes when asked after the wait; the device restarts
      otherwise.
    - Wi-Fi and LED: booting tries all configured networks the configured number
      of times; no colour stays on without a timer, and the LED goes dark.
    - Limits of the code, as theorems: names of 225 to 255 bytes the daemon
      cannot answer about, a closing event that removes a successor of the same
      name (in [System]), the 16-bit count of a list, the length of a configuration that is
      not checked, a device that does not answer and stops the daemon, the two
      deadlocks above, settings that are not restored when a device comes back, messages stranded by a
      failed send, a Wi-Fi that gives up, parameters of its event handler that
      are gone when it uses them, characters the test server cuts.

    ** Bounds and fuel

    [drain] of [Framing] takes one more than the bytes of the buffer as fuel:
    every item consumes at least one byte.  [read_all] and [uart_rx] of [Firmware]
    take the bytes to read, since every turn reads one.  [dec] of [Cli] has fuel for the
    digits of its type, and [lossy] of [Utf8] one unit for each byte of its input.
    The capacities are those of the code: 8 requests, 128 events
    ([REQUEST_CAPACITY], [EVENT_CAPACITY]), the depths of the firmware's queues
    and the receive buffer of the UART ([UART_RX_BUFFER]).  Loops of tasks are bounded by the list of events they
    are given; [Waiting] says that the list ran out, and the liveness theorems
    say which events are enough.

    ** What is not modelled

    Logging, the parsing of options (clap), the branches for systems other than
    Linux, the capacity of the test server's broadcast channel, and time, except
    where the code computes with it (the backoff and the sleep it is given to,
    the LED, the delays of the start-up).  The main loop of [Mailbox] and
    [Clients] is not interrupted; Ctrl-C is an input of [main_loop] in [Daemon].  No model bounds how long a step takes.  Of the firmware: the
    drivers and the set-up of Wi-Fi, which are calls of ESP-IDF and MicroLink; the
    [uart_set_*] calls are taken to succeed (the code restarts the device when
    one does not).  Which bytes the UART driver loses when its receive buffer is
    full is left open ([DevUartGets]); the driver is taken to raise its event
    while it holds bytes, and [uart_write_bytes] to return.  Taking a message off
    the queue to the client and sending it is one step, [send] takes all of what
    it is given unless it fails, and a failing one may have sent any part.  The
    queue of the status messages between the tasks and the LED is not modelled.

    ** Further work

    The status messages of the other tasks as inputs of the LED, through a queue
    that drops what does not fit.  [Clients] composed with [Tool], so that several
    runs of the tool meet one daemon.  Ctrl-C as a step of [Mailbox]. *)
From stdpp Require Import base numbers list strings.
From Stdlib Require Import Strings.Byte.
From Stdlib Require Import Lia.

Export Stdlib.Strings.Byte.

Open Scope Z_scope.

(** ** Machine integers *)

(** Rust's [u8].  The wider unsigned types ([u16], [u32]) are [Z] with the
    range stated where a theorem needs it. *)
Abbreviation u8 := Corelib.Init.Byte.byte.

#[export] Instance u8_eq_dec : EqDecision u8.
Proof. exact Byte.byte_eq_dec. Defined.

(** The value of a byte, and the [as u8] cast, which keeps the low 8 bits. *)
Definition u8_val (b : u8) : Z := Z.of_N (Byte.to_N b).

Definition u8_of (z : Z) : u8 :=
  match Byte.of_N (Z.to_N (z mod 256)) with Some b => b | None => x00 end.

Definition is_u16 (z : Z) : Prop := 0 <= z < 2 ^ 16.
Definition is_u32 (z : Z) : Prop := 0 <= z < 2 ^ 32.

#[export] Instance is_u16_dec z : Decision (is_u16 z).
Proof. unfold is_u16. apply _. Defined.
#[export] Instance is_u32_dec z : Decision (is_u32 z).
Proof. unfold is_u32. apply _. Defined.

(** Rust's [bool as u8]. *)
Definition bool_u8 (b : bool) : u8 := if b then x01 else x00.

(** [to_be_bytes] of an unsigned integer of [n] bytes, and its inverse. *)
Fixpoint be_bytes (n : nat) (z : Z) : list u8 :=
  match n with
  | O => []
  | S n => be_bytes n (z / 256) ++ [u8_of z]
  end.

Definition of_be (bs : list u8) : Z :=
  foldl (fun acc b => acc * 256 + u8_val b) 0 bs.

(** ** Results, errors and panics *)

(** [std::io::ErrorKind], the kinds this program builds or matches; [OtherKind]
    stands for the kinds only the operating system produces. *)
Inductive ErrorKind :=
  | InvalidData
  | InvalidInput
  | NotConnected
  | ConnectionAborted
  | UnexpectedEof
  | OtherKind (code : Z).

(** [std::io::Error::new(kind, message)]. *)
Record io_error := IoError { err_kind : ErrorKind; err_msg : string }.

#[export] Instance ErrorKind_eq_dec : EqDecision ErrorKind.
Proof. solve_decision. Defined.
#[export] Instance io_error_eq_dec : EqDecision io_error.
Proof. solve_decision. Defined.

Inductive result (E A : Type) := Ok (a : A) | Err (e : E).
Arguments Ok {E A} a.
Arguments Err {E A} e.

Abbreviation io_result A := (result io_error A).

#[export] Instance result_eq_dec `{EqDecision E, EqDecision A} : EqDecision (result E A).
Proof. solve_decision. Defined.

(** The [?] operator. *)
#[export] Instance result_ret E : MRet (result E) := fun A a => Ok a.
#[export] Instance result_bind E : MBind (result E) := fun A A' k r =>
  match r with Ok a => k a | Err e => Err e end.

(** What a call that may panic does. *)
Inductive outcome (A : Type) := Done (a : A) | Panicked.
Arguments Done {A} a.
Arguments Panicked {A}.

(** ** Strings *)

(** A string literal as the bytes Rust stores for it. *)
Definition lit (s : string) : list u8 := String.list_byte_of_string s.

(** ** Lemmas the components share *)

Create HintDb tcpuart.
Create Rewrite HintDb tcpuart.

Lemma u8_val_range b : 0 <= u8_val b < 256.
Proof. unfold u8_val. pose proof (Byte.to_N_bounded b). lia. Qed.

Lemma u8_val_of z : u8_val (u8_of z) = z mod 256.
Proof.
  unfold u8_of, u8_val. pose proof (Z.mod_pos_bound z 256 eq_refl).
  destruct (Byte.of_N _) as [b|] eqn:E.
  - apply Byte.to_of_N in E. rewrite E. lia.
  - apply Byte.of_N_None_iff in E. lia.
Qed.

Lemma u8_of_val b : u8_of (u8_val b) = b.
Proof.
  unfold u8_of. rewrite Z.mod_small by apply u8_val_range.
  unfold u8_val. by rewrite N2Z.id, Byte.of_to_N.
Qed.

Lemma u8_val_inj b1 b2 : u8_val b1 = u8_val b2 -> b1 = b2.
Proof. intros E. by rewrite <-(u8_of_val b1), E, u8_of_val. Qed.

Lemma u8_of_mod z : u8_of (z mod 256) = u8_of z.
Proof. apply u8_val_inj. by rewrite !u8_val_of, Z.mod_mod. Qed.

Lemma length_be_bytes n z : length (be_bytes n z) = n.
Proof.
  revert z. induction n as [|n IH]; intros z; [done|].
  cbn. rewrite length_app, IH. cbn. lia.
Qed.

Lemma of_be_snoc bs b : of_be (bs ++ [b]) = of_be bs * 256 + u8_val b.
Proof. unfold of_be. by rewrite foldl_app. Qed.

Lemma of_be_nonneg bs : 0 <= of_be bs.
Proof.
  induction bs as [|b bs IH] using rev_ind; [done|].
  rewrite of_be_snoc. pose proof (u8_val_range b). lia.
Qed.

Lemma of_be_bound bs : of_be bs < 256 ^ Z.of_nat (length bs).
Proof.
  induction bs as [|b bs IH] using rev_ind; [done|].
  rewrite of_be_snoc, length_app, Nat.add_1_r, Nat2Z.inj_succ, Z.pow_succ_r by lia.
  pose proof (u8_val_range b). lia.
Qed.

Lemma of_be_bytes n z : 0 <= z < 256 ^ Z.of_nat n -> of_be (be_bytes n z) = z.
Proof.
  revert z. induction n as [|n IH]; intros z Hz; [cbn in *; lia|].
  rewrite Nat2Z.inj_succ, Z.pow_succ_r in Hz by lia.
  cbn [be_bytes]. rewrite of_be_snoc, u8_val_of, IH.
  - pose proof (Z.div_mod z 256). lia.
  - split; [apply Z.div_pos; lia|]. apply Z.div_lt_upper_bound; lia.
Qed.

Lemma be_bytes_of_be bs : be_bytes (length bs) (of_be bs) = bs.
Proof.
  induction bs as [|b bs IH] using rev_ind; [done|].
  rewrite length_app, Nat.add_1_r. cbn [be_bytes]. rewrite of_be_snoc.
  pose proof (u8_val_range b). f_equal.
  - rewrite Z.div_add_l, (Z.div_small (u8_val b)), Z.add_0_r by lia. apply IH.
  - f_equal. apply u8_val_inj.
    rewrite u8_val_of, Z.add_comm, Z.mod_add, Z.mod_small; lia.
Qed.

Lemma of_be_u16 bs : length bs = 2%nat -> is_u16 (of_be bs).
Proof.
  intros E. unfold is_u16. pose proof (of_be_nonneg bs). pose proof (of_be_bound bs) as H1.
  rewrite E in H1. cbn in H1. lia.
Qed.

Lemma of_be_u32 bs : length bs = 4%nat -> is_u32 (of_be bs).
Proof.
  intros E. unfold is_u32. pose proof (of_be_nonneg bs). pose proof (of_be_bound bs) as H1.
  rewrite E in H1. cbn in H1. lia.
Qed.

#[export] Hint Rewrite length_be_bytes u8_val_of u8_of_val : tcpuart.
#[export] Hint Resolve of_be_u16 of_be_u32 : tcpuart.

#[global] Arguments of_be : simpl never.
#[global] Arguments be_bytes : simpl never.
#[global] Arguments u8_val : simpl never.
#[global] Arguments u8_of : simpl never.

(** Evaluates [u8_val] on byte literals. *)
Ltac eval_u8 :=
  repeat match goal with
  | |- context [u8_val ?b] =>
      is_constructor b; let v := eval vm_compute in (u8_val b) in change (u8_val b) with v
  end.
