(* ===== verification/BytesApi.v ===== *)
(** * The interface to the bytes crate

    The codecs of [common] read and write [tokio_util::bytes] buffers, which
    are not part of this repository.  [BytesCrate] lists the operations the
    codecs call, as a parameter of everything that uses them, and [BytesLaws]
    their documented behaviour; [std::io::Cursor] is a record, as in the
    standard library.  [ListBytes] is a concrete buffer that satisfies the laws. *)
From S2P Require Import Prelude.
From stdpp Require Import base numbers list strings.

(** [std::io::Cursor]: a buffer and a position in it. *)
Record Cursor (B : Type) := mkCursor { cur_inner : B; cur_position : nat }.
Arguments mkCursor {B} _ _.
Arguments cur_inner {B} _.
Arguments cur_position {B} _.

(** The [bytes] operations the codecs call.  A read that finds too few bytes
    ([TryGetError]) is [None]; [copy_to_slice] and [advance] panic instead,
    which is also [None]. *)
Class BytesCrate (B : Type) := {
  as_ref : B -> list u8;
  reserve : nat -> B -> B;
  put_u8 : u8 -> B -> B;
  put_u16 : Z -> B -> B;
  put_u32 : Z -> B -> B;
  put_slice : list u8 -> B -> B;
  advance : nat -> B -> option B;
  remaining : Cursor B -> nat;
  try_get_u8 : Cursor B -> option (u8 * Cursor B);
  try_get_u16 : Cursor B -> option (Z * Cursor B);
  try_get_u32 : Cursor B -> option (Z * Cursor B);
  try_copy_to_slice : nat -> Cursor B -> option (list u8 * Cursor B);
  copy_to_slice : nat -> Cursor B -> option (list u8 * Cursor B);
}.

Section laws.
Context {B : Type} `{!BytesCrate B}.

(** The bytes a cursor has not read yet, and the cursor [n] bytes further. *)
Definition cur_rest (c : Cursor B) : list u8 := drop (cur_position c) (as_ref (cur_inner c)).
Definition cur_skip (n : nat) (c : Cursor B) : Cursor B :=
  mkCursor (cur_inner c) (cur_position c + n).

(** A read of [n] bytes decoded by [f]: nothing when fewer remain. *)
Definition take_from {A} (n : nat) (f : list u8 -> A) (c : Cursor B) : option (A * Cursor B) :=
  if decide (n <= length (cur_rest c))%nat
  then Some (f (take n (cur_rest c)), cur_skip n c) else None.
End laws.

(** The documented behaviour of those operations: writes append in big-endian
    order, reads consume from the front or fail without consuming, [advance]
    drops a prefix and panics past the end. *)
Class BytesLaws (B : Type) `{!BytesCrate B} : Prop := {
  as_ref_reserve n b : as_ref (reserve n b) = as_ref b;
  as_ref_put_u8 x b : as_ref (put_u8 x b) = as_ref b ++ [x];
  as_ref_put_u16 z b : as_ref (put_u16 z b) = as_ref b ++ be_bytes 2 z;
  as_ref_put_u32 z b : as_ref (put_u32 z b) = as_ref b ++ be_bytes 4 z;
  as_ref_put_slice l b : as_ref (put_slice l b) = as_ref b ++ l;
  advance_as_ref n b : as_ref <$> advance n b =
    if decide (n <= length (as_ref b))%nat then Some (drop n (as_ref b)) else None;
  remaining_rest c : remaining c = length (cur_rest c);
  try_get_u8_rest c : try_get_u8 c = take_from 1 (hd x00) c;
  try_get_u16_rest c : try_get_u16 c = take_from 2 of_be c;
  try_get_u32_rest c : try_get_u32 c = take_from 4 of_be c;
  try_copy_to_slice_rest n c : try_copy_to_slice n c = take_from n id c;
  copy_to_slice_rest n c : copy_to_slice n c = take_from n id c;
}.

(** A buffer that is the list of its bytes. *)
Module ListBytes.
#[export] Instance list_bytes : BytesCrate (list u8) := {
  as_ref b := b;
  reserve _ b := b;
  put_u8 x b := b ++ [x];
  put_u16 z b := b ++ be_bytes 2 z;
  put_u32 z b := b ++ be_bytes 4 z;
  put_slice l b := b ++ l;
  advance n b := if decide (n <= length b)%nat then Some (drop n b) else None;
  remaining c := (length (cur_inner c) - cur_position c)%nat;
  try_get_u8 c :=
    match drop (cur_position c) (cur_inner c) with
    | x :: _ => Some (x, mkCursor (cur_inner c) (cur_position c + 1))
    | [] => None
    end;
  try_get_u16 c :=
    let r := drop (cur_position c) (cur_inner c) in
    if decide (2 <= length r)%nat
    then Some (of_be (take 2 r), mkCursor (cur_inner c) (cur_position c + 2)) else None;
  try_get_u32 c :=
    let r := drop (cur_position c) (cur_inner c) in
    if decide (4 <= length r)%nat
    then Some (of_be (take 4 r), mkCursor (cur_inner c) (cur_position c + 4)) else None;
  try_copy_to_slice n c :=
    let r := drop (cur_position c) (cur_inner c) in
    if decide (n <= length r)%nat
    then Some (take n r, mkCursor (cur_inner c) (cur_position c + n)) else None;
  copy_to_slice n c :=
    let r := drop (cur_position c) (cur_inner c) in
    if decide (n <= length r)%nat
    then Some (take n r, mkCursor (cur_inner c) (cur_position c + n)) else None;
}.

#[export] Instance list_bytes_laws : BytesLaws (list u8).
Proof.
  split; try done.
  - intros n b. cbn. by case_decide.
  - intros c. unfold cur_rest. cbn. by rewrite length_drop.
  - intros c. unfold take_from, cur_rest. cbn. destruct (drop _ _) as [|x l]; [done|].
    by rewrite decide_True by (cbn; lia).
Qed.
End ListBytes.
