(* ===== verification/Codec.v ===== *)
(** * Readers and writers

    The decoders of [common] are written with early returns
    ([let Ok(x) = cursor.try_get_u8() else { return Ok(None) }]) and the
    encoders with [?] over a buffer that keeps what was already written.
    [reader] and [writer] are those two disciplines as monads, [run_decoder]
    the prologue and epilogue the three [Decoder::decode] methods share, and
    the rest of the file is the calculus the codec proofs use:
    - [reads m bs a l]: on [bs] followed by [l], [m] reads [bs] as [a];
    - [yields m P]: whatever [m] reads, it read bytes [bs] with [P a bs];
    - [Stable m]: appending bytes to the input changes neither a value nor an
      error that [m] produced. *)
From S2P Require Import Prelude BytesApi.
From stdpp Require Import base numbers list strings.

(** ** The two monads *)

Section monads.
Context {B : Type}.

(** What a statement of a decoder does: go on with a value, or leave the
    function with [Ok(None)], with [Err(e)], or by a panic. *)
Inductive flow (A : Type) :=
  | Next (a : A) (c : Cursor B)
  | ReturnNone
  | ReturnErr (e : io_error)
  | Panic.

Definition reader (A : Type) : Type := Cursor B -> flow A.

(** What an encoder does to the buffer: it may fail, and what it wrote
    before failing stays. *)
Definition writer (A : Type) : Type := B -> io_result A * B.
End monads.
Arguments flow : clear implicits.
Arguments reader : clear implicits.
Arguments writer : clear implicits.
Arguments Next {B A} a c.
Arguments ReturnNone {B A}.
Arguments ReturnErr {B A} e.
Arguments Panic {B A}.

#[export] Instance reader_ret B : MRet (reader B) := fun A a c => Next a c.
#[export] Instance reader_bind B : MBind (reader B) := fun A A' k m c =>
  match m c with
  | Next a c' => k a c'
  | ReturnNone => ReturnNone
  | ReturnErr e => ReturnErr e
  | Panic => Panic
  end.

#[export] Instance writer_ret B : MRet (writer B) := fun A a b => (Ok a, b).
#[export] Instance writer_bind B : MBind (writer B) := fun A A' k m b =>
  match m b with
  | (Ok a, b') => k a b'
  | (Err e, b') => (Err e, b')
  end.

Section operations.
Context {B : Type} `{!BytesCrate B}.

(** [let Ok(x) = f(cursor) else { return Ok(None) }]. *)
Definition need {A} (f : Cursor B -> option (A * Cursor B)) : reader B A := fun c =>
  match f c with Some (a, c') => Next a c' | None => ReturnNone end.

(** A call that panics when the buffer is too short. *)
Definition must {A} (f : Cursor B -> option (A * Cursor B)) : reader B A := fun c =>
  match f c with Some (a, c') => Next a c' | None => Panic end.

(** [return Err(e)], and [?] on a result. *)
Definition fail {A} (e : io_error) : reader B A := fun _ => ReturnErr e.
Definition unwrap {A} (r : io_result A) : reader B A := fun c =>
  match r with Ok a => Next a c | Err e => ReturnErr e end.

(** [if cursor.remaining() < n { return Ok(None) }]. *)
Definition need_remaining (n : nat) : reader B unit := fun c =>
  if decide (remaining c < n)%nat then ReturnNone else Next tt c.

(** [dst.put_...(...)], and [return Err(e)] in an encoder. *)
Definition put (f : B -> B) : writer B unit := fun b => (Ok tt, f b).
Definition wfail (e : io_error) : writer B unit := fun b => (Err e, b).

(** The frame of a [Decoder::decode]: a cursor at the start of [src], the
    body, then [src.advance(cursor.position())] and [Ok(Some(item))]. *)
Definition run_decoder {A} (body : reader B A) (src : B) : outcome (io_result (option A) * B) :=
  match body (mkCursor src 0) with
  | Next item cursor =>
      match advance (cur_position cursor) src with
      | Some src' => Done (Ok (Some item), src')
      | None => Panicked
      end
  | ReturnNone => Done (Ok None, src)
  | ReturnErr e => Done (Err e, src)
  | Panic => Panicked
  end.
End operations.

(** ** Cursors *)

Section cursors.
Context {B : Type} `{!BytesCrate B}.

Lemma cur_skip_0 (c : Cursor B) : cur_skip 0 c = c.
Proof. destruct c. unfold cur_skip. cbn. by rewrite Nat.add_0_r. Qed.

Lemma cur_skip_skip n k (c : Cursor B) : cur_skip n (cur_skip k c) = cur_skip (k + n) c.
Proof. destruct c. unfold cur_skip. cbn. by rewrite Nat.add_assoc. Qed.

Lemma cur_rest_skip n (c : Cursor B) : cur_rest (cur_skip n c) = drop n (cur_rest c).
Proof. unfold cur_rest, cur_skip. cbn. by rewrite drop_drop. Qed.

Lemma cur_rest_start (b : B) : cur_rest (mkCursor b 0) = as_ref b.
Proof. done. Qed.

Lemma cur_rest_skip_app bs l (c : Cursor B) :
  cur_rest c = bs ++ l -> cur_rest (cur_skip (length bs) c) = l.
Proof. intros E. by rewrite cur_rest_skip, E, drop_app_length. Qed.

Lemma take_from_app {A} n (f : list u8 -> A) (c : Cursor B) bs l :
  cur_rest c = bs ++ l -> length bs = n -> take_from n f c = Some (f bs, cur_skip n c).
Proof.
  intros E <-. unfold take_from. rewrite E, decide_True by (rewrite length_app; lia).
  by rewrite take_app_length.
Qed.

Lemma take_from_inv {A} n (f : list u8 -> A) (c : Cursor B) a c' :
  take_from n f c = Some (a, c') ->
  exists bs l, cur_rest c = bs ++ l /\ length bs = n /\ a = f bs /\ c' = cur_skip n c.
Proof.
  unfold take_from. case_decide as Hn; [|done]. intros [= <- <-].
  exists (take n (cur_rest c)), (drop n (cur_rest c)).
  rewrite take_drop, length_take_le by done. done.
Qed.

Lemma cur_rest_len_app n (c d : Cursor B) l :
  cur_rest d = cur_rest c ++ l -> (n <= length (cur_rest c))%nat ->
  (n <= length (cur_rest d))%nat /\ take n (cur_rest d) = take n (cur_rest c) /\
  cur_rest (cur_skip n d) = cur_rest (cur_skip n c) ++ l.
Proof.
  intros E Hn. rewrite !cur_rest_skip, E, length_app, take_app_le, drop_app_le by lia.
  split_and!; [lia|done..].
Qed.
End cursors.

(** ** What a reader reads *)

Section calculus.
Context {B : Type} `{!BytesCrate B}.

Definition reads {A} (m : reader B A) (bs : list u8) (a : A) (l : list u8) : Prop :=
  forall c, cur_rest c = bs ++ l -> m c = Next a (cur_skip (length bs) c).

Definition yields {A} (m : reader B A) (P : A -> list u8 -> Prop) : Prop :=
  forall c a c', m c = Next a c' ->
  exists bs l, cur_rest c = bs ++ l /\ c' = cur_skip (length bs) c /\ P a bs.

Class Stable {A} (m : reader B A) : Prop := stable c d l :
  cur_rest d = cur_rest c ++ l ->
  match m c with
  | Next a c' => exists n, (n <= length (cur_rest c))%nat /\
      c' = cur_skip n c /\ m d = Next a (cur_skip n d)
  | ReturnNone => True
  | ReturnErr e => m d = ReturnErr e
  | Panic => True
  end.

Lemma reads_ret {A} (a : A) l : reads (mret a) [] a l.
Proof. intros c _. cbn. by rewrite cur_skip_0. Qed.

Lemma reads_bind {A A'} (m : reader B A) (k : A -> reader B A') bs1 bs2 a a' l :
  reads m bs1 a (bs2 ++ l) -> reads (k a) bs2 a' l -> reads (m ≫= k) (bs1 ++ bs2) a' l.
Proof.
  intros Hm Hk c E. rewrite <-app_assoc in E. unfold mbind, reader_bind.
  rewrite (Hm _ E), (Hk _ (cur_rest_skip_app _ _ _ E)).
  by rewrite cur_skip_skip, length_app.
Qed.

Lemma reads_unwrap {A} (a : A) l : reads (unwrap (Ok a)) [] a l.
Proof. apply reads_ret. Qed.

Lemma yields_ret {A} (a : A) (P : A -> list u8 -> Prop) : P a [] -> yields (mret a) P.
Proof. intros HP c a' c' [= <- <-]. exists [], (cur_rest c). by rewrite cur_skip_0. Qed.

Lemma yields_bind {A A'} (m : reader B A) (k : A -> reader B A') P Q :
  yields m P -> (forall a bs, P a bs -> yields (k a) (fun a' bs' => Q a' (bs ++ bs'))) ->
  yields (m ≫= k) Q.
Proof.
  intros Hm Hk c a' c'. unfold mbind, reader_bind.
  destruct (m c) as [a c1| | |] eqn:E; try done. intros E'.
  destruct (Hm _ _ _ E) as (bs & l & Hc & -> & HP).
  destruct (Hk _ _ HP _ _ _ E') as (bs' & l' & Hc' & -> & HQ).
  exists (bs ++ bs'), l'. rewrite (cur_rest_skip_app _ _ _ Hc) in Hc'. subst l.
  by rewrite <-app_assoc, cur_skip_skip, length_app.
Qed.

Lemma yields_weaken {A} (m : reader B A) (P Q : A -> list u8 -> Prop) :
  yields m P -> (forall a bs, P a bs -> Q a bs) -> yields m Q.
Proof.
  intros Hm HPQ c a c' E. destruct (Hm _ _ _ E) as (bs & l & ? & ? & ?). eauto 10.
Qed.

Lemma yields_fail {A} e P : yields (fail (A:=A) e) P.
Proof. by intros c a c'. Qed.

Lemma yields_unwrap {A} (r : io_result A) (P : A -> list u8 -> Prop) :
  (forall a, r = Ok a -> P a []) -> yields (unwrap r) P.
Proof. destruct r as [a|e]; intros H; [by apply (yields_ret a), H|by apply (yields_fail e)]. Qed.

#[export] Instance stable_ret {A} (a : A) : Stable (mret a).
Proof. intros c d l E. exists 0%nat. rewrite !cur_skip_0. split_and!; [lia|done..]. Qed.

#[export] Instance stable_fail {A} e : Stable (fail (A:=A) e).
Proof. done. Qed.

#[export] Instance stable_unwrap {A} (r : io_result A) : Stable (unwrap r).
Proof. destruct r as [a|e]; [exact (stable_ret a)|done]. Qed.

#[export] Instance stable_bind {A A'} (m : reader B A) (k : A -> reader B A') :
  Stable m -> (forall a, Stable (k a)) -> Stable (m ≫= k).
Proof.
  intros Hm Hk c d l E. unfold mbind, reader_bind. pose proof (Hm _ _ _ E) as H.
  destruct (m c) as [a c1| |e|]; [|done|by rewrite H|done].
  destruct H as (n & Hn & -> & ->).
  destruct (cur_rest_len_app _ _ _ _ E Hn) as (_ & _ & E').
  pose proof (Hk a _ _ _ E') as H'. destruct (k a (cur_skip n c)) as [a' c'| | |]; try done.
  destruct H' as (n' & Hn' & -> & ->). exists (n + n')%nat.
  rewrite cur_rest_skip, length_drop in Hn'. rewrite !cur_skip_skip. split_and!; [lia|done..].
Qed.
End calculus.

Section primitives.
Context {B : Type} `{!BytesCrate B, !BytesLaws B}.

Lemma reads_take {A} (f : Cursor B -> option (A * Cursor B)) n g bs l :
  (forall c, f c = take_from n g c) -> length bs = n -> reads (need f) bs (g bs) l.
Proof. intros Hf <- c E. unfold need. by rewrite Hf, (take_from_app _ _ _ bs l). Qed.

Lemma yields_take {A} (f : Cursor B -> option (A * Cursor B)) n g :
  (forall c, f c = take_from n g c) ->
  yields (need f) (fun a bs => length bs = n /\ a = g bs).
Proof.
  intros Hf c a c'. unfold need. rewrite Hf.
  destruct (take_from n g c) as [[a1 c1]|] eqn:E; [|done]. intros [= -> ->].
  apply take_from_inv in E as (bs & l & ? & <- & -> & ->). eauto 10.
Qed.

Lemma stable_take {A} (f : Cursor B -> option (A * Cursor B)) n g :
  (forall c, f c = take_from n g c) -> Stable (need f).
Proof.
  intros Hf c d l E. unfold need. rewrite !Hf. unfold take_from.
  destruct (decide (n <= length (cur_rest c))%nat) as [Hn|]; [|done].
  destruct (cur_rest_len_app _ _ _ _ E Hn) as (? & -> & _). rewrite decide_True by done. eauto.
Qed.

Lemma reads_u8 x l : reads (need try_get_u8) [x] x l.
Proof. exact (reads_take _ 1 _ [x] l try_get_u8_rest eq_refl). Qed.

Lemma reads_u16 z l : is_u16 z -> reads (need try_get_u16) (be_bytes 2 z) z l.
Proof.
  intros Hz. rewrite <-(of_be_bytes 2 z) at 2 by exact Hz.
  apply (reads_take _ 2 _ _ l try_get_u16_rest), length_be_bytes.
Qed.

Lemma reads_u32 z l : is_u32 z -> reads (need try_get_u32) (be_bytes 4 z) z l.
Proof.
  intros Hz. rewrite <-(of_be_bytes 4 z) at 2 by exact Hz.
  apply (reads_take _ 4 _ _ l try_get_u32_rest), length_be_bytes.
Qed.

Lemma reads_must_copy bs l : reads (must (copy_to_slice (length bs))) bs bs l.
Proof.
  intros c E. unfold must.
  by rewrite copy_to_slice_rest, (take_from_app _ _ _ bs l).
Qed.

Lemma reads_remaining n l : (n <= length l)%nat -> reads (need_remaining n) [] tt l.
Proof.
  intros Hn c E. unfold need_remaining. rewrite remaining_rest, E, cur_skip_0.
  by rewrite decide_False by (cbn; lia).
Qed.

Lemma yields_u8 : yields (need try_get_u8) (fun x bs => bs = [x]).
Proof.
  eapply yields_weaken; [exact (yields_take _ _ _ try_get_u8_rest)|].
  by intros x [|y [|]] [? ->].
Qed.

Lemma yields_u16 : yields (need try_get_u16) (fun z bs => is_u16 z /\ bs = be_bytes 2 z).
Proof.
  eapply yields_weaken; [exact (yields_take _ _ _ try_get_u16_rest)|].
  intros z bs [Hl ->]. rewrite <-Hl, be_bytes_of_be at 1. auto with tcpuart.
Qed.

Lemma yields_u32 : yields (need try_get_u32) (fun z bs => is_u32 z /\ bs = be_bytes 4 z).
Proof.
  eapply yields_weaken; [exact (yields_take _ _ _ try_get_u32_rest)|].
  intros z bs [Hl ->]. rewrite <-Hl, be_bytes_of_be at 1. auto with tcpuart.
Qed.

Lemma yields_must_copy n :
  yields (must (copy_to_slice n)) (fun a bs => length bs = n /\ a = bs).
Proof.
  intros c a c'. unfold must. rewrite copy_to_slice_rest.
  destruct (take_from _ _ c) as [[a1 c1]|] eqn:E; [|done]. intros [= -> ->].
  apply take_from_inv in E as (bs & l & ? & <- & -> & ->). eauto 10.
Qed.

Lemma yields_remaining n : yields (need_remaining n) (fun _ bs => bs = []).
Proof.
  intros c a c'. unfold need_remaining. case_decide; [done|]. intros [= <- <-].
  exists [], (cur_rest c). by rewrite cur_skip_0.
Qed.

#[export] Instance stable_u8 : Stable (need try_get_u8).
Proof. exact (stable_take _ _ _ try_get_u8_rest). Qed.
#[export] Instance stable_u16 : Stable (need try_get_u16).
Proof. exact (stable_take _ _ _ try_get_u16_rest). Qed.
#[export] Instance stable_u32 : Stable (need try_get_u32).
Proof. exact (stable_take _ _ _ try_get_u32_rest). Qed.

#[export] Instance stable_must_copy n : Stable (must (copy_to_slice n)).
Proof.
  intros c d l E. unfold must. rewrite !copy_to_slice_rest. unfold take_from.
  destruct (decide (n <= length (cur_rest c))%nat) as [Hn|]; [|done].
  destruct (cur_rest_len_app _ _ _ _ E Hn) as (? & -> & _). rewrite decide_True by done. eauto.
Qed.

#[export] Instance stable_remaining n : Stable (need_remaining n).
Proof.
  intros c d l E. unfold need_remaining. rewrite !remaining_rest.
  destruct (decide (length (cur_rest c) < n)%nat); [done|].
  rewrite decide_False by (rewrite E, length_app; lia).
  exists 0%nat. rewrite !cur_skip_0. split_and!; [lia|done..].
Qed.
End primitives.

(** ** Running a decoder *)

(** A body that never panics reads within the buffer, so [run_decoder] does
    not panic either. *)
Definition no_panic {B A} (m : reader B A) : Prop := forall c, m c <> Panic.

Section run.
Context {B : Type} `{!BytesCrate B, !BytesLaws B} {A : Type}.
Implicit Types (body : reader B A) (src : B).

Lemma advance_app n bs l src :
  as_ref src = bs ++ l -> length bs = n -> exists src', advance n src = Some src' /\ as_ref src' = l.
Proof.
  intros E <-. pose proof (advance_as_ref (length bs) src) as H.
  rewrite decide_True in H by (rewrite E, length_app; lia).
  destruct (advance _ src) as [src'|]; [|done]. injection H as H.
  exists src'. by rewrite H, E, drop_app_length.
Qed.

Lemma run_reads body bs a l src :
  reads body bs a l -> as_ref src = bs ++ l ->
  exists src', run_decoder body src = Done (Ok (Some a), src') /\ as_ref src' = l.
Proof.
  intros Hb E. unfold run_decoder. rewrite (Hb (mkCursor src 0)) by exact E. cbn.
  destruct (advance_app _ _ _ _ E eq_refl) as (src' & -> & ?). eauto.
Qed.

Lemma run_yields body P a src src' :
  yields body P -> run_decoder body src = Done (Ok (Some a), src') ->
  exists bs, as_ref src = bs ++ as_ref src' /\ P a bs.
Proof.
  intros Hb. unfold run_decoder. destruct (body _) as [a1 c| | |] eqn:E; try done.
  destruct (Hb _ _ _ E) as (bs & l & Hc & -> & HP). cbn.
  destruct (advance_app (length bs) bs l src Hc eq_refl) as (s' & -> & <-).
  intros [= <- <-]. eauto.
Qed.

Lemma run_total body P src :
  yields body P -> no_panic body -> run_decoder body src <> Panicked.
Proof.
  intros Hb Hn. unfold run_decoder. pose proof (Hn (mkCursor src 0)).
  destruct (body _) as [a1 c| | |] eqn:E; try done.
  destruct (Hb _ _ _ E) as (bs & l & Hc & -> & _). cbn.
  destruct (advance_app (length bs) bs l src Hc eq_refl) as (s' & -> & _). done.
Qed.

(** Unless an item comes out, the buffer is left as it was. *)
Lemma run_keeps body r src src' :
  run_decoder body src = Done (r, src') -> (forall a, r <> Ok (Some a)) -> src' = src.
Proof.
  unfold run_decoder. intros H Hr. repeat case_match; simplify_eq; try done.
  by destruct (Hr _ eq_refl).
Qed.

Lemma run_stable_item body a src src1 src' l :
  Stable body -> as_ref src1 = as_ref src ++ l ->
  run_decoder body src = Done (Ok (Some a), src') ->
  exists src1', run_decoder body src1 = Done (Ok (Some a), src1') /\
    as_ref src1' = as_ref src' ++ l.
Proof.
  intros Hb E. unfold run_decoder.
  pose proof (Hb (mkCursor src 0) (mkCursor src1 0) l E) as H.
  destruct (body (mkCursor src 0)) as [a1 c| | |]; try done.
  destruct H as (n & Hn & -> & ->). change (n <= length (as_ref src))%nat in Hn. cbn.
  rewrite <-(take_drop n (as_ref src)), <-app_assoc in E.
  assert (length (take n (as_ref src)) = n) as Hl by (rewrite length_take; lia).
  destruct (advance_app n _ _ _ E Hl) as (s1 & -> & Hs1).
  destruct (advance_app n _ _ src (eq_sym (take_drop n _)) Hl) as (s0 & -> & Hs0).
  intros [= <- <-]. exists s1. by rewrite Hs1, Hs0.
Qed.

Lemma run_stable_err body e src src1 l s :
  Stable body -> as_ref src1 = as_ref src ++ l ->
  run_decoder body src = Done (Err e, s) -> run_decoder body src1 = Done (Err e, src1).
Proof.
  intros Hb E. unfold run_decoder.
  pose proof (Hb (mkCursor src 0) (mkCursor src1 0) l E) as H.
  destruct (body (mkCursor src 0)) as [a1 c| | |] eqn:?; try done; [by case_match|].
  intros [= <- <-]. by rewrite H.
Qed.
End run.

(** ** Reference grammars *)

(** What a grammar on plain byte lists says of an input: an item and the bytes
    after it, not yet decidable, or malformed. *)
Inductive parsed (A : Type) := Parsed (a : A) (rest : list u8) | Incomplete | Malformed (e : io_error).
Arguments Parsed {A} a rest.
Arguments Incomplete {A}.
Arguments Malformed {A} e.

Section grammars.
Context {B : Type} `{!BytesCrate B} {A : Type}.

(** [m] implements a grammar when it agrees with it on every input. *)
Definition implements (m : reader B A) (spec : list u8 -> parsed A) : Prop := forall c,
  match spec (cur_rest c) with
  | Parsed a rest => exists bs, cur_rest c = bs ++ rest /\ m c = Next a (cur_skip (length bs) c)
  | Incomplete => m c = ReturnNone
  | Malformed e => m c = ReturnErr e
  end.

Lemma implements_no_panic m spec : implements m spec -> no_panic m.
Proof.
  intros Hm c E. pose proof (Hm c) as H. rewrite E in H.
  destruct (spec _); [by destruct H as (? & ? & ?)|done..].
Qed.

(** What [run_decoder] does, from what the grammar says of the buffer. *)
Definition decodes_as (run : B -> outcome (io_result (option A) * B))
    (spec : list u8 -> parsed A) : Prop := forall src,
  match spec (as_ref src) with
  | Parsed a rest => exists src', run src = Done (Ok (Some a), src') /\ as_ref src' = rest
  | Incomplete => run src = Done (Ok None, src)
  | Malformed e => run src = Done (Err e, src)
  end.

Lemma run_implements `{!BytesLaws B} m spec :
  implements m spec -> decodes_as (run_decoder m) spec.
Proof.
  intros Hm src. pose proof (Hm (mkCursor src 0)) as H. rewrite cur_rest_start in H.
  unfold run_decoder. destruct (spec _) as [a rest| |e]; [|by rewrite H..].
  destruct H as (bs & E & ->). cbn. destruct (advance_app _ _ _ _ E eq_refl) as (s & -> & ?). eauto.
Qed.

Lemma need_on {A'} (f : Cursor B -> option (A' * Cursor B)) n g c l :
  (forall c, f c = take_from n g c) -> cur_rest c = l ->
  need f c = if (n <=? length l)%nat then Next (g (take n l)) (cur_skip n c) else ReturnNone.
Proof.
  intros Hf <-. unfold need. rewrite Hf. unfold take_from.
  destruct (Nat.leb_spec n (length (cur_rest c))).
  - by rewrite decide_True by lia.
  - by rewrite decide_False by lia.
Qed.
End grammars.

Section evaluation.
Context {B : Type} `{!BytesCrate B, !BytesLaws B}.

Lemma need_u8_on (c : Cursor B) l : cur_rest c = l ->
  need try_get_u8 c = if (1 <=? length l)%nat then Next (hd x00 (take 1 l)) (cur_skip 1 c) else ReturnNone.
Proof. exact (need_on _ _ _ c l try_get_u8_rest). Qed.
Lemma need_u16_on (c : Cursor B) l : cur_rest c = l ->
  need try_get_u16 c = if (2 <=? length l)%nat then Next (of_be (take 2 l)) (cur_skip 2 c) else ReturnNone.
Proof. exact (need_on _ _ _ c l try_get_u16_rest). Qed.
Lemma need_u32_on (c : Cursor B) l : cur_rest c = l ->
  need try_get_u32 c = if (4 <=? length l)%nat then Next (of_be (take 4 l)) (cur_skip 4 c) else ReturnNone.
Proof. exact (need_on _ _ _ c l try_get_u32_rest). Qed.

Lemma cur_rest_skip_on (c : Cursor B) n l : cur_rest c = l -> cur_rest (cur_skip n c) = drop n l.
Proof. intros <-. apply cur_rest_skip. Qed.
End evaluation.

(** Runs one read on a cursor whose remaining bytes are known, and records
    what remains after it. *)
Ltac read_after c H :=
  cbn -[u8_val of_be cur_skip];
  lazymatch goal with
  | |- context [cur_skip ?n c] =>
      let H' := fresh "Hrest" in
      pose proof (cur_rest_skip_on c n _ H) as H'; cbn [drop] in H'; rewrite ?drop_0 in H'
  | _ => idtac
  end.
Ltac read_step :=
  unfold mbind, reader_bind;
  match goal with
  | H : cur_rest ?c = ?l |- context [need try_get_u8 ?c] =>
      rewrite (need_u8_on c l H); read_after c H
  | H : cur_rest ?c = ?l |- context [need try_get_u16 ?c] =>
      rewrite (need_u16_on c l H); read_after c H
  | H : cur_rest ?c = ?l |- context [need try_get_u32 ?c] =>
      rewrite (need_u32_on c l H); read_after c H
  end.

(** ** What a writer writes *)

Section writers.
Context {B : Type} `{!BytesCrate B, !BytesLaws B}.

(** [w] appends [bs] and succeeds; [w] appends [bs] and fails with [e]. *)
Definition writes (w : writer B unit) (bs : list u8) : Prop :=
  forall b, exists b', w b = (Ok tt, b') /\ as_ref b' = as_ref b ++ bs.
Definition refuses (w : writer B unit) (e : io_error) (bs : list u8) : Prop :=
  forall b, exists b', w b = (Err e, b') /\ as_ref b' = as_ref b ++ bs.

Lemma writes_ret : writes (mret tt) [].
Proof. intros b. exists b. by rewrite app_nil_r. Qed.

Lemma writes_bind (w w' : writer B unit) bs bs' :
  writes w bs -> writes w' bs' -> writes (w ;; w') (bs ++ bs').
Proof.
  intros Hw Hw' b. destruct (Hw b) as (b1 & E1 & H1). destruct (Hw' b1) as (b2 & E2 & H2).
  exists b2. unfold mbind, writer_bind. by rewrite E1, E2, H2, H1, app_assoc.
Qed.

Lemma refuses_bind_l (w w' : writer B unit) e bs : refuses w e bs -> refuses (w ;; w') e bs.
Proof.
  intros Hw b. destruct (Hw b) as (b1 & E1 & H1). exists b1.
  unfold mbind, writer_bind. by rewrite E1.
Qed.

Lemma refuses_bind_r (w w' : writer B unit) e bs bs' :
  writes w bs -> refuses w' e bs' -> refuses (w ;; w') e (bs ++ bs').
Proof.
  intros Hw Hw' b. destruct (Hw b) as (b1 & E1 & H1). destruct (Hw' b1) as (b2 & E2 & H2).
  exists b2. unfold mbind, writer_bind. by rewrite E1, E2, H2, H1, app_assoc.
Qed.

Lemma refuses_fail e : refuses (wfail e) e [].
Proof. intros b. exists b. by rewrite app_nil_r. Qed.

Lemma writes_reserve n : writes (put (reserve n)) [].
Proof. intros b. eexists. by rewrite as_ref_reserve, app_nil_r. Qed.
Lemma writes_put_u8 x : writes (put (put_u8 x)) [x].
Proof. intros b. eexists. by rewrite as_ref_put_u8. Qed.
Lemma writes_put_u16 z : writes (put (put_u16 z)) (be_bytes 2 z).
Proof. intros b. eexists. by rewrite as_ref_put_u16. Qed.
Lemma writes_put_u32 z : writes (put (put_u32 z)) (be_bytes 4 z).
Proof. intros b. eexists. by rewrite as_ref_put_u32. Qed.
Lemma writes_put_slice bs : writes (put (put_slice bs)) bs.
Proof. intros b. eexists. by rewrite as_ref_put_slice. Qed.

(** What is written is a function of the writer: a write cannot also be a
    refusal. *)
Lemma writes_refuses (w : writer B unit) bs e bs' (b : B) : writes w bs -> refuses w e bs' -> False.
Proof.
  intros Hw Hr. destruct (Hw b) as (b1 & E1 & _), (Hr b) as (b2 & E2 & _).
  rewrite E1 in E2. discriminate.
Qed.

Lemma writes_eq w bs bs' : bs = bs' -> writes w bs -> writes w bs'.
Proof. by intros ->. Qed.
End writers.

#[export] Hint Resolve writes_ret writes_bind writes_reserve writes_put_u8 writes_put_u16
  writes_put_u32 writes_put_slice : tcpuart.
#[export] Hint Resolve reads_ret reads_u8 reads_u16 reads_u32 : tcpuart.
