(* ===== verification/Framing.v ===== *)
(** * Decoding a byte stream

    The framed readers of the daemon and the CLI hand a [Decoder] the bytes that
    have arrived so far, again and again, and the network may cut the stream
    anywhere.  [StreamDecoder] is what such a reader relies on; every decoder of
    [common] is an instance of it.  [feed] is the discipline the [Decoder]
    trait documents: call [decode] until it asks for more bytes or fails.  The
    theorems hold for every instance: the items read depend only on the bytes
    received, never on how they were cut into chunks, and one call per byte is
    enough to read them all. *)
From S2P Require Import Prelude BytesApi Codec.
From stdpp Require Import base numbers list strings.
#[local] Open Scope nat_scope.

(** ** The interface *)

Class StreamDecoder {B A} `{!BytesCrate B}
    (decode : B -> outcome (io_result (option A) * B)) : Prop := {
  sd_total src : decode src <> Panicked;
  sd_keeps src r src' :
    decode src = Done (r, src') -> (forall a, r <> Ok (Some a)) -> src' = src;
  sd_progress src a src' :
    decode src = Done (Ok (Some a), src') -> length (as_ref src') < length (as_ref src);
  sd_item src src1 l a src' :
    as_ref src1 = as_ref src ++ l -> decode src = Done (Ok (Some a), src') ->
    exists src1', decode src1 = Done (Ok (Some a), src1') /\ as_ref src1' = as_ref src' ++ l;
  sd_error src src1 l e s :
    as_ref src1 = as_ref src ++ l -> decode src = Done (Err e, s) ->
    decode src1 = Done (Err e, src1);
}.

(** A decoder in the common frame is a stream decoder when its body is stable,
    never panics and never reads an item from nothing. *)
Lemma run_stream_decoder {B A} `{!BytesCrate B, !BytesLaws B} (body : reader B A)
    (P : A -> list u8 -> Prop) :
  Stable body -> no_panic body -> yields body P -> (forall a, ~ P a []) ->
  StreamDecoder (run_decoder body).
Proof.
  intros Hst Hnp Hy HP. split.
  - intros src. by eapply run_total.
  - intros src r src'. apply run_keeps.
  - intros src a src' E. destruct (run_yields _ _ _ _ _ Hy E) as (bs & -> & H).
    rewrite length_app. destruct bs; [by destruct (HP a)|]. cbn. lia.
  - intros src src1 l a src' E H. by eapply run_stable_item.
  - intros src src1 l e s E H. by eapply run_stable_err.
Qed.

(** ** Feeding a decoder *)

Record receiver (B A : Type) := mkReceiver {
  rx_buffer : B;
  rx_items : list A;
  rx_error : option io_error;
}.
Arguments mkReceiver {B A} _ _ _.
Arguments rx_buffer {B A} _.
Arguments rx_items {B A} _.
Arguments rx_error {B A} _.

Section feeding.
Context {B A : Type} `{!BytesCrate B}.
Variable decode : B -> outcome (io_result (option A) * B).

(** Calls [decode] until it has no item to give; at most [fuel] items. *)
Fixpoint drain (fuel : nat) (src : B) : list A * option io_error * B :=
  match fuel with
  | O => ([], None, src)
  | S fuel =>
      match decode src with
      | Done (Ok (Some a), src') =>
          let '(items, e, rest) := drain fuel src' in (a :: items, e, rest)
      | Done (Ok None, src') => ([], None, src')
      | Done (Err e, src') => ([], Some e, src')
      | Panicked => ([], None, src)
      end
  end.

(** A chunk arrives.  A stream that has failed stays failed. *)
Definition feed (rx : receiver B A) (chunk : list u8) : receiver B A :=
  match rx_error rx with
  | Some _ => rx
  | None =>
      let buf := put_slice chunk (rx_buffer rx) in
      let '(items, e, rest) := drain (S (length (as_ref buf))) buf in
      mkReceiver rest (rx_items rx ++ items) e
  end.

Definition feed_all (buf : B) (chunks : list (list u8)) : receiver B A :=
  foldl feed (mkReceiver buf [] None) chunks.

(** ** What a stream holds *)

(** [drained l items e rest]: read to the end, the bytes [l] give [items],
    then the error [e] if any, and leave [rest] unread. *)
Inductive drained : list u8 -> list A -> option io_error -> list u8 -> Prop :=
  | drained_more src s :
      decode src = Done (Ok None, s) -> drained (as_ref src) [] None (as_ref src)
  | drained_error src e s :
      decode src = Done (Err e, s) -> drained (as_ref src) [] (Some e) (as_ref src)
  | drained_item src a src' items e rest :
      decode src = Done (Ok (Some a), src') -> drained (as_ref src') items e rest ->
      drained (as_ref src) (a :: items) e rest.

Context `{!BytesLaws B, !StreamDecoder decode}.

(** [decode] sees only the contents of the buffer. *)
Lemma decode_contents src src1 r s :
  as_ref src1 = as_ref src -> decode src = Done (r, s) ->
  exists s1, decode src1 = Done (r, s1) /\ as_ref s1 = as_ref s.
Proof.
  intros E H. assert (as_ref src1 = as_ref src ++ []) as E' by by rewrite app_nil_r.
  assert (as_ref src = as_ref src1 ++ []) as E'' by by rewrite app_nil_r.
  destruct r as [[a|]|e].
  - destruct (sd_item _ _ _ _ _ E' H) as (s1 & H1 & Hs). exists s1.
    by rewrite Hs, app_nil_r.
  - pose proof (sd_keeps _ _ _ H ltac:(done)) as ->.
    destruct (decode src1) as [[[[a|]|e] s1]|] eqn:H1.
    + destruct (sd_item _ _ _ _ _ E'' H1) as (? & H2 & _). congruence.
    + pose proof (sd_keeps _ _ _ H1 ltac:(done)) as ->. eauto.
    + pose proof (sd_error _ _ _ _ _ E'' H1). congruence.
    + by destruct (sd_total _ H1).
  - pose proof (sd_keeps _ _ _ H ltac:(done)) as ->. eauto using sd_error.
Qed.

Lemma drained_det l items e rest items' e' rest' :
  drained l items e rest -> drained l items' e' rest' ->
  items = items' /\ e = e' /\ rest = rest'.
Proof.
  intros H. revert items' e' rest'.
  induction H as [src s Hd|src e s Hd|src a src' items e rest Hd _ IH]; intros items' e' rest' H';
    inversion H' as [src1 s1 Hd1 Hc|src1 e1 s1 Hd1 Hc|src1 a1 s1 items1 e1 rest1 Hd1 Ht Hc]; subst;
    destruct (decode_contents _ _ _ _ (eq_sym Hc) Hd1) as (s2 & Hd2 & Hs2);
    rewrite Hd in Hd2; simplify_eq; try done.
  rewrite <-Hs2 in Ht. destruct (IH _ _ _ Ht) as (-> & -> & ->). done.
Qed.

(** Enough fuel reads the stream to the end. *)
Lemma drain_drained fuel src items e rest :
  length (as_ref src) < fuel -> drain fuel src = (items, e, rest) ->
  drained (as_ref src) items e (as_ref rest).
Proof.
  revert src items e rest. induction fuel as [|fuel IH]; intros src items e rest Hf; [lia|].
  cbn. destruct (decode src) as [[[[a|]|e1] s]|] eqn:Hd.
  - destruct (drain fuel s) as [[items1 e1] rest1] eqn:Hr. intros [= <- <- <-].
    eapply drained_item; [done|]. apply IH; [|done].
    pose proof (sd_progress _ _ _ Hd). lia.
  - intros [= <- <- <-]. pose proof (sd_keeps _ _ _ Hd ltac:(done)) as ->. by eapply drained_more.
  - intros [= <- <- <-]. pose proof (sd_keeps _ _ _ Hd ltac:(done)) as ->. by eapply drained_error.
  - by destruct (sd_total _ Hd).
Qed.

Lemma drained_app_more l x items rest items' e rest' :
  drained l items None rest -> drained (rest ++ x) items' e rest' ->
  drained (l ++ x) (items ++ items') e rest'.
Proof.
  intros H H'. remember None as o eqn:Ho.
  induction H as [src s Hd|src e0 s Hd|src a src' items e0 rest Hd _ IH]; [done..|].
  pose proof (as_ref_put_slice x src) as E.
  destruct (sd_item _ _ _ _ _ E Hd) as (s1 & Hd1 & Hs1). rewrite <-E. cbn.
  eapply drained_item; [done|]. rewrite Hs1. by apply IH.
Qed.

Lemma drained_app_error l x items e rest :
  drained l items (Some e) rest -> exists rest', drained (l ++ x) items (Some e) rest'.
Proof.
  intros H. remember (Some e) as o eqn:Ho.
  induction H as [src s Hd|src e0 s Hd|src a src' items e0 rest Hd _ IH]; [done|..];
    pose proof (as_ref_put_slice x src) as E; rewrite <-E.
  - injection Ho as ->. eexists. exact (drained_error _ _ _ (sd_error _ _ _ _ _ E Hd)).
  - destruct (sd_item _ _ _ _ _ E Hd) as (s1 & Hd1 & Hs1).
    destruct (IH Ho) as (rest' & H'). exists rest'. eapply drained_item; [done|]. by rewrite Hs1.
Qed.

(** After any chunks, the receiver holds what the bytes so far hold. *)
Lemma feed_all_drained buf chunks :
  as_ref buf = [] ->
  let rx := feed_all buf chunks in
  match rx_error rx with
  | None => chunks <> [] -> drained (concat chunks) (rx_items rx) None (as_ref (rx_buffer rx))
  | Some e => exists rest, drained (concat chunks) (rx_items rx) (Some e) rest
  end /\ (chunks = [] -> rx = mkReceiver buf [] None).
Proof.
  intros Hbuf. induction chunks as [|chunk chunks IH] using rev_ind; [by split; cbn; intros|].
  split; [|by intros []%app_nil]. cbn zeta in *. unfold feed_all in *.
  rewrite foldl_snoc, concat_app. cbn [concat]. rewrite app_nil_r.
  set (rx := foldl feed _ chunks) in *. unfold feed.
  destruct IH as [IH1 IH2]. destruct (rx_error rx) as [e|] eqn:He.
  - rewrite He. destruct IH1 as (rest & H). by eapply drained_app_error.
  - set (b := put_slice chunk (rx_buffer rx)). cbn zeta.
    destruct (drain _ b) as [[items e] rest] eqn:Hr. cbn [rx_error rx_items rx_buffer].
    apply drain_drained in Hr; [|lia]. unfold b in Hr. rewrite as_ref_put_slice in Hr.
    assert (drained (concat chunks ++ chunk) (rx_items rx ++ items) e (as_ref rest)).
    { destruct (decide (chunks = [])) as [->|Hne].
      - rewrite IH2 in Hr |- * by done. cbn in *. by rewrite Hbuf in Hr.
      - eapply drained_app_more; [by apply IH1|done]. }
    destruct e; eauto.
Qed.
End feeding.

Section streams.
Context {B A : Type} `{!BytesCrate B, !BytesLaws B}.
Variable decode : B -> outcome (io_result (option A) * B).
Context `{!StreamDecoder decode}.

(** The items and the error depend on the bytes, not on the chunks. *)
Lemma feed_all_chunking buf chunks1 chunks2 :
  as_ref buf = [] -> chunks1 <> [] -> chunks2 <> [] -> concat chunks1 = concat chunks2 ->
  let rx1 := feed_all decode buf chunks1 in let rx2 := feed_all decode buf chunks2 in
  rx_items rx1 = rx_items rx2 /\ rx_error rx1 = rx_error rx2 /\
  (rx_error rx1 = None -> as_ref (rx_buffer rx1) = as_ref (rx_buffer rx2)).
Proof.
  intros Hbuf Hne1 Hne2 E rx1 rx2.
  destruct (feed_all_drained decode buf chunks1 Hbuf) as [H1 _].
  destruct (feed_all_drained decode buf chunks2 Hbuf) as [H2 _].
  fold rx1 in H1. fold rx2 in H2. rewrite E in H1.
  assert (forall o items1 rest1 items2 rest2 e2,
    drained decode (concat chunks2) items1 o rest1 ->
    drained decode (concat chunks2) items2 e2 rest2 ->
    items1 = items2 /\ o = e2 /\ rest1 = rest2) as Hdet by (intros; by eapply drained_det).
  destruct (rx_error rx1) as [e1|], (rx_error rx2) as [e2|].
  - destruct H1 as (? & H1), H2 as (? & H2). by destruct (Hdet _ _ _ _ _ _ H1 H2) as (-> & -> & _).
  - destruct H1 as (? & H1). by destruct (Hdet _ _ _ _ _ _ H1 (H2 Hne2)) as (_ & ? & _).
  - destruct H2 as (? & H2). by destruct (Hdet _ _ _ _ _ _ (H1 Hne1) H2) as (_ & ? & _).
  - by destruct (Hdet _ _ _ _ _ _ (H1 Hne1) (H2 Hne2)) as (-> & _ & ->).
Qed.

(** [begins l items rest]: the bytes [l] begin with [items], then [rest] comes;
    what a reader that takes one item at a time has read so far. *)
Inductive begins : list u8 -> list A -> list u8 -> Prop :=
  | begins_nil l : begins l [] l
  | begins_item src a src' items rest :
      decode src = Done (Ok (Some a), src') -> begins (as_ref src') items rest ->
      begins (as_ref src) (a :: items) rest.

Lemma begins_more l items rest x : begins l items rest -> begins (l ++ x) items (rest ++ x).
Proof.
  induction 1 as [l|src a src' items rest Hd _ IH]; [apply begins_nil|].
  pose proof (as_ref_put_slice x src) as E. destruct (sd_item _ _ _ _ _ E Hd) as (s1 & Hd1 & Hs1).
  rewrite <-E. eapply begins_item; [done|]. by rewrite Hs1.
Qed.

Lemma begins_snoc l items src a src' :
  begins l items (as_ref src) -> decode src = Done (Ok (Some a), src') -> begins l (items ++ [a]) (as_ref src').
Proof.
  intros H Hd. remember (as_ref src) as rest eqn:E. induction H as [l|src1 a1 src1' items rest Hd1 _ IH].
  - subst. eapply begins_item; [done|apply begins_nil].
  - eapply begins_item; [done|by apply IH].
Qed.

Lemma begins_drained l items rest items' e rest' :
  begins l items rest -> drained decode l items' e rest' -> items `prefix_of` items'.
Proof.
  intros H. revert items' e rest'. induction H as [l|src a src' items rest Hd _ IH]; intros items' e rest' H'.
  { apply prefix_nil. }
  inversion H' as [src1 s1 Hd1 Hc|src1 e1 s1 Hd1 Hc|src1 a1 s1 items1 e1 rest1 Hd1 Ht Hc]; subst;
    destruct (decode_contents decode _ _ _ _ (eq_sym Hc) Hd1) as (s2 & Hd2 & Hs2); rewrite Hd in Hd2; simplify_eq.
  rewrite <-Hs2 in Ht. by apply prefix_cons, (IH _ _ _ Ht).
Qed.

(** So the receiver of all the bytes at once reads them first. *)
Lemma begins_feed buf l items rest :
  as_ref buf = [] -> begins l items rest -> items `prefix_of` rx_items (feed_all decode buf [l]).
Proof.
  intros Hb H. destruct (feed_all_drained decode buf [l] Hb) as [Hf _]. cbn zeta in Hf.
  destruct (rx_error _); [destruct Hf as (r & Hf)|specialize (Hf ltac:(done))];
    cbn [concat] in Hf; rewrite app_nil_r in Hf; by eapply begins_drained.
Qed.

(** Frames one after the other, then bytes that are not yet a frame, are
    read as exactly those frames, whatever the chunks. *)
Lemma feed_all_frames {M} (wire : M -> list u8) (item : M -> A) (frames : list M) tail buf chunks :
  (forall m, m ∈ frames -> forall src l, as_ref src = wire m ++ l ->
    exists src', decode src = Done (Ok (Some (item m)), src') /\ as_ref src' = l) ->
  (forall src, as_ref src = tail -> exists s, decode src = Done (Ok None, s)) ->
  as_ref buf = [] -> chunks <> [] -> concat chunks = concat (map wire frames) ++ tail ->
  let rx := feed_all decode buf chunks in
  rx_items rx = map item frames /\ rx_error rx = None /\ as_ref (rx_buffer rx) = tail.
Proof.
  intros Hf Ht Hbuf Hne E rx.
  assert (forall src, as_ref src = concat (map wire frames) ++ tail ->
    drained decode (as_ref src) (map item frames) None tail) as Hd.
  { clear E Hne rx. induction frames as [|m frames IH]; intros src Hs.
    - destruct (Ht src Hs) as (s & Hd). cbn in *. rewrite <-Hs. by eapply drained_more.
    - cbn in Hs. rewrite <-app_assoc in Hs.
      destruct (Hf m ltac:(left) src _ Hs) as (s' & Hd & Hs').
      eapply drained_item; [done|]. apply IH; [|done]. intros m' Hm'. apply Hf. by right. }
  destruct (feed_all_drained decode buf chunks Hbuf) as [H _]. fold rx in H.
  specialize (Hd (put_slice (concat chunks) buf)).
  rewrite as_ref_put_slice, Hbuf in Hd. specialize (Hd E).
  destruct (rx_error rx) as [e|].
  - destruct H as (rest & H). destruct (drained_det _ _ _ _ _ _ _ _ H Hd) as (_ & ? & _). done.
  - destruct (drained_det _ _ _ _ _ _ _ _ (H Hne) Hd) as (-> & _ & ->). done.
Qed.
End streams.
