(* ===== verification/DeviceMsg.v ===== *)
(** * The device protocol (common/src/msg.rs)

    The messages the daemon and the ESP32 exchange, and [DeviceCodec], their
    binary framing: a kind byte, a length byte and a body.  [device_spec] is the
    reference grammar on plain byte lists that [device_decode] is shown to
    implement.  [Data] carries a fixed array of which only a prefix is
    meaningful, so messages are compared by [≡], which ignores the padding. *)
From S2P Require Import Prelude BytesApi Codec Framing.
From stdpp Require Import base numbers list strings.
#[local] Open Scope Z_scope.

(** ** Data *)

Definition MAX_MESSAGE_LEN : nat := 255.

Inductive DeviceControlRequest := DevReset.

Inductive DeviceControlResponse := DevOk | DevNotSupported.

Inductive DeviceMessage :=
  | Data (len : u8) (data : list u8)
  | Config (baudrate : Z) (data_bits stop_bits parity : u8) (hw_flow_ctl : bool)
  | ControlReq (req : DeviceControlRequest)
  | ControlRes (res : DeviceControlResponse).

#[export] Instance DeviceControlRequest_eq_dec : EqDecision DeviceControlRequest.
Proof. solve_decision. Defined.
#[export] Instance DeviceControlResponse_eq_dec : EqDecision DeviceControlResponse.
Proof. solve_decision. Defined.
#[export] Instance DeviceMessage_eq_dec : EqDecision DeviceMessage.
Proof. solve_decision. Defined.

(** The discriminants of the [repr(u8)] enums, and [TryFrom<u8>]. *)
Definition control_request_u8 (r : DeviceControlRequest) : u8 :=
  match r with DevReset => x01 end.
Definition control_response_u8 (r : DeviceControlResponse) : u8 :=
  match r with DevOk => x01 | DevNotSupported => x02 end.

Definition control_request_try_from (value : u8) : io_result DeviceControlRequest :=
  match u8_val value with
  | 1 => Ok DevReset
  | _ => Err (IoError InvalidData "Unknown control request")
  end.

Definition control_response_try_from (value : u8) : io_result DeviceControlResponse :=
  match u8_val value with
  | 1 => Ok DevOk
  | 2 => Ok DevNotSupported
  | _ => Err (IoError InvalidData "Unknown control response")
  end.

Definition device_kind (m : DeviceMessage) : u8 :=
  match m with
  | Data _ _ => x01
  | Config _ _ _ _ _ => x02
  | ControlReq _ => x03
  | ControlRes _ => x04
  end.

(** [*len as usize]. *)
Definition u8_usize (b : u8) : nat := Z.to_nat (u8_val b).

Definition data_size (m : DeviceMessage) : nat :=
  match m with
  | Data len _ => u8_usize len
  | Config _ _ _ _ _ => 8
  | ControlReq _ => 1
  | ControlRes _ => 1
  end.

(** [[0; MAX_MESSAGE_LEN]], and a slice copied over the front of an array. *)
Definition zero_array : list u8 := replicate MAX_MESSAGE_LEN x00.
Definition copy_prefix (src arr : list u8) : list u8 := src ++ drop (length src) arr.

(** [impl From<&[u8]> for DeviceMessage]. *)
Definition from_slice (buf : list u8) : DeviceMessage :=
  let len := Nat.min (length buf) MAX_MESSAGE_LEN in
  let arr := copy_prefix (take len buf) zero_array in
  Data (u8_of (Z.of_nat len)) arr.

#[global] Arguments zero_array : simpl never.

(** ** [DeviceCodec] *)

Section codec.
Context {B : Type} `{!BytesCrate B}.

Definition device_encode (item : DeviceMessage) : writer B unit :=
  put (reserve (2 + data_size item)) ;;
  put (put_u8 (device_kind item)) ;;
  put (put_u8 (u8_of (Z.of_nat (data_size item)))) ;;
  match item with
  | Data size data => put (put_slice (take (u8_usize size) data))
  | Config baudrate data_bits stop_bits parity hw_flow_ctl =>
      put (put_u32 baudrate) ;;
      put (put_u8 data_bits) ;;
      put (put_u8 stop_bits) ;;
      put (put_u8 parity) ;;
      put (put_u8 (bool_u8 hw_flow_ctl))
  | ControlReq req => put (put_u8 (control_request_u8 req))
  | ControlRes res => put (put_u8 (control_response_u8 res))
  end.

(** The [match kind] of [decode]. *)
Definition device_decode_item (kind data_len : u8) : reader B DeviceMessage :=
  match u8_val kind with
  | 1 =>
      data ← must (copy_to_slice (u8_usize data_len));
      mret (Data data_len (copy_prefix data zero_array))
  | 2 =>
      baudrate ← need try_get_u32;
      data_bits ← need try_get_u8;
      stop_bits ← need try_get_u8;
      parity ← need try_get_u8;
      hw_flow_ctl ← need try_get_u8;
      if bool_decide (1 < u8_val hw_flow_ctl)
      then fail (IoError InvalidData "Hardware flow control is not a bool")
      else mret (Config baudrate data_bits stop_bits parity (bool_decide (u8_val hw_flow_ctl <> 0)))
  | 3 =>
      req ← need try_get_u8;
      req ← unwrap (control_request_try_from req);
      mret (ControlReq req)
  | 4 =>
      res ← need try_get_u8;
      res ← unwrap (control_response_try_from res);
      mret (ControlRes res)
  | _ => fail (IoError InvalidData "Unknown message kind")
  end.

Definition device_decode_body : reader B DeviceMessage :=
  kind ← need try_get_u8;
  data_len ← need try_get_u8;
  need_remaining (u8_usize data_len) ;;
  device_decode_item kind data_len.

Definition device_decode (src : B) : outcome (io_result (option DeviceMessage) * B) :=
  run_decoder device_decode_body src.
End codec.

(** ** Specification *)

(** The meaningful part of a message, and equality up to padding. *)
Definition payload (m : DeviceMessage) : list u8 :=
  match m with
  | Data len data => take (u8_usize len) data
  | Config baudrate data_bits stop_bits parity hw =>
      be_bytes 4 baudrate ++ [data_bits; stop_bits; parity; bool_u8 hw]
  | ControlReq req => [control_request_u8 req]
  | ControlRes res => [control_response_u8 res]
  end.

Definition trimmed (m : DeviceMessage) : DeviceMessage :=
  match m with
  | Data len data => Data len (take (u8_usize len) data)
  | _ => m
  end.

#[export] Instance device_equiv : Equiv DeviceMessage := fun m1 m2 => trimmed m1 = trimmed m2.

(** A message as the types of its fields allow it. *)
Definition device_wf (m : DeviceMessage) : Prop :=
  match m with
  | Data _ data => length data = MAX_MESSAGE_LEN
  | Config baudrate _ _ _ _ => is_u32 baudrate
  | _ => True
  end.

(** The bytes of a frame. *)
Definition device_wire (m : DeviceMessage) : list u8 :=
  device_kind m :: u8_of (Z.of_nat (data_size m)) :: payload m.

(** The message with its padding zeroed. *)
Definition zero_padded (m : DeviceMessage) : DeviceMessage :=
  match m with
  | Data len data => Data len (copy_prefix (take (u8_usize len) data) zero_array)
  | _ => m
  end.

Definition device_spec_body (kind len : u8) (body : list u8) : parsed DeviceMessage :=
  match u8_val kind, body with
  | 1, _ => Parsed (Data len (copy_prefix (take (u8_usize len) body) zero_array))
              (drop (u8_usize len) body)
  | 2, b0 :: b1 :: b2 :: b3 :: d :: s :: p :: h :: rest =>
      if bool_decide (1 < u8_val h)
      then Malformed (IoError InvalidData "Hardware flow control is not a bool")
      else Parsed (Config (of_be [b0; b1; b2; b3]) d s p (bool_decide (u8_val h <> 0))) rest
  | 3, r :: rest =>
      match control_request_try_from r with Ok r => Parsed (ControlReq r) rest | Err e => Malformed e end
  | 4, r :: rest =>
      match control_response_try_from r with Ok r => Parsed (ControlRes r) rest | Err e => Malformed e end
  | 2, _ | 3, [] | 4, [] => Incomplete
  | _, _ => Malformed (IoError InvalidData "Unknown message kind")
  end.

(** The grammar of the device protocol. *)
Definition device_spec (l : list u8) : parsed DeviceMessage :=
  match l with
  | kind :: len :: body =>
      if decide (length body < u8_usize len)%nat then Incomplete
      else device_spec_body kind len body
  | _ => Incomplete
  end.

(** ** Lemmas *)

Lemma u8_usize_le b : (u8_usize b <= 255)%nat.
Proof. unfold u8_usize. pose proof (u8_val_range b). lia. Qed.

Lemma u8_usize_of n : (n <= 255)%nat -> u8_usize (u8_of (Z.of_nat n)) = n.
Proof. intros H. unfold u8_usize. rewrite u8_val_of, Z.mod_small; lia. Qed.

Lemma u8_of_usize b : u8_of (Z.of_nat (u8_usize b)) = b.
Proof. unfold u8_usize. pose proof (u8_val_range b). by rewrite Z2Nat.id, u8_of_val by lia. Qed.

Lemma length_copy_prefix l : (length l <= 255)%nat -> length (copy_prefix l zero_array) = 255%nat.
Proof.
  intros H. unfold copy_prefix, zero_array, MAX_MESSAGE_LEN.
  rewrite length_app, length_drop, length_replicate. lia.
Qed.

Lemma take_copy_prefix n l : length l = n -> take n (copy_prefix l zero_array) = l.
Proof. intros <-. apply take_app_length. Qed.

Lemma control_request_of_u8 r : control_request_try_from (control_request_u8 r) = Ok r.
Proof. by destruct r. Qed.
Lemma control_response_of_u8 r : control_response_try_from (control_response_u8 r) = Ok r.
Proof. by destruct r. Qed.

Lemma control_request_inv b r : control_request_try_from b = Ok r -> b = control_request_u8 r.
Proof.
  unfold control_request_try_from. intros H. apply u8_val_inj. destruct r.
  destruct (u8_val b) as [|p|p]; [done| |done]. by repeat (destruct p as [p|p|]; try done).
Qed.
Lemma control_response_inv b r : control_response_try_from b = Ok r -> b = control_response_u8 r.
Proof.
  unfold control_response_try_from. intros H. apply u8_val_inj.
  destruct r, (u8_val b) as [|p|p]; try done; by repeat (destruct p as [p|p|]; try done).
Qed.

Section implementation.
Context {B : Type} `{!BytesCrate B, !BytesLaws B}.

Lemma device_item_implements kind len :
  forall (c : Cursor B) body, cur_rest c = body -> (u8_usize len <= length body)%nat ->
  match device_spec_body kind len body with
  | Parsed a rest => exists bs, body = bs ++ rest /\
      device_decode_item kind len c = Next a (cur_skip (length bs) c)
  | Incomplete => device_decode_item kind len c = ReturnNone
  | Malformed e => device_decode_item kind len c = ReturnErr e
  end.
Proof.
  intros c body Hc Hlen. unfold device_spec_body, device_decode_item.
  destruct (u8_val kind) as [|p|p]; [done| |done].
  repeat (destruct p as [p|p|]; try done).
  - destruct body as [|r rest]; read_step; [done|]. unfold unwrap.
    destruct (control_request_try_from r); [by exists [r]|done].
  - destruct body as [|r rest]; read_step; [done|]. unfold unwrap.
    destruct (control_response_try_from r); [by exists [r]|done].
  - destruct body as [|b0 [|b1 [|b2 [|b3 [|d [|s [|p [|h rest]]]]]]]]; repeat read_step; try done.
    case_bool_decide; [done|]. exists [b0; b1; b2; b3; d; s; p; h]. by rewrite !cur_skip_skip.
  - exists (take (u8_usize len) body). rewrite take_drop. split; [done|].
    unfold mbind, reader_bind, must. rewrite copy_to_slice_rest.
    rewrite (take_from_app _ _ _ (take (u8_usize len) body) (drop (u8_usize len) body));
      rewrite ?take_drop, ?length_take; [|done|lia].
    by rewrite Nat.min_l by lia.
Qed.

Lemma device_body_implements : implements (B:=B) device_decode_body device_spec.
Proof.
  intros c. unfold device_decode_body. destruct (cur_rest c) as [|kind [|len body]] eqn:Hc.
  1-2: by repeat read_step.
  repeat read_step. unfold need_remaining. rewrite remaining_rest, Hrest0. cbn [device_spec].
  case_decide; [done|].
  pose proof (device_item_implements kind len _ _ Hrest0 ltac:(lia)) as H'.
  destruct (device_spec_body kind len body); [|done..].
  destruct H' as (bs & -> & ->). exists (kind :: len :: bs). by rewrite !cur_skip_skip.
Qed.
End implementation.

#[export] Instance device_equiv_equivalence : Equivalence (≡@{DeviceMessage}).
Proof. split; unfold equiv, device_equiv; by repeat intros ?; congruence. Qed.

#[export] Instance payload_proper : Proper ((≡) ==> (=)) payload.
Proof. intros [] [] E; cbv [equiv device_equiv trimmed] in E; simplify_eq; cbn; congruence. Qed.

Lemma zero_padded_equiv m : device_wf m -> zero_padded m ≡ m.
Proof.
  destruct m as [len data| | |]; try done. intros Hwf. unfold equiv, device_equiv. cbn. f_equal.
  apply take_copy_prefix. rewrite length_take, Hwf. pose proof (u8_usize_le len).
  unfold MAX_MESSAGE_LEN. lia.
Qed.

Lemma length_payload m : device_wf m -> length (payload m) = data_size m.
Proof.
  destruct m as [len data| | |]; intros Hwf; try done.
  cbn in *. rewrite length_take, Hwf. pose proof (u8_usize_le len). unfold MAX_MESSAGE_LEN. lia.
Qed.

Lemma data_size_le m : (data_size m <= 255)%nat.
Proof. destruct m; cbn; [apply u8_usize_le|lia..]. Qed.

Section codec_lemmas.
Context {B : Type} `{!BytesCrate B, !BytesLaws B}.

(** Messages that differ only in padding are encoded alike. *)
#[export] Instance device_encode_proper :
  Proper ((≡) ==> eq ==> eq) (device_encode (B:=B)).
Proof.
  intros [] [] E b ? <-; cbv [equiv device_equiv trimmed] in E; try congruence.
  simplify_eq. unfold device_encode. cbn [data_size device_kind].
  match goal with H : take _ _ = _ |- _ => by rewrite H end.
Qed.

Lemma device_encode_writes m : writes (device_encode (B:=B) m) (device_wire m).
Proof.
  unfold device_encode, device_wire.
  apply (writes_bind _ _ []); [apply writes_reserve|].
  apply (writes_bind _ _ [_]); [apply writes_put_u8|].
  apply (writes_bind _ _ [_]); [apply writes_put_u8|].
  destruct m; cbn [payload]; auto with tcpuart.
  apply writes_bind; [apply writes_put_u32|].
  repeat (apply (writes_bind _ _ [_]); [apply writes_put_u8|]). apply writes_put_u8.
Qed.
End codec_lemmas.

(** A whole frame, and a frame cut short, as the grammar sees them. *)
Lemma device_spec_wire m l :
  device_wf m -> device_spec (device_wire m ++ l) = Parsed (zero_padded m) l.
Proof.
  intros Hwf. pose proof (length_payload m Hwf) as Hlen. unfold device_wire. cbn [app device_spec].
  rewrite u8_usize_of by apply data_size_le.
  rewrite decide_False by (rewrite length_app; lia).
  destruct m as [len data|baud d s p hw|[]|[]]; try done; cbn [payload data_size] in *.
  - cbn. unfold device_spec_body. eval_u8. rewrite u8_of_usize. set (p := take (u8_usize len) data) in *.
    by rewrite <-Hlen, take_app_length, drop_app_length.
  - cbn. destruct (be_bytes 4 baud) as [|b0 [|b1 [|b2 [|b3 [|]]]]] eqn:E;
      try discriminate (f_equal length E).
    unfold device_spec_body. eval_u8. cbn. rewrite <-E, of_be_bytes by exact Hwf. by destruct hw.
Qed.

Lemma device_spec_partial m p l :
  device_wf m -> device_wire m = p ++ l -> l <> [] -> device_spec p = Incomplete.
Proof.
  intros Hwf E Hl. pose proof (length_payload m Hwf) as Hlen. unfold device_wire in E.
  destruct p as [|k [|n body]]; [done..|]. injection E as <- <- E. cbn.
  rewrite u8_usize_of by apply data_size_le. rewrite decide_True; [done|].
  rewrite <-Hlen, E, length_app. destruct l; [done|]. cbn. lia.
Qed.

(** What the grammar reads is a frame, apart from the length byte of the
    fixed-size kinds, which it does not compare with the size it reads. *)
Lemma device_spec_inv l m rest :
  device_spec l = Parsed m rest ->
  device_wf m /\ exists len, l = device_kind m :: len :: payload m ++ rest /\
    match m with Data n _ => len = n | _ => True end.
Proof.
  destruct l as [|kind [|len body]]; [done..|]. cbn [device_spec].
  case_decide as Hlen; [done|]. apply Nat.nlt_ge in Hlen. unfold device_spec_body.
  assert (forall z, u8_val kind = u8_val z -> kind = z) as Hk by (intros ?; apply u8_val_inj).
  destruct (u8_val kind) as [|p|p]; [done| |done]. repeat (destruct p as [p|p|]; try done).
  - destruct body as [|r body]; [done|]. destruct (control_request_try_from r) eqn:E; [|done].
    intros [= <- <-]. apply control_request_inv in E as ->. rewrite (Hk x03) by done.
    split; [done|]. by exists len.
  - destruct body as [|r body]; [done|]. destruct (control_response_try_from r) eqn:E; [|done].
    intros [= <- <-]. apply control_response_inv in E as ->. rewrite (Hk x04) by done.
    split; [done|]. by exists len.
  - destruct body as [|b0 [|b1 [|b2 [|b3 [|d [|s [|p [|h body]]]]]]]]; try done.
    case_bool_decide as Hh; [done|]. intros [= <- <-]. split; [by apply of_be_u32|].
    exists len. split; [|done]. rewrite (Hk x02) by done. cbn.
    change 4%nat with (length [b0; b1; b2; b3]). rewrite be_bytes_of_be. cbn.
    assert (bool_u8 (bool_decide (u8_val h <> 0)) = h) as ->; [|done].
    apply u8_val_inj. pose proof (u8_val_range h). case_bool_decide; cbn; eval_u8; lia.
  - intros [= <- <-]. pose proof (u8_usize_le len). split.
    + apply length_copy_prefix. rewrite length_take. lia.
    + exists len. split; [|done]. rewrite (Hk x01) by done. cbn.
      rewrite take_copy_prefix by (rewrite length_take; lia). by rewrite take_drop.
Qed.

(** ** Properties *)

Section properties.
Context {B : Type} `{!BytesCrate B, !BytesLaws B}.

Lemma device_decode_spec_lemma : decodes_as (B:=B) device_decode device_spec.
Proof. apply run_implements, device_body_implements. Qed.

#[export] Instance device_body_stable : Stable (B:=B) device_decode_body.
Proof.
  repeat (apply stable_bind; [apply _|intros ?]). unfold device_decode_item.
  repeat case_match; try apply _. apply stable_bind; [apply _|intros ?].
  repeat (apply stable_bind; [apply _|intros ?]). case_bool_decide; apply _.
Qed.

Lemma device_decode_inv src m src' :
  device_decode src = Done (Ok (Some m), src') ->
  device_spec (as_ref (B:=B) src) = Parsed m (as_ref src').
Proof.
  intros E. pose proof (device_decode_spec_lemma src) as H.
  destruct (device_spec _); [|congruence..]. destruct H as (s & H & <-). congruence.
Qed.

#[export] Instance device_stream_decoder : StreamDecoder (B:=B) device_decode.
Proof.
  apply (run_stream_decoder _ (fun _ bs => bs <> [])); [apply _|..].
  - eapply implements_no_panic, device_body_implements.
  - intros c m c' E. pose proof (device_body_implements c) as H. rewrite E in H.
    destruct (device_spec _) as [a rest| |] eqn:Hs; [|done..].
    destruct H as (bs & Hc & [= -> ->]). exists bs, rest. split_and!; [done..|].
    apply device_spec_inv in Hs as (_ & len & Hl & _). rewrite Hl in Hc.
    intros ->. apply (f_equal length) in Hc. cbn in Hc. rewrite length_app in Hc. lia.
  - by intros a [].
Qed.

(** C30. [decode] implements the grammar of the device protocol: on every
    buffer it returns the item the grammar reads and consumes exactly its
    bytes, or asks for more bytes, or fails with the grammar's error, leaving
    the buffer untouched in the last two cases; it never panics. *)
Theorem device_decode_implements_spec : decodes_as (B:=B) device_decode device_spec.
Proof. exact device_decode_spec_lemma. Qed.

(** Whatever [encode] appends for a message of well-typed fields, [decode]
    reads back as that message up to array padding, consuming exactly those
    bytes and leaving what follows; encoding never fails, and the frame is at
    most 257 bytes long with its body length in the second byte. *)
Theorem device_roundtrip m dst :
  device_wf m ->
  exists dst' frame, device_encode m dst = (Ok tt, dst') /\
    as_ref dst' = as_ref (B:=B) dst ++ frame /\
    (exists body, frame = device_kind m :: u8_of (Z.of_nat (length body)) :: body /\
      (length body <= MAX_MESSAGE_LEN)%nat) /\
    forall src l, as_ref src = frame ++ l ->
      exists m' src', device_decode src = Done (Ok (Some m'), src') /\
        m' ≡ m /\ as_ref (B:=B) src' = l.
Proof.
  intros Hwf. destruct (device_encode_writes m dst) as (dst' & E & Hdst).
  exists dst', (device_wire m). split_and!; [done..| |].
  - exists (payload m). unfold device_wire. rewrite length_payload by done.
    split; [done|apply data_size_le].
  - intros src l Hsrc. pose proof (device_decode_spec_lemma src) as H.
    rewrite Hsrc, device_spec_wire in H by done. destruct H as (src' & ? & ?).
    exists (zero_padded m), src'. split_and!; [done|by apply zero_padded_equiv|done].
Qed.

(** A frame that has not arrived completely is waited for: on every proper
    prefix of an encoded message [decode] returns [Ok(None)] and keeps the
    buffer. *)
Theorem device_partial_frame m dst dst' src l :
  device_wf m -> device_encode m dst = (Ok tt, dst') -> l <> [] ->
  as_ref (B:=B) dst' = as_ref dst ++ as_ref src ++ l ->
  device_decode src = Done (Ok None, src).
Proof.
  intros Hwf E Hl Hsrc. destruct (device_encode_writes m dst) as (b & E' & Hb).
  assert (b = dst') as -> by congruence. rewrite Hb in Hsrc. apply app_inv_head in Hsrc.
  pose proof (device_decode_spec_lemma src) as H.
  by rewrite (device_spec_partial m (as_ref src) l) in H.
Qed.

(** Whole frames, then bytes that are not yet one, however they arrive. *)
Lemma device_feed frames p buf chunks :
  Forall device_wf frames -> device_spec p = Incomplete ->
  as_ref (B:=B) buf = [] -> chunks <> [] ->
  concat chunks = concat (map device_wire frames) ++ p ->
  let rx := feed_all device_decode buf chunks in
  rx_items rx = map zero_padded frames /\ rx_error rx = None /\ as_ref (rx_buffer rx) = p.
Proof.
  intros Hwf Hp Hbuf Hne E.
  apply (feed_all_frames device_decode device_wire zero_padded frames p buf chunks); [..|done|done|done].
  - intros m Hm src l' Hsrc. pose proof (device_decode_spec_lemma src) as H.
    rewrite Hsrc, device_spec_wire in H; [done|]. by eapply Forall_forall in Hwf.
  - intros src Hsrc. pose proof (device_decode_spec_lemma src) as H.
    rewrite Hsrc, Hp in H. eauto.
Qed.

(** C13. However the network cuts a sequence of encoded messages into chunks,
    and with part of one more frame at the end, calling [decode] as the framed
    reader does yields exactly those messages in order, no error, and leaves
    the partial frame in the buffer. *)
Theorem device_stream frames next p l buf chunks :
  Forall device_wf frames -> device_wf next -> device_wire next = p ++ l -> l <> [] ->
  as_ref (B:=B) buf = [] -> chunks <> [] ->
  concat chunks = concat (map device_wire frames) ++ p ->
  let rx := feed_all device_decode buf chunks in
  Forall2 (≡) (rx_items rx) frames /\ rx_error rx = None /\ as_ref (rx_buffer rx) = p.
Proof.
  intros Hwf Hnext Hp Hl Hbuf Hne E rx.
  destruct (device_feed frames p buf chunks Hwf (device_spec_partial next p l Hnext Hp Hl) Hbuf Hne E)
    as (Hi & He & Hr). fold rx in Hi, He, Hr. rewrite Hi. split_and!; [|done..].
  clear -Hwf. induction Hwf; constructor; auto using zero_padded_equiv.
Qed.

(** A message [decode] returns has well-typed fields, and the bytes it
    consumed are that message's frame but for the length byte: kind, any
    length byte, then the encoding of the fields; for [Data] the length byte
    is the data's length.  So [decode] never invents or drops a byte. *)
Theorem device_decode_sound src m src' :
  device_decode src = Done (Ok (Some m), src') ->
  device_wf m /\ exists len, as_ref src = device_kind m :: len :: payload m ++ as_ref (B:=B) src' /\
    match m with Data n _ => len = n | _ => True end.
Proof. intros E%device_decode_inv. by apply device_spec_inv. Qed.

(** The length byte of a [Config] frame is not compared with the size of
    its body: with any length byte [decode] reads the eight bytes of the
    fields and no more, so a frame that declares a longer body leaves its
    excess in the buffer, to be read as the next frame. *)
Theorem device_config_length_ignored src len baud d s p hw rest :
  is_u32 baud -> (u8_usize len <= 8 + length rest)%nat ->
  as_ref (B:=B) src = x02 :: len :: payload (Config baud d s p hw) ++ rest ->
  exists src', device_decode src = Done (Ok (Some (Config baud d s p hw)), src') /\
    as_ref src' = rest.
Proof.
  intros Hb Hlen E. pose proof (device_decode_spec_lemma src) as H. rewrite E in H.
  pose proof (device_spec_wire (Config baud d s p hw) rest Hb) as Hw.
  unfold device_wire in Hw. cbn [app device_spec device_kind] in *.
  rewrite decide_False in H by (rewrite length_app, length_payload by done; cbn; lia).
  rewrite decide_False in Hw by (rewrite length_app, length_payload, u8_usize_of by (done || cbn; lia); lia).
  assert (forall len1 len2 body, device_spec_body x02 len1 body = device_spec_body x02 len2 body)
    as Hany by done.
  rewrite (Hany len (u8_of (Z.of_nat (data_size (Config baud d s p hw))))) in H. by rewrite Hw in H.
Qed.
End properties.

Lemma payload_from_slice buf : payload (from_slice buf) = take MAX_MESSAGE_LEN buf.
Proof.
  unfold from_slice, MAX_MESSAGE_LEN. cbn [payload].
  rewrite u8_usize_of, take_copy_prefix by (rewrite ?length_take; lia).
  destruct (decide (length buf <= 255)%nat).
  - by rewrite Nat.min_l, !take_ge by lia.
  - by rewrite Nat.min_r by lia.
Qed.

Lemma from_slice_wf buf : device_wf (from_slice buf).
Proof.
  unfold from_slice, MAX_MESSAGE_LEN. cbn [device_wf]. apply length_copy_prefix. rewrite length_take. lia.
Qed.

(** [From<&[u8]>] keeps the first 255 bytes of a buffer and nothing else, in
    a message whose fields are well-typed; the length byte never wraps. *)
Theorem from_slice_payload buf :
  payload (from_slice buf) = take MAX_MESSAGE_LEN buf /\ device_wf (from_slice buf) /\
  data_size (from_slice buf) = Nat.min (length buf) MAX_MESSAGE_LEN.
Proof.
  split_and!; [apply payload_from_slice|apply from_slice_wf|].
  unfold from_slice, MAX_MESSAGE_LEN. cbn [data_size]. by rewrite u8_usize_of by lia.
Qed.

(** ** Witnesses *)

Module DeviceWitness.
Import ListBytes.

Lemma device_decode_implements_spec_witness :
  exists src', device_decode (B:=list u8) [x03; x01; x01; xff]
    = Done (Ok (Some (ControlReq DevReset)), src') /\ src' = [xff].
Proof. exact (device_decode_implements_spec [x03; x01; x01; xff]). Defined.

Definition msg : DeviceMessage := Config 115200 x08 x01 x02 true.

Lemma device_roundtrip_witness : device_wf msg /\ exists dst' frame,
  device_encode (B:=list u8) msg [xaa] = (Ok tt, dst') /\ dst' = [xaa] ++ frame.
Proof.
  split; [by vm_compute|].
  destruct (device_roundtrip (B:=list u8) msg [xaa]) as (dst' & frame & E & H & _); [by vm_compute|].
  by exists dst', frame.
Defined.

Lemma device_partial_frame_witness : device_decode (B:=list u8) [x02; x08; x00] = Done (Ok None, [x02; x08; x00]).
Proof.
  apply (device_partial_frame msg [] (device_wire msg) [x02; x08; x00] (drop 3 (device_wire msg)));
    by vm_compute.
Defined.

Lemma device_stream_witness :
  let rx := feed_all (B:=list u8) device_decode []
    [[x03]; [x01; x01; x04; x01]; [x02; x01; x05]] in
  Forall2 (≡) (rx_items rx) [ControlReq DevReset; ControlRes DevNotSupported] /\
  rx_error rx = None /\ as_ref (rx_buffer rx) = [x01; x05].
Proof.
  apply (device_stream (B:=list u8) [ControlReq DevReset; ControlRes DevNotSupported]
    (from_slice (replicate 5 x41)) [x01; x05] (replicate 5 x41) []
    [[x03]; [x01; x01; x04; x01]; [x02; x01; x05]]); try done.
  by repeat constructor.
Defined.

Lemma device_decode_sound_witness : device_wf (ControlRes DevOk) /\ exists len,
  [x04; x09; x01; x00; x00; x00; x00; x00; x00; x00; x00] =
    x04 :: len :: x01 :: [x00; x00; x00; x00; x00; x00; x00; x00] /\ True.
Proof.
  exact (device_decode_sound (B:=list u8)
    [x04; x09; x01; x00; x00; x00; x00; x00; x00; x00; x00] (ControlRes DevOk)
    [x00; x00; x00; x00; x00; x00; x00; x00] eq_refl).
Defined.

Lemma device_config_length_ignored_witness : exists src',
  device_decode (B:=list u8) (x02 :: x0a :: payload msg ++ [x07; x07; x03; x01])
    = Done (Ok (Some msg), src') /\ src' = [x07; x07; x03; x01].
Proof.
  exact (device_config_length_ignored (B:=list u8) (x02 :: x0a :: payload msg ++ [x07; x07; x03; x01])
    x0a 115200 x08 x01 x02 true [x07; x07; x03; x01]
    ltac:(by vm_compute) ltac:(apply Nat.leb_le; by vm_compute) eq_refl).
Defined.
End DeviceWitness.
