(* ===== verification/Utf8.v ===== *)
(** * UTF-8

    [String::from_utf8] of the Rust standard library: a Rust string is a byte
    sequence that is well-formed UTF-8 (Unicode, table 3-7), and that is what
    the control protocol checks of the strings it receives; and
    [String::from_utf8_lossy], which replaces what is not. *)
From S2P Require Import Prelude.
From stdpp Require Import base numbers list strings.
#[local] Open Scope Z_scope.

(** The bytes of a [String]; a value of the type has [utf8_valid]. *)
Abbreviation rstring := (list u8).

Definition in_range (lo hi : Z) (b : u8) : bool := (lo <=? u8_val b) && (u8_val b <=? hi).
Definition continuation (b : u8) : bool := in_range 128 191 b.

(** The range of the second byte of a three- and of a four-byte sequence. *)
Definition second_of_three (b0 b1 : u8) : bool :=
  if u8_val b0 =? 224 then in_range 160 191 b1
  else if u8_val b0 =? 237 then in_range 128 159 b1
  else continuation b1.
Definition second_of_four (b0 b1 : u8) : bool :=
  if u8_val b0 =? 240 then in_range 144 191 b1
  else if u8_val b0 =? 244 then in_range 128 143 b1
  else continuation b1.

Fixpoint utf8_valid (l : list u8) : bool :=
  match l with
  | [] => true
  | b0 :: l1 =>
      if in_range 0 127 b0 then utf8_valid l1 else
      match l1 with
      | [] => false
      | b1 :: l2 =>
          if in_range 194 223 b0 then continuation b1 && utf8_valid l2 else
          match l2 with
          | [] => false
          | b2 :: l3 =>
              if in_range 224 239 b0
              then second_of_three b0 b1 && continuation b2 && utf8_valid l3 else
              match l3 with
              | [] => false
              | b3 :: l4 =>
                  in_range 240 244 b0 && second_of_four b0 b1 &&
                  continuation b2 && continuation b3 && utf8_valid l4
              end
          end
      end
  end.

(** [String::from_utf8]. *)
Definition from_utf8 (l : list u8) : option rstring := if utf8_valid l then Some l else None.

Definition ascii (l : list u8) : bool := forallb (in_range 0 127) l.

Lemma utf8_valid_app l1 l2 :
  utf8_valid l1 = true -> utf8_valid (l1 ++ l2) = utf8_valid l2.
Proof.
  induction l1 as [l1 IH] using (induction_ltof1 _ (@length u8)). unfold ltof in IH.
  destruct l1 as [|b0 l1]; [done|]. cbn [utf8_valid app].
  case_match; [intros; apply IH; [cbn; lia|done]|].
  destruct l1 as [|b1 l1]; [done|]. cbn [app].
  case_match; [intros [-> ?]%andb_prop; cbn; apply IH; [cbn; lia|done]|].
  destruct l1 as [|b2 l1]; [done|]. cbn [app].
  case_match; [intros [-> ?]%andb_prop; cbn; apply IH; [cbn; lia|done]|].
  destruct l1 as [|b3 l1]; [done|]. cbn [app].
  intros [-> ?]%andb_prop; cbn; apply IH; [cbn; lia|done].
Qed.

Lemma utf8_valid_ascii l : ascii l = true -> utf8_valid l = true.
Proof. induction l as [|b l IH]; [done|]. cbn. intros [-> ?]%andb_prop. auto. Qed.

Lemma from_utf8_valid l : utf8_valid l = true -> from_utf8 l = Some l.
Proof. intros H. unfold from_utf8. by rewrite H. Qed.

Lemma from_utf8_inv l s : from_utf8 l = Some s -> s = l /\ utf8_valid s = true.
Proof. unfold from_utf8. case_match; [|done]. by intros [= <-]. Qed.

(** ** [String::from_utf8_lossy] *)

(** U+FFFD. *)
Definition replacement : list u8 := [xef; xbf; xbd].

(** How the next character goes on: whether it is well-formed, and its bytes;
    if not, the bytes up to the first that cannot follow. *)
Definition next_is (p : u8 -> bool) (l : list u8) : bool :=
  match l with b :: _ => p b | [] => false end.
Definition utf8_step (b0 : u8) (l : list u8) : bool * nat :=
  if in_range 0 127 b0 then (true, 1%nat)
  else if in_range 194 223 b0 then
    if next_is continuation l then (true, 2%nat) else (false, 1%nat)
  else if in_range 224 239 b0 then
    if negb (next_is (second_of_three b0) l) then (false, 1%nat)
    else if negb (next_is continuation (tl l)) then (false, 2%nat)
    else (true, 3%nat)
  else if in_range 240 244 b0 then
    if negb (next_is (second_of_four b0) l) then (false, 1%nat)
    else if negb (next_is continuation (tl l)) then (false, 2%nat)
    else if negb (next_is continuation (tl (tl l))) then (false, 3%nat)
    else (true, 4%nat)
  else (false, 1%nat).

(** Every turn takes a byte, so as many turns as bytes do. *)
Fixpoint lossy (fuel : nat) (l : list u8) : list u8 :=
  match fuel, l with
  | S fuel, b0 :: l1 =>
      let '(ok, n) := utf8_step b0 l1 in
      (if ok : bool then take n l else replacement) ++ lossy fuel (drop n l)
  | _, _ => []
  end.
Definition from_utf8_lossy (l : list u8) : rstring := lossy (length l) l.

#[local] Arguments in_range : simpl never.
#[local] Arguments continuation : simpl never.
#[local] Arguments second_of_three : simpl never.
#[local] Arguments second_of_four : simpl never.

Lemma utf8_step_spec b0 l1 :
  let '(ok, n) := utf8_step b0 l1 in
  (1 <= n <= length (b0 :: l1))%nat /\
  (ok = true -> utf8_valid (take n (b0 :: l1)) = true) /\
  (utf8_valid (b0 :: l1) = true -> ok = true /\ utf8_valid (drop n (b0 :: l1)) = true).
Proof.
  unfold utf8_step.
  destruct (in_range 0 127 b0) eqn:E1; [cbn; rewrite E1; split_and!; auto; lia|].
  destruct (in_range 194 223 b0) eqn:E2.
  { destruct l1 as [|b1 l]; [cbn; rewrite E1; split_and!; [lia..|done|done]|]. cbn [next_is].
    destruct (continuation b1) eqn:C1; cbn; rewrite ?E1, ?E2, ?C1; cbn; split_and!; try lia; done. }
  destruct (in_range 224 239 b0) eqn:E3.
  { destruct l1 as [|b1 [|b2 l]]; cbn [next_is negb tl];
      [cbn; rewrite E1; by split_and!; [lia..| |]| |].
    - destruct (second_of_three b0 b1); cbn; rewrite E1, E2; by split_and!; [lia..| |].
    - destruct (second_of_three b0 b1) eqn:C1, (continuation b2) eqn:C2; cbn;
        rewrite ?E1, ?E2, ?E3, ?C1, ?C2; cbn; by split_and!; [lia..| |]. }
  destruct (in_range 240 244 b0) eqn:E4.
  { destruct l1 as [|b1 [|b2 [|b3 l]]]; cbn [next_is negb tl].
    - cbn. rewrite E1. by split_and!; [lia..| |].
    - destruct (second_of_four b0 b1); cbn; rewrite E1, E2; by split_and!; [lia..| |].
    - destruct (second_of_four b0 b1) eqn:C1, (continuation b2) eqn:C2; cbn;
        rewrite ?E1, ?E2, ?E3; cbn; by split_and!; [lia..| |].
    - destruct (second_of_four b0 b1) eqn:C1, (continuation b2) eqn:C2, (continuation b3) eqn:C3; cbn;
        rewrite ?E1, ?E2, ?E3, ?E4, ?C1, ?C2, ?C3; cbn; by split_and!; [lia..| |]. }
  cbn. rewrite E1. split_and!; [lia|lia|done|].
  destruct l1 as [|b1 l1]; [done|]. rewrite E2. destruct l1 as [|b2 l1]; [done|]. rewrite E3.
  destruct l1 as [|b3 l1]; [done|]. by rewrite E4.
Qed.

(** Replacing leaves what is well-formed, and makes the rest well-formed, at
    three bytes for one at most. *)
Lemma lossy_spec fuel l : (length l <= fuel)%nat ->
  utf8_valid (lossy fuel l) = true /\ (utf8_valid l = true -> lossy fuel l = l) /\
  (length (lossy fuel l) <= 3 * length l)%nat.
Proof.
  revert l. induction fuel as [|fuel IH]; intros [|b0 l1] Hf; try done; [cbn in Hf; lia|].
  cbn [lossy]. pose proof (utf8_step_spec b0 l1) as H. destruct (utf8_step b0 l1) as [ok n].
  destruct H as (Hn & Hok & Hv). set (l := b0 :: l1) in *.
  destruct (IH (drop n l)) as (I1 & I2 & I3); [rewrite length_drop; cbn in *; lia|].
  rewrite length_drop in I3. split_and!.
  - destruct ok; rewrite utf8_valid_app; auto.
  - intros [-> Hd]%Hv. rewrite I2 by done. apply take_drop.
  - rewrite length_app. destruct ok; [rewrite length_take|cbn [length replacement]]; lia.
Qed.

Lemma from_utf8_lossy_spec l :
  utf8_valid (from_utf8_lossy l) = true /\ (utf8_valid l = true -> from_utf8_lossy l = l) /\
  (length (from_utf8_lossy l) <= 3 * length l)%nat.
Proof. by apply lossy_spec. Qed.
