(* ===== verification/Ctl.v ===== *)
(** * The control protocol (common/src/ctl.rs)

    Requests of the CLI to the daemon and the daemon's responses, over a Unix
    socket, with the four codecs of the file.  Strings are a length byte and at
    most 255 bytes of UTF-8; a list of connections is a 16-bit count and the
    entries. *)
From S2P Require Import Prelude BytesApi Codec Framing Utf8.
From stdpp Require Import base numbers list strings pretty.
#[local] Open Scope Z_scope.

(** ** Data *)

Inductive DaemonRequest :=
  | ReqAdd (name : rstring) (addr port : Z)
  | ReqRemove (name : rstring)
  | ReqList
  | ReqReset (name : rstring).

Record ConnectionInfo := mkConnectionInfo {
  ci_name : rstring;
  ci_addr : Z;
  ci_port : Z;
  ci_pts_path : rstring;
  ci_connected : bool;
}.

Inductive DaemonResponse :=
  | AddOk (pts_path : rstring)
  | RemoveOk
  | RespList (connections : list ConnectionInfo)
  | ResetOk
  | RespError (msg : rstring).

#[export] Instance DaemonRequest_eq_dec : EqDecision DaemonRequest.
Proof. solve_decision. Defined.
#[export] Instance ConnectionInfo_eq_dec : EqDecision ConnectionInfo.
Proof. solve_decision. Defined.
#[export] Instance DaemonResponse_eq_dec : EqDecision DaemonResponse.
Proof. solve_decision. Defined.

Definition request_msg_type (r : DaemonRequest) : u8 :=
  match r with ReqAdd _ _ _ => x01 | ReqRemove _ => x02 | ReqList => x03 | ReqReset _ => x04 end.

Definition response_msg_type (r : DaemonResponse) : u8 :=
  match r with AddOk _ => x01 | RemoveOk => x02 | RespList _ => x03 | ResetOk => x04 | RespError _ => xff end.

(** ** The codecs *)

Section codecs.
Context {B : Type} `{!BytesCrate B}.

Definition encode_str (s : rstring) : writer B unit :=
  let size := length s in
  if decide (255 < size)%nat then wfail (IoError InvalidInput "string too long")
  else put (put_u8 (u8_of (Z.of_nat size))) ;; put (put_slice s).

Definition decode_str (cursor : Cursor B) : io_result (option rstring) * Cursor B :=
  match try_get_u8 cursor with
  | None => (Ok None, cursor)
  | Some (size, cursor) =>
      match try_copy_to_slice (Z.to_nat (u8_val size)) cursor with
      | None => (Ok None, cursor)
      | Some (buf, cursor) =>
          match from_utf8 buf with
          | Some s => (Ok (Some s), cursor)
          | None => (Err (IoError InvalidData "invalid string"), cursor)
          end
      end
  end.

(** [let Some(s) = decode_str(&mut cursor)? else { return Ok(None) }]. *)
Definition need_str : reader B rstring := fun c =>
  match decode_str c with
  | (Ok (Some s), c') => Next s c'
  | (Ok None, _) => ReturnNone
  | (Err e, _) => ReturnErr e
  end.

Definition encode_request (item : DaemonRequest) : writer B unit :=
  put (put_u8 (request_msg_type item)) ;;
  match item with
  | ReqAdd name addr port =>
      encode_str name ;; put (put_u32 addr) ;; put (put_u16 port)
  | ReqRemove name => encode_str name
  | ReqList => mret tt
  | ReqReset name => encode_str name
  end.

Definition decode_request_body : reader B DaemonRequest :=
  message_kind ← need try_get_u8;
  match u8_val message_kind with
  | 1 =>
      name ← need_str;
      addr ← need try_get_u32;
      port ← need try_get_u16;
      mret (ReqAdd name addr port)
  | 2 => name ← need_str; mret (ReqRemove name)
  | 3 => mret ReqList
  | 4 => name ← need_str; mret (ReqReset name)
  | _ => fail (IoError InvalidData "unknown message type")
  end.

Definition decode_request (src : B) : outcome (io_result (option DaemonRequest) * B) :=
  run_decoder decode_request_body src.

Definition encode_connection (conn : ConnectionInfo) : writer B unit :=
  encode_str (ci_name conn) ;;
  put (put_u32 (ci_addr conn)) ;;
  put (put_u16 (ci_port conn)) ;;
  encode_str (ci_pts_path conn) ;;
  put (put_u8 (bool_u8 (ci_connected conn))).

(** [for conn in connections { ... }]. *)
Fixpoint encode_connections (connections : list ConnectionInfo) : writer B unit :=
  match connections with
  | [] => mret tt
  | conn :: connections => encode_connection conn ;; encode_connections connections
  end.

Definition encode_response (item : DaemonResponse) : writer B unit :=
  put (put_u8 (response_msg_type item)) ;;
  match item with
  | AddOk pts_path => encode_str pts_path
  | RemoveOk => mret tt
  | RespList connections =>
      put (put_u16 (Z.of_nat (length connections) mod 2 ^ 16)) ;;
      encode_connections connections
  | ResetOk => mret tt
  | RespError msg => encode_str msg
  end.

Definition decode_connection : reader B ConnectionInfo :=
  name ← need_str;
  addr ← need try_get_u32;
  port ← need try_get_u16;
  pts_path ← need_str;
  c ← need try_get_u8;
  connected ← (if bool_decide (u8_val c < 2) then mret (bool_decide (u8_val c <> 0))
               else fail (IoError InvalidData
                 (String.append "invalid connected value: " (pretty (u8_val c)))));
  mret (mkConnectionInfo name addr port pts_path connected).

(** [for _ in 0..count { ...; connections.push(...) }]. *)
Fixpoint decode_connections (count : nat) (connections : list ConnectionInfo) :
    reader B (list ConnectionInfo) :=
  match count with
  | O => mret connections
  | S count => conn ← decode_connection; decode_connections count (connections ++ [conn])
  end.

Definition decode_response_body : reader B DaemonResponse :=
  message_kind ← need try_get_u8;
  match u8_val message_kind with
  | 1 => pts_path ← need_str; mret (AddOk pts_path)
  | 2 => mret RemoveOk
  | 3 =>
      count ← need try_get_u16;
      connections ← decode_connections (Z.to_nat count) [];
      mret (RespList connections)
  | 4 => mret ResetOk
  | 255 => msg ← need_str; mret (RespError msg)
  | _ => fail (IoError InvalidData "unknown response type")
  end.

Definition decode_response (src : B) : outcome (io_result (option DaemonResponse) * B) :=
  run_decoder decode_response_body src.
End codecs.

(** ** The wire format *)

Definition str_wire (s : rstring) : list u8 := u8_of (Z.of_nat (length s)) :: s.

Definition request_wire (r : DaemonRequest) : list u8 :=
  request_msg_type r ::
  match r with
  | ReqAdd name addr port => str_wire name ++ be_bytes 4 addr ++ be_bytes 2 port
  | ReqRemove name | ReqReset name => str_wire name
  | ReqList => []
  end.

Definition connection_wire (c : ConnectionInfo) : list u8 :=
  str_wire (ci_name c) ++ be_bytes 4 (ci_addr c) ++ be_bytes 2 (ci_port c) ++
  str_wire (ci_pts_path c) ++ [bool_u8 (ci_connected c)].

Definition response_wire (r : DaemonResponse) : list u8 :=
  response_msg_type r ::
  match r with
  | AddOk s | RespError s => str_wire s
  | RemoveOk | ResetOk => []
  | RespList l => be_bytes 2 (Z.of_nat (length l) mod 2 ^ 16) ++ concat (map connection_wire l)
  end.

(** ** Well-formedness *)

(** A Rust string the protocol can carry. *)
Definition str_fits (s : rstring) : Prop := (length s <= 255)%nat.
Definition str_wf (s : rstring) : Prop := str_fits s /\ utf8_valid s = true.

Definition request_strings (r : DaemonRequest) : list rstring :=
  match r with ReqAdd name _ _ | ReqRemove name | ReqReset name => [name] | ReqList => [] end.

Definition request_wf (r : DaemonRequest) : Prop :=
  Forall str_wf (request_strings r) /\
  match r with ReqAdd _ addr port => is_u32 addr /\ is_u16 port | _ => True end.

Definition connection_wf (c : ConnectionInfo) : Prop :=
  str_wf (ci_name c) /\ is_u32 (ci_addr c) /\ is_u16 (ci_port c) /\ str_wf (ci_pts_path c).

Definition response_wf (r : DaemonResponse) : Prop :=
  match r with
  | AddOk s | RespError s => str_wf s
  | RespList l => Forall connection_wf l
  | RemoveOk | ResetOk => True
  end.

#[export] Instance str_fits_dec s : Decision (str_fits s).
Proof. unfold str_fits. apply _. Defined.
#[export] Instance str_wf_dec s : Decision (str_wf s).
Proof. unfold str_wf, str_fits. apply _. Defined.

(** ** Strings on the wire *)

Lemma str_size s : str_fits s -> Z.to_nat (u8_val (u8_of (Z.of_nat (length s)))) = length s.
Proof. unfold str_fits. intros H. rewrite u8_val_of, Z.mod_small; lia. Qed.

Section strings.
Context {B : Type} `{!BytesCrate B, !BytesLaws B}.

Lemma reads_str s l : str_wf s -> reads (B:=B) need_str (str_wire s) s l.
Proof.
  intros [Hs Hv] c E. unfold need_str, decode_str, str_wire in *. cbn [app] in E.
  rewrite try_get_u8_rest, (take_from_app _ _ _ [u8_of (Z.of_nat (length s))] (s ++ l)) by done.
  cbn [hd]. rewrite try_copy_to_slice_rest, str_size by done.
  rewrite (take_from_app _ _ _ s l); [|by rewrite cur_rest_skip, E|done].
  unfold id. by rewrite from_utf8_valid, cur_skip_skip.
Qed.

Lemma yields_str : yields (B:=B) need_str (fun s bs => str_wf s /\ bs = str_wire s).
Proof.
  intros c s c'. unfold need_str, decode_str. rewrite try_get_u8_rest.
  destruct (take_from 1 _ c) as [[size c1]|] eqn:E1; [|done].
  apply take_from_inv in E1 as ([|b [|]] & l1 & Hc & Hl & -> & ->); try done. cbn [hd].
  rewrite try_copy_to_slice_rest.
  destruct (take_from _ _ (cur_skip 1 c)) as [[buf c2]|] eqn:E2; [|done].
  apply take_from_inv in E2 as (bs & l2 & Hc2 & Hl2 & -> & ->). unfold id.
  rewrite cur_rest_skip, Hc in Hc2. cbn [drop app] in Hc2. rewrite drop_0 in Hc2. subst l1.
  destruct (from_utf8 bs) as [s'|] eqn:E; [|done]. intros [= <- <-].
  apply from_utf8_inv in E as [-> Hv]. pose proof (u8_val_range b).
  exists (b :: bs), l2. rewrite cur_skip_skip. unfold str_wf, str_fits, str_wire.
  rewrite Hl2, Z2Nat.id, u8_of_val by lia. split_and!; [exact Hc| |lia|done|done].
  cbn. by rewrite Hl2.
Qed.

(** [need_str] is the composition of its three steps. *)
Lemma need_str_steps (c : Cursor B) : need_str c =
  (size ← need try_get_u8;
   buf ← need (try_copy_to_slice (Z.to_nat (u8_val size)));
   unwrap (match from_utf8 buf with
           | Some s => Ok s | None => Err (IoError InvalidData "invalid string") end)) c.
Proof.
  unfold need_str, decode_str, need, unwrap, mbind, reader_bind.
  destruct (try_get_u8 c) as [[size c1]|]; [|done].
  destruct (try_copy_to_slice _ c1) as [[buf c2]|]; [|done]. by destruct (from_utf8 buf).
Qed.

#[export] Instance stable_str : Stable (B:=B) need_str.
Proof.
  intros c d l E. rewrite !need_str_steps. revert c d l E.
  apply stable_bind; [apply _|intros size]. apply stable_bind; [|intros buf; apply _].
  exact (stable_take _ _ _ (try_copy_to_slice_rest _)).
Qed.

Lemma no_panic_str : no_panic (B:=B) need_str.
Proof. intros c. unfold need_str. by repeat case_match. Qed.

Lemma encode_str_fits s : str_fits s -> writes (B:=B) (encode_str s) (str_wire s).
Proof.
  unfold str_fits. intros H. unfold encode_str. rewrite decide_False by lia.
  apply (writes_bind _ _ [_]); [apply writes_put_u8|apply writes_put_slice].
Qed.

Lemma encode_str_long s : ~ str_fits s ->
  refuses (B:=B) (encode_str s) (IoError InvalidInput "string too long") [].
Proof. unfold str_fits. intros H. unfold encode_str. rewrite decide_True by lia. apply refuses_fail. Qed.

Lemma no_panic_ret {A} (a : A) : no_panic (B:=B) (mret a).
Proof. done. Qed.
Lemma no_panic_fail {A} e : no_panic (B:=B) (fail (A:=A) e).
Proof. done. Qed.
Lemma no_panic_bind {A A'} (m : reader B A) (k : A -> reader B A') :
  no_panic m -> (forall a, no_panic (k a)) -> no_panic (m ≫= k).
Proof.
  intros Hm Hk c. unfold mbind, reader_bind. pose proof (Hm c). destruct (m c); try done. apply Hk.
Qed.
Lemma no_panic_need {A} (f : Cursor B -> option (A * Cursor B)) : no_panic (need f).
Proof. intros c. unfold need. by repeat case_match. Qed.
End strings.

#[export] Hint Resolve no_panic_str no_panic_ret no_panic_fail no_panic_need no_panic_bind : tcpuart.
#[export] Hint Resolve reads_str encode_str_fits : tcpuart.

(** ** The readers and writers *)

Section bodies.
Context {B : Type} `{!BytesCrate B, !BytesLaws B}.

Lemma reads_kind {A} (k : u8 -> reader B A) x bs a l :
  reads (k x) bs a l -> reads (need try_get_u8 ≫= k) (x :: bs) a l.
Proof. intros H. exact (reads_bind _ _ [x] _ _ _ _ (reads_u8 _ _) H). Qed.

Lemma reads_request r l : request_wf r -> reads (B:=B) decode_request_body (request_wire r) r l.
Proof.
  intros [Hs Hr]. destruct r as [name addr port|name| |name];
    cbn [request_strings] in Hs; rewrite ?Forall_singleton in Hs;
    unfold request_wire; cbn [request_msg_type]; apply reads_kind; eval_u8.
  - destruct Hr. rewrite <-(app_nil_r (be_bytes 2 port)).
    do 3 (eapply reads_bind; [by auto with tcpuart|]). apply reads_ret.
  - rewrite <-(app_nil_r (str_wire name)). eapply reads_bind; [by auto with tcpuart|apply reads_ret].
  - apply reads_ret.
  - rewrite <-(app_nil_r (str_wire name)). eapply reads_bind; [by auto with tcpuart|apply reads_ret].
Qed.

Lemma yields_request :
  yields (B:=B) decode_request_body (fun r bs => request_wf r /\ bs = request_wire r).
Proof.
  eapply yields_bind; [apply yields_u8|]. intros kind ? ->.
  assert (forall z, u8_val kind = u8_val z -> kind = z) as Hk by (intros ?; apply u8_val_inj).
  destruct (u8_val kind) as [|p|p]; [apply yields_fail| |apply yields_fail].
  repeat (destruct p as [p|p|]; try apply yields_fail).
  - apply yields_ret. by rewrite (Hk x03).
  - rewrite (Hk x04) by done. eapply yields_bind; [apply yields_str|]. intros name ? [Hn ->].
    apply yields_ret. unfold request_wf. cbn. rewrite app_nil_r. auto.
  - rewrite (Hk x02) by done. eapply yields_bind; [apply yields_str|]. intros name ? [Hn ->].
    apply yields_ret. unfold request_wf. cbn. rewrite app_nil_r. auto.
  - rewrite (Hk x01) by done. eapply yields_bind; [apply yields_str|]. intros name ? [Hn ->].
    eapply yields_bind; [apply yields_u32|]. intros addr ? [Ha ->].
    eapply yields_bind; [apply yields_u16|]. intros port ? [Hp ->].
    apply yields_ret. unfold request_wf. cbn. rewrite app_nil_r. auto.
Qed.

#[export] Instance request_body_stable : Stable (B:=B) decode_request_body.
Proof.
  apply stable_bind; [apply _|intros kind]. repeat case_match; try apply _;
  repeat (apply stable_bind; [apply _|intros ?]); apply _.
Qed.

Lemma request_body_no_panic : no_panic (B:=B) decode_request_body.
Proof.
  apply no_panic_bind; [auto with tcpuart|intros kind].
  repeat case_match; try (by auto with tcpuart); by repeat (apply no_panic_bind; [auto with tcpuart|intros ?]); auto with tcpuart.
Qed.

#[export] Instance request_stream_decoder : StreamDecoder (B:=B) decode_request.
Proof.
  eapply run_stream_decoder; [apply _|apply request_body_no_panic|apply yields_request|].
  by intros r [_ ?].
Qed.
End bodies.

Section response_bodies.
Context {B : Type} `{!BytesCrate B, !BytesLaws B}.

Lemma bool_of_u8 b : bool_decide (u8_val (bool_u8 b) <> 0) = b.
Proof. by destruct b. Qed.

Lemma reads_connection conn l :
  connection_wf conn -> reads (B:=B) decode_connection (connection_wire conn) conn l.
Proof.
  intros (Hn & Ha & Hp & Hs). destruct conn as [name addr port pts connected].
  unfold connection_wire, decode_connection. cbn [ci_name ci_addr ci_port ci_pts_path ci_connected] in *.
  do 4 (eapply reads_bind; [by auto with tcpuart|]). rewrite <-(app_nil_r [_]).
  eapply reads_bind; [apply reads_u8|]. rewrite <-(app_nil_r []).
  eapply reads_bind; [|apply reads_ret]. rewrite (bool_decide_eq_true_2 (_ < _)) by (by destruct connected; vm_compute).
  rewrite bool_of_u8. apply reads_ret.
Qed.

Lemma reads_connections conns : forall acc l, Forall connection_wf conns ->
  reads (B:=B) (decode_connections (length conns) acc) (concat (map connection_wire conns)) (acc ++ conns) l.
Proof.
  induction conns as [|conn conns IH]; intros acc l H.
  - rewrite app_nil_r. apply reads_ret.
  - apply Forall_cons in H as [Hc H]. cbn [length decode_connections map concat].
    eapply reads_bind; [by apply reads_connection|].
    rewrite (cons_middle conn acc conns), app_assoc. by apply IH.
Qed.

Lemma yields_connection :
  yields (B:=B) decode_connection (fun conn bs => connection_wf conn /\ bs = connection_wire conn).
Proof.
  eapply yields_bind; [apply yields_str|]. intros name ? [Hn ->].
  eapply yields_bind; [apply yields_u32|]. intros addr ? [Ha ->].
  eapply yields_bind; [apply yields_u16|]. intros port ? [Hp ->].
  eapply yields_bind; [apply yields_str|]. intros pts ? [Hs ->].
  eapply yields_bind; [apply yields_u8|]. intros x ? ->.
  case_bool_decide as Hx; [|by intros c a c'].
  eapply yields_bind; [by apply (yields_ret _ (fun b bs => b = bool_decide (u8_val x <> 0) /\ bs = []))|].
  intros b ? [-> ->]. apply yields_ret. split; [done|]. unfold connection_wire. cbn [ci_connected ci_name ci_addr ci_port ci_pts_path].
  assert (bool_u8 (bool_decide (u8_val x <> 0)) = x) as ->; [|done].
  apply u8_val_inj. pose proof (u8_val_range x). case_bool_decide; cbn; eval_u8; lia.
Qed.

Lemma yields_connections n : forall acc,
  yields (B:=B) (decode_connections n acc) (fun conns bs => exists l,
    conns = acc ++ l /\ length l = n /\ Forall connection_wf l /\ bs = concat (map connection_wire l)).
Proof.
  induction n as [|n IH]; intros acc; cbn [decode_connections].
  - apply yields_ret. exists []. by rewrite app_nil_r.
  - eapply yields_bind; [apply yields_connection|]. intros conn ? [Hc ->].
    eapply yields_weaken; [apply IH|]. intros conns ? (l & -> & <- & Hl & ->).
    exists (conn :: l). rewrite <-app_assoc. split_and!; [done..|by constructor|done].
Qed.

#[export] Instance connection_stable : Stable (B:=B) decode_connection.
Proof.
  repeat (apply stable_bind; [apply _|intros ?]).
  apply stable_bind; [case_bool_decide; apply _|intros ?; apply _].
Qed.

#[export] Instance connections_stable n acc : Stable (B:=B) (decode_connections n acc).
Proof. revert acc. induction n as [|n IH]; intros acc; cbn; apply _. Qed.

#[export] Instance response_body_stable : Stable (B:=B) decode_response_body.
Proof.
  apply stable_bind; [apply _|intros kind]. repeat case_match; try apply _;
  repeat (apply stable_bind; [apply _|intros ?]); apply _.
Qed.

Lemma no_panic_connections n : forall acc, no_panic (B:=B) (decode_connections n acc).
Proof.
  induction n as [|n IH]; intros acc; cbn; [done|]. apply no_panic_bind; [|done].
  repeat (apply no_panic_bind; [by auto with tcpuart|intros ?]).
  apply no_panic_bind; [|by auto with tcpuart]. by case_bool_decide.
Qed.

Lemma response_body_no_panic : no_panic (B:=B) decode_response_body.
Proof.
  apply no_panic_bind; [auto with tcpuart|intros kind].
  repeat case_match; try (by auto with tcpuart);
    apply no_panic_bind; try (by auto with tcpuart); intros ?; try (by auto with tcpuart).
  apply no_panic_bind; [apply no_panic_connections|by auto with tcpuart].
Qed.

(** [len() as u16], seen as a length again. *)
Definition u16_count (n : nat) : nat := Z.to_nat (Z.of_nat n mod 2 ^ 16).

(** What a response reads back as: itself, but for a list too long for its
    16-bit count. *)
Definition response_read (r : DaemonResponse) : DaemonResponse :=
  match r with RespList l => RespList (take (u16_count (length l)) l) | _ => r end.
(** The entries the count leaves out stay in the stream. *)
Definition response_excess (r : DaemonResponse) : list u8 :=
  match r with RespList l => concat (map connection_wire (drop (u16_count (length l)) l)) | _ => [] end.

Lemma u16_count_le n : (u16_count n <= n)%nat.
Proof. unfold u16_count. pose proof (Z.mod_le (Z.of_nat n) (2 ^ 16)). lia. Qed.
Lemma u16_count_small n : Z.of_nat n < 2 ^ 16 -> u16_count n = n.
Proof. intros H. unfold u16_count. rewrite Z.mod_small; lia. Qed.

Lemma reads_response r l :
  response_wf r -> exists bs, response_wire r = bs ++ response_excess r /\
    reads (B:=B) decode_response_body bs (response_read r) l.
Proof.
  intros Hwf. unfold response_wire. destruct r as [s| |conns| |s];
    cbn [response_msg_type response_excess response_read response_wf] in *.
  3: { set (n := u16_count (length conns)).
    exists (x03 :: be_bytes 2 (Z.of_nat (length conns) mod 2 ^ 16) ++ concat (map connection_wire (take n conns))).
    split. { rewrite <-(take_drop n conns) at 2. rewrite map_app, concat_app. cbn. by rewrite <-!app_assoc. }
    apply reads_kind. eval_u8. rewrite <-(app_nil_r (concat _)).
    eapply reads_bind; [apply reads_u16, Z.mod_pos_bound; done|].
    eapply reads_bind; [|apply reads_ret]. fold (u16_count (length conns)). fold n.
    replace n with (length (take n conns)) at 1 by (rewrite length_take; apply Nat.min_l, u16_count_le).
    apply (reads_connections (take n conns) []). by apply Forall_take. }
  all: eexists; rewrite app_nil_r; split; [done|]; apply reads_kind; eval_u8; try apply reads_ret.
  all: rewrite <-(app_nil_r (str_wire _)); eapply reads_bind; [by apply reads_str|apply reads_ret].
Qed.
End response_bodies.

Section response_laws.
Context {B : Type} `{!BytesCrate B, !BytesLaws B}.

Lemma yields_response :
  yields (B:=B) decode_response_body (fun r bs => response_wf r /\ bs = response_wire r /\
    match r with RespList l => Z.of_nat (length l) < 2 ^ 16 | _ => True end).
Proof.
  eapply yields_bind; [apply yields_u8|]. intros kind ? ->.
  assert (forall z, u8_val kind = u8_val z -> kind = z) as Hk by (intros ?; apply u8_val_inj).
  destruct (u8_val kind) as [|p|p]; [apply yields_fail| |apply yields_fail].
  repeat (destruct p as [p|p|]; try apply yields_fail).
  - rewrite (Hk xff) by done. eapply yields_bind; [apply yields_str|]. intros s ? [Hs ->].
    apply yields_ret. cbn. by rewrite app_nil_r.
  - rewrite (Hk x03) by done. eapply yields_bind; [apply yields_u16|]. intros n ? [Hn ->].
    eapply yields_bind; [apply yields_connections|]. intros conns ? (l & -> & Hlen & Hl & ->).
    apply yields_ret. cbn [app]. rewrite app_nil_r. destruct Hn. cbn [response_wf]. unfold response_wire.
    rewrite Hlen, Z2Nat.id, Z.mod_small by lia. done.
  - rewrite (Hk x04) by done. by apply yields_ret.
  - rewrite (Hk x02) by done. by apply yields_ret.
  - rewrite (Hk x01) by done. eapply yields_bind; [apply yields_str|]. intros s ? [Hs ->].
    apply yields_ret. cbn. by rewrite app_nil_r.
Qed.

#[export] Instance response_stream_decoder : StreamDecoder (B:=B) decode_response.
Proof.
  eapply run_stream_decoder; [apply _|apply response_body_no_panic|apply yields_response|].
  by intros r (_ & ? & _).
Qed.

Lemma encode_request_writes r :
  Forall str_fits (request_strings r) -> writes (B:=B) (encode_request r) (request_wire r).
Proof.
  intros H. unfold encode_request, request_wire. apply (writes_bind _ _ [_]); [apply writes_put_u8|].
  destruct r; cbn [request_strings] in H; rewrite ?Forall_singleton in H; auto with tcpuart.
Qed.

Lemma encode_request_refuses r :
  ~ Forall str_fits (request_strings r) ->
  refuses (B:=B) (encode_request r) (IoError InvalidInput "string too long") [request_msg_type r].
Proof.
  intros H. unfold encode_request. rewrite <-(app_nil_r [_]).
  apply refuses_bind_r; [apply writes_put_u8|].
  destruct r; cbn [request_strings] in H; rewrite ?Forall_singleton in H; try by destruct H.
  - by apply refuses_bind_l, encode_str_long.
  - by apply encode_str_long.
  - by apply encode_str_long.
Qed.

Definition connection_strings (c : ConnectionInfo) : list rstring := [ci_name c; ci_pts_path c].
Definition response_strings (r : DaemonResponse) : list rstring :=
  match r with
  | AddOk s | RespError s => [s]
  | RespList l => concat (map connection_strings l)
  | RemoveOk | ResetOk => []
  end.

Lemma encode_connections_writes l :
  Forall str_fits (concat (map connection_strings l)) ->
  writes (B:=B) (encode_connections l) (concat (map connection_wire l)).
Proof.
  induction l as [|c l IH]; cbn [map concat]; intros H; [apply writes_ret|].
  apply Forall_app in H as [Hc Hl]. unfold connection_strings in Hc.
  apply Forall_cons in Hc as [Hn Hp]. rewrite Forall_singleton in Hp.
  cbn [encode_connections]. apply writes_bind; [|by apply IH].
  unfold encode_connection, connection_wire. auto 10 with tcpuart.
Qed.

Lemma encode_response_writes r :
  Forall str_fits (response_strings r) -> writes (B:=B) (encode_response r) (response_wire r).
Proof.
  intros H. unfold encode_response, response_wire. apply (writes_bind _ _ [_]); [apply writes_put_u8|].
  destruct r; cbn [response_strings] in H; rewrite ?Forall_singleton in H; auto with tcpuart.
  apply writes_bind; [apply writes_put_u16|by apply encode_connections_writes].
Qed.

Lemma encode_connections_refuses l :
  ~ Forall str_fits (concat (map connection_strings l)) ->
  exists bs, refuses (B:=B) (encode_connections l) (IoError InvalidInput "string too long") bs.
Proof.
  induction l as [|c l IH]; cbn [map concat]; intros H; [by destruct H|].
  cbn [encode_connections]. unfold encode_connection.
  destruct (decide (str_fits (ci_name c))) as [Hn|Hn];
    [|eexists; by apply refuses_bind_l, refuses_bind_l, encode_str_long].
  destruct (decide (str_fits (ci_pts_path c))) as [Hp|Hp].
  - destruct IH as (bs & IH).
    { intros Hl. apply H, Forall_app. split; [|done].
      by apply Forall_cons_2, Forall_singleton. }
    eexists. eapply refuses_bind_r, IH. auto 10 with tcpuart.
  - eexists. apply refuses_bind_l. do 3 (eapply refuses_bind_r; [by auto with tcpuart|]).
    by apply refuses_bind_l, encode_str_long.
Qed.

Lemma encode_response_refuses r :
  ~ Forall str_fits (response_strings r) ->
  exists bs, refuses (B:=B) (encode_response r) (IoError InvalidInput "string too long") bs.
Proof.
  intros H. unfold encode_response.
  destruct r as [s| |l| |s]; cbn [response_strings] in H; rewrite ?Forall_singleton in H; try by destruct H.
  2: { destruct (encode_connections_refuses l H) as (bs & Hl). eexists.
       do 2 (eapply refuses_bind_r; [by auto with tcpuart|]). done. }
  all: eexists; eapply refuses_bind_r; [by auto with tcpuart|by apply encode_str_long].
Qed.

(** A string that does not fit stops the encoder, and only that does. *)
Lemma encode_response_result r b :
  (encode_response r b).1 =
    if decide (Forall str_fits (response_strings (r)))
    then Ok tt else Err (IoError InvalidInput "string too long").
Proof.
  case_decide as H.
  - by destruct (encode_response_writes r H b) as (b' & -> & _).
  - destruct (encode_response_refuses r H) as (bs & Hr). by destruct (Hr b) as (b' & -> & _).
Qed.
End response_laws.

Lemma response_wf_fits r : response_wf r -> Forall str_fits (response_strings r).
Proof.
  destruct r as [s| |l| |s]; cbn; rewrite ?Forall_singleton; try (by intros []); try done.
  induction 1 as [|c l Hc Hl IH]; [done|]. cbn [map concat]. apply Forall_app. split; [|done].
  destruct Hc as ([? _] & _ & _ & [? _]). by apply Forall_cons_2, Forall_singleton.
Qed.

Lemma need_str_invalid {B} `{!BytesCrate B, !BytesLaws B} name l (c : Cursor B) :
  str_fits name -> utf8_valid name = false -> cur_rest c = str_wire name ++ l ->
  need_str c = ReturnErr (IoError InvalidData "invalid string").
Proof.
  intros Hs Hv E. rewrite need_str_steps. unfold str_wire in E. cbn [app] in E.
  unfold mbind, reader_bind. rewrite (reads_u8 _ (name ++ l) c E).
  pose proof (cur_rest_skip_app [_] (name ++ l) c E) as Hc. rewrite str_size by done.
  rewrite (reads_take _ _ _ name l (try_copy_to_slice_rest _) eq_refl _ Hc).
  unfold id, from_utf8. by rewrite Hv.
Qed.

(** ** Properties *)

Section properties.
Context {B : Type} `{!BytesCrate B, !BytesLaws B}.

(** A request of well-typed fields whose name fits in 255 bytes is encoded,
    and the daemon reads back exactly that request from exactly those bytes,
    whatever follows them. *)
Theorem request_roundtrip r dst :
  request_wf r ->
  exists dst' frame, encode_request r dst = (Ok tt, dst') /\
    as_ref dst' = as_ref (B:=B) dst ++ frame /\
    forall src l, as_ref src = frame ++ l ->
      exists src', decode_request src = Done (Ok (Some r), src') /\ as_ref (B:=B) src' = l.
Proof.
  intros Hwf. destruct (encode_request_writes r) with dst as (dst' & E & Hdst).
  { eapply Forall_impl; [apply Hwf|]. by intros s [? _]. }
  exists dst', (request_wire r). split_and!; [done..|]. intros src l Hsrc.
  eapply run_reads; [by apply reads_request|done].
Qed.

(** Encoding a request fails exactly when its name is longer than 255
    bytes, always with the same error, and a failed encoding leaves one stray
    byte, the message type, in the buffer. *)
Theorem encode_request_total r dst :
  exists dst', if decide (Forall str_fits (request_strings r))
    then encode_request r dst = (Ok tt, dst')
    else encode_request r dst = (Err (IoError InvalidInput "string too long"), dst') /\
      as_ref (B:=B) dst' = as_ref dst ++ [request_msg_type r].
Proof.
  case_decide as H.
  - destruct (encode_request_writes r H dst) as (dst' & ? & _). eauto.
  - destruct (encode_request_refuses r H dst) as (dst' & ? & ?). eauto.
Qed.

(** The request encoding is canonical: a request [decode] returns is
    well-formed (its strings are UTF-8 of at most 255 bytes, its numbers in
    range), and encoding it again produces exactly the bytes consumed. *)
Theorem request_decode_canonical src r src' dst :
  decode_request (B:=B) src = Done (Ok (Some r), src') ->
  request_wf r /\ exists dst' frame, encode_request r dst = (Ok tt, dst') /\
    as_ref dst' = as_ref dst ++ frame /\ as_ref src = frame ++ as_ref src'.
Proof.
  intros E. destruct (run_yields _ _ _ _ _ yields_request E) as (bs & Hsrc & Hwf & ->).
  split; [done|]. destruct (encode_request_writes r) with dst as (dst' & ? & ?).
  { eapply Forall_impl; [apply Hwf|]. by intros s [? _]. }
  eauto.
Qed.

(** A response of well-typed fields reads back as itself, from exactly its
    bytes, provided a list of connections has fewer than 65536 entries. *)
Theorem response_roundtrip r dst :
  response_wf r -> match r with RespList l => Z.of_nat (length l) < 2 ^ 16 | _ => True end ->
  exists dst' frame, encode_response r dst = (Ok tt, dst') /\
    as_ref dst' = as_ref (B:=B) dst ++ frame /\
    forall src l, as_ref src = frame ++ l ->
      exists src', decode_response src = Done (Ok (Some r), src') /\ as_ref (B:=B) src' = l.
Proof.
  intros Hwf Hlen. destruct (encode_response_writes r) with dst as (dst' & E & Hdst).
  { by apply response_wf_fits. }
  exists dst', (response_wire r). split_and!; [done..|]. intros src l Hsrc.
  destruct (reads_response r l Hwf) as (bs & Hbs & Hr).
  assert (response_read r = r /\ response_excess r = []) as [Hrd Hex].
  { destruct r; try done. cbn. rewrite u16_count_small by done. by rewrite firstn_all, skipn_all. }
  rewrite Hrd in Hr. rewrite Hbs, Hex, app_nil_r in Hsrc. by eapply run_reads.
Qed.

(** The 16-bit count of a list wraps: a list of any length is encoded
    without an error, but only its first [length mod 65536] entries are read
    back, and the others stay in the stream, in front of what follows. *)
Theorem response_list_count_wraps conns dst :
  Forall connection_wf conns ->
  exists dst' frame, encode_response (RespList conns) dst = (Ok tt, dst') /\
    as_ref dst' = as_ref (B:=B) dst ++ frame /\
    forall src l, as_ref src = frame ++ l ->
      exists src', let n := Z.to_nat (Z.of_nat (length conns) mod 2 ^ 16) in
        decode_response src = Done (Ok (Some (RespList (take n conns))), src') /\
        as_ref (B:=B) src' = concat (map connection_wire (drop n conns)) ++ l.
Proof.
  intros Hwf. destruct (encode_response_writes (RespList conns)) with dst as (dst' & E & Hdst).
  { by apply (response_wf_fits (RespList conns)). }
  exists dst', (response_wire (RespList conns)). split_and!; [done..|]. intros src l Hsrc.
  destruct (reads_response (RespList conns) (response_excess (RespList conns) ++ l) Hwf) as (bs & Hbs & Hr).
  rewrite Hbs, <-app_assoc in Hsrc. by eapply run_reads.
Qed.

(** Encoding a response fails exactly when one of its strings (the path,
    the error message, or a name or path of a listed connection) is longer
    than 255 bytes. *)
Theorem encode_response_total r dst :
  (encode_response r dst).1 =
    if decide (Forall str_fits (response_strings r))
    then Ok tt else Err (IoError InvalidInput "string too long") :> io_result unit.
Proof. apply (encode_response_result (B:=B)). Qed.

(** A response [decode] returns is well-formed, a list in it has fewer than
    65536 entries, and encoding it again gives exactly the bytes consumed. *)
Theorem response_decode_canonical src r src' dst :
  decode_response (B:=B) src = Done (Ok (Some r), src') ->
  response_wf r /\ exists dst' frame, encode_response r dst = (Ok tt, dst') /\
    as_ref dst' = as_ref dst ++ frame /\ as_ref src = frame ++ as_ref src'.
Proof.
  intros E. destruct (run_yields _ _ _ _ _ yields_response E) as (bs & Hsrc & Hwf & -> & _).
  split; [done|]. destruct (encode_response_writes r) with dst as (dst' & ? & ?).
  { by apply response_wf_fits. }
  eauto.
Qed.

(** C29. Both decoders of the control protocol are safe stream decoders: on any
    bytes whatever, cut into chunks in any two ways, calling [decode] as the
    framed readers do never panics and gives the same items, the same error
    if any, and otherwise the same bytes left to read. *)
Theorem ctl_streams_chunking buf chunks1 chunks2 :
  as_ref (B:=B) buf = [] -> chunks1 <> [] -> chunks2 <> [] -> concat chunks1 = concat chunks2 ->
  (forall src, decode_request (B:=B) src <> Panicked /\ decode_response (B:=B) src <> Panicked) /\
  (let rx1 := feed_all decode_request buf chunks1 in
   let rx2 := feed_all decode_request buf chunks2 in
   rx_items rx1 = rx_items rx2 /\ rx_error rx1 = rx_error rx2 /\
   (rx_error rx1 = None -> as_ref (rx_buffer rx1) = as_ref (rx_buffer rx2))) /\
  (let rx1 := feed_all decode_response buf chunks1 in
   let rx2 := feed_all decode_response buf chunks2 in
   rx_items rx1 = rx_items rx2 /\ rx_error rx1 = rx_error rx2 /\
   (rx_error rx1 = None -> as_ref (rx_buffer rx1) = as_ref (rx_buffer rx2))).
Proof.
  intros Hb H1 H2 E. split; [intros src; split; apply sd_total|].
  split; [exact (feed_all_chunking decode_request buf chunks1 chunks2 Hb H1 H2 E)|].
  exact (feed_all_chunking decode_response buf chunks1 chunks2 Hb H1 H2 E).
Qed.

(** A request whose name is not valid UTF-8 is rejected as soon as the
    name has arrived, whatever follows it. *)
Theorem request_invalid_name src kind name l :
  kind ∈ [x01; x02; x04] -> str_fits name -> utf8_valid name = false ->
  as_ref (B:=B) src = kind :: str_wire name ++ l ->
  decode_request src = Done (Err (IoError InvalidData "invalid string"), src).
Proof.
  intros Hk Hs Hv E. unfold decode_request, run_decoder, decode_request_body.
  pose proof (reads_u8 kind (str_wire name ++ l) (mkCursor src 0) E) as Hkind.
  unfold mbind, reader_bind at 1. rewrite Hkind.
  pose proof (cur_rest_skip_app [kind] (str_wire name ++ l) (mkCursor src 0) E) as Hc.
  set (c := cur_skip _ _) in *.
  assert (need_str c = ReturnErr (IoError InvalidData "invalid string")) as Hstr.
  { by apply (need_str_invalid name l). }
  repeat (apply elem_of_cons in Hk as [->|Hk]; [eval_u8; unfold mbind, reader_bind; by rewrite Hstr|]).
  by apply not_elem_of_nil in Hk.
Qed.
End properties.

(** ** Witnesses *)

Module CtlWitness.
Import ListBytes.

Definition req : DaemonRequest := ReqAdd (lit "esp") 3232235777 15113.
Definition info : ConnectionInfo :=
  mkConnectionInfo (lit "esp") 3232235777 15113 (lit "/dev/pts/3") true.

Lemma req_wf : request_wf req.
Proof. split; [constructor; [apply (bool_decide_unpack _); by vm_compute|constructor]|by vm_compute]. Qed.
Lemma info_wf : connection_wf info.
Proof.
  unfold connection_wf. split_and!; try by vm_compute.
  all: apply (bool_decide_unpack _); by vm_compute.
Qed.

Lemma request_roundtrip_witness : exists dst' frame,
  encode_request (B:=list u8) req [] = (Ok tt, dst') /\ dst' = [] ++ frame.
Proof.
  destruct (request_roundtrip (B:=list u8) req [] req_wf) as (dst' & frame & E & H & _).
  by exists dst', frame.
Defined.

Lemma encode_request_total_witness : exists dst',
  encode_request (B:=list u8) (ReqRemove (replicate 256 x41)) []
    = (Err (IoError InvalidInput "string too long"), dst') /\ dst' = [x02].
Proof. exact (encode_request_total (B:=list u8) (ReqRemove (replicate 256 x41)) []). Defined.

Lemma request_decode_canonical_witness : request_wf (ReqReset (lit "a")) /\ exists dst' frame,
  encode_request (B:=list u8) (ReqReset (lit "a")) [] = (Ok tt, dst') /\
  dst' = [] ++ frame /\ [x04; x01; x61; x03] = frame ++ [x03].
Proof.
  exact (request_decode_canonical (B:=list u8) [x04; x01; x61; x03] (ReqReset (lit "a")) [x03] [] eq_refl).
Defined.

Lemma response_roundtrip_witness : exists dst' frame,
  encode_response (B:=list u8) (RespList [info]) [] = (Ok tt, dst') /\ dst' = [] ++ frame.
Proof.
  destruct (response_roundtrip (B:=list u8) (RespList [info]) []) as (dst' & frame & E & H & _);
    [by constructor; [apply info_wf|]|done|]. by exists dst', frame.
Defined.

Lemma many_wf : Forall connection_wf (replicate (Z.to_nat 65537) info).
Proof. apply Forall_replicate, info_wf. Qed.

Lemma response_list_count_wraps_witness : exists dst' frame,
  encode_response (B:=list u8) (RespList (replicate (Z.to_nat 65537) info)) [] = (Ok tt, dst') /\
  dst' = [] ++ frame /\
  exists src', decode_response frame = Done (Ok (Some (RespList [info])), src') /\
    src' = concat (map connection_wire (replicate (Z.to_nat 65536) info)).
Proof.
  destruct (response_list_count_wraps (B:=list u8) (replicate (Z.to_nat 65537) info) [] many_wf)
    as (dst' & frame & E & H & Hd). exists dst', frame. split_and!; [done..|].
  destruct (Hd frame [] (eq_sym (app_nil_r _))) as (src' & Hs & Hr). exists src'. cbn zeta in *.
  rewrite length_replicate, Z2Nat.id in * by done. change (65537 mod 2 ^ 16) with 1 in *.
  rewrite app_nil_r, drop_replicate in Hr. rewrite take_replicate in Hs.
  rewrite Nat.min_l in Hs by lia. split; [exact Hs|].
  replace (Z.to_nat 65537 - Z.to_nat 1)%nat with (Z.to_nat 65536) in Hr by lia. exact Hr.
Defined.

Lemma response_decode_canonical_witness : response_wf (AddOk (lit "p")) /\ exists dst' frame,
  encode_response (B:=list u8) (AddOk (lit "p")) [] = (Ok tt, dst') /\
  dst' = [] ++ frame /\ [x01; x01; x70] = frame ++ [].
Proof.
  exact (response_decode_canonical (B:=list u8) [x01; x01; x70] (AddOk (lit "p")) [] [] eq_refl).
Defined.

Lemma encode_response_total_witness :
  (encode_response (B:=list u8) (RespError (replicate 256 x41)) []).1
    = Err (IoError InvalidInput "string too long").
Proof. exact (encode_response_total (B:=list u8) (RespError (replicate 256 x41)) []). Defined.

Lemma ctl_streams_chunking_witness :
  rx_items (feed_all (B:=list u8) decode_request [] [[x03; x04]; [x01; x61; x02]]) =
  rx_items (feed_all decode_request [] [[x03; x04; x01; x61; x02]]).
Proof.
  exact (proj1 (proj1 (proj2 (ctl_streams_chunking (B:=list u8) []
    [[x03; x04]; [x01; x61; x02]] [[x03; x04; x01; x61; x02]] eq_refl
    ltac:(done) ltac:(done) eq_refl)))).
Defined.

Lemma request_invalid_name_witness :
  decode_request (B:=list u8) [x02; x01; xff; x03]
    = Done (Err (IoError InvalidData "invalid string"), [x02; x01; xff; x03]).
Proof.
  apply (request_invalid_name (B:=list u8) _ x02 [xff] [x03]); [|by apply Nat.leb_le|done|done].
  right. left.
Defined.
End CtlWitness.
