(* ===== verification/Cli.v ===== *)
(** * The command-line tool (cli/src/main.rs)

    One request to the daemon and one response to show.  [clap] gives the
    [Command]; what the socket does is an argument; what the tool prints is a
    list of lines.  [Ipv4Addr]'s parser and printer are those of the Rust
    standard library. *)
From S2P Require Import Prelude BytesApi Codec Framing Utf8 Ctl.
From stdpp Require Import base numbers strings list.
#[local] Open Scope Z_scope.

(** ** Numbers and addresses *)

Definition digit (d : Z) : u8 := u8_of (48 + d).
Definition digit_val (b : u8) : option Z :=
  if (48 <=? u8_val b) && (u8_val b <=? 57) then Some (u8_val b - 48) else None.

(** [Display] of an unsigned integer of at most [S fuel] digits. *)
Fixpoint dec (fuel : nat) (n : Z) : list u8 :=
  match fuel with
  | O => [digit n]
  | S fuel => if n <? 10 then [digit n] else dec fuel (n / 10) ++ [digit (n mod 10)]
  end.
Definition dec_u8 (n : Z) : list u8 := dec 2 n.
Definition dec_u16 (n : Z) : list u8 := dec 4 n.

Definition dot : u8 := x2e.

(** The parts of a string between separators: one more than there are
    separators. *)
Fixpoint split_on (sep : u8) (l : list u8) : list (list u8) :=
  match l with
  | [] => [[]]
  | b :: l =>
      match split_on sep l with
      | [] => [[b]]
      | part :: parts => if bool_decide (b = sep) then [] :: part :: parts else (b :: part) :: parts
      end
  end.

Fixpoint digits_val (acc : Z) (l : list u8) : option Z :=
  match l with
  | [] => Some acc
  | b :: l => match digit_val b with Some d => digits_val (acc * 10 + d) l | None => None end
  end.

(** An octet: one to three digits, no leading zero, at most 255. *)
Definition parse_octet (l : list u8) : option Z :=
  match l with
  | [] => None
  | b :: rest =>
      if bool_decide (3 < length l)%nat then None else
      if bool_decide (b = x30 /\ rest <> []) then None else
      match digits_val 0 l with
      | Some n => if n <=? 255 then Some n else None
      | None => None
      end
  end.

(** [str::parse::<Ipv4Addr>], then [u32::from]. *)
Definition parse_ipv4 (s : rstring) : option Z :=
  match map parse_octet (split_on dot s) with
  | [Some a; Some b; Some c; Some d] => Some (((a * 256 + b) * 256 + c) * 256 + d)
  | _ => None
  end.

(** [Display] of [Ipv4Addr::from(u32)]. *)
Definition display_ipv4 (addr : Z) : rstring :=
  dec_u8 (addr / 2 ^ 24 mod 256) ++ [dot] ++ dec_u8 (addr / 2 ^ 16 mod 256) ++ [dot] ++
  dec_u8 (addr / 2 ^ 8 mod 256) ++ [dot] ++ dec_u8 (addr mod 256).

(** ** The tool *)

Inductive Command :=
  | CmdAdd (name addr : rstring) (port : Z)
  | CmdRemove (name : rstring)
  | CmdList
  | CmdReset (name : rstring).

Inductive line := Out (s : rstring) | Diag (s : rstring).

(** The request of a command, or the message the tool exits with. *)
Definition cli_request (command : Command) : result rstring DaemonRequest :=
  match command with
  | CmdAdd name addr port =>
      match parse_ipv4 addr with
      | None => Err (lit "Invalid IP address: " ++ addr)
      | Some a => Ok (ReqAdd name a port)
      end
  | CmdRemove name => Ok (ReqRemove name)
  | CmdList => Ok ReqList
  | CmdReset name => Ok (ReqReset name)
  end.

Definition connection_line (info : ConnectionInfo) : rstring :=
  lit "- " ++ ci_name info ++ lit ": " ++ display_ipv4 (ci_addr info) ++ lit ":" ++
  dec_u16 (ci_port info) ++ lit " (PTY: " ++ ci_pts_path info ++ lit ") " ++
  (if ci_connected info then lit "[CONNECTED]" else lit "[OFFLINE]").

Definition handle_response (resp : DaemonResponse) : list line :=
  match resp with
  | AddOk pts_path => [Out (lit "Successfully added connection. PTY device: " ++ pts_path)]
  | RespError msg => [Diag (lit "Error from daemon: " ++ msg)]
  | RemoveOk => [Out (lit "Successfully removed connection")]
  | RespList l =>
      match l with
      | [] => [Out (lit "No active connections")]
      | _ => Out (lit "Active connections:") :: map (fun info => Out (connection_line info)) l
      end
  | ResetOk => [Out (lit "Successfully reset device")]
  end.

Section main.
Context {B : Type} `{!BytesCrate B}.

(** What [main] did: the bytes it sent, the lines it printed, its exit code. *)
Record cli_run := mkCliRun { run_sent : list u8; run_lines : list line; run_exit : Z }.

(** [connect] and [flush] are what the socket returns, [next] what the framed
    reader does; [writer] is the empty write buffer. *)
Definition cli_main (connect flush : io_result unit)
    (next : option (io_result DaemonResponse)) (writer : B) (command : Command) : cli_run :=
  match connect with
  | Err e => mkCliRun [] [Diag (lit "Failed to connect to socket: " ++ lit (err_msg e))] 0
  | Ok _ =>
  match cli_request command with
  | Err msg => mkCliRun [] [Diag msg] 1
  | Ok message =>
  match encode_request message writer with
  | (Err e, _) => mkCliRun [] [Diag (lit "Failed to send message to socket: " ++ lit (err_msg e))] 0
  | (Ok _, buf) =>
  match flush with
  | Err e => mkCliRun [] [Diag (lit "Failed to send message to socket: " ++ lit (err_msg e))] 0
  | Ok _ =>
      mkCliRun (as_ref buf)
        match next with
        | Some (Ok resp) => handle_response resp
        | Some (Err e) => [Diag (lit "Failed to decode daemon response: " ++ lit (err_msg e))]
        | None => [Diag (lit "Daemon closed connection unexpectedly")]
        end 0
  end end end end.
End main.

(** ** Decimal *)

#[local] Ltac Zify.zify_post_hook ::= Z.to_euclidean_division_equations.

Lemma digit_val_digit d : 0 <= d < 10 -> digit_val (digit d) = Some d.
Proof.
  intros H. unfold digit_val, digit. rewrite u8_val_of, Z.mod_small by lia.
  rewrite (proj2 (Z.leb_le _ _)), (proj2 (Z.leb_le _ _)) by lia. cbn. f_equal. lia.
Qed.

Lemma digit_val_inv b d : digit_val b = Some d -> 0 <= d < 10 /\ b = digit d.
Proof.
  unfold digit_val. case_match eqn:E; [|done]. apply andb_prop in E as [E1%Z.leb_le E2%Z.leb_le].
  intros [= <-]. split; [lia|]. unfold digit. by replace (48 + (u8_val b - 48)) with (u8_val b) by lia;
    rewrite u8_of_val.
Qed.

Lemma digit_inj d d' : 0 <= d < 10 -> 0 <= d' < 10 -> digit d = digit d' -> d = d'.
Proof. intros H H' E. apply digit_val_digit in H, H'. congruence. Qed.

Lemma digit_not_dot d : 0 <= d < 10 -> digit d <> dot.
Proof. intros H E. apply digit_val_digit in H. rewrite E in H. by vm_compute in H. Qed.

(** The decimal of an octet, by number of digits. *)
Lemma dec_u8_cases n : 0 <= n < 256 ->
  dec_u8 n = if n <? 10 then [digit n] else if n <? 100 then [digit (n / 10); digit (n mod 10)]
             else [digit (n / 100); digit (n / 10 mod 10); digit (n mod 10)].
Proof.
  intros H. unfold dec_u8. cbn [dec]. destruct (n <? 10) eqn:E1; [done|].
  replace (n / 10 <? 10) with (n <? 100)
    by (apply Z.ltb_ge in E1; destruct (Z.ltb_spec n 100), (Z.ltb_spec (n / 10) 10); lia).
  destruct (n <? 100); [done|]. by rewrite Z.div_div.
Qed.

Lemma parse_dec_u8 n : 0 <= n < 256 -> parse_octet (dec_u8 n) = Some n.
Proof.
  intros H. rewrite dec_u8_cases by done.
  destruct (Z.ltb_spec n 10) as [H1|H1]; [|destruct (Z.ltb_spec n 100) as [H2|H2]]; cbn [parse_octet].
  - rewrite bool_decide_eq_false_2 by (cbn; lia). rewrite bool_decide_eq_false_2 by (by intros []).
    cbn [digits_val]. rewrite digit_val_digit by lia. by rewrite (proj2 (Z.leb_le _ _)) by lia.
  - rewrite bool_decide_eq_false_2 by (cbn; lia). rewrite bool_decide_eq_false_2.
    2: { intros [E _]. change x30 with (digit 0) in E. apply digit_inj in E; lia. }
    cbn [digits_val]. rewrite !digit_val_digit by lia. rewrite (proj2 (Z.leb_le _ _)) by lia. f_equal. lia.
  - rewrite bool_decide_eq_false_2 by (cbn; lia). rewrite bool_decide_eq_false_2.
    2: { intros [E _]. change x30 with (digit 0) in E. apply digit_inj in E; lia. }
    cbn [digits_val]. rewrite !digit_val_digit by lia. rewrite (proj2 (Z.leb_le _ _)) by lia. f_equal. lia.
Qed.

Lemma parse_octet_inv l n : parse_octet l = Some n -> 0 <= n < 256 /\ l = dec_u8 n.
Proof.
  destruct l as [|b rest]; [done|]. cbn [parse_octet]. case_bool_decide as Hlen; [done|].
  case_bool_decide as Hz; [done|]. destruct (digits_val 0 (b :: rest)) as [n'|] eqn:Hv; [|done].
  destruct (Z.leb_spec n' 255) as [Hn|]; [|done]. intros [= ->].
  cbn [digits_val] in Hv. destruct (digit_val b) as [d0|] eqn:H0; [|done].
  apply digit_val_inv in H0 as [Hd0 ->].
  assert (rest <> [] -> d0 <> 0) as Hd. { intros Hr ->. by destruct Hz. }
  destruct rest as [|b1 rest]; cbn [digits_val] in Hv.
  { injection Hv as <-. split; [lia|]. rewrite dec_u8_cases by lia.
    destruct (Z.ltb_spec (0 * 10 + d0) 10); [do 2 f_equal; lia|lia]. }
  specialize (Hd ltac:(done)). destruct (digit_val b1) as [d1|] eqn:H1; [|done].
  apply digit_val_inv in H1 as [Hd1 ->]. destruct rest as [|b2 rest]; cbn [digits_val] in Hv.
  { injection Hv as <-. split; [lia|]. rewrite dec_u8_cases by lia.
    rewrite (proj2 (Z.ltb_ge _ _)), (proj2 (Z.ltb_lt _ _)) by lia. repeat f_equal; lia. }
  destruct (digit_val b2) as [d2|] eqn:H2; [|done]. apply digit_val_inv in H2 as [Hd2 ->].
  destruct rest as [|b3 rest]; [|cbn in Hlen; lia]. cbn [digits_val] in Hv. injection Hv as <-.
  split; [lia|]. rewrite dec_u8_cases by lia. rewrite !(proj2 (Z.ltb_ge _ _)) by lia. repeat f_equal; lia.
Qed.

(** ** Addresses *)

Fixpoint join (sep : u8) (parts : list (list u8)) : list u8 :=
  match parts with
  | [] => []
  | [part] => part
  | part :: parts => part ++ sep :: join sep parts
  end.

Lemma split_on_nonempty sep l : split_on sep l <> [].
Proof. destruct l as [|b l]; cbn; [done|]. destruct (split_on sep l); [done|]. by case_bool_decide. Qed.

Lemma join_split sep l : join sep (split_on sep l) = l.
Proof.
  induction l as [|b l IH]; [done|]. cbn [split_on]. pose proof (split_on_nonempty sep l).
  destruct (split_on sep l) as [|part parts]; [done|]. case_bool_decide as Hb; [subst b|].
  - change (sep :: join sep (part :: parts) = sep :: l). by rewrite IH.
  - destruct parts; cbn [join app] in *; by rewrite IH.
Qed.

Lemma split_on_none sep p : sep ∉ p -> split_on sep p = [p].
Proof.
  induction p as [|b p IH]; [done|]. rewrite not_elem_of_cons. intros [Hb Hp]. cbn [split_on].
  rewrite IH by done. by rewrite bool_decide_eq_false_2 by congruence.
Qed.

Lemma split_on_app sep p l : sep ∉ p -> split_on sep (p ++ sep :: l) = p :: split_on sep l.
Proof.
  induction p as [|b p IH]; cbn [app split_on].
  - intros _. pose proof (split_on_nonempty sep l). destruct (split_on sep l); [done|].
    by rewrite bool_decide_eq_true_2.
  - rewrite not_elem_of_cons. intros [Hb Hp]. rewrite IH by done.
    by rewrite bool_decide_eq_false_2 by congruence.
Qed.

Lemma dec_u8_no_dot n : 0 <= n < 256 -> dot ∉ dec_u8 n.
Proof.
  intros H. rewrite dec_u8_cases by done.
  repeat case_match; rewrite ?not_elem_of_cons; split_and?; try apply not_elem_of_nil;
    intros E; symmetry in E; apply digit_not_dot in E; lia.
Qed.

Lemma parse_display_ipv4 a : is_u32 a -> parse_ipv4 (display_ipv4 a) = Some a.
Proof.
  unfold is_u32. intros H. unfold parse_ipv4, display_ipv4. cbn [app].
  pose proof (fun x => Z.mod_pos_bound x 256 eq_refl) as Hm.
  rewrite !split_on_app by (apply dec_u8_no_dot, Hm). rewrite split_on_none by (apply dec_u8_no_dot, Hm).
  cbn [map]. rewrite !parse_dec_u8 by apply Hm. f_equal. clear Hm.
  change (2 ^ 24) with 16777216. change (2 ^ 16) with 65536. change (2 ^ 8) with 256.
  change (2 ^ 32) with 4294967296 in H. lia.
Qed.

Lemma parse_ipv4_inv s a : parse_ipv4 s = Some a -> is_u32 a /\ s = display_ipv4 a.
Proof.
  unfold parse_ipv4. pose proof (join_split dot s) as Hj.
  destruct (split_on dot s) as [|p1 [|p2 [|p3 [|p4 [|p5 ps]]]]]; cbn [map]; try done; repeat case_match; try done.
  intros [= <-].
  repeat match goal with H : parse_octet _ = Some _ |- _ => apply parse_octet_inv in H as [? ->] end.
  cbn [join] in Hj. subst s. unfold is_u32, display_ipv4.
  change (2 ^ 24) with 16777216. change (2 ^ 16) with 65536. change (2 ^ 8) with 256.
  change (2 ^ 32) with 4294967296. split; [lia|]. cbn [app]. repeat (f_equal; try lia).
Qed.

(** ** Properties *)

Definition command_strings (c : Command) : list rstring :=
  match c with CmdAdd name _ _ | CmdRemove name | CmdReset name => [name] | CmdList => [] end.

(** What [clap] guarantees: arguments are UTF-8, a port has 16 bits. *)
Definition command_wf (c : Command) : Prop :=
  Forall (fun s => utf8_valid s = true) (command_strings c) /\
  match c with CmdAdd _ _ port => is_u16 port | _ => True end.

Lemma cli_request_strings c req : cli_request c = Ok req -> request_strings req = command_strings c.
Proof. destruct c; cbn; repeat case_match; intros; by simplify_eq. Qed.

Lemma cli_request_wf c req :
  command_wf c -> Forall str_fits (command_strings c) -> cli_request c = Ok req -> request_wf req.
Proof.
  intros [Hv Hp] Hf E. split.
  - rewrite (cli_request_strings c req E). by apply (proj2 (Forall_and str_fits _)).
  - destruct c; cbn in E; [|by injection E as <-..]. destruct (parse_ipv4 addr) as [a|] eqn:Ha; simplify_eq.
    split; [|done]. by apply parse_ipv4_inv in Ha as [? _].
Qed.

Section runs.
Context {B : Type} `{!BytesCrate B, !BytesLaws B}.

Lemma cli_main_sent (writer : B) next command req :
  as_ref writer = [] -> cli_request command = Ok req -> Forall str_fits (request_strings req) ->
  run_sent (cli_main (Ok tt) (Ok tt) next writer command) = request_wire req.
Proof.
  intros Hw E Hf. unfold cli_main. rewrite E.
  destruct (encode_request_writes (B:=B) req Hf writer) as (b & -> & Hb). cbn. by rewrite Hb, Hw.
Qed.

Lemma cli_main_refused (writer : B) connect flush next command :
  connect <> Ok tt \/ flush <> Ok tt \/ ~ (exists req, cli_request command = Ok req) \/
    ~ Forall str_fits (command_strings command) ->
  exists msg, run_lines (cli_main connect flush next writer command) = [Diag msg] /\
    run_sent (cli_main connect flush next writer command) = [].
Proof.
  unfold cli_main. intros H. destruct connect as [[]|e]; [|by eexists].
  destruct (cli_request command) as [req|msg] eqn:E; [|by eexists].
  destruct (decide (Forall str_fits (request_strings req))) as [Hf|Hf].
  - destruct (encode_request_writes (B:=B) req Hf writer) as (b & -> & _).
    destruct flush as [[]|e]; [|by eexists]. rewrite (cli_request_strings command req E) in Hf.
    by destruct H as [H|[H|[[] |H]]]; [..|eexists|].
  - destruct (encode_request_refuses (B:=B) req Hf writer) as (b & -> & _). by eexists.
Qed.
End runs.

(** The addresses the tool accepts are exactly the ones it prints: a string
    parses to an address if and only if it is that address in dotted decimal,
    and the address has 32 bits. *)
Theorem parse_ipv4_exact s a : parse_ipv4 s = Some a <-> is_u32 a /\ s = display_ipv4 a.
Proof. split; [apply parse_ipv4_inv|]. intros [? ->]. by apply parse_display_ipv4. Qed.

(** What the user typed is what the list shows: a connection added with an
    address and a port is listed with the very text of that address. *)
Theorem cli_lists_what_was_added name text port req :
  cli_request (CmdAdd name text port) = Ok req ->
  exists addr, req = ReqAdd name addr port /\ is_u32 addr /\
    forall path connected, connection_line (mkConnectionInfo name addr port path connected) =
      lit "- " ++ name ++ lit ": " ++ text ++ lit ":" ++ dec_u16 port ++ lit " (PTY: " ++ path ++
      lit ") " ++ (if connected then lit "[CONNECTED]" else lit "[OFFLINE]").
Proof.
  cbn. destruct (parse_ipv4 text) as [a|] eqn:E; [|done]. intros [= <-]. apply parse_ipv4_inv in E as [? ->].
  by exists a.
Qed.

Section properties.
Context {B : Type} `{!BytesCrate B, !BytesLaws B}.

(** A command with well-formed arguments reaches the daemon: when the
    socket works, the bytes the tool sends are decoded by the daemon as the
    command's request, and nothing is left over. *)
Theorem cli_command_reaches_daemon (writer src : B) next command req :
  as_ref writer = [] -> command_wf command -> Forall str_fits (command_strings command) ->
  cli_request command = Ok req ->
  as_ref src = run_sent (cli_main (Ok tt) (Ok tt) next writer command) ->
  exists src', decode_request src = Done (Ok (Some req), src') /\ as_ref src' = [].
Proof.
  intros Hw Hc Hf E Hs. pose proof (cli_request_wf _ _ Hc Hf E) as Hwf.
  rewrite (cli_main_sent writer next command req Hw E) in Hs
    by by rewrite (cli_request_strings _ _ E).
  eapply run_reads; [by apply reads_request|]. by rewrite app_nil_r.
Qed.

(** When anything is wrong (no socket, a bad address, a name of more than
    255 bytes, a failed write) the tool sends no byte of the request and prints
    one line, on the error output. *)
Theorem cli_sends_all_or_nothing (writer : B) connect flush next command :
  connect <> Ok tt \/ flush <> Ok tt \/ ~ (exists req, cli_request command = Ok req) \/
    ~ Forall str_fits (command_strings command) ->
  exists msg, run_lines (cli_main connect flush next writer command) = [Diag msg] /\
    run_sent (cli_main connect flush next writer command) = [].
Proof. apply cli_main_refused. Qed.
End properties.

(** ** Witnesses *)

Module CliWitness.
Import ListBytes.

Definition add_esp : Command := CmdAdd (lit "esp") (lit "192.168.1.42") 15113.

Lemma cli_lists_what_was_added_witness : exists addr,
  ReqAdd (lit "esp") 3232235818 15113 = ReqAdd (lit "esp") addr 15113 /\ is_u32 addr /\
  connection_line (mkConnectionInfo (lit "esp") addr 15113 (lit "/dev/pts/3") true) =
    lit "- esp: 192.168.1.42:15113 (PTY: /dev/pts/3) [CONNECTED]".
Proof.
  destruct (cli_lists_what_was_added (lit "esp") (lit "192.168.1.42") 15113
    (ReqAdd (lit "esp") 3232235818 15113) ltac:(by vm_compute)) as (addr & E & Ha & H).
  exists addr. split_and!; [done..|]. by rewrite H.
Defined.

Lemma cli_command_reaches_daemon_witness : exists src',
  decode_request (B:=list u8) ([x01; x03; x65; x73; x70; xc0; xa8; x01; x2a; x3b; x09])
    = Done (Ok (Some (ReqAdd (lit "esp") 3232235818 15113)), src') /\ src' = [].
Proof.
  destruct (cli_command_reaches_daemon (B:=list u8) []
    [x01; x03; x65; x73; x70; xc0; xa8; x01; x2a; x3b; x09] None add_esp
    (ReqAdd (lit "esp") 3232235818 15113)) as (src' & E & Hs); try done.
  - split; [by apply Forall_singleton|done].
  - apply Forall_singleton. by apply Nat.leb_le.
  - by exists src'.
Defined.

Lemma cli_sends_all_or_nothing_witness : exists msg,
  run_lines (cli_main (B:=list u8) (Ok tt) (Ok tt) None [] (CmdAdd (lit "a") (lit "1.2.3.04") 1)) = [Diag msg] /\
  run_sent (cli_main (B:=list u8) (Ok tt) (Ok tt) None [] (CmdAdd (lit "a") (lit "1.2.3.04") 1)) = [].
Proof.
  apply (cli_sends_all_or_nothing (B:=list u8)). right. right. left. intros (req & E). by vm_compute in E.
Defined.
End CliWitness.
