(* ===== verification/AsyncPty.v ===== *)
(** * The pseudo-terminal (daemon/src/async_pty.rs)

    [AsyncPty] wraps the master side of a PTY in packet mode and turns what the
    slave application does into data, line-setting changes and control packets.
    The [nix] crate and the kernel are parameters: [NixTermios] is the view of
    [termios] the code uses, [PtyPoll] what the calls of one round of the loop of
    [read] return.  The comparison and the translation of line settings need
    nothing of the constants; only the theorem on their range does
    ([TermiosMasks]). *)
From S2P Require Import Prelude.
From stdpp Require Import base numbers list strings.
#[local] Open Scope Z_scope.

(** [nix::sys::termios::BaudRate] on Linux: the variants the code names, and
    every other one. *)
Inductive BaudRate :=
  | B50 | B75 | B110 | B134 | B150 | B200 | B300 | B600 | B1200 | B1800 | B2400 | B4800
  | B9600 | B19200 | B38400 | B57600 | B115200 | B230400 | B460800 | B500000 | B576000
  | B921600 | B1000000 | B1152000 | B1500000 | B2000000 | B2500000 | B3000000 | B3500000
  | B4000000
  | BOther (code : Z).

#[export] Instance BaudRate_eq_dec : EqDecision BaudRate.
Proof. solve_decision. Defined.

(** The [termios] structure and its flag constants, as bit sets in [Z]. *)
Class NixTermios (T : Type) := {
  cfgetispeed : T -> BaudRate;
  control_flags : T -> Z;
  local_flags : T -> Z;
  (* [tio.local_flags |= f] *)
  or_local_flags : T -> Z -> T;
  CSIZE : Z; CS5 : Z; CS6 : Z; CS7 : Z; CS8 : Z;
  PARENB : Z; PARODD : Z; CSTOPB : Z; CRTSCTS : Z;
  EXTPROC : Z;
}.

(** [flags.contains(f)]. *)
Definition contains (flags f : Z) : bool := bool_decide (Z.land flags f = f).

Record TermiosChange := mkTermiosChange {
  tc_baudrate : Z;
  tc_data_bits : u8;
  tc_parity : u8;
  tc_stop_bits : u8;
  tc_hw_flow_ctl : bool;
}.

Inductive PtyReadResult :=
  | PtyData (n : nat)
  | PtyTermiosChange (c : TermiosChange)
  | PtyControlMessage (c : u8).

Definition TIOCPKT_IOCTL : Z := 64.

Definition speed_to_u32 (speed : BaudRate) : Z :=
  match speed with
  | B50 => 50 | B75 => 75 | B110 => 110 | B134 => 134 | B150 => 150 | B200 => 200
  | B300 => 300 | B600 => 600 | B1200 => 1200 | B1800 => 1800 | B2400 => 2400
  | B4800 => 4800 | B9600 => 9600 | B19200 => 19200 | B38400 => 38400 | B57600 => 57600
  | B115200 => 115200 | B230400 => 230400 | B460800 => 460800 | B500000 => 500000
  | B576000 => 576000 | B921600 => 921600 | B1000000 => 1000000 | B1152000 => 1152000
  | B1500000 => 1500000 | B2000000 => 2000000 | B2500000 => 2500000 | B3000000 => 3000000
  | B3500000 => 3500000 | B4000000 => 4000000
  | BOther _ => 9600
  end.

Section termios.
Context {T : Type} `{!NixTermios T}.

Definition get_termios_change (tio : T) : TermiosChange :=
  let baudrate := speed_to_u32 (cfgetispeed tio) in
  let size := Z.land (control_flags tio) CSIZE in
  let data_bits :=
    if bool_decide (size = CS5) then x05 else
    if bool_decide (size = CS6) then x06 else
    if bool_decide (size = CS7) then x07 else
    if bool_decide (size = CS8) then x08 else x00 in
  let parity :=
    if contains (control_flags tio) PARENB && contains (control_flags tio) PARODD then x01
    else if contains (control_flags tio) PARENB && negb (contains (control_flags tio) PARODD) then x02
    else x00 in
  let stop_bits := if contains (control_flags tio) CSTOPB then x02 else x01 in
  let hw_flow_ctl := contains (control_flags tio) CRTSCTS in
  mkTermiosChange baudrate data_bits parity stop_bits hw_flow_ctl.

Definition check_termios_change (old new : T) : bool :=
  let same mask := bool_decide (Z.land (control_flags old) mask = Z.land (control_flags new) mask) in
  if bool_decide (cfgetispeed old <> cfgetispeed new) then true else
  if negb (same CSIZE) then true else
  if negb (same (Z.lor PARENB PARODD)) then true else
  if negb (same CRTSCTS) then true else
  negb (same CSTOPB).
End termios.

(** ** [AsyncPty::read] *)

(** What the system calls of one round of the loop return.  [poll_readv] is the
    bytes [readv] scattered over the control byte and the buffer; the two
    [tcgetattr]s are around [set_extproc], itself a [tcgetattr] and a
    [tcsetattr] on the slave. *)
Inductive readv_result :=
  | ReadvOk (bytes : list u8)
  | ReadvAgain
  | ReadvErr (e : io_error).

Record PtyPoll (T : Type) := mkPtyPoll {
  poll_readable : io_result unit;
  poll_readv : readv_result;
  poll_tcgetattr : io_result T;
  poll_extproc_get : io_result T;
  poll_extproc_set : T -> io_result unit;
  poll_tcgetattr_again : io_result T;
}.
Arguments mkPtyPoll {T} _ _ _ _ _ _.
Arguments poll_readable {T} _.
Arguments poll_readv {T} _.
Arguments poll_tcgetattr {T} _.
Arguments poll_extproc_get {T} _.
Arguments poll_extproc_set {T} _ _.
Arguments poll_tcgetattr_again {T} _.

(** What is left of the object once the descriptors are parameters: the line
    settings it saw last.  [buf] is the caller's buffer. *)
Record AsyncPty (T : Type) := mkAsyncPty { current_tio : T }.
Arguments mkAsyncPty {T} _.
Arguments current_tio {T} _.

(** One round of the loop returns, or goes on with the buffer as it is now. *)
Inductive round (T : Type) :=
  | RoundReturn (r : io_result PtyReadResult) (pty : AsyncPty T) (buf : list u8)
  | RoundAgain (pty : AsyncPty T) (buf : list u8).
Arguments RoundReturn {T} r pty buf.
Arguments RoundAgain {T} pty buf.

(** What the calls of [AsyncPty::new] return. *)
Record PtyOpen (T : Type) := mkPtyOpen {
  open_getfl : io_result Z;
  open_setfl : Z -> io_result unit;
  open_tiocpkt : io_result unit;
  open_ptsname : io_result (list u8);
  open_slave : list u8 -> io_result unit;
  open_extproc_get : io_result T;
  open_extproc_set : T -> io_result unit;
  open_tcgetattr : io_result T;
  open_async_fd : io_result unit;
}.
Arguments open_getfl {T} _.
Arguments open_setfl {T} _ _.
Arguments open_tiocpkt {T} _.
Arguments open_ptsname {T} _.
Arguments open_slave {T} _ _.
Arguments open_extproc_get {T} _.
Arguments open_extproc_set {T} _ _.
Arguments open_tcgetattr {T} _.
Arguments open_async_fd {T} _.

Section read.
Context {T : Type} `{!NixTermios T}.

(** [set_extproc] on Linux, from the [tcgetattr] and [tcsetattr] it calls. *)
Definition set_extproc (tcgetattr : io_result T) (tcsetattr : T -> io_result unit) :
    io_result unit :=
  tio ← tcgetattr;
  tcsetattr (or_local_flags tio EXTPROC).

(** [AsyncPty::new]; [O_NONBLOCK] is [nix]'s. *)
Definition async_pty_new (O_NONBLOCK : Z) (o : PtyOpen T) : io_result (AsyncPty T) :=
  flags ← open_getfl o;
  open_setfl o (Z.lor flags O_NONBLOCK) ;;
  open_tiocpkt o ;;
  slave_name ← open_ptsname o;
  open_slave o slave_name ;;
  set_extproc (open_extproc_get o) (open_extproc_set o) ;;
  tio ← open_tcgetattr o;
  open_async_fd o ;;
  mret (mkAsyncPty tio).

(** The termios the [TIOCPKT_IOCTL] branch compares with: read again after
    [EXTPROC] had to be set again. *)
Definition read_new_tio (p : PtyPoll T) : io_result T :=
  new_tio ← poll_tcgetattr p;
  if contains (local_flags new_tio) EXTPROC then mret new_tio else
  set_extproc (poll_extproc_get p) (poll_extproc_set p) ;;
  poll_tcgetattr_again p.

Definition read_round (p : PtyPoll T) (pty : AsyncPty T) (buf : list u8) : round T :=
  match poll_readable p with
  | Err e => RoundReturn (Err e) pty buf
  | Ok _ =>
      match poll_readv p with
      | ReadvOk [] => RoundReturn (Err (IoError UnexpectedEof "True EOF reached")) pty buf
      | ReadvOk (ctrl :: data) =>
          let n := S (length data) in
          let buf := data ++ drop (length data) buf in
          if bool_decide (u8_val ctrl = 0) then
            if bool_decide (1 < n)%nat then RoundReturn (Ok (PtyData (n - 1))) pty buf
            else RoundAgain pty buf
          else if bool_decide (Z.land (u8_val ctrl) TIOCPKT_IOCTL <> 0) then
            match read_new_tio p with
            | Err e => RoundReturn (Err e) pty buf
            | Ok new_tio =>
                if check_termios_change (current_tio pty) new_tio then
                  RoundReturn (Ok (PtyTermiosChange (get_termios_change new_tio)))
                    (mkAsyncPty new_tio) buf
                else RoundAgain pty buf
            end
          else RoundReturn (Ok (PtyControlMessage ctrl)) pty buf
      | ReadvAgain => RoundAgain pty buf
      | ReadvErr e => RoundReturn (Err e) pty buf
      end
  end.

(** The loop, over the rounds that happen; [None] while it still waits. *)
Fixpoint pty_read (polls : list (PtyPoll T)) (pty : AsyncPty T) (buf : list u8) :
    option (io_result PtyReadResult * AsyncPty T * list u8) :=
  match polls with
  | [] => None
  | p :: polls =>
      match read_round p pty buf with
      | RoundReturn r pty buf => Some (r, pty, buf)
      | RoundAgain pty buf => pty_read polls pty buf
      end
  end.
End read.

(** ** [AsyncWrite] *)

Inductive poll (A : Type) := Pending | Ready (a : A).
Arguments Pending {A}.
Arguments Ready {A} a.

(** [poll_write], over what [poll_write_ready] and then [write] return in each
    turn of its loop; [None] is a write that would block, which [try_io] turns
    into another turn. *)
Fixpoint poll_write (rounds : list (poll (io_result (option (io_result nat))))) : poll (io_result nat) :=
  match rounds with
  | [] | Pending :: _ => Pending
  | Ready (Err e) :: _ => Ready (Err e)
  | Ready (Ok (Some result)) :: _ => Ready result
  | Ready (Ok None) :: rounds => poll_write rounds
  end.

Definition poll_flush : poll (io_result unit) := Ready (Ok tt).
Definition poll_shutdown : poll (io_result unit) := Ready (Ok tt).

(** A result of [poll_write] is the result of the last write it tried, or the
    error of the readiness it waited for; every write before would have blocked. *)
Lemma poll_write_ready rounds r :
  poll_write rounds = Ready r ->
  exists k rest, rounds = replicate k (Ready (Ok None)) ++ rest /\
    (head rest = Some (Ready (Ok (Some r))) \/ exists e, r = Err e /\ head rest = Some (Ready (Err e))).
Proof.
  induction rounds as [|[|[[r'|]|e]] rounds IH]; cbn; try done.
  - intros [= ->]. exists O, (Ready (Ok (Some r)) :: rounds). auto.
  - intros (k & rest & -> & H)%IH. by exists (S k), rest.
  - intros [= <-]. exists O, (Ready (Err e) :: rounds). eauto.
Qed.

(** ** Line settings *)

Section line.
Context {T : Type} `{!NixTermios T}.

(** The bits of the control flags that are line settings. *)
Definition line_mask : Z := Z.lor CSIZE (Z.lor (Z.lor PARENB PARODD) (Z.lor CRTSCTS CSTOPB)).

(** Two [termios] with the same line settings. *)
Definition same_line (t1 t2 : T) : Prop :=
  cfgetispeed t1 = cfgetispeed t2 /\
  Z.land (control_flags t1) line_mask = Z.land (control_flags t2) line_mask.

#[export] Instance same_line_equivalence : Equivalence same_line.
Proof. unfold same_line. split; [done|by intros ?? [-> ->]|by intros ??? [-> ->]]. Qed.

Lemma land_lor_eq a b m1 m2 :
  Z.land a (Z.lor m1 m2) = Z.land b (Z.lor m1 m2) <->
  Z.land a m1 = Z.land b m1 /\ Z.land a m2 = Z.land b m2.
Proof.
  assert (forall x m m', Z.land x m = Z.land (Z.land x (Z.lor m m')) m) as Hmask.
  { intros x m m'. apply Z.bits_inj'. intros i Hi. rewrite !Z.land_spec, Z.lor_spec.
    by destruct (Z.testbit x i), (Z.testbit m i), (Z.testbit m' i). }
  split.
  - intros E. rewrite (Hmask a m1 m2), (Hmask b m1 m2), E. split; [done|].
    rewrite (Z.lor_comm m1) in E. by rewrite (Hmask a m2 m1), (Hmask b m2 m1), E.
  - intros [E1 E2]. by rewrite !Z.land_lor_distr_r, E1, E2.
Qed.

Lemma contains_line f t1 t2 :
  Z.land (control_flags t1) f = Z.land (control_flags t2) f ->
  contains (control_flags t1) f = contains (control_flags t2) f.
Proof. unfold contains. by intros ->. Qed.

Lemma same_line_masks t1 t2 : same_line t1 t2 <->
  cfgetispeed t1 = cfgetispeed t2 /\
  Z.land (control_flags t1) CSIZE = Z.land (control_flags t2) CSIZE /\
  Z.land (control_flags t1) (Z.lor PARENB PARODD) = Z.land (control_flags t2) (Z.lor PARENB PARODD) /\
  Z.land (control_flags t1) CRTSCTS = Z.land (control_flags t2) CRTSCTS /\
  Z.land (control_flags t1) CSTOPB = Z.land (control_flags t2) CSTOPB.
Proof. unfold same_line, line_mask.
  by rewrite (land_lor_eq _ _ CSIZE), (land_lor_eq _ _ (Z.lor PARENB PARODD)), (land_lor_eq _ _ CRTSCTS).
Qed.

Lemma check_false_same_line t1 t2 : check_termios_change t1 t2 = false <-> same_line t1 t2.
Proof.
  rewrite same_line_masks. unfold check_termios_change.
  repeat case_bool_decide; cbn; split; intros; destruct_and?; try done; by destruct_and!.
Qed.

#[export] Instance get_termios_change_proper : Proper (same_line ==> eq) get_termios_change.
Proof.
  intros t1 t2 (E1 & E2 & E3 & E4 & E5)%same_line_masks. apply land_lor_eq in E3 as [E3 E3'].
  unfold get_termios_change. by rewrite E1, E2, (contains_line _ _ _ E3), (contains_line _ _ _ E3'),
    (contains_line _ _ _ E4), (contains_line _ _ _ E5).
Qed.

#[export] Instance check_termios_change_proper :
  Proper (same_line ==> same_line ==> eq) check_termios_change.
Proof.
  intros t1 t2 E t3 t4 E'. destruct (check_termios_change t1 t3) eqn:H1, (check_termios_change t2 t4) eqn:H2; try done.
  - apply check_false_same_line in H2. rewrite <-E, <-E' in H2. apply check_false_same_line in H2. congruence.
  - apply check_false_same_line in H1. rewrite E, E' in H1. apply check_false_same_line in H1. congruence.
Qed.
End line.

(** ** What one round sees *)

Section rounds.
Context {T : Type} `{!NixTermios T}.

(** The settings a round reads after a [TIOCPKT_IOCTL] packet, and the data of
    a data packet. *)
Definition observed (p : PtyPoll T) : option T :=
  match poll_readable p, poll_readv p with
  | Ok _, ReadvOk (ctrl :: _) =>
      if bool_decide (Z.land (u8_val ctrl) TIOCPKT_IOCTL <> 0)
      then match read_new_tio p with Ok t => Some t | Err _ => None end else None
  | _, _ => None
  end.

Definition poll_data (p : PtyPoll T) : list u8 :=
  match poll_readable p, poll_readv p with
  | Ok _, ReadvOk (ctrl :: data) => if bool_decide (u8_val ctrl = 0) then data else []
  | _, _ => []
  end.

(** A round that tells the daemon nothing: no byte was ready, an empty data
    packet, or settings equal to the ones already known. *)
Definition idle (tio : T) (p : PtyPoll T) : Prop :=
  poll_readable p = Ok tt /\
  match poll_readv p with
  | ReadvAgain => True
  | ReadvOk (ctrl :: data) =>
      if bool_decide (u8_val ctrl = 0) then data = []
      else exists t, observed p = Some t /\ same_line tio t
  | _ => False
  end.

Lemma land_zero_l z : Z.land 0 z = 0.
Proof. done. Qed.

Lemma round_again p pty buf pty' buf' :
  read_round p pty buf = RoundAgain pty' buf' ->
  idle (current_tio pty) p /\ pty' = pty /\ poll_data p = [] /\
  (forall t, observed p = Some t -> same_line (current_tio pty) t).
Proof.
  unfold read_round, idle, poll_data, observed.
  destruct (poll_readable p) as [[]|]; [|done].
  destruct (poll_readv p) as [[|ctrl data]| |e]; try done.
  - case_bool_decide as H0.
    + case_bool_decide as Hn; [done|]. intros [= <- <-]. destruct data; [|cbn in Hn; lia].
      rewrite H0. split_and!; try done.
    + case_bool_decide as Hi; [|done]. destruct (read_new_tio p) as [t|]; [|done].
      destruct (check_termios_change _ _) eqn:Hc; [done|]. intros [= <- <-].
      apply check_false_same_line in Hc. split_and!; eauto. by intros ? [= <-].
  - intros [= <- <-]. done.
Qed.

Lemma round_idle p pty buf :
  idle (current_tio pty) p -> exists buf', read_round p pty buf = RoundAgain pty buf'.
Proof.
  unfold read_round, idle, observed. intros [-> H].
  destruct (poll_readv p) as [[|ctrl data]| |e]; try done; [|eauto].
  case_bool_decide; [subst; eauto|]. destruct H as (t & Ho & Hs).
  case_bool_decide; [|done]. destruct (read_new_tio p) as [t'|]; [|done].
  injection Ho as ->. apply check_false_same_line in Hs. rewrite Hs. eauto.
Qed.

Lemma round_return p pty buf r pty' buf' :
  read_round p pty buf = RoundReturn r pty' buf' ->
  match r with
  | Ok (PtyData n) =>
      (0 < n)%nat /\ length (poll_data p) = n /\ take n buf' = poll_data p /\ pty' = pty
  | Ok (PtyTermiosChange c) =>
      observed p = Some (current_tio pty') /\
      ~ same_line (current_tio pty) (current_tio pty') /\
      c = get_termios_change (current_tio pty')
  | Ok (PtyControlMessage x) => x <> x00 /\ observed p = None /\ pty' = pty
  | Err _ => pty' = pty
  end.
Proof.
  unfold read_round, poll_data, observed.
  destruct (poll_readable p) as [[]|]; [|by intros [= <- <- <-]].
  destruct (poll_readv p) as [[|ctrl data]| |e]; try done; try (by intros [= <- <- <-]).
  case_bool_decide as H0.
  - case_bool_decide as Hn; [|done]. intros [= <- <- <-]. cbn in *. rewrite Nat.sub_0_r.
    split_and!; [lia|done| |done]. by rewrite take_app_length.
  - case_bool_decide as Hi.
    + destruct (read_new_tio p) as [t|]; [|by intros [= <- <- <-]].
      destruct (check_termios_change _ _) eqn:Hc; [|done]. intros [= <- <- <-]. cbn.
      split_and!; [done| |done]. intros Hs%check_false_same_line. congruence.
    + intros [= <- <- <-]. split_and!; [|done..]. by intros ->.
Qed.
End rounds.

(** ** Properties *)

(** What the Linux constants satisfy: the four character sizes are all the
    values under [CSIZE] and differ. *)
Class TermiosMasks (T : Type) `{!NixTermios T} : Prop := {
  csize_values z : Z.land z CSIZE = CS5 \/ Z.land z CSIZE = CS6 \/
                   Z.land z CSIZE = CS7 \/ Z.land z CSIZE = CS8;
}.

Section properties.
Context {T : Type} `{!NixTermios T}.

Lemma termios_change_range `{!TermiosMasks T} (tio : T) :
  let c := get_termios_change tio in
  tc_data_bits c ∈ [x05; x06; x07; x08] /\ tc_stop_bits c ∈ [x01; x02] /\
  tc_parity c ∈ [x00; x01; x02] /\ 50 <= tc_baudrate c <= 4000000 /\ is_u32 (tc_baudrate c).
Proof.
  assert (50 <= speed_to_u32 (cfgetispeed tio) <= 4000000) as Hs.
  { unfold speed_to_u32. case_match; lia. }
  cbn. split_and!.
  - destruct (csize_values (control_flags tio)) as [H|[H|[H|H]]];
      repeat case_bool_decide; rewrite ?elem_of_cons; tauto.
  - case_match; rewrite ?elem_of_cons; tauto.
  - repeat case_match; rewrite ?elem_of_cons; tauto.
  - lia.
  - lia.
  - unfold is_u32. lia.
Qed.

(** C27. [check_termios_change] answers no exactly when the two [termios] have
    the same speed and the same size, parity, flow-control and stop bits; and
    then the configurations sent to the device are equal, so no change that
    matters is ever missed. *)
Theorem check_termios_change_exact (old new : T) :
  (check_termios_change old new = false <-> same_line old new) /\
  (get_termios_change old <> get_termios_change new -> check_termios_change old new = true).
Proof.
  split; [apply check_false_same_line|]. intros Hne.
  destruct (check_termios_change old new) eqn:E; [done|].
  apply check_false_same_line in E. by destruct Hne; rewrite E.
Qed.

(** Every configuration sent has the values the firmware accepts: 5 to 8
    data bits, 1 or 2 stop bits, a parity of 0, 1 or 2, and a baud rate of at
    most four million that fits in the message's 32 bits. *)
Theorem get_termios_change_range `{!TermiosMasks T} (tio : T) :
  let c := get_termios_change tio in
  tc_data_bits c ∈ [x05; x06; x07; x08] /\ tc_stop_bits c ∈ [x01; x02] /\
  tc_parity c ∈ [x00; x01; x02] /\ 50 <= tc_baudrate c <= 4000000 /\ is_u32 (tc_baudrate c).
Proof. apply termios_change_range. Qed.

(** C26. What [read] returns is what the PTY said since the previous call.
    The rounds it passed over carried no data and no new line settings; a
    [Data] result holds exactly the bytes of the last packet at the front of
    the buffer; a [TermiosChange] carries the settings just observed, which
    differ from the ones known before and are known from now on; any other
    result leaves the known settings as they were. *)
Theorem pty_read_faithful polls pty buf r pty' buf' :
  pty_read polls pty buf = Some (r, pty', buf') ->
  exists used p rest, polls = used ++ p :: rest /\
    Forall (fun q => poll_data q = [] /\
      forall t, observed q = Some t -> same_line (current_tio pty) t) used /\
    match r with
    | Ok (PtyData n) =>
        (0 < n)%nat /\ length (poll_data p) = n /\ take n buf' = poll_data p /\ pty' = pty
    | Ok (PtyTermiosChange c) =>
        observed p = Some (current_tio (T:=T) pty') /\
        ~ same_line (current_tio pty) (current_tio pty') /\
        c = get_termios_change (current_tio pty')
    | Ok (PtyControlMessage x) => x <> x00 /\ observed p = None /\ pty' = pty
    | Err _ => pty' = pty
    end.
Proof.
  revert buf. induction polls as [|p polls IH]; intros buf; cbn; [done|].
  destruct (read_round p pty buf) as [r1 pty1 buf1|pty1 buf1] eqn:E.
  - intros [= <- <- <-]. exists [], p, polls. split_and!; [done..|]. by apply round_return in E.
  - apply round_again in E as (_ & -> & Hd & Ho). intros H.
    destruct (IH _ H) as (used & p1 & rest & -> & Hused & Hr).
    exists (p :: used), p1, rest. split_and!; [done|by constructor|done].
Qed.

(** [read] waits exactly as long as the rounds are idle: it is still
    pending after some rounds precisely when none of them brought an error, a
    byte of data, a control packet or settings that differ from the known
    ones. *)
Theorem pty_read_pending polls (pty : AsyncPty T) buf :
  pty_read polls pty buf = None <-> Forall (idle (current_tio pty)) polls.
Proof.
  revert buf. induction polls as [|p polls IH]; intros buf; cbn; [done|]. rewrite Forall_cons.
  destruct (read_round p pty buf) as [r1 pty1 buf1|pty1 buf1] eqn:E.
  - split; [done|]. intros [Hi _]. apply (round_idle _ _ buf) in Hi as (? & ?). congruence.
  - apply round_again in E as (Hi & -> & _). rewrite IH. tauto.
Qed.
End properties.

(** ** Witnesses *)

(** [termios] on Linux: the flag words with the constants of [libc]. *)
Module LinuxTermios.
Record termios := mkTermios { speed : BaudRate; cflag : Z; lflag : Z }.

#[export] Instance linux_termios : NixTermios termios := {
  cfgetispeed := speed;
  control_flags := cflag;
  local_flags := lflag;
  or_local_flags t f := mkTermios (speed t) (cflag t) (Z.lor (lflag t) f);
  CSIZE := 48; CS5 := 0; CS6 := 16; CS7 := 32; CS8 := 48;
  PARENB := 256; PARODD := 512; CSTOPB := 64; CRTSCTS := 2147483648;
  EXTPROC := 65536;
}.

#[export] Instance linux_masks : TermiosMasks termios.
Proof.
  split. intros z. cbn.
  assert (Z.land z 48 = 16 * ((z / 16) mod 4)) as ->.
  { change 48 with (Z.shiftl (Z.ones 2) 4). change 4 with (2 ^ 2) at 2. rewrite <-(Z.land_ones (z / 16) 2) by done.
    apply Z.bits_inj'. intros i Hi. change (z / 16) with (z / 2 ^ 4). rewrite <-Z.shiftr_div_pow2 by done.
    rewrite Z.mul_comm. change 16 with (2 ^ 4). rewrite <-Z.shiftl_mul_pow2 by done.
    rewrite Z.shiftl_land, !Z.land_spec, !Z.shiftl_spec by done.
    destruct (decide (i < 4)).
    - rewrite !(Z.testbit_neg_r _ (i - 4)) by lia. by rewrite andb_false_r.
    - rewrite Z.shiftr_spec by lia. do 2 f_equal. lia. }
  pose proof (Z.mod_pos_bound (z / 16) 4 eq_refl). lia.
Qed.

Definition cooked : termios := mkTermios B9600 (48 + 64) 65536.
Definition fast : termios := mkTermios B115200 (32 + 256 + 512) 65536.
Definition ioctl_poll (t : termios) : PtyPoll termios :=
  mkPtyPoll (Ok tt) (ReadvOk [x40]) (Ok t) (Ok t) (fun _ => Ok tt) (Ok t).

Lemma get_termios_change_range_witness :
  get_termios_change fast = mkTermiosChange 115200 x07 x01 x01 false /\
  tc_data_bits (get_termios_change fast) ∈ [x05; x06; x07; x08].
Proof. split; [done|]. exact (proj1 (get_termios_change_range fast)). Defined.

Lemma pty_read_faithful_witness :
  observed (ioctl_poll fast) = Some fast /\ get_termios_change fast <> get_termios_change cooked.
Proof.
  destruct (pty_read_faithful [ioctl_poll cooked; ioctl_poll fast] (mkAsyncPty cooked) []
    (Ok (PtyTermiosChange (get_termios_change fast))) (mkAsyncPty fast) [] ltac:(by vm_compute))
    as (used & p & rest & E & _ & Ho & _).
  split; [|done]. destruct used as [|p1 [|p2 used]]; cbn in E; injection E.
  - intros _ <-. vm_compute in Ho. discriminate Ho.
  - intros _ <- _. exact Ho.
  - intros H. by destruct used.
Defined.
End LinuxTermios.
