(* ===== verification/TcpBridge.v ===== *)
(** * The TCP link (daemon/src/tcp_bridge.rs)

    [TcpBridge] owns the framed connection to the device, when there is one.
    The calls into tokio ([Framed::send], [Framed::next], [TcpStream::connect],
    [set_nodelay]) are parameters: each operation takes the results those calls
    would return.  The [Framed] object is represented by the socket it wraps. *)
From S2P Require Import Prelude DeviceMsg.
From stdpp Require Import base numbers list strings.
#[local] Open Scope Z_scope.

Inductive TcpBridgeStatus (A : Type) := Disconnected (e : io_error) | TcpOk (a : A).
Arguments Disconnected {A} e.
Arguments TcpOk {A} a.

Record TcpBridge (Sock : Type) := mkTcpBridge {
  tb_addr : Z;
  tb_port : Z;
  tb_framed : option Sock;
}.
Arguments mkTcpBridge {Sock} _ _ _.
Arguments tb_addr {Sock} _.
Arguments tb_port {Sock} _.
Arguments tb_framed {Sock} _.

Section bridge.
Context {Sock : Type}.
Implicit Types (tb : TcpBridge Sock).

Definition tcp_bridge_new (addr port : Z) : TcpBridge Sock := mkTcpBridge addr port None.

(** [self.framed = framed]. *)
Definition set_framed (framed : option Sock) tb : TcpBridge Sock :=
  mkTcpBridge (tb_addr tb) (tb_port tb) framed.

Definition not_connected : io_error := IoError NotConnected "not connected".

(** [sent] is what [framed.send(msg).await] returns. *)
Definition tcp_send (sent : io_result unit) tb : TcpBridgeStatus unit * TcpBridge Sock :=
  match tb_framed tb with
  | None => (Disconnected not_connected, tb)
  | Some _ =>
      match sent with
      | Ok _ => (TcpOk tt, tb)
      | Err e => (Disconnected e, set_framed None tb)
      end
  end.

(** [received] is what [framed.next().await] returns. *)
Definition tcp_next (received : option (io_result DeviceMessage)) tb :
    TcpBridgeStatus DeviceMessage * TcpBridge Sock :=
  match tb_framed tb with
  | None => (Disconnected not_connected, tb)
  | Some _ =>
      match received with
      | Some (Ok msg) => (TcpOk msg, tb)
      | Some (Err e) => (Disconnected e, set_framed None tb)
      | None => (Disconnected (IoError ConnectionAborted "client closed connection"),
                 set_framed None tb)
      end
  end.

(** [connect] is what [TcpStream::connect] returns, [nodelay] what
    [set_nodelay] on its socket does. *)
Definition tcp_try_connect (connect : io_result Sock) (nodelay : io_result unit) tb :
    TcpBridgeStatus unit * TcpBridge Sock :=
  match tb_framed tb with
  | Some _ => (TcpOk tt, tb)
  | None =>
      match connect with
      | Ok sock =>
          match nodelay with
          | Err e => (Disconnected e, tb)
          | Ok _ => (TcpOk tt, set_framed (Some sock) tb)
          end
      | Err e => (Disconnected e, tb)
      end
  end.
End bridge.
