(* ===== verification/Connection.v ===== *)
(** * The connection task (daemon/src/connection.rs)

    One task per connection moves bytes between the PTY and the device, keeps
    the TCP link alive with a bounded exponential backoff, and answers the
    daemon's control and status requests.  The state is the [ConnectionTask] of
    the code; a step takes what the awaited calls returned (the branch [select!]
    chose and the results of the I/O it does) and logs every interaction with
    the outside, in order.  [steps] is reachability by rule induction. *)
From S2P Require Import Prelude DeviceMsg AsyncPty TcpBridge.
From stdpp Require Import base numbers list strings.
#[local] Open Scope Z_scope.

(** ** Data *)

Inductive DeviceControlError := Unavailable.

(** A [oneshot::Sender] is the identity of its channel. *)
Abbreviation sender := nat (only parsing).

Abbreviation ctl_result := (result DeviceControlError DeviceControlResponse).

Inductive ConnectionTaskRequest :=
  | HardwareControl (ctl : DeviceControlRequest) (tx : sender)
  | Status (tx : sender).

(** Durations are in milliseconds. *)
Inductive ConnState :=
  | Connected
  | Reconnecting (backoff : Z) (pending : option DeviceMessage)
  | Resyncing (pending : DeviceMessage)
  | ShuttingDown.

Record ConnectionTask (T Sock : Type) := mkConnectionTask {
  conn_name : list u8;
  master : AsyncPty T;
  tcp : TcpBridge Sock;
  conn_state : ConnState;
  pty_buf : list u8;
  pending_hw_ctl : option sender;
}.
Arguments mkConnectionTask {T Sock} _ _ _ _ _ _.
Arguments conn_name {T Sock} _.
Arguments master {T Sock} _.
Arguments tcp {T Sock} _.
Arguments conn_state {T Sock} _.
Arguments pty_buf {T Sock} _.
Arguments pending_hw_ctl {T Sock} _.

(** What a step does to, or hears from, the outside. *)
Inductive interaction :=
  | PtyRead (r : io_result PtyReadResult) (buf : list u8)
  | PtyWrite (bytes : list u8) (r : io_result unit)
  | FrameSend (msg : DeviceMessage) (r : TcpBridgeStatus unit)
  | FrameNext (r : TcpBridgeStatus DeviceMessage)
  | Request (req : option ConnectionTaskRequest)
  | CtlReply (tx : sender) (r : ctl_result)
  | StatusReply (tx : sender) (connected : bool)
  | EventSend (closed : list u8)
  | Sleep (millis : Z).

Definition INITIAL_RECONNECT_BACKOFF : Z := 100.
Definition MAX_RECONNECT_BACKOFF : Z := 5000.

Definition next_backoff (backoff : Z) : Z := Z.min (backoff * 2) MAX_RECONNECT_BACKOFF.

(** ** The task monad *)

(** A computation of the task ends, panics, or is still waiting when the
    events it was given are used up. *)
Inductive progress (T Sock A : Type) :=
  | Finished (a : A) (task : ConnectionTask T Sock) (log : list interaction)
  | TaskPanic
  | Waiting.
Arguments Finished {T Sock A} a task log.
Arguments TaskPanic {T Sock A}.
Arguments Waiting {T Sock A}.

Definition task_m (T Sock A : Type) : Type := ConnectionTask T Sock -> progress T Sock A.

#[export] Instance task_ret T Sock : MRet (task_m T Sock) := fun A a t => Finished a t [].
#[export] Instance task_bind T Sock : MBind (task_m T Sock) := fun A A' k m t =>
  match m t with
  | Finished a t log =>
      match k a t with
      | Finished a' t log' => Finished a' t (log ++ log')
      | TaskPanic => TaskPanic
      | Waiting => Waiting
      end
  | TaskPanic => TaskPanic
  | Waiting => Waiting
  end.

Section operations.
Context {T Sock : Type} `{!NixTermios T}.
Abbreviation task := (ConnectionTask T Sock).
Abbreviation M := (task_m T Sock).

Definition log (i : interaction) : M unit := fun t => Finished tt t [i].
Definition waiting {A} : M A := fun _ => Waiting.
Definition task_panic {A} : M A := fun _ => TaskPanic.
Definition gets {A} (f : task -> A) : M A := fun t => Finished (f t) t [].

Definition set_state (s : ConnState) : M unit := fun t =>
  Finished tt (mkConnectionTask (conn_name t) (master t) (tcp t) s (pty_buf t) (pending_hw_ctl t)) [].
Definition set_tcp (tb : TcpBridge Sock) : M unit := fun t =>
  Finished tt (mkConnectionTask (conn_name t) (master t) tb (conn_state t) (pty_buf t) (pending_hw_ctl t)) [].
Definition set_pty (pty : AsyncPty T) (buf : list u8) : M unit := fun t =>
  Finished tt (mkConnectionTask (conn_name t) pty (tcp t) (conn_state t) buf (pending_hw_ctl t)) [].
Definition set_pending (p : option sender) : M unit := fun t =>
  Finished tt (mkConnectionTask (conn_name t) (master t) (tcp t) (conn_state t) (pty_buf t) p) [].

(** [self.pending_hw_ctl.take()]. *)
Definition take_pending : M (option sender) :=
  p ← gets pending_hw_ctl; set_pending None ;; mret p.

Definition fail_pending_ctl : M unit :=
  p ← take_pending;
  match p with Some tx => log (CtlReply tx (Err Unavailable)) | None => mret tt end.

(** [self.tcp.send(msg).await], [self.tcp.next()], [self.tcp.try_connect()]. *)
Definition bridge_send (msg : DeviceMessage) (sent : io_result unit) : M (TcpBridgeStatus unit) :=
  tb ← gets tcp;
  let '(r, tb) := tcp_send sent tb in
  set_tcp tb ;; log (FrameSend msg r) ;; mret r.

Definition bridge_next (received : option (io_result DeviceMessage)) :
    M (TcpBridgeStatus DeviceMessage) :=
  tb ← gets tcp;
  let '(r, tb) := tcp_next received tb in
  set_tcp tb ;; log (FrameNext r) ;; mret r.

Definition bridge_try_connect (connect : io_result Sock) (nodelay : io_result unit) :
    M (TcpBridgeStatus unit) :=
  tb ← gets tcp;
  let '(r, tb) := tcp_try_connect connect nodelay tb in
  set_tcp tb ;; mret r.

(** [self.master.read(&mut self.pty_buf)]. *)
Definition master_read (polls : list (PtyPoll T)) : M (io_result PtyReadResult) :=
  pty ← gets master;
  buf ← gets pty_buf;
  match pty_read polls pty buf with
  | None => waiting
  | Some (r, pty, buf) => set_pty pty buf ;; log (PtyRead r buf) ;; mret r
  end.

(** [&self.pty_buf[..n]], which panics out of range. *)
Definition pty_slice (n : nat) : M (list u8) :=
  buf ← gets pty_buf;
  if bool_decide (n <= length buf)%nat then mret (take n buf) else task_panic.
End operations.

(** ** Steps *)

(** The branch [select!] takes in [step_connected], with the results of the
    I/O its arm goes on to do ([sent] for a frame, [written] for the PTY). *)
Inductive connected_event (T : Type) :=
  | ShutdownFired
  | PtyReady (polls : list (PtyPoll T)) (sent : io_result unit)
  | TcpReady (received : option (io_result DeviceMessage)) (written : io_result unit)
  | CtlReady (req : option ConnectionTaskRequest) (sent : io_result unit).
Arguments ShutdownFired {T}.
Arguments PtyReady {T} polls sent.
Arguments TcpReady {T} received written.
Arguments CtlReady {T} req sent.

(** The branches of the two waiting loops: what they wait for comes with an
    [A], the results of what follows. *)
Inductive wait_event (A : Type) :=
  | WaitShutdown
  | WaitRequest (req : option ConnectionTaskRequest)
  | WaitDone (a : A).
Arguments WaitShutdown {A}.
Arguments WaitRequest {A} req.
Arguments WaitDone {A} a.

Section steps.
Context {T Sock : Type} `{!NixTermios T}.
Abbreviation task := (ConnectionTask T Sock).
Abbreviation M := (task_m T Sock).

(** The arms of [step_connected] that send a message read from the PTY. *)
Definition send_from_pty (msg : DeviceMessage) (sent : io_result unit) : M (option ConnState) :=
  r ← bridge_send msg sent;
  match r with
  | TcpOk _ => mret None
  | Disconnected _ =>
      fail_pending_ctl ;;
      mret (Some (Reconnecting INITIAL_RECONNECT_BACKOFF (Some msg)))
  end.

Definition step_connected (ev : connected_event T) : M (option ConnState) :=
  match ev with
  | ShutdownFired => mret (Some ShuttingDown)
  | PtyReady polls sent =>
      res ← master_read polls;
      match res with
      | Ok (PtyTermiosChange c) =>
          send_from_pty (Config (tc_baudrate c) (tc_data_bits c) (tc_stop_bits c)
                           (tc_parity c) (tc_hw_flow_ctl c)) sent
      | Ok (PtyData n) =>
          bytes ← pty_slice n;
          send_from_pty (from_slice bytes) sent
      | Ok (PtyControlMessage _) => mret None
      | Err _ => mret (Some ShuttingDown)
      end
  | TcpReady received written =>
      msg ← bridge_next received;
      match msg with
      | TcpOk (Data size data) =>
          let bytes := take (u8_usize size) data in
          log (PtyWrite bytes written) ;;
          match written with
          | Err _ => mret (Some ShuttingDown)
          | Ok _ => mret None
          end
      | TcpOk (ControlRes resp) =>
          p ← take_pending;
          match p with
          | Some tx => log (CtlReply tx (Ok resp)) ;; mret None
          | None => mret None
          end
      | TcpOk _ => mret None
      | Disconnected _ =>
          fail_pending_ctl ;;
          mret (Some (Reconnecting INITIAL_RECONNECT_BACKOFF None))
      end
  | CtlReady req sent =>
      log (Request req) ;;
      match req with
      | Some (HardwareControl ctl tx) =>
          p ← gets pending_hw_ctl;
          match p with
          | Some _ => log (CtlReply tx (Err Unavailable)) ;; mret None
          | None =>
              r ← bridge_send (ControlReq ctl) sent;
              match r with
              | TcpOk _ => set_pending (Some tx) ;; mret None
              | Disconnected _ =>
                  log (CtlReply tx (Err Unavailable)) ;;
                  mret (Some (Reconnecting INITIAL_RECONNECT_BACKOFF None))
              end
          end
      | Some (Status tx) => log (StatusReply tx true) ;; mret None
      | None => mret (Some ShuttingDown)
      end
  end.

(** The [loop { select! { ... } }] of [step_reconnecting] and
    [step_resyncing]: requests are refused until the awaited event, the
    shutdown signal or the end of the request channel. *)
Fixpoint wait_loop {A} (evs : list (wait_event A)) : M (option A) :=
  match evs with
  | [] => waiting
  | WaitShutdown :: _ => mret None
  | WaitDone a :: _ => mret (Some a)
  | WaitRequest req :: evs =>
      log (Request req) ;;
      match req with
      | Some (HardwareControl _ tx) => log (CtlReply tx (Err Unavailable)) ;; wait_loop evs
      | Some (Status tx) => log (StatusReply tx false) ;; wait_loop evs
      | None => mret None
      end
  end.

Definition step_reconnecting (backoff : Z) (pending : option DeviceMessage)
    (evs : list (wait_event (io_result Sock * io_result unit))) : M (option ConnState) :=
  log (Sleep backoff) ;;
  w ← wait_loop evs;
  match w with
  | None => mret (Some ShuttingDown)
  | Some (connect, nodelay) =>
      r ← bridge_try_connect connect nodelay;
      match r with
      | TcpOk _ =>
          match pending with
          | Some pending => mret (Some (Resyncing pending))
          | None => mret (Some Connected)
          end
      | Disconnected _ => mret (Some (Reconnecting (next_backoff backoff) pending))
      end
  end.

Definition step_resyncing (pending : DeviceMessage) (evs : list (wait_event (io_result unit))) :
    M (option ConnState) :=
  w ← wait_loop evs;
  match w with
  | None => mret (Some ShuttingDown)
  | Some sent =>
      r ← bridge_send pending sent;
      match r with
      | TcpOk _ => mret (Some Connected)
      | Disconnected _ => mret (Some (Reconnecting INITIAL_RECONNECT_BACKOFF (Some pending)))
      end
  end.

(** What one [step] is given, according to the state it starts in. *)
Inductive step_input :=
  | InConnected (ev : connected_event T)
  | InReconnecting (evs : list (wait_event (io_result Sock * io_result unit)))
  | InResyncing (evs : list (wait_event (io_result unit))).

Definition step (i : step_input) : M unit :=
  state ← gets conn_state;
  next_state ←
    match state, i with
    | Connected, InConnected ev => step_connected ev
    | Reconnecting backoff pending, InReconnecting evs => step_reconnecting backoff pending evs
    | Resyncing pending, InResyncing evs => step_resyncing pending evs
    | ShuttingDown, _ => mret None
    | _, _ => waiting
    end;
  match next_state with
  | Some s => set_state s
  | None => mret tt
  end.

Definition should_close (t : task) : bool :=
  match conn_state t with ShuttingDown => true | _ => false end.

Definition task_shutdown : M unit :=
  fail_pending_ctl ;;
  name ← gets conn_name;
  log (EventSend name).

(** [while !task.should_close() { task.step().await; } task.shutdown().await]. *)
Fixpoint conn_task (inputs : list step_input) : M unit :=
  closing ← gets should_close;
  if closing : bool then task_shutdown else
  match inputs with
  | [] => waiting
  | i :: inputs => step i ;; conn_task inputs
  end.

(** The task [build_and_spawn] starts. *)
Definition new_task (name : list u8) (addr port : Z) (pty : AsyncPty T) : task :=
  mkConnectionTask name pty (tcp_bridge_new addr port)
    (Reconnecting INITIAL_RECONNECT_BACKOFF None) zero_array None.

(** Some steps in a row. *)
Fixpoint run_steps (inputs : list step_input) : M unit :=
  match inputs with
  | [] => mret tt
  | i :: inputs => step i ;; run_steps inputs
  end.

(** Reachability: some steps of the loop, and what they did. *)
Inductive steps : task -> list interaction -> task -> Prop :=
  | steps_refl t : steps t [] t
  | steps_step t tr t' i log t'' :
      steps t tr t' -> should_close t' = false -> step i t' = Finished tt t'' log ->
      steps t (tr ++ log) t''.
End steps.
Arguments step_input : clear implicits.

(** ** Reading the log *)

(** A message read from the PTY, and a message of the PTY accepted by the
    framed connection. *)
Definition pty_message (i : interaction) : option DeviceMessage :=
  match i with
  | PtyRead (Ok (PtyData n)) buf => Some (from_slice (take n buf))
  | PtyRead (Ok (PtyTermiosChange c)) _ =>
      Some (Config (tc_baudrate c) (tc_data_bits c) (tc_stop_bits c) (tc_parity c) (tc_hw_flow_ctl c))
  | _ => None
  end.

Definition is_control (m : DeviceMessage) : bool :=
  match m with ControlReq _ => true | _ => false end.

Definition pty_delivered (i : interaction) : option DeviceMessage :=
  match i with
  | FrameSend m (TcpOk _) => if is_control m then None else Some m
  | _ => None
  end.

(** The message kept to be sent again after a reconnection. *)
Definition kept (s : ConnState) : list DeviceMessage :=
  match s with Reconnecting _ p => option_list p | Resyncing p => [p] | _ => [] end.

(** A frame the task gave to the TCP connection, accepted or not. *)
Definition frame_sent (i : interaction) : option DeviceMessage :=
  match i with FrameSend m _ => Some m | _ => None end.

(** Data received from the device, and data written to the PTY. *)
Definition device_data (i : interaction) : option (list u8) :=
  match i with FrameNext (TcpOk (Data n data)) => Some (take (u8_usize n) data) | _ => None end.
Definition pty_written (i : interaction) : option (list u8) :=
  match i with PtyWrite bytes _ => Some bytes | _ => None end.

(** Control requests received and answered. *)
Definition ctl_requested (i : interaction) : option sender :=
  match i with Request (Some (HardwareControl _ tx)) => Some tx | _ => None end.
Definition ctl_replied (i : interaction) : option sender :=
  match i with CtlReply tx _ => Some tx | _ => None end.
Definition ctl_answer (i : interaction) : option DeviceControlResponse :=
  match i with CtlReply _ (Ok resp) => Some resp | _ => None end.
Definition device_answer (i : interaction) : option DeviceControlResponse :=
  match i with FrameNext (TcpOk (ControlRes resp)) => Some resp | _ => None end.

(** Status requests, and their replies. *)
Definition status_requested (i : interaction) : option sender :=
  match i with Request (Some (Status tx)) => Some tx | _ => None end.
Definition status_replied (i : interaction) : option sender :=
  match i with StatusReply tx _ => Some tx | _ => None end.

(** The connection is lost; the time it is given before the next attempt. *)
Definition lost (i : interaction) : bool :=
  match i with FrameSend _ (Disconnected _) | FrameNext (Disconnected _) => true | _ => false end.
Definition slept (i : interaction) : option Z := match i with Sleep millis => Some millis | _ => None end.

(** Opens a computation of the task that is known to finish. *)
Ltac run_task H :=
  unfold step, step_connected, step_reconnecting, step_resyncing, send_from_pty, task_shutdown,
    fail_pending_ctl, take_pending, bridge_send, bridge_next, bridge_try_connect, master_read,
    pty_slice, set_state, set_tcp, set_pty, set_pending, gets, log, waiting, task_panic,
    tcp_send, tcp_next, tcp_try_connect, set_framed in H;
  unfold mbind, task_bind, mret, task_ret in H; cbn in H;
  repeat match type of H with
  | context [match ?x with _ => _ end] =>
      lazymatch x with
      | context [match _ with _ => _ end] => fail
      | _ => destruct x eqn:?; cbn in H; try discriminate H
      end
  end;
  simplify_eq/=.

Section wait_loops.
Context {T Sock A : Type} `{!NixTermios T}.

(** A refusal: a request and its negative answer, back to back. *)
Definition refusal (req : ConnectionTaskRequest) : list interaction :=
  Request (Some req) ::
  match req with
  | HardwareControl _ tx => [CtlReply tx (Err Unavailable)]
  | Status tx => [StatusReply tx false]
  end.

(** What a waiting loop logs: refusals, and the closed channel if that is
    what ended it. *)
Definition wait_log (reqs : list ConnectionTaskRequest) (closed : bool) : list interaction :=
  concat (map refusal reqs) ++ (if closed then [Request None] else []).

Lemma wait_loop_spec evs (t : ConnectionTask T Sock) w t' l :
  wait_loop (A:=A) evs t = Finished w t' l ->
  t' = t /\ exists reqs closed, l = wait_log reqs closed.
Proof.
  revert w t' l. induction evs as [|[|req|a] evs IH]; intros w t' l; cbn; [done|..].
  - intros [= <- <- <-]. split; [done|]. by exists [], false.
  - unfold mbind, task_bind, log. destruct req as [[ctl tx|tx]|].
    + destruct (wait_loop evs t) as [w1 t1 l1| |] eqn:E; [|done..]. intros [= <- <- <-].
      destruct (IH _ _ _ eq_refl) as (-> & reqs & closed & ->). split; [done|].
      by exists (HardwareControl ctl tx :: reqs), closed.
    + destruct (wait_loop evs t) as [w1 t1 l1| |] eqn:E; [|done..]. intros [= <- <- <-].
      destruct (IH _ _ _ eq_refl) as (-> & reqs & closed & ->). split; [done|].
      by exists (Status tx :: reqs), closed.
    + intros [= <- <- <-]. split; [done|]. by exists [], true.
  - intros [= <- <- <-]. split; [done|]. by exists [], false.
Qed.

Lemma omap_wait_log {X} (f : interaction -> option X) reqs closed :
  (forall req, omap f (refusal req) = []) -> f (Request None) = None ->
  omap f (wait_log reqs closed) = [].
Proof.
  intros Hf Hn. unfold wait_log. rewrite omap_app. induction reqs as [|req reqs IH]; cbn [map concat].
  - destruct closed; cbn; by rewrite ?Hn.
  - rewrite omap_app, Hf. exact IH.
Qed.
End wait_loops.

(** Opens a step: one case per way it can go. *)
Ltac step_cases t i H :=
  destruct t as [name m [addr port fr] s buf p]; cbn in *;
  destruct s as [|b q|q|], i as [[]|evs|evs]; run_task H;
  try match goal with H : wait_loop _ _ = _ |- _ =>
    apply wait_loop_spec in H as (-> & ? & ? & ->); cbn in * end;
  simplify_eq/=.

(** ** One step *)

Section one_step.
Context {T Sock : Type} `{!NixTermios T}.
Implicit Types (t : ConnectionTask T Sock).

(** What holds of a task between steps. *)
Record task_inv t : Prop := {
  inv_pending : match conn_state t with Connected | ShuttingDown => True | _ => pending_hw_ctl t = None end;
  inv_framed : match conn_state t with
    | Connected | Resyncing _ => is_Some (tb_framed (tcp t))
    | Reconnecting _ _ => tb_framed (tcp t) = None
    | ShuttingDown => True end;
  inv_backoff : match conn_state t with
    | Reconnecting b _ => INITIAL_RECONNECT_BACKOFF <= b <= MAX_RECONNECT_BACKOFF | _ => True end;
  inv_kept : Forall (fun m => is_control m = false) (kept (conn_state t));
}.

(** A step of a task with the invariant, by the state it starts in.  The
    ledger of PTY messages: what was kept and what was read, is delivered or
    kept, but for at most one message when the task closes. *)
Definition ledger t (l : list interaction) t' : Prop :=
  exists lost, kept (conn_state t) ++ omap pty_message l =
    omap pty_delivered l ++ kept (conn_state t') ++ lost /\
    (conn_state t' <> ShuttingDown -> lost = []) /\ (length lost <= 1)%nat.

Lemma wait_no_pty reqs closed :
  omap pty_message (wait_log reqs closed) = [] /\ omap pty_delivered (wait_log reqs closed) = [].
Proof. split; apply omap_wait_log; try done; by intros []. Qed.

Lemma step_inv i t t' l : task_inv t -> step i t = Finished tt t' l -> task_inv t'.
Proof.
  intros [Hp Hf Hb Hk] H. step_cases t i H; split; cbn;
    unfold INITIAL_RECONNECT_BACKOFF, MAX_RECONNECT_BACKOFF, next_backoff in *;
    eauto; try (by repeat constructor); unfold MAX_RECONNECT_BACKOFF; lia.
Qed.

Lemma step_ledger i t t' l :
  task_inv t -> should_close t = false -> step i t = Finished tt t' l -> ledger t l t'.
Proof.
  intros [Hp Hf Hb Hk] Hs H. unfold ledger. step_cases t i H;
    rewrite ?omap_app, ?(proj1 (wait_no_pty _ _)), ?(proj2 (wait_no_pty _ _)); cbn.
  all: rewrite ?app_nil_r.
  all: try (by exists []; split_and!; cbn; [..|lia]).
  all: try (by exists (option_list q); destruct q; split_and!; cbn; [..|lia]).
  all: try (by exists []; rewrite app_nil_r; split_and!; cbn; [..|lia]).
  all: rewrite Forall_singleton in Hk; rewrite ?Hk; cbn.
  all: first [by exists []; split_and!; cbn; [..|lia]|by exists [q]; split_and!; cbn; [..|lia]].
Qed.

(** The data of the device is written to the PTY as it comes; a write that
    fails ends the task. *)
Definition downstream t (l : list interaction) t' : Prop :=
  omap pty_written l = omap device_data l /\
  (conn_state t' <> ShuttingDown ->
   Forall (fun i => match i with PtyWrite _ (Err _) => False | _ => True end) l).

Lemma wait_no_down reqs closed :
  omap pty_written (wait_log reqs closed) = [] /\ omap device_data (wait_log reqs closed) = [].
Proof. split; apply omap_wait_log; try done; by intros []. Qed.

Lemma wait_no_write reqs closed :
  Forall (fun i => match i with PtyWrite _ (Err _) => False | _ => True end) (wait_log reqs closed).
Proof.
  unfold wait_log. apply Forall_app. split; [|by destruct closed; repeat constructor].
  apply Forall_concat, Forall_fmap, Forall_true. intros []; by repeat constructor.
Qed.

Lemma step_downstream i t t' l :
  should_close t = false -> step i t = Finished tt t' l -> downstream t l t'.
Proof.
  intros Hs H. unfold downstream. step_cases t i H;
    rewrite ?omap_app, ?(proj1 (wait_no_down _ _)), ?(proj2 (wait_no_down _ _)), ?app_nil_r; cbn;
    split; try done; intros; try done;
    repeat first [apply wait_no_write|apply Forall_app; split|by repeat constructor|constructor; [done|]].
Qed.

(** Every control request of the step is answered in it or becomes the
    pending one; a positive answer repeats one the device has just given. *)
Definition answers t (l : list interaction) t' : Prop :=
  option_list (pending_hw_ctl t) ++ omap ctl_requested l ≡ₚ
    omap ctl_replied l ++ option_list (pending_hw_ctl t') /\
  omap ctl_answer l `sublist_of` omap device_answer l /\
  omap status_requested l = omap status_replied l.

Lemma wait_answers reqs closed :
  omap ctl_requested (wait_log reqs closed) = omap ctl_replied (wait_log reqs closed) /\
  omap ctl_answer (wait_log reqs closed) = [] /\ omap device_answer (wait_log reqs closed) = [] /\
  omap status_requested (wait_log reqs closed) = omap status_replied (wait_log reqs closed).
Proof.
  split_and!; try (apply omap_wait_log; try done; by intros []).
  all: unfold wait_log; rewrite !omap_app; f_equal; [|by destruct closed].
  all: induction reqs as [|[] reqs IH]; cbn; by rewrite ?IH.
Qed.

Lemma step_answers i t t' l :
  should_close t = false -> step i t = Finished tt t' l -> answers t l t'.
Proof.
  intros Hs H. unfold answers. step_cases t i H;
    try match goal with |- context [wait_log ?reqs ?closed] =>
      destruct (wait_answers reqs closed) as (E1 & E2 & E3 & E4) end;
    rewrite ?omap_app, ?E1, ?E2, ?E3, ?E4; cbn; rewrite ?app_nil_r;
    split_and!; try done; try (by repeat constructor); try (by rewrite Permutation_app_comm).
Qed.
End one_step.

(** ** Runs *)

Section runs.
Context {T Sock : Type} `{!NixTermios T}.
Implicit Types (t : ConnectionTask T Sock).

Lemma new_task_inv name addr port (pty : AsyncPty T) :
  task_inv (new_task (Sock:=Sock) name addr port pty).
Proof.
  by split.
Qed.

Lemma steps_inv t tr t' : task_inv t -> steps t tr t' -> task_inv t'.
Proof. induction 2; eauto using step_inv. Qed.

Lemma steps_cons i t t1 l tr t' :
  should_close t = false -> step i t = Finished tt t1 l -> steps t1 tr t' -> steps t (l ++ tr) t'.
Proof.
  intros Hs Hi. induction 1 as [t1|t1 tr t2 j l2 t3 _ IH Hs2 Hj].
  - rewrite app_nil_r. by apply (steps_step t [] t i l t1); [constructor|..].
  - rewrite (assoc_L (++)). by eapply steps_step; [apply IH|..].
Qed.

(** The loop is steps until the state is [ShuttingDown], then [shutdown]. *)
Lemma conn_task_steps inputs t t' l :
  conn_task inputs t = Finished tt t' l ->
  exists tr t1 l1, steps t tr t1 /\ should_close t1 = true /\
    task_shutdown t1 = Finished tt t' l1 /\ l = tr ++ l1.
Proof.
  revert t l. induction inputs as [|i inputs IH]; intros t l; cbn;
    unfold mbind, task_bind, gets; destruct (should_close t) eqn:Hs; try done.
  1, 2: destruct (task_shutdown t) as [[] t1 l1| |] eqn:Hd; try done; intros [= <- <-];
    exists [], t, l1; by split_and!; [constructor|..].
  destruct (step i t) as [[] t1 l1| |] eqn:Hi; try done.
  destruct (conn_task inputs t1) as [[] t2 l2| |] eqn:Hc; try done. intros [= <- <-].
  destruct (IH _ _ Hc) as (tr & t3 & l3 & Hst & Hs3 & Hd & ->).
  exists (l1 ++ tr), t3, l3. split_and!; try done; [by eapply steps_cons|].
  by rewrite (assoc_L (++)).
Qed.

(** [shutdown] refuses what is pending, then reports. *)
Lemma task_shutdown_eq t :
  task_shutdown t = Finished tt
    (mkConnectionTask (conn_name t) (master t) (tcp t) (conn_state t) (pty_buf t) None)
    (map (fun tx => CtlReply tx (Err Unavailable)) (option_list (pending_hw_ctl t)) ++
     [EventSend (conn_name t)]).
Proof. by destruct t as [? ? ? ? ? []]. Qed.

Lemma step_name i t t' l : step i t = Finished tt t' l -> conn_name t' = conn_name t.
Proof. intros H. step_cases t i H; done. Qed.

Lemma steps_name t tr t' : steps t tr t' -> conn_name t' = conn_name t.
Proof. induction 1 as [|? ? ? ? ? ? _ <- _ ?]; [done|]. by eapply step_name. Qed.

Lemma steps_answers t tr t' : steps t tr t' -> answers t tr t'.
Proof.
  induction 1 as [|t tr t1 i l t2 _ IH Hs Hi]; unfold answers in *; [by rewrite app_nil_r|].
  destruct IH as (P1 & S1 & E1), (step_answers _ _ _ _ Hs Hi) as (P2 & S2 & E2).
  rewrite !omap_app, E1, E2. split_and!; [|by apply sublist_app|done].
  by rewrite (assoc_L (++)), P1, <-!(assoc_L (++)), P2.
Qed.

Lemma steps_ledger t tr t' : task_inv t -> steps t tr t' -> ledger t tr t'.
Proof.
  intros Hi H. induction H as [|t tr t1 i l t2 Hst IH Hs Hstep]; unfold ledger in *.
  - exists []. rewrite !app_nil_r. split_and!; [done|done|cbn; lia].
  - destruct (IH Hi) as (lost1 & E1 & Hl1 & _).
    assert (lost1 = []) as -> by (apply Hl1; unfold should_close in Hs; by destruct (conn_state t1)).
    destruct (step_ledger _ _ _ _ (steps_inv _ _ _ Hi Hst) Hs Hstep) as (lost & E2 & Hl & Hn).
    exists lost. split_and!; [|done..]. rewrite app_nil_r in E1.
    by rewrite !omap_app, (assoc_L (++)), E1, <-!(assoc_L (++)), E2.
Qed.

Lemma steps_downstream t tr t' : steps t tr t' -> downstream t tr t'.
Proof.
  induction 1 as [|t tr t1 i l t2 _ IH Hs Hstep]; unfold downstream in *; [done|].
  destruct IH as [E1 F1], (step_downstream _ _ _ _ Hs Hstep) as [E2 F2].
  rewrite !omap_app, E1, E2. split; [done|]. intros Hn. apply Forall_app. split; [|by apply F2].
  apply F1. unfold should_close in Hs. by destruct (conn_state t1).
Qed.

Lemma step_closing i t : should_close t = true -> step i t = Finished tt t [].
Proof. unfold should_close. by destruct t as [? ? ? [] ? ?]. Qed.

Lemma run_steps_steps inputs t t' l : run_steps inputs t = Finished tt t' l -> steps t l t'.
Proof.
  revert t l. induction inputs as [|i inputs IH]; intros t l; cbn.
  - intros [= <- <-]. constructor.
  - unfold mbind, task_bind. destruct (step i t) as [[] t1 l1| |] eqn:Hi; try done.
    destruct (run_steps inputs t1) as [[] t2 l2| |] eqn:Hr; try done. intros [= <- <-].
    apply IH in Hr. destruct (should_close t) eqn:Hs; [|by eapply steps_cons].
    rewrite step_closing in Hi by done. by injection Hi as <- <-.
Qed.

(** The events of [EventSend] of a step: none. *)
Definition reported (i : interaction) : option (list u8) :=
  match i with EventSend name => Some name | _ => None end.

Lemma step_reports i t t' l : step i t = Finished tt t' l -> omap reported l = [].
Proof.
  assert (forall reqs closed, omap reported (wait_log reqs closed) = []) as Hw.
  { intros. apply omap_wait_log; [by intros []|done]. }
  intros H. step_cases t i H; rewrite ?omap_app, ?Hw; done.
Qed.

Lemma steps_reports t tr t' : steps t tr t' -> omap reported tr = [].
Proof.
  induction 1 as [|? ? ? ? ? ? _ IH _ Hi]; [done|].
  by rewrite omap_app, IH, (step_reports _ _ _ _ Hi).
Qed.

Definition is_connected (s : ConnState) : bool :=
  match s with Connected => true | _ => false end.

Definition status_ok (s : ConnState) (i : interaction) : Prop :=
  match i with StatusReply _ connected => connected = is_connected s | _ => True end.

Lemma wait_status reqs closed s :
  is_connected s = false -> Forall (status_ok s) (wait_log reqs closed).
Proof.
  intros Hs. unfold wait_log. apply Forall_app. split; [|by destruct closed; repeat constructor].
  apply Forall_concat, Forall_fmap, Forall_true. intros []; by repeat constructor.
Qed.

Lemma step_status i t t' l : step i t = Finished tt t' l -> Forall (status_ok (conn_state t)) l.
Proof.
  intros H. step_cases t i H;
    repeat first [by apply wait_status|apply Forall_app; split|by repeat constructor|constructor; [done|]].
Qed.

(** The slice of the buffer a data result announces is there: the only place
    a step could panic. *)
Lemma pty_read_in_range polls (pty : AsyncPty T) buf n pty' buf' :
  pty_read polls pty buf = Some (Ok (PtyData n), pty', buf') ->
  (n <= length buf')%nat /\ exists p, p ∈ polls /\ take n buf' = poll_data p.
Proof.
  revert buf. induction polls as [|p polls IH]; intros buf; cbn; [done|].
  destruct (read_round p pty buf) as [r1 pty1 buf1|pty1 buf1] eqn:E.
  - intros [= -> <- <-]. apply round_return in E as (_ & Hn & Ht & _).
    assert (length (take n buf1) = n) as Hl by congruence. rewrite length_take in Hl.
    split; [lia|]. exists p. by rewrite elem_of_cons; auto.
  - apply round_again in E as (_ & -> & _). intros (Hn & q & Hq & Ht)%IH.
    split; [done|]. exists q. rewrite elem_of_cons. auto.
Qed.

Lemma step_sends_packet polls sent t t' l n buf :
  step (InConnected (PtyReady polls sent)) t = Finished tt t' l ->
  PtyRead (Ok (PtyData n)) buf ∈ l ->
  exists p, p ∈ polls /\ omap frame_sent l = [from_slice (poll_data p)].
Proof.
  intros H. destruct t as [name m [addr port fr] s b0 p0]. destruct s; try done; run_task H;
    rewrite ?elem_of_cons, ?elem_of_nil; intros; destruct_or?; simplify_eq; try done;
    match goal with H : pty_read _ _ _ = _ |- _ =>
      apply pty_read_in_range in H as (_ & q & Hq & E); exists q; by rewrite E end.
Qed.

Lemma wait_loop_no_panic {A} (evs : list (wait_event A)) t : wait_loop evs t <> TaskPanic.
Proof.
  induction evs as [|[|[[]|]|] evs IH]; cbn; try done;
    unfold mbind, task_bind, log; by destruct (wait_loop evs t).
Qed.

Lemma step_no_panic i t : step i t <> TaskPanic.
Proof.
  destruct t as [name m [addr port fr] s buf p].
  destruct s as [|b q|q|], i as [ev|evs|evs]; try done.
  - destruct ev as [|polls sent|received written|req sent]; [done| | |].
    + intros H. run_task H. apply bool_decide_eq_false in Heqb.
      by destruct Heqb, (pty_read_in_range _ _ _ _ _ _ Heqo).
    + intros H. run_task H.
    + intros H. run_task H.
  - intros H. run_task H. by eapply wait_loop_no_panic.
  - intros H. run_task H. by eapply wait_loop_no_panic.
Qed.
End runs.

(** ** Properties *)

(** One reconnection attempt that fails, after refusing some requests. *)
Definition refuse_then {A} (reqs : list ConnectionTaskRequest) (ev : wait_event A) :
    list (wait_event A) :=
  map (fun req => WaitRequest (Some req)) reqs ++ [ev].

Inductive failed_attempt {T Sock} : step_input T Sock -> Prop :=
  | connect_failed reqs e nodelay :
      failed_attempt (InReconnecting (refuse_then reqs (WaitDone (Err e, nodelay))))
  | nodelay_failed reqs sock e :
      failed_attempt (InReconnecting (refuse_then reqs (WaitDone (Ok sock, Err e)))).

(** What ends the task in each state: the shutdown signal, or the end of the
    request channel, possibly after some requests. *)
Inductive stops {T Sock} : ConnState -> step_input T Sock -> Prop :=
  | stops_signal : stops Connected (InConnected ShutdownFired)
  | stops_channel sent : stops Connected (InConnected (CtlReady None sent))
  | stops_reconnecting b p reqs ev : ev = WaitShutdown \/ ev = WaitRequest None ->
      stops (Reconnecting b p) (InReconnecting (refuse_then reqs ev))
  | stops_resyncing p reqs ev : ev = WaitShutdown \/ ev = WaitRequest None ->
      stops (Resyncing p) (InResyncing (refuse_then reqs ev))
  | stops_closing i : stops ShuttingDown i.

Section waiting.
Context {T Sock A : Type} `{!NixTermios T}.
Implicit Types (t : ConnectionTask T Sock).

Lemma wait_loop_done reqs (a : A) t :
  wait_loop (refuse_then reqs (WaitDone a)) t = Finished (Some a) t (wait_log reqs false).
Proof.
  induction reqs as [|[ctl tx|tx] reqs IH]; [done|..]; cbn;
    unfold mbind, task_bind, log; unfold refuse_then in IH; by rewrite IH.
Qed.

Lemma wait_loop_stopped reqs (ev : wait_event A) t :
  ev = WaitShutdown \/ ev = WaitRequest None ->
  exists closed, wait_loop (refuse_then reqs ev) t = Finished None t (wait_log reqs closed).
Proof.
  intros Hev. induction reqs as [|[ctl tx|tx] reqs [closed IH]].
  - destruct Hev as [-> | ->]; [by exists false|by exists true].
  - exists closed. cbn. unfold mbind, task_bind, log. unfold refuse_then in IH. by rewrite IH.
  - exists closed. cbn. unfold mbind, task_bind, log. unfold refuse_then in IH. by rewrite IH.
Qed.
End waiting.

Section stopping.
Context {T Sock : Type} `{!NixTermios T}.
Implicit Types (t : ConnectionTask T Sock).

Lemma step_failed i t b p :
  failed_attempt i -> conn_state t = Reconnecting b p -> tb_framed (tcp t) = None ->
  exists t' l, step i t = Finished tt t' l /\ conn_state t' = Reconnecting (next_backoff b) p /\
    tb_framed (tcp t') = None /\ omap slept l = [b].
Proof.
  destruct t as [name m [addr port fr] s buf pend]. cbn. intros Hi -> ->.
  destruct Hi as [reqs e nd|reqs sock e]; unfold step, step_reconnecting, mbind, task_bind, gets; cbn;
    unfold mbind, task_bind; rewrite wait_loop_done; cbn; eexists _, _; split_and!; try done;
    cbn; rewrite ?app_nil_r; f_equal; apply omap_wait_log; try done; by intros [].
Qed.

Lemma step_stops i t : stops (conn_state t) i ->
  exists t' l, step i t = Finished tt t' l /\ should_close t' = true /\ pending_hw_ctl t' = pending_hw_ctl t /\
    omap ctl_requested l = omap ctl_replied l.
Proof.
  destruct t as [name m tb s buf pend]. cbn.
  destruct 1 as [|sent|b q reqs ev Hev|q reqs ev Hev|i]; cbn; [by eexists _, _|by eexists _, _|..|by eexists _, _].
  - destruct (wait_loop_stopped reqs ev (mkConnectionTask name m tb (Reconnecting b q) buf pend) Hev)
      as [closed E]. destruct (wait_answers reqs closed) as (E1 & _).
    unfold step, step_reconnecting, mbind, task_bind, gets; cbn; unfold mbind, task_bind; rewrite E.
    eexists _, _. split_and!; [done..|]. cbn. by rewrite !app_nil_r.
  - destruct (wait_loop_stopped reqs ev (mkConnectionTask name m tb (Resyncing q) buf pend) Hev)
      as [closed E]. destruct (wait_answers reqs closed) as (E1 & _).
    unfold step, step_resyncing, mbind, task_bind, gets; cbn; unfold mbind, task_bind; rewrite E.
    eexists _, _. split_and!; [done..|]. cbn. by rewrite !app_nil_r.
Qed.

(** The delay after [k] failures in a row. *)
Fixpoint backoff_after (k : nat) : Z :=
  match k with O => INITIAL_RECONNECT_BACKOFF | S k => next_backoff (backoff_after k) end.

Lemma backoff_after_eq k : backoff_after k = Z.min (100 * 2 ^ Z.of_nat k) 5000.
Proof.
  induction k as [|k IH]; [done|]. cbn [backoff_after]. rewrite IH. unfold next_backoff, MAX_RECONNECT_BACKOFF.
  rewrite Nat2Z.inj_succ, Z.pow_succ_r by lia. lia.
Qed.

(** The failed attempts since the connection was last lost, [n] before. *)
Fixpoint attempts (n : nat) (l : list interaction) : nat :=
  match l with
  | [] => n
  | i :: l => attempts (if lost i then 0%nat else match slept i with Some _ => S n | None => n end) l
  end.

(** The delays there should be. *)
Fixpoint delays (n : nat) (l : list interaction) : list Z :=
  match l with
  | [] => []
  | i :: l =>
      if lost i then delays 0 l
      else match slept i with Some _ => backoff_after n :: delays (S n) l | None => delays n l end
  end.

Lemma attempts_app n l1 l2 : attempts n (l1 ++ l2) = attempts (attempts n l1) l2.
Proof. revert n. induction l1 as [|i l1 IH]; intros n; cbn; [done|apply IH]. Qed.

Lemma delays_app n l1 l2 : delays n (l1 ++ l2) = delays n l1 ++ delays (attempts n l1) l2.
Proof.
  revert n. induction l1 as [|i l1 IH]; intros n; cbn; [done|]. destruct (lost i); [apply IH|].
  destruct (slept i); cbn; by rewrite IH.
Qed.

Lemma delays_length n l : length (delays n l) = length (omap slept l).
Proof.
  revert n. induction l as [|i l IH]; intros n; [done|]. cbn. destruct i as [| |m []|[]| | | | |]; cbn; by rewrite ?IH.
Qed.

Lemma wait_quiet n reqs closed :
  attempts n (wait_log reqs closed) = n /\ delays n (wait_log reqs closed) = [] /\
  omap slept (wait_log reqs closed) = [].
Proof.
  unfold wait_log. induction reqs as [|[] reqs (IH1 & IH2 & IH3)]; [by destruct closed|..]; by split_and!.
Qed.

(** The delays so far are those there should be, and so is the next one. *)
Definition delays_inv (tr : list interaction) t : Prop :=
  omap slept tr = delays 0 tr /\
  match conn_state t with Reconnecting b _ => b = backoff_after (attempts 0 tr) | _ => True end.

Lemma step_delays i tr t t' l : delays_inv tr t -> step i t = Finished tt t' l -> delays_inv (tr ++ l) t'.
Proof.
  unfold delays_inv. rewrite omap_app, delays_app, attempts_app. generalize (attempts 0 tr).
  intros n [-> Hb] H. rewrite app_inv_head_iff. step_cases t i H;
    rewrite ?omap_app, ?delays_app, ?attempts_app; cbn;
    repeat match goal with |- context [wait_log ?reqs ?closed] =>
      rewrite ?(proj1 (wait_quiet _ reqs closed)), ?(proj1 (proj2 (wait_quiet _ reqs closed))),
        ?(proj2 (proj2 (wait_quiet 0 reqs closed))) end; by subst.
Qed.

Lemma steps_delays name addr port (pty : AsyncPty T) tr t :
  steps (new_task name addr port pty) tr t -> delays_inv tr t.
Proof.
  intros H. remember (new_task name addr port pty) as t0 eqn:E. induction H as [|t tr t1 i l t2 _ IH _ Hi].
  - by subst.
  - eapply step_delays; eauto.
Qed.

Lemma run_failed inputs t k p :
  Forall failed_attempt inputs -> conn_state t = Reconnecting (backoff_after k) p ->
  tb_framed (tcp t) = None ->
  exists t' l, run_steps inputs t = Finished tt t' l /\
    conn_state t' = Reconnecting (backoff_after (k + length inputs)) p /\
    omap slept l = map backoff_after (seq k (length inputs)).
Proof.
  intros Hf. revert t k. induction Hf as [|i inputs Hi _ IH]; intros t k Hs Hfr; cbn.
  - exists t, []. by rewrite Nat.add_0_r.
  - destruct (step_failed i t _ p Hi Hs Hfr) as (t1 & l1 & E1 & Hs1 & Hfr1 & El1).
    destruct (IH t1 (S k) Hs1 Hfr1) as (t2 & l2 & E2 & Hs2 & El2). exists t2, (l1 ++ l2).
    unfold mbind, task_bind. rewrite E1, E2, omap_app, El1, El2. by rewrite <-Nat.add_succ_comm.
Qed.
End stopping.

Section properties.
Context {T Sock : Type} `{!NixTermios T}.
Implicit Types (t : ConnectionTask T Sock).

(** C1. Nothing the slave application says is lost, duplicated or reordered on
    the way to the device.  At any time the messages read from the PTY (data
    and line settings) are those the framed connection accepted, in the same
    order, followed by the one kept for after the reconnection; only a task
    that is closing may have dropped a message, and at most one. *)
Theorem conn_no_loss name addr port (pty : AsyncPty T) tr (t' : ConnectionTask T Sock) :
  steps (new_task name addr port pty) tr t' ->
  exists lost, omap pty_message tr = omap pty_delivered tr ++ kept (conn_state t') ++ lost /\
    (conn_state t' <> ShuttingDown -> lost = []) /\ (length lost <= 1)%nat.
Proof. intros H. exact (steps_ledger _ _ _ (new_task_inv name addr port pty) H). Qed.

(** C10. Every control request the task took is answered exactly once, whatever
    happened in between, by the time the task ends; the end is reported to the
    daemon once, with the connection's name, after everything else. *)
Theorem conn_task_answers_all inputs name addr port (pty : AsyncPty T)
    (t' : ConnectionTask T Sock) l :
  conn_task inputs (new_task name addr port pty) = Finished tt t' l ->
  omap ctl_requested l ≡ₚ omap ctl_replied l /\ pending_hw_ctl t' = None /\
  omap reported l = [name] /\ last l = Some (EventSend name).
Proof.
  intros (tr & t1 & l1 & Hst & _ & Hd & ->)%conn_task_steps.
  pose proof (steps_name _ _ _ Hst) as Hname. cbn in Hname.
  rewrite task_shutdown_eq in Hd. injection Hd as <- <-.
  destruct (steps_answers _ _ _ Hst) as (P & _ & _). cbn in P.
  rewrite !omap_app, (steps_reports _ _ _ Hst), P, Hname. split_and!; [| done | |].
  - destruct (pending_hw_ctl t1); cbn; by rewrite !app_nil_r.
  - by destruct (pending_hw_ctl t1).
  - by rewrite (assoc_L (++)), last_snoc.
Qed.

(** At any time the control requests taken are those answered and the
    pending one; a positive answer repeats a response received from the
    device, each response used at most once and in order; and every status
    request has been answered, in order. *)
Theorem conn_requests_accounted name addr port (pty : AsyncPty T) tr (t' : ConnectionTask T Sock) :
  steps (new_task name addr port pty) tr t' ->
  omap ctl_requested tr ≡ₚ omap ctl_replied tr ++ option_list (pending_hw_ctl t') /\
  omap ctl_answer tr `sublist_of` omap device_answer tr /\
  omap status_requested tr = omap status_replied tr.
Proof. exact (steps_answers _ _ _). Qed.

(** C25. What the device sends is written to the PTY as it came: the same data,
    complete and in the same order; and as long as the task is not closing no
    write has failed. *)
Theorem conn_downstream name addr port (pty : AsyncPty T) tr (t' : ConnectionTask T Sock) :
  steps (new_task name addr port pty) tr t' ->
  omap pty_written tr = omap device_data tr /\
  (conn_state t' <> ShuttingDown ->
   Forall (fun i => match i with PtyWrite _ (Err _) => False | _ => True end) tr).
Proof. exact (steps_downstream _ _ _). Qed.

(** The invariant of every reachable state: a control request is only ever
    pending while connected (or closing), there is a TCP connection exactly in
    the states that use it, the backoff is between 100 ms and 5 s, and the
    message kept for later came from the PTY. *)
Theorem conn_reachable_inv name addr port (pty : AsyncPty T) tr (t' : ConnectionTask T Sock) :
  steps (new_task name addr port pty) tr t' -> task_inv t'.
Proof. exact (steps_inv _ _ _ (new_task_inv name addr port pty)). Qed.

(** C32. The delays between attempts.  In every run of a task, each sleep before
    an attempt lasts [min(100 * 2^k, 5000)] milliseconds, where [k] is the number
    of attempts that failed since the connection was last lost (or since the
    task began); so the delay starts again at 100 ms after every loss.  And a
    task that is reconnecting keeps trying: whatever requests it refuses
    meanwhile, after any number of attempts that fail it has slept these times,
    still keeps the message it kept, and is waiting for the next attempt. *)
Theorem conn_backoff name addr port (pty : AsyncPty T) tr t :
  steps (new_task name addr port pty) tr t ->
  (forall tr1 millis tr2, tr = tr1 ++ Sleep millis :: tr2 ->
     millis = Z.min (100 * 2 ^ Z.of_nat (attempts 0 tr1)) 5000) /\
  (forall b p inputs, conn_state t = Reconnecting b p -> Forall failed_attempt inputs ->
     exists t' l, run_steps inputs t = Finished tt t' l /\
       conn_state t' = Reconnecting (Z.min (100 * 2 ^ Z.of_nat (attempts 0 tr + length inputs)) 5000) p /\
       omap slept l = map (fun k => Z.min (100 * 2 ^ Z.of_nat k) 5000) (seq (attempts 0 tr) (length inputs))).
Proof.
  intros H. destruct (steps_delays _ _ _ _ _ _ H) as [Hd Hb]. split.
  - intros tr1 millis tr2 ->. rewrite delays_app, omap_app in Hd. cbn in Hd. rewrite <-backoff_after_eq.
    apply app_inj_1 in Hd as [_ Hd]; [by injection Hd|]. by rewrite delays_length.
  - intros b p inputs Hs Hf. rewrite Hs in Hb. subst b.
    pose proof (inv_framed _ (steps_inv _ _ _ (new_task_inv name addr port pty) H)) as Hfr. rewrite Hs in Hfr.
    destruct (run_failed inputs t _ p Hf Hs Hfr) as (t' & l & E & Hs' & El). exists t', l.
    rewrite <-backoff_after_eq. split_and!; [done|done|]. rewrite El. apply map_ext, backoff_after_eq.
Qed.

(** C24. The task always ends when asked.  In every state, the shutdown signal
    or the end of its request channel, possibly after some requests, makes it
    return: every request that still came is answered, the control request that
    was pending is answered [Unavailable], and then, as the very last thing, the
    task reports its name. *)
Theorem conn_task_stops i t :
  stops (conn_state t) i ->
  exists t' l0, conn_task [i] t = Finished tt t'
      (l0 ++ map (fun tx => CtlReply tx (Err Unavailable)) (option_list (pending_hw_ctl t)) ++
       [EventSend (conn_name t)]) /\
    omap ctl_requested l0 = omap ctl_replied l0 /\ pending_hw_ctl t' = None.
Proof.
  intros (t1 & l1 & E & Hc & Hp & Hl)%step_stops. cbn. unfold mbind, task_bind, gets.
  destruct (should_close t) eqn:Hs.
  - rewrite task_shutdown_eq. by eexists _, [].
  - rewrite E, Hc, task_shutdown_eq, Hp, (step_name _ _ _ _ E). eexists _, l1. by split_and!.
Qed.

(** A status request is answered yes exactly by a task that is connected
    when it answers. *)
Theorem conn_status_truthful i t t' l tx b :
  step i t = Finished tt t' l -> StatusReply tx b ∈ l -> (b = true <-> conn_state t = Connected).
Proof.
  intros H%step_status Hin. rewrite Forall_forall in H. specialize (H _ Hin). cbn in H. subst b.
  by destruct (conn_state t).
Qed.

(** The task never panics, whatever the PTY, the device and the daemon
    give it: every slice it takes of its buffer is in range. *)
Theorem conn_task_no_panic inputs t : conn_task inputs t <> TaskPanic.
Proof.
  revert t. induction inputs as [|i inputs IH]; intros t; cbn; unfold mbind, task_bind, gets;
    destruct (should_close t); try rewrite task_shutdown_eq; try done.
  pose proof (step_no_panic i t). destruct (step i t) as [[] t1 l1| |]; try done.
  specialize (IH t1). by destruct (conn_task inputs t1).
Qed.

(** A data packet of the PTY reaches the TCP connection byte for byte: a step
    that reads data sends exactly one frame, whose payload is the data of a
    packet the PTY gave; nothing is cut off, since [readv] bounds a packet by
    the buffer, 255 bytes. *)
Theorem conn_pty_bytes polls sent t :
  Forall (fun p => length (poll_data p) <= MAX_MESSAGE_LEN)%nat polls ->
  forall t' l n buf, step (InConnected (PtyReady polls sent)) t = Finished tt t' l ->
    PtyRead (Ok (PtyData n)) buf ∈ l ->
    exists p m, p ∈ polls /\ payload m = poll_data p /\ omap frame_sent l = [m].
Proof.
  intros Hb. intros t' l n buf H Hin.
  destruct (step_sends_packet _ _ _ _ _ _ _ H Hin) as (p & Hp & Hs).
  exists p, (from_slice (poll_data p)). rewrite Forall_forall in Hb.
  by rewrite payload_from_slice, take_ge by auto.
Qed.
End properties.

(** ** Witnesses *)

Module ConnectionWitness.
Import LinuxTermios.

Definition reset_err : io_error := IoError UnexpectedEof "lost".
Definition data_poll (bytes : list u8) : PtyPoll termios :=
  mkPtyPoll (Ok tt) (ReadvOk (x00 :: bytes)) (Ok cooked) (Ok cooked) (fun _ => Ok tt) (Ok cooked).
Definition fresh : ConnectionTask termios unit := new_task [x61] 1 2 (mkAsyncPty cooked).

(** Fails to connect once, connects, loses the connection while sending "hi"
    and keeps it, reconnects and sends it, then resets the device. *)
Definition session : list (step_input termios unit) := [
  InReconnecting (refuse_then [Status 1; HardwareControl DevReset 2] (WaitDone (Err reset_err, Ok tt)));
  InReconnecting [WaitDone (Ok tt, Ok tt)];
  InConnected (PtyReady [data_poll []; data_poll [x68; x69]] (Err reset_err));
  InReconnecting [WaitDone (Ok tt, Ok tt)];
  InResyncing (refuse_then [HardwareControl DevReset 3] (WaitDone (Ok tt)));
  InConnected (CtlReady (Some (HardwareControl DevReset 4)) (Ok tt));
  InConnected (TcpReady (Some (Ok (from_slice [x6f; x6b]))) (Ok tt));
  InConnected (TcpReady (Some (Ok (ControlRes DevOk))) (Ok tt));
  InConnected (CtlReady (Some (Status 5)) (Ok tt))].
Definition ended := Eval vm_compute in
  match run_steps session fresh with Finished _ t l => (t, l) | _ => (fresh, []) end.

Lemma session_run : run_steps session fresh = Finished tt ended.1 ended.2.
Proof. by vm_compute. Qed.

Lemma conn_no_loss_witness : omap pty_delivered ended.2 = [from_slice [x68; x69]] /\
  exists lost, omap pty_message ended.2 = [from_slice [x68; x69]] ++ [] ++ lost /\ (length lost <= 1)%nat.
Proof.
  split; [by vm_compute|].
  destruct (conn_no_loss _ _ _ _ _ _ (run_steps_steps _ _ _ _ session_run)) as (lost & E & _ & Hl).
  by exists lost.
Defined.

Lemma conn_requests_accounted_witness : omap ctl_requested ended.2 = [2; 3; 4]%nat /\
  [2; 3; 4]%nat ≡ₚ omap ctl_replied ended.2 ++ [].
Proof.
  split; [by vm_compute|].
  exact (proj1 (conn_requests_accounted _ _ _ _ _ _ (run_steps_steps _ _ _ _ session_run))).
Defined.

Lemma conn_downstream_witness : omap device_data ended.2 = [[x6f; x6b]] /\
  omap pty_written ended.2 = [[x6f; x6b]].
Proof.
  split; [by vm_compute|].
  exact (proj1 (conn_downstream _ _ _ _ _ _ (run_steps_steps _ _ _ _ session_run))).
Defined.

Lemma conn_reachable_inv_witness : conn_state ended.1 = Connected /\ task_inv ended.1.
Proof.
  split; [done|]. exact (conn_reachable_inv _ _ _ _ _ _ (run_steps_steps _ _ _ _ session_run)).
Defined.

Definition closing_session : list (step_input termios unit) :=
  [InReconnecting [WaitDone (Ok tt, Ok tt)];
   InConnected (CtlReady (Some (HardwareControl DevReset 7)) (Ok tt));
   InConnected (CtlReady (Some (HardwareControl DevReset 8)) (Ok tt));
   InConnected ShutdownFired].

Lemma conn_task_answers_all_witness : exists t' l,
  conn_task closing_session fresh = Finished tt t' l /\ omap ctl_requested l = [7; 8]%nat /\
  omap ctl_requested l ≡ₚ omap ctl_replied l.
Proof.
  eexists _, _. split_and!; [by vm_compute|by vm_compute|].
  refine (proj1 (conn_task_answers_all closing_session [x61] 1 2 (mkAsyncPty cooked) _ _ _)).
  by vm_compute.
Defined.

(** Connected after one failure, then lost, then nothing. *)
Definition lost_session : list (step_input termios unit) := [
  InReconnecting [WaitDone (Err reset_err, Ok tt)];
  InReconnecting [WaitDone (Ok tt, Ok tt)];
  InConnected (PtyReady [data_poll []; data_poll [x68; x69]] (Err reset_err));
  InReconnecting (refuse_then [Status 1] (WaitDone (Err reset_err, Ok tt)))].
Definition lost_end := Eval vm_compute in
  match run_steps lost_session fresh with Finished _ t l => (t, l) | _ => (fresh, []) end.
Lemma lost_run : run_steps lost_session fresh = Finished tt lost_end.1 lost_end.2.
Proof. by vm_compute. Qed.

Lemma conn_backoff_witness : omap slept lost_end.2 = [100; 200; 100] /\
  exists (t' : ConnectionTask termios unit) l,
    run_steps (replicate 6 (InReconnecting (refuse_then [Status 1] (WaitDone (Err reset_err, Ok tt)))))
      lost_end.1 = Finished tt t' l /\ conn_state t' = Reconnecting 5000 (Some (from_slice [x68; x69])) /\
    omap slept l = [200; 400; 800; 1600; 3200; 5000].
Proof.
  split; [by vm_compute|].
  refine (proj2 (conn_backoff _ _ _ _ _ _ (run_steps_steps _ _ _ _ lost_run)) _ _
    (replicate 6 (InReconnecting (refuse_then [Status 1] (WaitDone (Err reset_err, Ok tt))))) _ _); [by vm_compute|].
  repeat constructor.
Defined.

Definition pending_task : ConnectionTask termios unit :=
  mkConnectionTask [x61] (mkAsyncPty cooked) (tcp_bridge_new 1 2) Connected [] (Some 4%nat).
Lemma conn_task_stops_witness : exists t' l0,
  conn_task [InConnected ShutdownFired] pending_task
    = Finished tt t' (l0 ++ [CtlReply 4 (Err Unavailable); EventSend [x61]]) /\
  omap ctl_requested l0 = omap ctl_replied l0 /\ pending_hw_ctl t' = None.
Proof. apply (conn_task_stops _ pending_task). constructor. Defined.

Lemma conn_status_truthful_witness : true = true <-> conn_state ended.1 = Connected.
Proof.
  apply (conn_status_truthful (InConnected (CtlReady (Some (Status 5)) (Ok tt))) ended.1 ended.1
    [Request (Some (Status 5)); StatusReply 5 true] 5 true); [by vm_compute|].
  by right; left.
Defined.

Lemma conn_pty_bytes_witness : exists t' l,
  step (InConnected (PtyReady [data_poll [x68]] (Ok tt))) ended.1 = Finished tt t' l /\
  exists p m, p ∈ [data_poll [x68]] /\ payload m = poll_data p /\ omap frame_sent l = [m].
Proof.
  eexists _, _. split; [by vm_compute|].
  eapply (conn_pty_bytes [data_poll [x68]] (Ok tt) ended.1 ltac:(repeat constructor; vm_compute; lia)).
  - by vm_compute.
  - by left.
Defined.
End ConnectionWitness.
