(* ===== verification/Registry.v ===== *)
(** * The connection registry (daemon/src/state.rs) and the handle of a
    connection (the [Connection] of daemon/src/connection.rs)

    The daemon keeps its connections in a vector, looked up by name and removed
    with [swap_remove].  [represents] relates the vector to the map from names to
    connections it stands for; every operation is shown to be the operation of
    the map. *)
From S2P Require Import Prelude Utf8 DeviceMsg Ctl AsyncPty Connection.
From stdpp Require Import base numbers strings countable gmap list.
#[local] Open Scope Z_scope.

#[export] Program Instance u8_countable : Countable u8 :=
  inj_countable' Byte.to_N (fun n => u8_of (Z.of_N n)) _.
Next Obligation. exact u8_of_val. Qed.

(** ** The handle *)

(** The two channels of a handle, [shutdown_tx] and [ctl_req_tx], lead to one
    task: they are its identity. *)
Record Connection := mkConnection {
  co_name : rstring;
  co_addr : Z;
  co_port : Z;
  co_slave_path : rstring;
  co_task : nat;
}.

#[export] Instance Connection_eq_dec : EqDecision Connection.
Proof. solve_decision. Defined.

(** What comes of a request sent to a task: its channel is closed, the reply
    channel is dropped, or there is a reply. *)
Inductive answer (A : Type) := SendFailed | ReplyDropped | Replied (a : A).
Arguments SendFailed {A}.
Arguments ReplyDropped {A}.
Arguments Replied {A} a.

(** [Connection::send_hardware_ctl]. *)
Definition send_hardware_ctl (reply : answer ctl_result) : option ctl_result :=
  match reply with
  | SendFailed => None
  | ReplyDropped => None
  | Replied r => Some r
  end.

(** [Connection::get_status]. *)
Definition get_status (reply : answer bool) : bool :=
  match reply with
  | SendFailed => false
  | ReplyDropped => false
  | Replied connected => connected
  end.

(** [Connection::shutdown]: the signals it sends. *)
Definition connection_shutdown (conn : Connection) : list nat := [co_task conn].

(** [Connection::build_and_spawn]: the handle, and the task it starts under a
    fresh identity. *)
Definition build_and_spawn {T Sock} (name : rstring) (addr port : Z) (master : AsyncPty T)
    (slave_path : rstring) (fresh : nat) : Connection * (nat * ConnectionTask T Sock) :=
  (mkConnection name addr port slave_path fresh, (fresh, new_task name addr port master)).

(** ** [State] *)

Record State := mkState { conns : list Connection }.

Definition state_default : State := mkState [].

Definition state_add (conn : Connection) (s : State) : State := mkState (conns s ++ [conn]).

(** [iter().position(|c| c.name == name)]. *)
Fixpoint position (name : rstring) (l : list Connection) : option nat :=
  match l with
  | [] => None
  | c :: l => if bool_decide (co_name c = name) then Some O else S <$> position name l
  end.

(** [Vec::swap_remove], which panics out of range. *)
Definition swap_remove {A} (pos : nat) (l : list A) : outcome (A * list A) :=
  match l !! pos, last l with
  | Some x, Some z => Done (x, removelast (<[pos := z]> l))
  | _, _ => Panicked
  end.

(** [State::remove]: whether the name was there, and the shutdown signals. *)
Definition state_remove (name : rstring) (s : State) : outcome (bool * State * list nat) :=
  match position name (conns s) with
  | None => Done (false, s, [])
  | Some pos =>
      match swap_remove pos (conns s) with
      | Panicked => Panicked
      | Done (conn, rest) => Done (true, mkState rest, connection_shutdown conn)
      end
  end.

(** [State::list], where [status] is what each task answers. *)
Definition connection_info (status : nat -> answer bool) (c : Connection) : ConnectionInfo :=
  mkConnectionInfo (co_name c) (co_addr c) (co_port c) (co_slave_path c)
    (get_status (status (co_task c))).
Definition state_list (status : nat -> answer bool) (s : State) : list ConnectionInfo :=
  map (connection_info status) (conns s).

(** [iter_mut().find(|c| c.name == name)]. *)
Definition find_conn (name : rstring) (s : State) : option Connection :=
  find (fun c => bool_decide (co_name c = name)) (conns s).

(** [State::send_hardware_ctl], where [reply] is what each task answers. *)
Definition state_send_hardware_ctl (name : rstring) (reply : nat -> answer ctl_result) (s : State) :
    option ctl_result :=
  conn ← find_conn name s;
  send_hardware_ctl (reply (co_task conn)).

Definition state_exists (name : rstring) (s : State) : bool :=
  existsb (fun c => bool_decide (co_name c = name)) (conns s).

(** ** The map it stands for *)

Definition names (s : State) : list rstring := map co_name (conns s).
Definition keyed (c : Connection) : rstring * Connection := (co_name c, c).

Definition represents (s : State) (m : gmap rstring Connection) : Prop :=
  NoDup (names s) /\ m = list_to_map (map keyed (conns s)).

Lemma keyed_names l : (map keyed l).*1 = map co_name l.
Proof. induction l as [|c l IH]; cbn; [done|by rewrite IH]. Qed.

Lemma elem_of_keyed c l : c ∈ l <-> (co_name c, c) ∈ map keyed l.
Proof.
  induction l as [|c' l IH]; cbn; [by rewrite !elem_of_nil|]. rewrite !elem_of_cons, IH.
  unfold keyed. split; (intros [E|?]; [left; congruence|by right]).
Qed.

Lemma represents_lookup s m n c :
  represents s m -> m !! n = Some c <-> c ∈ conns s /\ co_name c = n.
Proof.
  intros [Hnd ->]. unfold names in Hnd. rewrite <-keyed_names in Hnd.
  rewrite <-elem_of_list_to_map by done. split.
  - intros H. enough (n = co_name c) as -> by (split; [by apply elem_of_keyed|done]).
    clear Hnd. induction (conns s) as [|c' l IH]; cbn in H; [by apply elem_of_nil in H|].
    unfold keyed in H. apply elem_of_cons in H as [[= -> ->]|H]; auto.
  - intros [H <-]. by apply elem_of_keyed.
Qed.

Lemma represents_none s m n :
  represents s m -> m !! n = None <-> n ∉ names s.
Proof.
  intros [Hnd ->]. unfold names. rewrite <-keyed_names. symmetry. apply not_elem_of_list_to_map.
Qed.

Lemma represents_perm s s' m : represents s m -> conns s ≡ₚ conns s' -> represents s' m.
Proof.
  intros [Hnd ->] P. unfold represents, names in *. split; [by rewrite <-P|].
  apply list_to_map_proper; [by rewrite keyed_names|by rewrite P].
Qed.

Lemma represents_cons s c m :
  represents (mkState (c :: conns s)) m <->
  exists m', represents s m' /\ m' !! co_name c = None /\ m = <[co_name c := c]> m'.
Proof.
  unfold represents, names. cbn. rewrite NoDup_cons. split.
  - intros [[Hn Hnd] ->]. eexists. split_and!; [done|done| |done].
    by apply not_elem_of_list_to_map; rewrite keyed_names.
  - intros (? & [Hnd ->] & Hn & ->). apply not_elem_of_list_to_map in Hn.
    by rewrite keyed_names in Hn.
Qed.

(** ** The operations *)

Lemma position_some n l pos :
  position n l = Some pos ->
  exists l1 c l2, l = l1 ++ c :: l2 /\ pos = length l1 /\ co_name c = n /\ n ∉ map co_name l1.
Proof.
  revert pos. induction l as [|c l IH]; intros pos; cbn; [done|]. case_bool_decide as Hn.
  - intros [= <-]. exists [], c, l. split_and!; try done. apply not_elem_of_nil.
  - intros (pos' & Hp & ->)%fmap_Some. destruct (IH _ Hp) as (l1 & c' & l2 & -> & -> & Hc & Hl1).
    exists (c :: l1), c', l2. split_and!; [done..|]. cbn. rewrite not_elem_of_cons. auto.
Qed.

Lemma position_none n l : position n l = None <-> n ∉ map co_name l.
Proof.
  induction l as [|c l IH]; cbn; [split; [intros _; apply not_elem_of_nil|done]|].
  rewrite not_elem_of_cons. case_bool_decide as Hn; [split; [done|intros [? _]; congruence]|].
  rewrite <-IH. destruct (position n l); cbn; split; try done; try (by intros []).
Qed.

Lemma swap_remove_middle {A} (l1 : list A) x l2 :
  exists rest, swap_remove (length l1) (l1 ++ x :: l2) = Done (x, rest) /\ rest ≡ₚ l1 ++ l2.
Proof.
  unfold swap_remove. rewrite list_lookup_middle by done.
  destruct l2 as [|z l2 _] using rev_ind.
  - rewrite last_snoc. eexists. split; [done|].
    rewrite (insert_app_r_alt l1) by done. rewrite Nat.sub_diag. cbn [insert list_insert].
    by rewrite removelast_last, app_nil_r.
  - rewrite app_comm_cons, (assoc_L (++)), last_snoc. eexists. split; [done|].
    rewrite <-(assoc_L (++)), (insert_app_r_alt l1) by done. rewrite Nat.sub_diag. change (<[0%nat:=z]> ((x :: l2) ++ [z])) with (z :: (l2 ++ [z])).
    replace (l1 ++ z :: (l2 ++ [z])) with ((l1 ++ z :: l2) ++ [z]) by by rewrite <-app_assoc.
    rewrite removelast_last. by rewrite <-Permutation_cons_append.
Qed.

Lemma remove_represents n s m :
  represents s m ->
  exists s', state_remove n s =
      Done (bool_decide (is_Some (m !! n)), s', option_list (co_task <$> m !! n)) /\
    represents s' (delete n m).
Proof.
  intros Hr. unfold state_remove. destruct (position n (conns s)) as [pos|] eqn:Hp.
  - apply position_some in Hp as (l1 & c & l2 & E & -> & Hc & _). rewrite E.
    destruct (swap_remove_middle l1 c l2) as (rest & -> & Hrest).
    assert (represents (mkState (c :: rest)) m) as Hr'.
    { apply (represents_perm s); [done|]. cbn. rewrite E, Hrest. by rewrite Permutation_middle. }
    apply (represents_cons (mkState rest)) in Hr' as (m' & Hr' & Hn & ->). subst n.
    rewrite lookup_insert_eq, bool_decide_eq_true_2 by done. eexists. split; [done|].
    by rewrite delete_insert_id.
  - apply position_none in Hp. apply (represents_none s m n Hr) in Hp. rewrite Hp.
    rewrite bool_decide_eq_false_2 by (by intros []). eexists. split; [done|]. by rewrite delete_id.
Qed.

Lemma add_represents c s m :
  represents s m -> m !! co_name c = None -> represents (state_add c s) (<[co_name c := c]> m).
Proof.
  intros Hr Hn. apply (represents_perm (mkState (c :: conns s))).
  - apply represents_cons. by exists m.
  - cbn. by rewrite <-Permutation_cons_append.
Qed.

Lemma exists_represents n s m :
  represents s m -> state_exists n s = bool_decide (is_Some (m !! n)).
Proof.
  intros Hr. unfold state_exists. destruct (m !! n) as [c|] eqn:Hm.
  - rewrite bool_decide_eq_true_2 by done. apply (represents_lookup s m n c Hr) in Hm as [Hc Hn].
    apply existsb_exists. exists c. by rewrite <-list_elem_of_In, bool_decide_eq_true_2.
  - rewrite bool_decide_eq_false_2 by (by intros []). apply (represents_none s m n Hr) in Hm.
    apply not_true_is_false. intros (c & Hc%list_elem_of_In & Hn%bool_decide_eq_true)%existsb_exists.
    destruct Hm. unfold names. rewrite <-Hn. by apply list_elem_of_fmap_2.
Qed.

Lemma find_represents n s m : represents s m -> find_conn n s = m !! n.
Proof.
  intros Hr. unfold find_conn. destruct (find _ _) as [c|] eqn:Hf.
  - apply find_some in Hf as [Hc%list_elem_of_In Hn%bool_decide_eq_true].
    symmetry. by apply (represents_lookup s m n c Hr).
  - symmetry. apply (represents_none s m n Hr). unfold names.
    intros (c & -> & Hc)%list_elem_of_fmap. apply find_none with (x := c) in Hf; [|by apply list_elem_of_In].
    by rewrite bool_decide_eq_true_2 in Hf.
Qed.

#[export] Hint Resolve add_represents : tcpuart.

(** ** Properties *)

(** What the daemon does with the registry: it adds only a name that is not
    there ([handle_daemon_request]), and removes. *)
Inductive registry_op := OpAdd (conn : Connection) | OpRemove (name : rstring).

Definition registry_step (op : registry_op) (s : State) : outcome (bool * State * list nat) :=
  match op with
  | OpAdd conn =>
      if state_exists (co_name conn) s then Done (false, s, [])
      else Done (true, state_add conn s, [])
  | OpRemove name => state_remove name s
  end.

Definition registry_spec (op : registry_op) (m : gmap rstring Connection) :
    bool * gmap rstring Connection * list nat :=
  match op with
  | OpAdd conn =>
      match m !! co_name conn with
      | Some _ => (false, m, [])
      | None => (true, <[co_name conn := conn]> m, [])
      end
  | OpRemove name =>
      match m !! name with
      | Some conn => (true, delete name m, [co_task conn])
      | None => (false, m, [])
      end
  end.

Fixpoint registry_run (ops : list registry_op) (s : State) : outcome (list (bool * list nat) * State) :=
  match ops with
  | [] => Done ([], s)
  | op :: ops =>
      match registry_step op s with
      | Panicked => Panicked
      | Done (b, s, signals) =>
          match registry_run ops s with
          | Panicked => Panicked
          | Done (out, s) => Done ((b, signals) :: out, s)
          end
      end
  end.

Fixpoint registry_spec_run (ops : list registry_op) (m : gmap rstring Connection) :
    list (bool * list nat) * gmap rstring Connection :=
  match ops with
  | [] => ([], m)
  | op :: ops =>
      let '(b, m, signals) := registry_spec op m in
      let '(out, m) := registry_spec_run ops m in
      ((b, signals) :: out, m)
  end.

Lemma registry_step_refines op s m :
  represents s m ->
  exists s', registry_step op s = Done ((registry_spec op m).1.1, s', (registry_spec op m).2) /\
    represents s' (registry_spec op m).1.2.
Proof.
  intros Hr. destruct op as [c|n]; cbn.
  - rewrite (exists_represents _ _ _ Hr). destruct (m !! co_name c) eqn:Hm; cbn; eauto with tcpuart.
  - destruct (remove_represents n s m Hr) as (s' & E & Hr'). exists s'. rewrite E.
    destruct (m !! n) eqn:Hm; cbn; [done|]. rewrite delete_id in Hr' by done. done.
Qed.

Lemma registry_run_refines ops s m :
  represents s m ->
  exists s', registry_run ops s = Done ((registry_spec_run ops m).1, s') /\
    represents s' (registry_spec_run ops m).2.
Proof.
  revert s m. induction ops as [|op ops IH]; intros s m Hr; cbn; [eauto|].
  destruct (registry_step_refines op s m Hr) as (s1 & -> & Hr1).
  destruct (registry_spec op m) as [[b m1] signals]. cbn in *.
  destruct (IH _ _ Hr1) as (s2 & -> & Hr2). destruct (registry_spec_run ops m1). eauto.
Qed.

Lemma represents_empty : represents state_default ∅.
Proof. split; [apply NoDup_nil_2|done]. Qed.

Lemma represents_values s m : represents s m -> conns s ≡ₚ (map_to_list m).*2.
Proof.
  intros [Hnd ->]. rewrite map_to_list_to_map by by rewrite keyed_names.
  rewrite <-list_fmap_compose. by erewrite list_fmap_id.
Qed.

(** C28. The registry is a map from names to connections.  Whatever the daemon
      adds and removes, no operation panics, every answer and every shutdown
      signal is the one of the map, names stay unique, and looking up, testing
      for and listing connections give what the map holds. *)
Theorem registry_refines_map ops :
  exists s, let '(out, m) := registry_spec_run ops ∅ in
    registry_run ops state_default = Done (out, s) /\ NoDup (names s) /\
    (forall n, state_exists n s = bool_decide (is_Some (m !! n)) /\ find_conn n s = m !! n) /\
    (forall status, state_list status s ≡ₚ map (connection_info status) (map_to_list m).*2).
Proof.
  destruct (registry_run_refines ops _ _ represents_empty) as (s & E & Hr).
  exists s. destruct (registry_spec_run ops ∅) as [out m]. cbn in *. split_and!; [done|apply Hr| |].
  - intros n. split; [by apply exists_represents|by apply find_represents].
  - intros status. unfold state_list. by rewrite (represents_values _ _ Hr).
Qed.
