(* ===== verification/Daemon.v ===== *)
(** * The daemon's main task (daemon/src/main.rs, daemon/src/event.rs)

    [handle_daemon_request] answers one request of the command line, using the
    registry and, through it, the connection tasks; the main loop handles one
    event at a time; [handle_stream] serves one client of the Unix socket.  What
    the kernel and the tasks answer is an argument ([environment]); what the
    daemon does to the tasks is a list of [effect]s. *)
From S2P Require Import Prelude BytesApi Codec Framing Utf8 DeviceMsg Ctl AsyncPty Connection Registry.
From stdpp Require Import base numbers strings countable gmap list.
#[local] Open Scope Z_scope.

(** ** Data *)

Inductive DaemonEvent :=
  | CliCommand (req : DaemonRequest) (tx : nat)
  | ConnectionClosed (name : rstring).

(** What the calls that create a PTY return. *)
Record PtyCreation (T : Type) := mkPtyCreation {
  posix_openpt : io_result unit;
  grantpt : io_result unit;
  unlockpt : io_result unit;
  ptsname : io_result rstring;
  pty_open : PtyOpen T;
}.
Arguments mkPtyCreation {T} _ _ _ _ _.
Arguments posix_openpt {T} _.
Arguments grantpt {T} _.
Arguments unlockpt {T} _.
Arguments ptsname {T} _.
Arguments pty_open {T} _.

(** What one request meets: the PTY calls, the identity of the next task, and
    what each task answers to a status and to a control request. *)
Record environment (T : Type) := mkEnvironment {
  env_pty : PtyCreation T;
  env_fresh : nat;
  env_status : nat -> answer bool;
  env_reply : nat -> answer ctl_result;
}.
Arguments mkEnvironment {T} _ _ _ _.
Arguments env_pty {T} _.
Arguments env_fresh {T} _.
Arguments env_status {T} _ _.
Arguments env_reply {T} _ _.

(** What the daemon does to the connection tasks. *)
Inductive effect (T Sock : Type) :=
  | Spawned (id : nat) (task : ConnectionTask T Sock)
  | ShutdownSent (id : nat)
  | StatusAsked (id : nat)
  | ControlSent (id : nat) (ctl : DeviceControlRequest).
Arguments Spawned {T Sock} id task.
Arguments ShutdownSent {T Sock} id.
Arguments StatusAsked {T Sock} id.
Arguments ControlSent {T Sock} id ctl.

(** ** Messages *)

Definition already_exists (name : rstring) : rstring :=
  lit "Connection with name '" ++ name ++ lit "' already exists".
Definition not_found (name : rstring) : rstring := lit "No connection found with name: " ++ name.
Definition reset_unsupported (name : rstring) : rstring :=
  lit "Connection '" ++ name ++ lit "' does not support reset command".
Definition reset_unavailable (name : rstring) : rstring :=
  lit "Connection '" ++ name ++ lit "' is currently unavailable (offline or busy)".

(** ** [handle_daemon_request] *)

Section requests.
Context {T Sock : Type} `{!NixTermios T} (O_NONBLOCK : Z).
Abbreviation effects := (list (effect T Sock)).
Abbreviation reply := (outcome (DaemonResponse * State * effects)).

(** The calls of the [Add] arm up to [AsyncPty::new]: the PTY and its path,
    or the error response. *)
Definition create_pty (p : PtyCreation T) : result DaemonResponse (AsyncPty T * rstring) :=
  match posix_openpt p with
  | Err _ => Err (RespError (lit "Failed to create pty. See daemon logs for details"))
  | Ok _ =>
  match grantpt p with
  | Err _ => Err (RespError (lit "Failed to grant pty. See daemon logs for details"))
  | Ok _ =>
  match unlockpt p with
  | Err _ => Err (RespError (lit "Failed to unlock pty. See daemon logs for details"))
  | Ok _ =>
  match ptsname p with
  | Err _ => Err (RespError (lit "Failed to get pts name. See daemon logs for details"))
  | Ok slave_name =>
  match async_pty_new O_NONBLOCK (pty_open p) with
  | Err _ => Err (RespError (lit "Failed to create AsyncPty. See daemon logs for details"))
  | Ok master => Ok (master, slave_name)
  end end end end end.

Definition handle_add (env : environment T) (name : rstring) (addr port : Z) (state : State) : reply :=
  if state_exists name state then Done (RespError (already_exists name), state, []) else
  match create_pty (env_pty env) with
  | Err resp => Done (resp, state, [])
  | Ok (master, slave_name) =>
      let '(conn, (id, task)) := build_and_spawn name addr port master slave_name (env_fresh env) in
      Done (AddOk slave_name, state_add conn state, [Spawned id task])
  end.

Definition handle_remove (name : rstring) (state : State) : reply :=
  match state_remove name state with
  | Panicked => Panicked
  | Done (true, state, signals) => Done (RemoveOk, state, map ShutdownSent signals)
  | Done (false, state, signals) =>
      Done (RespError (not_found name), state, map ShutdownSent signals)
  end.

Definition handle_list (env : environment T) (state : State) : reply :=
  Done (RespList (state_list (env_status env) state), state,
        map (fun c => StatusAsked (co_task c)) (conns state)).

Definition handle_reset (env : environment T) (name : rstring) (state : State) : reply :=
  let asked := match find_conn name state with
               | Some c => [ControlSent (co_task c) DevReset] | None => [] end in
  let resp :=
    match state_send_hardware_ctl name (env_reply env) state with
    | Some (Ok DevOk) => ResetOk
    | Some (Ok DevNotSupported) => RespError (reset_unsupported name)
    | Some (Err _) => RespError (reset_unavailable name)
    | None => RespError (not_found name)
    end in
  Done (resp, state, asked).

Definition handle_daemon_request (env : environment T) (msg : DaemonRequest) (state : State) : reply :=
  match msg with
  | ReqAdd name addr port => handle_add env name addr port state
  | ReqRemove name => handle_remove name state
  | ReqList => handle_list env state
  | ReqReset name => handle_reset env name state
  end.

(** ** The main loop *)

(** What [select!] takes: a client, an event, or Ctrl-C.  The receiver of
    events never ends, since the loop holds a sender. *)
Inductive main_input :=
  | Accepted (stream : io_result unit)
  | EventReceived (event : DaemonEvent) (env : environment T)
  | CtrlC.

(** What one turn does outside: a client handler started, a response given to
    one, effects on the tasks. *)
Inductive main_action :=
  | HandlerSpawned
  | Responded (tx : nat) (resp : DaemonResponse)
  | TaskEffect (e : effect T Sock).

Definition main_turn (input : main_input) (state : State) : outcome (bool * State * list main_action) :=
  match input with
  | Accepted (Ok _) => Done (true, state, [HandlerSpawned])
  | Accepted (Err _) => Done (true, state, [])
  | EventReceived (CliCommand msg tx) env =>
      match handle_daemon_request env msg state with
      | Panicked => Panicked
      | Done (resp, state, effects) =>
          Done (true, state, map TaskEffect effects ++ [Responded tx resp])
      end
  | EventReceived (ConnectionClosed name) _ =>
      match state_remove name state with
      | Panicked => Panicked
      | Done (_, state, signals) =>
          Done (true, state, map (fun id => TaskEffect (ShutdownSent id)) signals)
      end
  | CtrlC => Done (false, state, [])
  end.

(** The loop, until Ctrl-C or the end of the inputs. *)
Fixpoint main_loop (inputs : list main_input) (state : State) : outcome (State * list main_action) :=
  match inputs with
  | [] => Done (state, [])
  | input :: inputs =>
      match main_turn input state with
      | Panicked => Panicked
      | Done (false, state, acts) => Done (state, acts)
      | Done (true, state, acts) =>
          match main_loop inputs state with
          | Panicked => Panicked
          | Done (state, acts') => Done (state, acts ++ acts')
          end
      end
  end.

(** ** [main] *)

(** The [socket] of [Args]: the option, the environment variable
    TCPUART_SOCKET, or the default. *)
Definition DEFAULT_SOCKET : rstring := lit "/tmp/tcpuart.sock".
Definition args_socket (option_value env_value : option rstring) : rstring :=
  match option_value, env_value with
  | Some path, _ => path
  | None, Some path => path
  | None, None => DEFAULT_SOCKET
  end.

(** What [main] does to the socket file around the loop. *)
Inductive setup_io :=
  | RemoveFile (path : rstring)
  | BindSocket (path : rstring)
  | Served (acts : list main_action).

Definition is_ctrl_c (i : main_input) : bool := match i with CtrlC => true | _ => false end.

(** [main]: a socket file left behind is removed first; [bind] may fail, and
    [expect] panics then; the file is removed once the loop is left. *)
Definition daemon_main (option_value env_value : option rstring) (bind : io_result unit)
    (inputs : list main_input) : outcome (list setup_io) :=
  let path := args_socket option_value env_value in
  match bind with
  | Err _ => Panicked
  | Ok _ =>
      match main_loop inputs state_default with
      | Panicked => Panicked
      | Done (_, acts) =>
          Done ([RemoveFile path; BindSocket path; Served acts] ++
                (if existsb is_ctrl_c inputs then [RemoveFile path] else []))
      end
  end.
End requests.
Arguments main_input : clear implicits.
Arguments main_action : clear implicits.
Arguments setup_io : clear implicits.

(** ** [handle_stream] *)

(** One item of the framed reader, with what comes of it: whether the main task
    takes the event, what it answers (nothing if it drops the channel), and what
    writing the response to the socket returns. *)
Record stream_input := mkStreamInput {
  in_msg : io_result DaemonRequest;
  in_taken : bool;
  in_reply : option DaemonResponse;
  in_flush : io_result unit;
}.

Inductive stream_io :=
  | Forwarded (req : DaemonRequest)
  | Written (bytes : list u8).

Inductive stream_end := ClientClosed | DaemonGone | BadRequest | StreamPanic.

Section streams.
Context {B : Type} `{!BytesCrate B}.

Definition stream_reply (i : stream_input) : DaemonResponse :=
  match in_reply i with Some resp => resp | None => RespError (lit "Something went wrong") end.

(** [writer] is the write buffer between two sends, which is empty. *)
Fixpoint handle_stream (writer : B) (inputs : list stream_input) : list stream_io * stream_end :=
  match inputs with
  | [] => ([], ClientClosed)
  | i :: inputs =>
      match in_msg i with
      | Err _ => ([], BadRequest)
      | Ok msg =>
          if negb (in_taken i) then ([], DaemonGone) else
          match encode_response (stream_reply i) writer, in_flush i with
          | (Ok _, buf), Ok _ =>
              let '(io, e) := handle_stream writer inputs in
              (Forwarded msg :: Written (as_ref buf) :: io, e)
          | _, _ => ([Forwarded msg], StreamPanic)
          end
      end
  end.
End streams.

(** ** What the daemon promises *)

(** The request handler over the map of connections the registry stands for:
    the response, the new map and the effects, by case. *)
Section specification.
Context {T Sock : Type} `{!NixTermios T} (O_NONBLOCK : Z) (env : environment T).

Definition reset_response (name : rstring) (r : answer ctl_result) : DaemonResponse :=
  match r with
  | Replied (Ok DevOk) => ResetOk
  | Replied (Ok DevNotSupported) => RespError (reset_unsupported name)
  | Replied (Err Unavailable) => RespError (reset_unavailable name)
  | SendFailed | ReplyDropped => RespError (not_found name)
  end.

Inductive request_spec (m : gmap rstring Connection) :
    DaemonRequest -> DaemonResponse -> gmap rstring Connection -> list (effect T Sock) -> Prop :=
  | spec_add_exists name addr port c :
      m !! name = Some c ->
      request_spec m (ReqAdd name addr port) (RespError (already_exists name)) m []
  | spec_add_fails name addr port resp :
      m !! name = None -> create_pty O_NONBLOCK (env_pty env) = Err resp ->
      request_spec m (ReqAdd name addr port) resp m []
  | spec_add_ok name addr port pty path :
      m !! name = None -> create_pty O_NONBLOCK (env_pty env) = Ok (pty, path) ->
      request_spec m (ReqAdd name addr port) (AddOk path)
        (<[name := mkConnection name addr port path (env_fresh env)]> m)
        [Spawned (env_fresh env) (new_task name addr port pty)]
  | spec_remove_ok name c :
      m !! name = Some c ->
      request_spec m (ReqRemove name) RemoveOk (delete name m) [ShutdownSent (co_task c)]
  | spec_remove_unknown name :
      m !! name = None ->
      request_spec m (ReqRemove name) (RespError (not_found name)) m []
  | spec_list l :
      l ≡ₚ (map_to_list m).*2 ->
      request_spec m ReqList (RespList (map (connection_info (env_status env)) l)) m
        (map (fun c => StatusAsked (co_task c)) l)
  | spec_reset name c :
      m !! name = Some c ->
      request_spec m (ReqReset name) (reset_response name (env_reply env (co_task c))) m
        [ControlSent (co_task c) DevReset]
  | spec_reset_unknown name :
      m !! name = None ->
      request_spec m (ReqReset name) (RespError (not_found name)) m [].

(** Each arm of the handler meets its case. *)
Definition meets (req : DaemonRequest) (s : State) (m : gmap rstring Connection) : Prop :=
  exists resp s' m' effs, handle_daemon_request O_NONBLOCK env req s = Done (resp, s', effs) /\
    represents s' m' /\ request_spec m req resp m' effs.

Lemma add_meets name addr port s m : represents s m -> meets (ReqAdd name addr port) s m.
Proof.
  intros Hr. unfold meets, handle_daemon_request, handle_add. rewrite (exists_represents _ _ _ Hr).
  destruct (m !! name) as [c|] eqn:Hm.
  - rewrite bool_decide_eq_true_2 by done. eexists _, _, _, _. split_and!; [done..|].
    by eapply spec_add_exists.
  - rewrite bool_decide_eq_false_2 by (by intros []).
    destruct (create_pty O_NONBLOCK (env_pty env)) as [[pty path]|resp] eqn:Hp; cbn.
    + eexists _, _, _, _. split_and!; [done|by apply add_represents|by apply spec_add_ok].
    + eexists _, _, _, _. split_and!; [done..|by apply spec_add_fails].
Qed.

Lemma remove_meets name s m : represents s m -> meets (ReqRemove name) s m.
Proof.
  intros Hr. unfold meets, handle_daemon_request, handle_remove.
  destruct (remove_represents name s m Hr) as (s' & -> & Hr'). destruct (m !! name) as [c|] eqn:Hm; cbn.
  - eexists _, _, _, _. split_and!; [done..|by apply spec_remove_ok].
  - rewrite delete_id in Hr' by done. eexists _, _, _, _. split_and!; [done..|by apply spec_remove_unknown].
Qed.

Lemma list_meets s m : represents s m -> meets ReqList s m.
Proof.
  intros Hr. eexists _, _, _, _. split_and!; [done..|].
  by apply spec_list, represents_values.
Qed.

Lemma reset_meets name s m : represents s m -> meets (ReqReset name) s m.
Proof.
  intros Hr. unfold meets, handle_daemon_request, handle_reset, state_send_hardware_ctl.
  rewrite (find_represents _ _ _ Hr). destruct (m !! name) as [c|] eqn:Hm; cbn.
  - eexists _, _, _, _. split_and!; [done..|].
    pose proof (spec_reset m name c Hm) as H.
    by destruct (env_reply env (co_task c)) as [| |[[]|[]]].
  - eexists _, _, _, _. split_and!; [done..|by apply spec_reset_unknown].
Qed.

Lemma request_meets req s m : represents s m -> meets req s m.
Proof. destruct req; auto using add_meets, remove_meets, list_meets, reset_meets. Qed.
End specification.

(** ** Well-typed data *)

Definition conn_wf (c : Connection) : Prop :=
  str_wf (co_name c) /\ is_u32 (co_addr c) /\ is_u16 (co_port c) /\ str_wf (co_slave_path c).

Definition state_wf (s : State) : Prop := NoDup (names s) /\ Forall conn_wf (conns s).

(** The kernel's PTY paths are UTF-8 of at most 255 bytes. *)
Definition env_wf {T} (env : environment T) : Prop :=
  forall path, ptsname (env_pty env) = Ok path -> str_wf path.

(** The longest name every error message has room for. *)
Definition MAX_SAFE_NAME : nat := 199.

Definition short_name (n : rstring) : Prop := (length n <= MAX_SAFE_NAME)%nat.

Section well_typed.
Context {T Sock : Type} `{!NixTermios T} (O_NONBLOCK : Z).

Lemma state_wf_represents s : state_wf s <-> exists m, represents s m /\ map_Forall (fun _ => conn_wf) m.
Proof.
  unfold state_wf. split.
  - intros [Hnd Hwf]. eexists. split; [by split|]. intros n c Hc.
    apply (represents_lookup s) in Hc as [Hc _]; [|by split]. by rewrite Forall_forall in Hwf; apply Hwf.
  - intros (m & Hr & Hm). split; [apply Hr|]. apply Forall_forall. intros c Hc.
    apply (Hm (co_name c)). by apply (represents_lookup s).
Qed.

Lemma message_wf pre name suf :
  ascii pre = true -> ascii suf = true -> utf8_valid name = true ->
  (length pre + length name + length suf <= 255)%nat -> str_wf (pre ++ name ++ suf).
Proof.
  intros Hp Hs Hn Hl. split; [unfold str_fits; rewrite !length_app; lia|].
  by rewrite utf8_valid_app, utf8_valid_app by auto using utf8_valid_ascii; apply utf8_valid_ascii.
Qed.

Lemma literal_wf s : (length s <=? 255)%nat && ascii s = true -> str_wf s.
Proof.
  intros [Hl%Nat.leb_le Ha]%andb_prop. split; [done|by apply utf8_valid_ascii].
Qed.

Lemma messages_wf name :
  short_name name -> utf8_valid name = true ->
  str_wf (already_exists name) /\ str_wf (not_found name) /\
  str_wf (reset_unsupported name) /\ str_wf (reset_unavailable name).
Proof.
  unfold short_name, MAX_SAFE_NAME. intros Hn Hv.
  unfold already_exists, not_found, reset_unsupported, reset_unavailable.
  rewrite <-(app_nil_r (lit _ ++ name)), <-(app_assoc _ name []).
  split_and!; apply message_wf; try done; cbn; lia.
Qed.

Lemma create_pty_error_wf (p : PtyCreation T) resp :
  create_pty O_NONBLOCK p = Err resp -> response_wf resp.
Proof.
  unfold create_pty. intros H. repeat (case_match; simplify_eq); by apply literal_wf.
Qed.

Lemma create_pty_path (env : environment T) pty path :
  create_pty O_NONBLOCK (env_pty env) = Ok (pty, path) -> env_wf env -> str_wf path.
Proof. unfold create_pty, env_wf. intros H Hw. repeat (case_match; simplify_eq). by apply Hw. Qed.

Lemma spec_response_wf env m req resp m' (effs : list (effect T Sock)) :
  request_spec O_NONBLOCK env m req resp m' effs ->
  env_wf env -> map_Forall (fun _ => conn_wf) m -> request_wf req ->
  map_Forall (fun _ => conn_wf) m' /\
  (Forall short_name (request_strings req) -> response_wf resp).
Proof.
  intros H He Hm [Hs Hr].
  destruct H as [n a p c Hn|n a p resp Hn Hc|n a p pty path Hn Hc|n c Hn|n Hn|l Hl|n c Hn|n Hn];
    cbn [request_strings] in *; rewrite ?Forall_singleton in *.
  - split; [done|]. intros. by apply messages_wf, Hs.
  - split; [done|]. intros. by eapply create_pty_error_wf.
  - pose proof (create_pty_path _ _ _ Hc He). split; [|done]. apply map_Forall_insert_2; [|done].
    by destruct Hr.
  - split; [|done]. by apply map_Forall_delete.
  - split; [done|]. intros. by apply messages_wf, Hs.
  - split; [done|]. intros _. cbn. apply Forall_fmap, Forall_forall. intros c Hc.
    rewrite Hl in Hc. apply list_elem_of_fmap in Hc as ([n c'] & -> & Hc%elem_of_map_to_list).
    exact (Hm _ _ Hc).
  - split; [done|]. intros. destruct (env_reply env (co_task c)) as [| |[[]|[]]]; cbn; try done;
      by apply messages_wf, Hs.
  - split; [done|]. intros. by apply messages_wf, Hs.
Qed.

Lemma handle_wf env req s :
  env_wf env -> state_wf s -> request_wf req ->
  exists resp s' (effs : list (effect T Sock)),
    handle_daemon_request O_NONBLOCK env req s = Done (resp, s', effs) /\ state_wf s' /\
    (Forall short_name (request_strings req) -> response_wf resp).
Proof.
  intros He (m & Hr & Hm)%state_wf_represents Hreq.
  destruct (request_meets (Sock:=Sock) O_NONBLOCK env req s m Hr) as (resp & s' & m' & effs & E & Hr' & Hspec).
  destruct (spec_response_wf _ _ _ _ _ _ Hspec He Hm Hreq) as [Hm' Hresp].
  exists resp, s', effs. split_and!; [done| |done]. apply state_wf_represents. eauto.
Qed.

Lemma remove_wf name s :
  state_wf s -> exists b s' signals, state_remove name s = Done (b, s', signals) /\ state_wf s'.
Proof.
  intros (m & Hr & Hm)%state_wf_represents. destruct (remove_represents name s m Hr) as (s' & E & Hr').
  eexists _, _, _. split; [exact E|]. apply state_wf_represents. eexists. split; [done|].
  by apply map_Forall_delete.
Qed.
End well_typed.

(** ** The main loop *)

Section main.
Context {T Sock : Type} `{!NixTermios T} (O_NONBLOCK : Z).

(** What reaches the loop is well-typed: requests come from the decoder, paths
    from the kernel. *)
Definition input_wf (i : main_input T) : Prop :=
  match i with
  | EventReceived (CliCommand req _) env => request_wf req /\ env_wf env
  | _ => True
  end.

(** The commands before Ctrl-C, and the commands answered. *)
Fixpoint commands (inputs : list (main_input T)) : list nat :=
  match inputs with
  | [] | CtrlC :: _ => []
  | EventReceived (CliCommand _ tx) _ :: inputs => tx :: commands inputs
  | _ :: inputs => commands inputs
  end.
Definition responded (a : main_action T Sock) : option nat :=
  match a with Responded tx _ => Some tx | _ => None end.

Lemma responded_effects (effs : list (effect T Sock)) : omap responded (map TaskEffect effs) = [].
Proof. by induction effs. Qed.

Lemma responded_shutdowns (ids : list nat) :
  omap responded (map (fun id => TaskEffect (ShutdownSent id)) ids) = [].
Proof. by induction ids. Qed.

Lemma main_turn_wf i s :
  input_wf i -> state_wf s ->
  exists go s' acts, main_turn O_NONBLOCK i s = Done (go, s', acts) /\ state_wf s' /\
    omap responded acts = commands [i] /\ (go = false <-> i = CtrlC).
Proof.
  intros Hi Hs. destruct i as [[[]|e]|[req tx|name] env|]; cbn in *; try by eexists _, _, _.
  - destruct Hi as [Hreq He].
    destruct (handle_wf (Sock:=Sock) O_NONBLOCK env req s He Hs Hreq) as (resp & s' & effs & -> & Hs' & _).
    eexists _, _, _. split_and!; [done|done| |done]. by rewrite omap_app, responded_effects.
  - destruct (remove_wf name s Hs) as (b & s' & signals & -> & Hs').
    eexists _, _, _. split_and!; [done|done|apply responded_shutdowns|done].
Qed.

Lemma commands_cons i inputs :
  i <> CtrlC -> commands (i :: inputs) = commands [i] ++ commands inputs.
Proof. by destruct i as [|[]|]. Qed.

Lemma main_loop_wf inputs s :
  Forall input_wf inputs -> state_wf s ->
  exists s' acts, main_loop O_NONBLOCK inputs s = Done (s', acts) /\ state_wf s' /\
    omap responded acts = commands inputs.
Proof.
  intros Hi. revert s. induction Hi as [|i inputs Hi _ IH]; intros s Hs; cbn [main_loop]; [by eexists _, _|].
  destruct (main_turn_wf i s Hi Hs) as (go & s1 & acts & -> & Hs1 & Ha & Hgo).
  destruct go; [|rewrite (proj1 Hgo eq_refl) in *; eauto].
  destruct (IH s1 Hs1) as (s2 & acts2 & -> & Hs2 & Ha2). eexists _, _. split_and!; [done|done|].
  rewrite omap_app, Ha, Ha2. symmetry. apply commands_cons. by intros E%Hgo.
Qed.
End main.

(** ** Serving a client *)

Section serving.
Context {B : Type} `{!BytesCrate B, !BytesLaws B}.

(** A response the client can read. *)
Definition readable (r : DaemonResponse) : Prop :=
  response_wf r /\ match r with RespList l => Z.of_nat (length l) < 2 ^ 16 | _ => True end.

Definition written (io : stream_io) : option (list u8) :=
  match io with Written bs => Some bs | _ => None end.
Definition forwarded (io : stream_io) : option DaemonRequest :=
  match io with Forwarded r => Some r | _ => None end.

(** An exchange that goes well but for what the response is. *)
Definition served (i : stream_input) : Prop :=
  (exists req, in_msg i = Ok req) /\ in_taken i = true /\ in_flush i = Ok tt.

Lemma readable_reads r src l :
  readable r -> as_ref src = response_wire r ++ l ->
  exists src', decode_response src = Done (Ok (Some r), src') /\ as_ref (B:=B) src' = l.
Proof.
  intros [Hwf Hlen] Hsrc. destruct (reads_response (B:=B) r l Hwf) as (bs & Hbs & Hr).
  assert (response_read r = r /\ response_excess r = []) as [Hrd Hex].
  { destruct r; try done. cbn. rewrite u16_count_small by done. by rewrite firstn_all, skipn_all. }
  rewrite Hrd in Hr. rewrite Hbs, Hex, app_nil_r in Hsrc. by eapply run_reads.
Qed.

Lemma decode_response_empty src :
  as_ref (B:=B) src = [] -> decode_response src = Done (Ok None, src).
Proof.
  intros E. unfold decode_response, run_decoder, decode_response_body.
  unfold mbind, reader_bind, need at 1. rewrite try_get_u8_rest. unfold take_from, cur_rest. cbn.
  by rewrite E.
Qed.

Lemma handle_stream_served (writer : B) inputs :
  as_ref writer = [] -> Forall served inputs ->
  Forall (fun i => Forall str_fits (response_strings (stream_reply i))) inputs ->
  exists io, handle_stream writer inputs = (io, ClientClosed) /\
    omap written io = map (fun i => response_wire (stream_reply i)) inputs /\
    map (fun r => Ok r) (omap forwarded io) = map in_msg inputs.
Proof.
  intros Hw Hs. induction Hs as [|i inputs ((req & Hm) & Ht & Hf) _ IH]; intros Hfit; [by eexists|].
  apply Forall_cons in Hfit as [Hi Hfit]. destruct (IH Hfit) as (io & E & Hwr & Hfw).
  cbn [handle_stream]. rewrite Hm, Ht, Hf, E.
  destruct (encode_response_writes (B:=B) (stream_reply i) Hi writer) as (b & -> & Hb).
  eexists. split_and!; [done|cbn; rewrite Hb, Hw, Hwr; done|cbn; by rewrite Hm, Hfw].
Qed.

Definition fits (i : stream_input) : Prop := Forall str_fits (response_strings (stream_reply i)).

#[export] Instance fits_dec i : Decision (fits i).
Proof. unfold fits. apply _. Defined.

(** One exchange, by what becomes of the response. *)
Lemma handle_stream_step (writer : B) i inputs req :
  in_msg i = Ok req -> in_taken i = true ->
  if decide (fits i /\ in_flush i = Ok tt)
  then exists io, handle_stream writer (i :: inputs) = (io, (handle_stream writer inputs).2)
  else handle_stream writer (i :: inputs) = ([Forwarded req], StreamPanic).
Proof.
  intros Hm Ht. cbn [handle_stream]. rewrite Hm, Ht. cbn [negb].
  pose proof (encode_response_result (B:=B) (stream_reply i) writer) as He.
  fold (fits i) in He. destruct (encode_response (stream_reply i) writer) as [r b]. cbn in He. subst r.
  destruct (handle_stream writer inputs) as [io e]. case_decide as Hc.
  - destruct Hc as [Hfit ->]. rewrite decide_True by done. by eexists.
  - destruct (decide (fits i)) as [Hfit|]; [|done].
    destruct (in_flush i) as [[]|]; [|done]. by destruct Hc.
Qed.

Definition good_exchange (i : stream_input) : Prop := served i /\ fits i.

(** The exchange that makes the handler panic. *)
Definition bad_exchange (i : stream_input) : Prop :=
  (exists req, in_msg i = Ok req) /\ in_taken i = true /\ ~ (fits i /\ in_flush i = Ok tt).

Lemma handle_stream_panic (writer : B) inputs :
  (handle_stream writer inputs).2 = StreamPanic <->
  exists pre i post, inputs = pre ++ i :: post /\ Forall good_exchange pre /\ bad_exchange i.
Proof.
  induction inputs as [|i inputs IH].
  { split; [done|]. by intros ([] & ? & ? & ? & _). }
  destruct (in_msg i) as [req|e] eqn:Hm.
  2: { cbn. rewrite Hm. split; [done|]. intros ([|j pre] & k & post & E & Hpre & (r & Hr) & _).
       - injection E as -> ->. congruence.
       - injection E as -> ->. apply Forall_cons in Hpre as [[((r' & ?) & _) _] _]. congruence. }
  destruct (in_taken i) eqn:Ht.
  2: { cbn. rewrite Hm, Ht. split; [done|]. intros ([|j pre] & k & post & E & Hpre & _ & Hk & _).
       - injection E as -> ->. congruence.
       - injection E as -> ->. apply Forall_cons in Hpre as [[(_ & ? & _) _] _]. congruence. }
  pose proof (handle_stream_step writer i inputs req Hm Ht) as Hstep. case_decide as Hc.
  - destruct Hstep as (io & ->). cbn. rewrite IH. split.
    + intros (pre & k & post & -> & Hpre & Hk). exists (i :: pre), k, post.
      split_and!; [done| |done]. constructor; [|done]. destruct Hc. split; [split_and!; eauto|done].
    + intros ([|j pre] & k & post & E & Hpre & Hk); injection E as -> ->.
      * by destruct Hk as (_ & _ & []).
      * apply Forall_cons in Hpre as [_ Hpre]. eauto 10.
  - rewrite Hstep. split; [|done]. intros _. exists [], i, inputs.
    split_and!; [done|constructor|split_and!; eauto].
Qed.
End serving.

(** ** Properties *)

Section properties.
Context {T Sock : Type} `{!NixTermios T} (O_NONBLOCK : Z).

(** C15. A request does what the command line means by it, on the map of
    connections by name: [add] refuses a name in use, reports the PTY call that
    failed and otherwise adds the connection and starts its task; [remove]
    deletes it and tells its task to stop; [list] shows every connection with
    what its task says of itself; [reset] asks that connection's task only and
    reports its answer; nothing else changes and nothing panics. *)
Theorem daemon_request_refines env req s m :
  represents s m ->
  exists resp s' m' (effs : list (effect T Sock)),
    handle_daemon_request O_NONBLOCK env req s = Done (resp, s', effs) /\
    represents s' m' /\ request_spec O_NONBLOCK env m req resp m' effs.
Proof. apply request_meets. Qed.

(** C33. Requests keep the registry well-typed (unique names, UTF-8 strings of
    at most 255 bytes, numbers in range), and the response to a request whose
    name is at most 199 bytes long can always be encoded. *)
Theorem daemon_well_typed env req s :
  env_wf env -> state_wf s -> request_wf req ->
  exists resp s' (effs : list (effect T Sock)),
    handle_daemon_request O_NONBLOCK env req s = Done (resp, s', effs) /\ state_wf s' /\
    (Forall short_name (request_strings req) -> response_wf resp).
Proof. apply handle_wf. Qed.

(** The main loop never panics, whatever clients, tasks and the kernel do;
    it keeps the names of the connections unique and well-typed, and answers
    every command it took before Ctrl-C exactly once and in order. *)
Theorem main_loop_answers inputs :
  Forall input_wf inputs ->
  exists s' (acts : list (main_action T Sock)),
    main_loop O_NONBLOCK inputs state_default = Done (s', acts) /\ state_wf s' /\
    omap responded acts = commands inputs.
Proof. intros Hi. apply main_loop_wf; [done|]. split; [apply NoDup_nil_2|constructor]. Qed.

(** The daemon starts over a socket file left behind, panics only when it
    cannot bind, and when it is told to stop removes its socket, whatever
    happened before. *)
Theorem daemon_main_cleans_up option_value env_value bind inputs :
  Forall input_wf inputs ->
  match bind with
  | Err _ => daemon_main (Sock:=Sock) O_NONBLOCK option_value env_value bind inputs = Panicked
  | Ok _ => exists acts, daemon_main (Sock:=Sock) O_NONBLOCK option_value env_value bind inputs =
      Done ([RemoveFile (args_socket option_value env_value); BindSocket (args_socket option_value env_value);
             Served acts] ++
            (if existsb is_ctrl_c inputs then [RemoveFile (args_socket option_value env_value)] else [])) /\
      omap responded acts = commands inputs
  end.
Proof.
  intros Hi. destruct bind as [u|e]; [|done]. unfold daemon_main.
  destruct (main_loop_wf (Sock:=Sock) O_NONBLOCK inputs state_default Hi) as (s' & acts & -> & _ & E);
    [split; [apply NoDup_nil_2|constructor]|]. by exists acts.
Qed.

End properties.

Section stream_properties.
Context {B : Type} `{!BytesCrate B, !BytesLaws B}.

(** C23. A client whose exchanges go well is served.  Take a client whose requests
    all decode and are taken by the main task, where every response can be
    encoded and read back (no string of more than 255 bytes, text that is UTF-8,
    numbers in range, no list of more than 65535 entries) and every write to the
    socket succeeds: then the handler ends when the client closes, without
    panicking; its requests reach the main task in order; and a client that reads
    the socket, in chunks of any size, decodes exactly one response for each, in
    the same order: the one the main task gave, or the error the code has for a
    command the main task dropped. *)
Theorem client_served (writer buf : B) inputs chunks :
  as_ref writer = [] -> as_ref buf = [] -> Forall served inputs ->
  Forall (fun i => readable (stream_reply i)) inputs ->
  exists io, handle_stream writer inputs = (io, ClientClosed) /\
    map (fun r => Ok r) (omap forwarded io) = map in_msg inputs /\
    (chunks <> [] -> concat chunks = concat (omap written io) ->
     let rx := feed_all decode_response buf chunks in
     rx_items rx = map stream_reply inputs /\ rx_error rx = None /\ as_ref (rx_buffer rx) = []).
Proof.
  intros Hw Hb Hs Hr. destruct (handle_stream_served writer inputs Hw Hs) as (io & E & Hwr & Hfw).
  { eapply Forall_impl; [exact Hr|]. intros i [? _]. by apply response_wf_fits. }
  exists io. split_and!; [done..|]. intros Hne Hc. rewrite Hwr in Hc.
  refine (feed_all_frames decode_response (fun i => response_wire (stream_reply i)) stream_reply
    inputs [] buf chunks _ _ Hb Hne _).
  - intros i Hi src l. apply readable_reads. by rewrite Forall_forall in Hr; apply Hr.
  - intros src Hsrc. exists src. by apply decode_response_empty.
  - by rewrite app_nil_r.
Qed.

(** The handler of a client panics exactly when, after exchanges that went
    well, a response cannot be encoded (one of its strings is longer than 255
    bytes) or cannot be written to the socket. *)
Theorem handle_stream_panics_iff (writer : B) inputs :
  (handle_stream writer inputs).2 = StreamPanic <->
  exists pre i post, inputs = pre ++ i :: post /\ Forall good_exchange pre /\ bad_exchange i.
Proof. apply handle_stream_panic. Qed.

(** The protocol accepts names the daemon cannot answer about: removing an
    unknown connection whose name has between 225 and 255 bytes makes the
    daemon build an error message that does not fit the protocol, and the
    task that serves the client panics without an answer. *)
Theorem long_name_panics {T Sock} `{!NixTermios T} O_NONBLOCK (env : environment T) s m name
    (writer : B) flush rest :
  represents s m -> m !! name = None -> utf8_valid name = true -> (224 < length name <= 255)%nat ->
  request_wf (ReqRemove name) /\
  exists resp, handle_daemon_request (Sock:=Sock) O_NONBLOCK env (ReqRemove name) s = Done (resp, s, []) /\
    handle_stream writer (mkStreamInput (Ok (ReqRemove name)) true (Some resp) flush :: rest) =
      ([Forwarded (ReqRemove name)], StreamPanic).
Proof.
  intros Hr Hn Hv Hl. split; [split; [|done]; apply Forall_singleton; split; [unfold str_fits; lia|done]|].
  exists (RespError (not_found name)). split.
  - cbn. unfold handle_remove, state_remove. apply (represents_none s m name Hr) in Hn.
    apply position_none in Hn. by rewrite Hn.
  - set (i := mkStreamInput _ _ _ _).
    pose proof (handle_stream_step writer i rest (ReqRemove name) eq_refl eq_refl) as H.
    rewrite decide_False in H; [exact H|]. intros [Hf _]. unfold fits in Hf. cbn in Hf.
    rewrite Forall_singleton in Hf. unfold str_fits in Hf. cbn in Hf. lia.
Qed.
End stream_properties.

(** ** Witnesses *)

Module DaemonWitness.
Import ListBytes LinuxTermios.

Definition ok_open : PtyOpen termios :=
  mkPtyOpen termios (Ok 2) (fun _ => Ok tt) (Ok tt) (Ok (lit "/dev/pts/4")) (fun _ => Ok tt)
    (Ok cooked) (fun _ => Ok tt) (Ok cooked) (Ok tt).
Definition ok_pty : PtyCreation termios :=
  mkPtyCreation (Ok tt) (Ok tt) (Ok tt) (Ok (lit "/dev/pts/4")) ok_open.
Definition ok_env (fresh : nat) : environment termios :=
  mkEnvironment ok_pty fresh (fun _ => Replied true) (fun _ => Replied (Ok DevOk)).
Definition esp : rstring := lit "esp".
Definition one : State := mkState [mkConnection esp 16909060 15113 (lit "/dev/pts/4") 7].

Lemma esp_wf : str_wf esp.
Proof. split; [by apply Nat.leb_le|done]. Qed.
Lemma path_wf : str_wf (lit "/dev/pts/4").
Proof. split; [by apply Nat.leb_le|done]. Qed.
Lemma ok_env_wf n : env_wf (ok_env n).
Proof. intros path [= <-]. apply path_wf. Qed.
Lemma one_wf : state_wf one.
Proof.
  split; [apply NoDup_singleton|]. apply Forall_singleton. split_and!; [apply esp_wf|done|done|apply path_wf].
Qed.

Lemma daemon_request_refines_witness : exists resp s' m' effs,
  handle_daemon_request (Sock:=unit) 2048 (ok_env 3) (ReqRemove esp) one = Done (resp, s', effs) /\
  represents s' m' /\
  request_spec 2048 (ok_env 3) (list_to_map (map keyed (conns one))) (ReqRemove esp) resp m' effs.
Proof. apply daemon_request_refines. split; [apply one_wf|done]. Defined.

Lemma daemon_well_typed_witness : exists resp s' effs,
  handle_daemon_request (Sock:=unit) 2048 (ok_env 3) (ReqAdd (lit "b") 1 2) one = Done (resp, s', effs) /\
  state_wf s' /\ (Forall short_name [lit "b"] -> response_wf resp).
Proof.
  apply (daemon_well_typed (Sock:=unit) 2048 (ok_env 3) (ReqAdd (lit "b") 1 2) one (ok_env_wf 3) one_wf).
  split; [apply Forall_singleton; split; [by apply Nat.leb_le|done]|done].
Defined.

Definition busy_day : list (main_input termios) :=
  [Accepted (Ok tt); EventReceived (CliCommand (ReqAdd esp 1 2) 10) (ok_env 0);
   EventReceived (CliCommand (ReqReset esp) 11) (ok_env 1); EventReceived (CliCommand ReqList 12) (ok_env 1);
   EventReceived (ConnectionClosed esp) (ok_env 1); EventReceived (CliCommand (ReqReset esp) 13) (ok_env 1);
   CtrlC].

Lemma busy_day_wf : Forall input_wf busy_day.
Proof.
  unfold busy_day. repeat (apply Forall_cons; split); try done;
    (split; [split; [|done]|apply ok_env_wf]).
  all: first [apply Forall_singleton, esp_wf|constructor].
Qed.

Lemma daemon_main_cleans_up_witness : exists acts,
  daemon_main (Sock:=unit) 2048 None (Some (lit "/run/t.sock")) (Ok tt) busy_day =
    Done ([RemoveFile (lit "/run/t.sock"); BindSocket (lit "/run/t.sock"); Served acts] ++
      (if existsb is_ctrl_c busy_day then [RemoveFile (lit "/run/t.sock")] else [])).
Proof.
  destruct (daemon_main_cleans_up (Sock:=unit) 2048 None (Some (lit "/run/t.sock")) (Ok tt) busy_day busy_day_wf)
    as (acts & E & _). by exists acts.
Defined.

Lemma main_loop_answers_witness : exists s' acts,
  main_loop (Sock:=unit) 2048 busy_day state_default = Done (s', acts) /\ state_wf s' /\
  omap responded acts = [10; 11; 12; 13]%nat.
Proof. exact (main_loop_answers (Sock:=unit) 2048 busy_day busy_day_wf). Defined.

Definition exchange (req : DaemonRequest) (resp : DaemonResponse) : stream_input :=
  mkStreamInput (Ok req) true (Some resp) (Ok tt).

Lemma client_served_witness : exists io,
  handle_stream (B:=list u8) [] [exchange ReqList (RespList []); exchange (ReqReset esp) ResetOk]
    = (io, ClientClosed) /\
  map (fun r => Ok r : io_result DaemonRequest) (omap forwarded io) = [Ok ReqList; Ok (ReqReset esp)].
Proof.
  destruct (client_served (B:=list u8) [] []
    [exchange ReqList (RespList []); exchange (ReqReset esp) ResetOk] []) as (io & E & Hf & _);
    [done|done| | |by exists io].
  - repeat constructor; by eexists.
  - repeat constructor.
Defined.

Lemma handle_stream_panics_iff_witness :
  (handle_stream (B:=list u8) [] [exchange ReqList (RespError (replicate 256 x61))]).2 = StreamPanic.
Proof.
  apply (handle_stream_panics_iff (B:=list u8) [] [exchange ReqList (RespError (replicate 256 x61))]).
  exists [], (exchange ReqList (RespError (replicate 256 x61))), [].
  split_and!; [done|constructor|]. split_and!; [by eexists|done|]. intros [Hf _].
  unfold fits in Hf. cbn [stream_reply in_reply exchange response_strings] in Hf.
  rewrite Forall_singleton in Hf. unfold str_fits in Hf. rewrite length_replicate in Hf. lia.
Defined.

Lemma long_name_panics_witness : exists resp,
  handle_daemon_request (Sock:=unit) 2048 (ok_env 0) (ReqRemove (replicate 225 x61)) state_default
    = Done (resp, state_default, []) /\
  handle_stream (B:=list u8) [] [exchange (ReqRemove (replicate 225 x61)) resp] =
    ([Forwarded (ReqRemove (replicate 225 x61))], StreamPanic).
Proof.
  apply (long_name_panics (B:=list u8) (Sock:=unit) 2048 (ok_env 0) state_default ∅
    (replicate 225 x61) [] (Ok tt) []).
  - apply represents_empty.
  - apply lookup_empty.
  - by vm_compute.
  - rewrite length_replicate. lia.
Defined.
End DaemonWitness.
