(* ===== verification/Tool.v ===== *)
(** * The tool and the daemon (cli/src/main.rs, daemon/src/main.rs)

    One run of the command-line tool against the daemon, from the command to the
    lines it prints: the tool's [main], the bytes it sends, the handler of its
    connection, [handle_daemon_request], the bytes of the response, and what
    the tool makes of them.  Sockets deliver bytes in portions of any size. *)
From S2P Require Import Prelude BytesApi Codec Framing Utf8 DeviceMsg Ctl Cli AsyncPty Connection Registry Daemon.
From stdpp Require Import base numbers strings countable gmap list.
#[local] Open Scope Z_scope.

(** The [socket] of the tool's [Cli]. *)
Definition cli_socket (option_value env_value : option rstring) : rstring :=
  match option_value, env_value with
  | Some path, _ => path
  | None, Some path => path
  | None, None => lit "/tmp/tcpuart.sock"
  end.

(** The portions in which a socket delivers some bytes. *)
Fixpoint delivered (sizes : list nat) (bytes : list u8) : list (list u8) :=
  match sizes with
  | [] => [bytes]
  | n :: sizes => take n bytes :: delivered sizes (drop n bytes)
  end.

Lemma concat_delivered sizes bytes : concat (delivered sizes bytes) = bytes.
Proof.
  revert bytes. induction sizes as [|n sizes IH]; intros bytes; cbn; [by rewrite app_nil_r|].
  by rewrite IH, take_drop.
Qed.

Lemma delivered_nonempty sizes bytes : delivered sizes bytes <> [].
Proof. by destruct sizes. Qed.

Section tool.
Context {T Sock : Type} `{!NixTermios T} (O_NONBLOCK : Z).
Context {B : Type} `{!BytesCrate B} (empty : B).

(** What [reader.next()] gives first. *)
Definition first_item {A} (rx : receiver B A) : option (io_result A) :=
  match rx_items rx with
  | item :: _ => Some (Ok item)
  | [] => match rx_error rx with Some e => Some (Err e) | None => None end
  end.

(** The lines printed and the exit code, the registry after, and what was done
    to the tasks; a handler that panics gives no response. *)
Definition tool_run (env : environment T) (up down : list nat) (command : Command) (state : State) :
    outcome (list line * Z * State * list (effect T Sock)) :=
  let ran next := cli_main (Ok tt) (Ok tt) next empty command in
  let sent := run_sent (ran None) in
  match first_item (feed_all decode_request empty (delivered up sent)) with
  | Some (Ok req) =>
      match handle_daemon_request O_NONBLOCK env req state with
      | Panicked => Panicked
      | Done (resp, state, effects) =>
          let '(io, _) := handle_stream empty [mkStreamInput (Ok req) true (Some resp) (Ok tt)] in
          let bytes := concat (omap written io) in
          let run := ran (first_item (feed_all decode_response empty (delivered down bytes))) in
          Done (run_lines run, run_exit run, state, effects)
      end
  | _ => Done (run_lines (ran None), run_exit (ran None), state, [])
  end.
End tool.

(** ** Each half of the conversation *)

Section halves.
Context {B : Type} `{!BytesCrate B, !BytesLaws B} (empty : B).

Lemma decode_request_empty src : as_ref (B:=B) src = [] -> decode_request src = Done (Ok None, src).
Proof.
  intros E. unfold decode_request, run_decoder, decode_request_body.
  unfold mbind, reader_bind, need at 1. rewrite try_get_u8_rest. unfold take_from, cur_rest. cbn.
  by rewrite E.
Qed.

Lemma request_arrives req sizes :
  as_ref empty = [] -> request_wf req ->
  first_item (feed_all decode_request empty (delivered sizes (request_wire req))) = Some (Ok req).
Proof.
  intros He Hwf.
  destruct (feed_all_frames decode_request request_wire id [req] [] empty (delivered sizes (request_wire req)))
    as (Hi & _ & _); [| |done|apply delivered_nonempty| |].
  - intros m ->%list_elem_of_singleton src l Hsrc. eapply run_reads; [by apply reads_request|done].
  - intros src Hsrc. exists src. by apply decode_request_empty.
  - cbn. by rewrite concat_delivered, !app_nil_r.
  - unfold first_item. by rewrite Hi.
Qed.

Lemma response_arrives resp sizes :
  as_ref empty = [] -> readable resp ->
  first_item (feed_all decode_response empty (delivered sizes (response_wire resp))) = Some (Ok resp).
Proof.
  intros He Hr.
  destruct (feed_all_frames decode_response response_wire id [resp] [] empty (delivered sizes (response_wire resp)))
    as (Hi & _ & _); [| |done|apply delivered_nonempty| |].
  - intros m ->%list_elem_of_singleton src l. by apply readable_reads.
  - intros src Hsrc. exists src. by apply decode_response_empty.
  - cbn. by rewrite concat_delivered, !app_nil_r.
  - unfold first_item. by rewrite Hi.
Qed.
End halves.

(** ** Whole runs *)

Lemma spec_list_size {T Sock} `{!NixTermios T} O_NONBLOCK (env : environment T) m req l m' (effs : list (effect T Sock)) :
  request_spec O_NONBLOCK env m req (RespList l) m' effs -> length l = size m.
Proof.
  intros H. remember (RespList l) as resp eqn:E.
  destruct H as [| ? ? ? ? _ Hc| | | |l' Hl|? c| ]; try discriminate E.
  - subst. unfold create_pty in Hc. by repeat (case_match; simplify_eq).
  - injection E as <-. by rewrite length_map, Hl, length_map, length_map_to_list.
  - unfold reset_response in E. repeat case_match; discriminate E.
Qed.

Section runs.
Context {T Sock : Type} `{!NixTermios T} (O_NONBLOCK : Z).
Context {B : Type} `{!BytesCrate B, !BytesLaws B} (empty : B).
Abbreviation run := (tool_run (Sock:=Sock) O_NONBLOCK empty).

Lemma tool_run_request env up down command req state resp state' effects :
  as_ref empty = [] -> command_wf command -> Forall str_fits (command_strings command) ->
  cli_request command = Ok req ->
  handle_daemon_request O_NONBLOCK env req state = Done (resp, state', effects) -> readable resp ->
  run env up down command state = Done (handle_response resp, 0, state', effects).
Proof.
  intros He Hc Hf Hreq Hh Hr. unfold tool_run.
  pose proof (cli_request_wf _ _ Hc Hf Hreq) as Hwf. rewrite <-(cli_request_strings _ _ Hreq) in Hf.
  rewrite (cli_main_sent empty None command req He Hreq Hf), request_arrives, Hh by done.
  destruct (handle_stream_served empty [mkStreamInput (Ok req) true (Some resp) (Ok tt)] He) as (io & -> & Hw & _).
  { repeat constructor. by exists req. }
  { constructor; [|constructor]. apply response_wf_fits, Hr. }
  rewrite Hw. cbn [map concat stream_reply in_reply]. rewrite app_nil_r, response_arrives by done.
  unfold cli_main. rewrite Hreq. destruct (encode_request_writes (B:=B) req Hf empty) as (b & -> & _). done.
Qed.

Lemma tool_run_refused env up down command msg state :
  as_ref empty = [] -> cli_request command = Err msg ->
  run env up down command state = Done ([Diag msg], 1, state, []).
Proof.
  intros He Hreq. unfold tool_run, cli_main. rewrite Hreq. cbn [run_sent run_lines run_exit].
  assert (first_item (feed_all decode_request empty (delivered up [])) = None) as ->; [|done].
  destruct (feed_all_frames (A:=DaemonRequest) decode_request request_wire id [] [] empty (delivered up []))
    as (Hi & Hn & _); [| |done|apply delivered_nonempty| |].
  - by intros m Hm%elem_of_nil.
  - intros src Hsrc. exists src. by apply decode_request_empty.
  - by rewrite concat_delivered.
  - unfold first_item. by rewrite Hi, Hn.
Qed.
End runs.

(** What a registry lists. *)
Lemma listed_infos status s m conn n :
  represents s m -> conn ∈ conns s -> map_Forall (fun _ => conn_wf) m -> size m = S n ->
  let infos := state_list status s in
  infos <> [] /\ length infos = S n /\ connection_info status conn ∈ infos /\ Forall connection_wf infos.
Proof.
  intros Hr Hin Hm Hn infos. assert (length infos = S n) as Hl.
  { unfold infos, state_list. by rewrite length_map, (represents_values _ _ Hr), length_map, length_map_to_list. }
  split_and!; [by intros E; rewrite E in Hl|done|by apply list_elem_of_fmap_2|].
  assert (state_wf s) as [_ Hwf] by (apply state_wf_represents; eauto).
  unfold infos, state_list. apply Forall_fmap. eapply Forall_impl; [exact Hwf|]. by intros c (? & ? & ? & ?).
Qed.

(** ** Properties *)

Section properties.
Context {T Sock : Type} `{!NixTermios T} (O_NONBLOCK : Z).
Context {B : Type} `{!BytesCrate B, !BytesLaws B} (empty : B).

(** The registry of a running daemon: the connections by name, all well-typed,
    fewer than a list can announce. *)
Definition registry_of (s : State) (m : gmap rstring Connection) : Prop :=
  represents s m /\ map_Forall (fun _ => conn_wf) m /\ Z.of_nat (size m) < 2 ^ 16.

(** C11. A command does what it says and the user is told what happened.  For
    every command whose name has at most 199 bytes, however the sockets cut
    the bytes, the tool prints exactly the response its request is specified
    to have on the daemon's map of connections, exits with 0, and the map and
    the tasks change exactly as specified; a bad address is reported with
    exit code 1, and the daemon never hears of it. *)
Theorem tool_does_what_it_says env up down command s m :
  as_ref empty = [] -> registry_of s m -> env_wf env -> command_wf command ->
  Forall short_name (command_strings command) ->
  match cli_request command with
  | Ok req => exists resp s' m' effects,
      tool_run (Sock:=Sock) O_NONBLOCK empty env up down command s = Done (handle_response resp, 0, s', effects) /\
      represents s' m' /\ request_spec O_NONBLOCK env m req resp m' effects
  | Err msg => tool_run (Sock:=Sock) O_NONBLOCK empty env up down command s = Done ([Diag msg], 1, s, [])
  end.
Proof.
  intros He (Hr & Hm & Hn) Henv Hc Hs. destruct (cli_request command) as [req|msg] eqn:Hreq;
    [|by apply tool_run_refused].
  assert (Forall str_fits (command_strings command)) as Hf.
  { eapply Forall_impl; [exact Hs|]. intros n Hl. unfold short_name, MAX_SAFE_NAME, str_fits in *. lia. }
  pose proof (cli_request_wf _ _ Hc Hf Hreq) as Hwf.
  destruct (request_meets (Sock:=Sock) O_NONBLOCK env req s m Hr) as (resp & s' & m' & effs & E & Hr' & Hspec).
  destruct (spec_response_wf _ _ _ _ _ _ _ Hspec Henv Hm Hwf) as [_ Hresp].
  exists resp, s', m', effs. split_and!; [|done..]. eapply tool_run_request; try done. split.
  - apply Hresp. by rewrite (cli_request_strings _ _ Hreq).
  - destruct resp; try done. by rewrite (spec_list_size _ _ _ _ _ _ _ Hspec).
Qed.

(** C34. What the user typed is what the list shows.  After an [add] that
    succeeds, [list] prints a line for the connection with its name, the very
    text of its address, its port, the path of its PTY and whether its task says
    it is connected, among the lines of the connections that were there. *)
Theorem tool_lists_what_was_added env1 env2 up1 down1 up2 down2 name text port pty path addr s m :
  as_ref empty = [] -> registry_of s m -> Z.of_nat (size m) + 1 < 2 ^ 16 -> env_wf env1 ->
  command_wf (CmdAdd name text port) -> short_name name -> parse_ipv4 text = Some addr ->
  m !! name = None -> create_pty O_NONBLOCK (env_pty env1) = Ok (pty, path) ->
  exists s1,
    tool_run (Sock:=Sock) O_NONBLOCK empty env1 up1 down1 (CmdAdd name text port) s =
      Done ([Out (lit "Successfully added connection. PTY device: " ++ path)], 0, s1,
            [Spawned (env_fresh env1) (new_task name addr port pty)]) /\
    exists lines asked,
      tool_run (Sock:=Sock) O_NONBLOCK empty env2 up2 down2 CmdList s1 = Done (lines, 0, s1, asked) /\
      length lines = (2 + size m)%nat /\
      Out (lit "- " ++ name ++ lit ": " ++ text ++ lit ":" ++ dec_u16 port ++ lit " (PTY: " ++ path ++ lit ") " ++
        (if get_status (env_status env2 (env_fresh env1)) then lit "[CONNECTED]" else lit "[OFFLINE]")) ∈ lines.
Proof.
  intros He (Hr & Hm & Hn) Hn1 Henv Hc Hs Hp Hnone Hpty.
  apply parse_ipv4_inv in Hp as Hp'. destruct Hp' as [Ha Htext].
  set (conn := mkConnection name addr port path (env_fresh env1)).
  assert (str_fits name) as Hfit by (unfold short_name, MAX_SAFE_NAME, str_fits in *; lia).
  pose proof (create_pty_path _ _ _ _ Hpty Henv) as Hpath.
  assert (represents (state_add conn s) (<[name := conn]> m)) as Hr1 by by apply (add_represents conn).
  assert (map_Forall (fun _ => conn_wf) (<[name := conn]> m)) as Hm1.
  { apply map_Forall_insert_2; [|done]. destruct Hc as [Hu Hport]. apply Forall_cons in Hu as [Hu _].
    by split; [split|split_and!]. }
  exists (state_add conn s). split.
  - apply (tool_run_request (Sock:=Sock) O_NONBLOCK empty env1 up1 down1 (CmdAdd name text port)
      (ReqAdd name addr port) s (AddOk path)); [done|done|by apply Forall_singleton|cbn; by rewrite Hp| |done].
    cbn. unfold handle_add. rewrite (exists_represents _ _ _ Hr), bool_decide_eq_false_2 by (rewrite Hnone; by intros []).
    by rewrite Hpty.
  - set (infos := state_list (env_status env2) (state_add conn s)).
    assert (infos <> [] /\ length infos = S (size m) /\ connection_info (env_status env2) conn ∈ infos /\
      Forall connection_wf infos) as (Hne & Hlen & Hin & Hwf).
    { apply (listed_infos _ _ (<[name := conn]> m)); [done|apply elem_of_app; right; by left|done|].
      by apply map_size_insert_None. }
    assert (handle_response (RespList infos) =
      Out (lit "Active connections:") :: map (fun info => Out (connection_line info)) infos) as El
      by (clear -Hne; clearbody infos; by destruct infos).
    eexists (handle_response (RespList infos)), _. split_and!.
    + eapply (tool_run_request (Sock:=Sock) O_NONBLOCK empty env2 up2 down2 CmdList ReqList (state_add conn s)
        (RespList infos)); [done|by split; [constructor|]|constructor|done|done|]. split; [done|]. rewrite Hlen. lia.
    + rewrite El. cbn [length]. rewrite length_map, Hlen. done.
    + rewrite El. right. apply list_elem_of_fmap. exists (connection_info (env_status env2) conn). split; [|done].
      unfold connection_line. cbn [ci_name ci_addr ci_port ci_pts_path ci_connected connection_info co_name co_addr
        co_port co_slave_path co_task conn]. by rewrite Htext.
Qed.
End properties.

(** ** Witnesses *)

Module ToolWitness.
Import ListBytes LinuxTermios DaemonWitness CliWitness.

Lemma one_registry : exists m, registry_of one m.
Proof.
  destruct (proj1 (state_wf_represents one) one_wf) as (m & Hr & Hm). exists m. split_and!; [done|done|].
  rewrite <-(length_map_to_list m), <-(length_map snd), <-(represents_values _ _ Hr). done.
Qed.

(** Removing the connection of the registry, the request in three portions. *)
Lemma tool_does_what_it_says_witness : exists resp m' effects,
  tool_run (Sock:=unit) 2048 (B:=list u8) [] (ok_env 8) [1; 2]%nat [] (CmdRemove esp) one =
    Done ([Out (lit "Successfully removed connection")], 0, state_default, [ShutdownSent 7]) /\
  handle_response resp = [Out (lit "Successfully removed connection")] /\ represents state_default m' /\
  effects = [@ShutdownSent termios unit 7].
Proof.
  assert (tool_run (Sock:=unit) 2048 (B:=list u8) [] (ok_env 8) [1; 2]%nat [] (CmdRemove esp) one =
    Done ([Out (lit "Successfully removed connection")], 0, state_default, [ShutdownSent 7])) as Er by by vm_compute.
  destruct one_registry as [m Hm].
  pose proof (tool_does_what_it_says (Sock:=unit) 2048 (B:=list u8) [] (ok_env 8) [1; 2]%nat [] (CmdRemove esp) one m
    eq_refl Hm (ok_env_wf 8) (conj (Forall_cons_2 _ _ _ (proj2 esp_wf) (Forall_nil_2 _)) I)
    (Forall_cons_2 _ _ _ (proj1 (Nat.leb_le (length esp) MAX_SAFE_NAME) eq_refl) (Forall_nil_2 _))) as H.
  cbv beta iota delta [cli_request] in H. destruct H as (resp & s' & m' & effects & E & Hr & _).
  rewrite Er in E. exists resp, m', effects. split; [exact Er|]. clear Er. injection E as E1 E2 E3.
  subst s' effects. by split_and!.
Defined.

Lemma tool_lists_what_was_added_witness : exists s1 lines asked,
  tool_run (Sock:=unit) 2048 (B:=list u8) [] (ok_env 9) [3]%nat [] CmdList s1 = Done (lines, 0, s1, asked) /\
  Out (lit "- esp: 192.168.1.42:15113 (PTY: /dev/pts/4) [CONNECTED]") ∈ lines.
Proof.
  destruct (tool_lists_what_was_added (Sock:=unit) 2048 (B:=list u8) [] (ok_env 8) (ok_env 9) [] [] [3]%nat [] esp
    (lit "192.168.1.42") 15113 (mkAsyncPty cooked) (lit "/dev/pts/4") 3232235818 state_default ∅)
    as (s1 & _ & lines & asked & E & _ & Hin); try done.
  - split_and!; [by split; [apply NoDup_nil_2|]|done|done].
  - apply ok_env_wf.
  - split; [by constructor; [apply esp_wf|]|done].
  - by apply Nat.leb_le.
  - by exists s1, lines, asked.
Defined.
End ToolWitness.
