(* ===== verification/System.v ===== *)
(** * The whole daemon

    The main task, the connection tasks and the event queue between them, as one
    transition system: a task takes a step or ends and queues its
    [ConnectionClosed], a client queues a command, the main loop takes the next
    event.  The invariant relates the registry to the tasks that run. *)
From S2P Require Import Prelude Utf8 DeviceMsg Ctl AsyncPty TcpBridge Connection Registry Daemon.
From stdpp Require Import base numbers strings countable gmap sets list.
#[local] Open Scope Z_scope.

(** [sys_signalled] are the tasks whose shutdown channel was used, [sys_fresh]
    bounds the identities in use. *)
Record system (T Sock : Type) := mkSystem {
  sys_state : State;
  sys_tasks : gmap nat (ConnectionTask T Sock);
  sys_signalled : gset nat;
  sys_events : list DaemonEvent;
  sys_fresh : nat;
}.
Arguments mkSystem {T Sock} _ _ _ _ _.
Arguments sys_state {T Sock} _.
Arguments sys_tasks {T Sock} _.
Arguments sys_signalled {T Sock} _.
Arguments sys_events {T Sock} _.
Arguments sys_fresh {T Sock} _.

Section system.
Context {T Sock : Type} `{!NixTermios T} (O_NONBLOCK : Z).
Abbreviation sys := (system T Sock).

Definition sys_init : sys := mkSystem state_default ∅ ∅ [] 0.

(** What a turn of the main loop does to the tasks. *)
Definition apply_action (a : main_action T Sock)
    (ts : gmap nat (ConnectionTask T Sock) * gset nat) : gmap nat (ConnectionTask T Sock) * gset nat :=
  match a with
  | TaskEffect (Spawned id task) => (<[id := task]> ts.1, ts.2)
  | TaskEffect (ShutdownSent id) => (ts.1, {[id]} ∪ ts.2)
  | _ => ts
  end.

(** A step that sees its shutdown signal, or the end of its request channel,
    needs a handle that was shut down. *)
Definition stops_waiting {A} (ev : wait_event A) : bool :=
  match ev with WaitShutdown | WaitRequest None => true | _ => false end.
Definition sees_shutdown (i : step_input T Sock) : bool :=
  match i with
  | InConnected ShutdownFired | InConnected (CtlReady None _) => true
  | InConnected _ => false
  | InReconnecting evs => existsb stops_waiting evs
  | InResyncing evs => existsb stops_waiting evs
  end.

(** The shutdown of a task refuses what is pending, then reports the end, which
    may have to wait: [sys_task_failing] is its first half alone. *)
Inductive sys_step : sys -> sys -> Prop :=
  | sys_task_step st tasks sg evs fresh id t i t' l :
      tasks !! id = Some t -> should_close t = false ->
      (sees_shutdown i = true -> id ∈ sg) ->
      step i t = Finished tt t' l ->
      sys_step (mkSystem st tasks sg evs fresh) (mkSystem st (<[id := t']> tasks) sg evs fresh)
  | sys_task_failing st tasks sg evs fresh id t t' l :
      tasks !! id = Some t -> should_close t = true -> fail_pending_ctl t = Finished tt t' l ->
      sys_step (mkSystem st tasks sg evs fresh) (mkSystem st (<[id := t']> tasks) sg evs fresh)
  | sys_task_end st tasks sg evs fresh id t t' l :
      tasks !! id = Some t -> should_close t = true -> task_shutdown t = Finished tt t' l ->
      sys_step (mkSystem st tasks sg evs fresh)
        (mkSystem st (delete id tasks) sg (evs ++ map ConnectionClosed (omap reported l)) fresh)
  | sys_command st tasks sg evs fresh req tx :
      sys_step (mkSystem st tasks sg evs fresh)
        (mkSystem st tasks sg (evs ++ [CliCommand req tx]) fresh)
  | sys_turn st tasks sg e evs fresh env st' acts :
      env_fresh env = fresh ->
      main_turn O_NONBLOCK (EventReceived e env) st = Done (true, st', acts) ->
      let ts := foldr apply_action (tasks, sg) acts in
      sys_step (mkSystem st tasks sg (e :: evs) fresh) (mkSystem st' ts.1 ts.2 evs (S fresh)).

Definition reachable : sys -> Prop := rtc sys_step sys_init.

(** ** The invariant *)

Record inv_with (s : sys) (m : gmap rstring Connection) : Prop := {
  inv_represents : represents (sys_state s) m;
  inv_entry n c : m !! n = Some c ->
    (co_task c < sys_fresh s)%nat /\ (co_task c ∉ sys_signalled s) /\
    ((exists t, sys_tasks s !! co_task c = Some t /\ conn_name t = n) \/
     ConnectionClosed n ∈ sys_events s);
  inv_distinct n1 n2 c1 c2 :
    m !! n1 = Some c1 -> m !! n2 = Some c2 -> co_task c1 = co_task c2 -> n1 = n2;
  inv_task id t : sys_tasks s !! id = Some t ->
    (id < sys_fresh s)%nat /\ task_inv t /\
    (id ∈ sys_signalled s \/ exists c, m !! conn_name t = Some c /\ co_task c = id);
  inv_signalled id : id ∈ sys_signalled s -> (id < sys_fresh s)%nat;
}.

Definition sys_inv (s : sys) : Prop := exists m, inv_with s m.

Lemma init_inv : sys_inv sys_init.
Proof. exists ∅. split; cbn; [apply represents_empty| | | |]; set_solver. Qed.

Lemma inv_state st st' tasks sg evs fresh m :
  represents st' m ->
  inv_with (mkSystem st tasks sg evs fresh) m -> inv_with (mkSystem st' tasks sg evs fresh) m.
Proof. intros Hr' [Hr Hen Hd Ht Hs]. by split. Qed.

(** An event that closes nothing may be dropped or added, and identities only
    grow. *)
Lemma inv_weaken st tasks sg evs evs' fresh fresh' m :
  (forall n, ConnectionClosed n ∈ evs -> is_Some (m !! n) -> ConnectionClosed n ∈ evs') ->
  (fresh <= fresh')%nat ->
  inv_with (mkSystem st tasks sg evs fresh) m -> inv_with (mkSystem st tasks sg evs' fresh') m.
Proof.
  intros He Hf [Hr Hen Hd Ht Hs]. split; cbn in *; [done| |done| |].
  - intros n c Hn. destruct (Hen n c Hn) as (H1 & H2 & H3). split_and!; [lia|done|].
    destruct H3 as [?|?]; [by left|right]. by apply He.
  - intros id t Hid. destruct (Ht id t Hid) as (H1 & H2 & H3). split_and!; [lia|done|done].
  - intros id Hid. specialize (Hs id Hid). lia.
Qed.

Lemma inv_task_update st tasks sg evs fresh id t t' m :
  tasks !! id = Some t -> conn_name t' = conn_name t -> (task_inv t -> task_inv t') ->
  inv_with (mkSystem st tasks sg evs fresh) m ->
  inv_with (mkSystem st (<[id := t']> tasks) sg evs fresh) m.
Proof.
  intros Hid Hname Hinv [Hr Hen Hd Ht Hs].
  split; cbn in *; [done| |done| |done].
  - intros n c Hn. destruct (Hen n c Hn) as (H1 & H2 & H3). split_and!; [done..|].
    destruct H3 as [(t0 & Ht0 & Hn0)|?]; [left|by right].
    destruct (decide (co_task c = id)) as [<-|Hne].
    + exists t'. rewrite lookup_insert_eq. split; [done|]. congruence.
    + exists t0. by rewrite lookup_insert_ne.
  - intros id0 t0. destruct (decide (id = id0)) as [<-|Hne].
    + rewrite lookup_insert_eq. intros [= <-]. destruct (Ht id t Hid) as (H1 & H2 & H3).
      split_and!; [done|by apply Hinv|]. by rewrite Hname.
    + rewrite lookup_insert_ne by done. apply Ht.
Qed.

Lemma fail_pending_eq (t : ConnectionTask T Sock) :
  fail_pending_ctl t = Finished tt
    (mkConnectionTask (conn_name t) (master t) (tcp t) (conn_state t) (pty_buf t) None)
    (map (fun tx => CtlReply tx (Err Unavailable)) (option_list (pending_hw_ctl t))).
Proof. by destruct t as [? ? ? ? ? []]. Qed.

Lemma fail_pending_inv (t t' : ConnectionTask T Sock) l :
  fail_pending_ctl t = Finished tt t' l -> task_inv t -> task_inv t'.
Proof.
  rewrite fail_pending_eq. intros [= <- _] [Hp Hf Hb Hk]. split; cbn; [|done..]. by destruct (conn_state t).
Qed.

Lemma inv_task_end st tasks sg evs fresh id t t' l m :
  tasks !! id = Some t -> task_shutdown t = Finished tt t' l ->
  inv_with (mkSystem st tasks sg evs fresh) m ->
  inv_with (mkSystem st (delete id tasks) sg (evs ++ map ConnectionClosed (omap reported l)) fresh) m.
Proof.
  intros Hid Hend [Hr Hen Hd Ht Hs]. rewrite task_shutdown_eq in Hend. injection Hend as <- <-.
  assert (omap reported (map (fun tx => CtlReply tx (Err Unavailable)) (option_list (pending_hw_ctl t)) ++
    [EventSend (conn_name t)]) = [conn_name t]) as -> by by destruct (pending_hw_ctl t).
  split; cbn in *; [done| |done| |done].
  - intros n c Hn. destruct (Hen n c Hn) as (H1 & H2 & H3). split_and!; [done..|].
    rewrite elem_of_app, list_elem_of_singleton.
    destruct H3 as [(t0 & Ht0 & Hn0)|?]; [|by right; left].
    destruct (decide (co_task c = id)) as [<-|Hne].
    + right. right. congruence.
    + left. exists t0. by rewrite lookup_delete_ne.
  - intros id0 t0 [_ H0]%lookup_delete_Some. by apply Ht.
Qed.

(** A connection leaves the registry and its task is told to stop. *)
Lemma inv_remove st st' tasks sg evs fresh n c m :
  m !! n = Some c -> represents st' (delete n m) ->
  inv_with (mkSystem st tasks sg (ConnectionClosed n :: evs) fresh) m ->
  inv_with (mkSystem st' tasks ({[co_task c]} ∪ sg) evs fresh) (delete n m).
Proof.
  intros Hn Hr' [Hr Hen Hd Ht Hs]. split; cbn in *; [done| | | |].
  - intros n' c' [Hne Hn']%lookup_delete_Some. destruct (Hen n' c' Hn') as (H1 & H2 & H3).
    split_and!; [done| |].
    + rewrite not_elem_of_union, not_elem_of_singleton. split; [|done].
      intros E. by apply Hne, (Hd n n' c c').
    + destruct H3 as [?|H3]; [by left|right]. apply elem_of_cons in H3 as [[= ->]|?]; done.
  - intros n1 n2 c1 c2 [_ H1]%lookup_delete_Some [_ H2]%lookup_delete_Some. by apply Hd.
  - intros id t Hid. destruct (Ht id t Hid) as (H1 & H2 & H3). split_and!; [done..|].
    rewrite elem_of_union, elem_of_singleton. destruct H3 as [?|(c' & Hc' & E)]; [by left; right|].
    destruct (decide (conn_name t = n)) as [En|Hne]; [left; left; congruence|right].
    exists c'. by rewrite lookup_delete_ne.
  - intros id [->%elem_of_singleton|Hid]%elem_of_union; [|by apply Hs]. by destruct (Hen n c Hn).
Qed.

(** A connection enters the registry with a fresh task. *)
Lemma inv_add st st' tasks sg evs fresh name addr port path pty m :
  let c := mkConnection name addr port path fresh in
  m !! name = None -> represents st' (<[name := c]> m) ->
  inv_with (mkSystem st tasks sg evs fresh) m ->
  inv_with (mkSystem st' (<[fresh := new_task name addr port pty]> tasks) sg evs (S fresh))
    (<[name := c]> m).
Proof.
  intros c Hn Hr' [Hr Hen Hd Ht Hs]. split; cbn in *.
  - done.
  - intros n' c'. destruct (decide (name = n')) as [<-|Hne].
    + rewrite lookup_insert_eq. intros [= <-]. cbn. split_and!; [lia| |].
      * intros Hin%Hs. lia.
      * left. exists (new_task name addr port pty). by rewrite lookup_insert_eq.
    + rewrite lookup_insert_ne by done. intros Hn'. destruct (Hen n' c' Hn') as (H1 & H2 & H3).
      split_and!; [lia|done|]. destruct H3 as [(t & Ht0 & Hname)|?]; [left|by right].
      exists t. rewrite lookup_insert_ne by lia. done.
  - intros n1 n2 c1 c2. destruct (decide (name = n1)) as [<-|H1], (decide (name = n2)) as [<-|H2];
      rewrite ?lookup_insert_eq, ?lookup_insert_ne by done; try done.
    + intros [= <-] Hn2 E. destruct (Hen n2 c2 Hn2) as [? _]. cbn in E. lia.
    + intros Hn1 [= <-] E. destruct (Hen n1 c1 Hn1) as [? _]. cbn in E. lia.
    + apply Hd.
  - intros id t. destruct (decide (fresh = id)) as [<-|Hne].
    + rewrite lookup_insert_eq. intros [= <-]. split_and!; [lia|apply new_task_inv|right].
      exists c. cbn. by rewrite lookup_insert_eq.
    + rewrite lookup_insert_ne by done. intros Hid. destruct (Ht id t Hid) as (H1 & H2 & H3).
      split_and!; [lia|done|]. destruct H3 as [?|(c' & Hc' & E)]; [by left|right]. exists c'.
      rewrite lookup_insert_ne; [done|]. congruence.
  - intros id Hid. specialize (Hs id Hid). lia.
Qed.

Lemma foldr_actions (effs : list (effect T Sock)) tx resp ts :
  foldr apply_action ts (map TaskEffect effs ++ [Responded tx resp]) =
  foldr apply_action ts (map TaskEffect effs).
Proof. by rewrite foldr_app. Qed.

Lemma foldr_asked (l : list Connection) (ts : gmap nat (ConnectionTask T Sock) * gset nat) :
  foldr apply_action ts (map TaskEffect (map (fun c => StatusAsked (co_task c)) l)) = ts.
Proof. by induction l. Qed.

Lemma inv_request st tasks sg evs fresh env req tx st' acts m :
  env_fresh env = fresh -> inv_with (mkSystem st tasks sg evs fresh) m ->
  main_turn O_NONBLOCK (EventReceived (CliCommand req tx) env) st = Done (true, st', acts) ->
  let ts := foldr apply_action (tasks, sg) acts in
  sys_inv (mkSystem st' ts.1 ts.2 evs (S fresh)).
Proof.
  intros Hf Hi. pose proof (inv_represents _ _ Hi) as Hr. cbn in Hr. cbn [main_turn].
  destruct (request_meets (Sock:=Sock) O_NONBLOCK env req st m Hr)
    as (resp & st1 & m' & effs & -> & Hr' & Hspec).
  intros [= <- <-]. cbn zeta. rewrite foldr_actions. exists m'.
  assert (inv_with (mkSystem st tasks sg evs (S fresh)) m) as Hi' by (eapply inv_weaken, Hi; auto with lia).
  destruct Hspec as [| |n a p pty path Hn Hc|n c Hn| |l Hl| |]; rewrite ?foldr_asked; cbn [map foldr apply_action fst snd];
    try by eapply inv_state.
  - rewrite Hf in *. by eapply inv_add.
  - eapply inv_remove; [done|done|]. eapply inv_weaken, Hi'; [|done].
    intros n' Hn' _. by right.
Qed.

Lemma inv_closed st tasks sg evs fresh env name st' acts m :
  inv_with (mkSystem st tasks sg (ConnectionClosed name :: evs) fresh) m ->
  main_turn (T:=T) (Sock:=Sock) O_NONBLOCK (EventReceived (ConnectionClosed name) env) st =
    Done (true, st', acts) ->
  let ts := foldr apply_action (tasks, sg) acts in
  sys_inv (mkSystem st' ts.1 ts.2 evs (S fresh)).
Proof.
  intros Hi. pose proof (inv_represents _ _ Hi) as Hr. cbn in Hr. cbn [main_turn].
  destruct (remove_represents name st m Hr) as (st1 & -> & Hr'). intros [= <- <-]. cbn zeta.
  destruct (m !! name) as [c|] eqn:Hn; cbn [option_list fmap option_fmap option_map map foldr apply_action fst snd].
  - exists (delete name m). eapply (inv_weaken _ _ _ evs evs fresh); [done|lia|]. by eapply inv_remove.
  - rewrite delete_id in Hr' by done. exists m. eapply inv_state; [done|]. eapply inv_weaken, Hi; [|lia].
    intros n [[= ->]|?]%elem_of_cons [? Hm]; [congruence|done].
Qed.

Lemma step_inv_sys s s' : sys_inv s -> sys_step s s' -> sys_inv s'.
Proof.
  intros [m Hi] H. destruct H as [st tasks sg evs fresh id t i t' l Hid _ _ Hstep
    |st tasks sg evs fresh id t t' l Hid _ Hfail
    |st tasks sg evs fresh id t t' l Hid _ Hend|st tasks sg evs fresh req tx
    |st tasks sg e evs fresh env st' acts Hf Hturn ts].
  - exists m. eapply inv_task_update; [done|by eapply step_name| |done]. intros ?. by eapply step_inv.
  - exists m. eapply inv_task_update; [done| | |done]; [|by eapply fail_pending_inv].
    rewrite fail_pending_eq in Hfail. by injection Hfail as <- _.
  - exists m. by eapply inv_task_end.
  - exists m. eapply inv_weaken, Hi; [|lia]. intros n Hn _. apply elem_of_app. by left.
  - destruct e as [req tx|name].
    + eapply inv_request; [exact Hf| |exact Hturn]. eapply inv_weaken, Hi; [|lia].
      intros n [?|Hn]%elem_of_cons _; done.
    + by eapply inv_closed.
Qed.

Lemma reachable_inv s : reachable s -> sys_inv s.
Proof.
  unfold reachable. intros H. pose proof init_inv as Hi. revert Hi.
  induction H as [|s1 s2 s3 Hs _ IH]; [done|]. intros Hi. by eapply IH, step_inv_sys.
Qed.
End system.

(** ** Why a task ends *)

Section endings.
Context {T Sock : Type} `{!NixTermios T}.
Implicit Types (t : ConnectionTask T Sock).

Lemma wait_loop_none {A} (evs : list (wait_event A)) t t' l :
  wait_loop evs t = Finished None t' l -> existsb stops_waiting evs = true.
Proof.
  revert l. induction evs as [|[|[[ctl tx|tx]|]|a] evs IH]; intros l; cbn; try done;
    unfold mbind, task_bind, log; destruct (wait_loop evs t) as [w t1 l1| |] eqn:E; try done;
    intros [= -> <- <-]; by eapply IH.
Qed.

(** A failure of the PTY. *)
Definition pty_failure (i : interaction) : Prop :=
  match i with PtyRead (Err _) _ | PtyWrite _ (Err _) => True | _ => False end.

Lemma step_closes i t t' l :
  step i t = Finished tt t' l -> should_close t = false -> should_close t' = true ->
  sees_shutdown i = true \/ Exists pty_failure l.
Proof.
  intros H Hs Hs'. destruct t as [name m [addr port fr] s b0 p0]. destruct s as [|b q|q|]; try done;
    destruct i as [[|polls sent|received written|[req|] sent]|evs|evs]; try done; try (by left).
  - right. run_task H; by repeat (constructor; first done); constructor.
  - right. run_task H; try done; by apply Exists_cons_tl; repeat constructor.
  - run_task H; done.
  - left. run_task H; try done; by eapply wait_loop_none.
  - left. run_task H; try done; by eapply wait_loop_none.
Qed.
End endings.

(** ** Properties *)

Section properties.
Context {T Sock : Type} `{!NixTermios T} (O_NONBLOCK : Z).
Implicit Types (s : system T Sock).

(** C9. However requests, task steps and events interleave, no connection of
    the registry is a zombie: names are unique, distinct connections have
    distinct tasks, none of them was told to stop, and each task runs under
    the connection's name, or has ended with its [ConnectionClosed] still
    queued, so that the entry is going to be removed. *)
Theorem no_zombie_connections s :
  reachable O_NONBLOCK s ->
  NoDup (names (sys_state s)) /\
  (forall c1 c2, c1 ∈ conns (sys_state s) -> c2 ∈ conns (sys_state s) ->
     co_task c1 = co_task c2 -> c1 = c2) /\
  (forall c, c ∈ conns (sys_state s) ->
     (co_task c ∉ sys_signalled s) /\
     ((exists t, sys_tasks s !! co_task c = Some t /\ conn_name t = co_name c) \/
      ConnectionClosed (co_name c) ∈ sys_events s)).
Proof.
  intros [m [Hr Hen Hd _ _]]%reachable_inv. split_and!; [apply Hr| |].
  - intros c1 c2 H1 H2 E.
    assert (m !! co_name c1 = Some c1 /\ m !! co_name c2 = Some c2) as [E1 E2]
      by by split; apply (represents_lookup _ _ _ _ Hr).
    pose proof (Hd _ _ _ _ E1 E2 E) as En. rewrite En in E1. congruence.
  - intros c Hc. apply (Hen (co_name c)). by apply (represents_lookup _ _ _ _ Hr).
Qed.

(** C31. No task is an orphan: every running task is the one of the registered
    connection of its name, or was told to stop; and every one of them is in
    a state the task invariant allows. *)
Theorem no_orphan_tasks s id t :
  reachable O_NONBLOCK s -> sys_tasks s !! id = Some t ->
  task_inv t /\
  (id ∈ sys_signalled s \/
   exists c, find_conn (conn_name t) (sys_state s) = Some c /\ co_task c = id).
Proof.
  intros [m [Hr _ _ Ht _]]%reachable_inv Hid. destruct (Ht id t Hid) as (_ & Hi & Hs).
  split; [done|]. by rewrite (find_represents _ _ _ Hr).
Qed.

(** C39. A connection outlives the network: a step closes the task only when its
    handle was shut down or the PTY failed, never because of what the TCP
    connection did. *)
Theorem task_survives_network i (t t' : ConnectionTask T Sock) l :
  step i t = Finished tt t' l -> should_close t = false -> should_close t' = true ->
  sees_shutdown i = true \/ Exists pty_failure l.
Proof. apply step_closes. Qed.

(** C38. An event that outlives its connection removes another one.  Take any
    state the daemon can reach in which a task is about to end and the registry
    has, under the name of this task, the connection of another task (as after
    the connection was removed and added again), with no event waiting.  That
    other task runs, under this name, and nobody told it to stop; yet when the
    first task ends and the main loop takes its report, whatever the kernel gives
    in that turn, the connection is gone from the registry and its task, which
    still runs, is told to stop: events name the connection, not the task. *)
Theorem stale_close_removes_successor s id t c (env : environment T) :
  reachable O_NONBLOCK s -> sys_tasks s !! id = Some t -> should_close t = true ->
  find_conn (conn_name t) (sys_state s) = Some c -> co_task c <> id -> sys_events s = [] ->
  env_fresh env = sys_fresh s ->
  ((co_task c ∉ sys_signalled s) /\ exists t', sys_tasks s !! co_task c = Some t' /\ conn_name t' = conn_name t) /\
  exists s1 s2, sys_step O_NONBLOCK s s1 /\ sys_state s1 = sys_state s /\
    sys_events s1 = [ConnectionClosed (conn_name t)] /\ sys_step O_NONBLOCK s1 s2 /\
    find_conn (conn_name t) (sys_state s2) = None /\ (co_task c ∈ sys_signalled s2) /\
    sys_tasks s2 !! co_task c = sys_tasks s !! co_task c.
Proof.
  destruct s as [st tasks sg evs fresh]. cbn. intros Hreach Hid Hclose Hc Hne -> Hfresh.
  destruct (reachable_inv O_NONBLOCK _ Hreach) as [m [Hr Hen _ _ _]]. cbn in *.
  rewrite (find_represents _ _ _ Hr) in Hc. destruct (Hen _ _ Hc) as (_ & Hsg & Hrun). split.
  { split; [done|]. destruct Hrun as [?|Hev]; [done|by apply elem_of_nil in Hev]. }
  destruct (remove_represents (conn_name t) st m Hr) as (st' & Hrem & Hr').
  rewrite Hc, bool_decide_eq_true_2 in Hrem by eauto. cbn in Hrem.
  eexists _, _. split; [by eapply sys_task_end; [..|apply task_shutdown_eq]|]. cbn.
  split; [done|]. rewrite omap_app. destruct (pending_hw_ctl t); cbn; (split; [done|]).
  all: split; [eapply (sys_turn O_NONBLOCK _ _ _ _ _ _ env); [done|]; cbn; rewrite Hrem; reflexivity|]; cbn.
  all: rewrite (find_represents _ _ _ Hr'), lookup_delete_eq, lookup_delete_ne by done.
  all: split_and!; [done|by apply elem_of_union_l, elem_of_singleton|done].
Qed.
End properties.

(** ** Witnesses *)

Module SystemWitness.
Import LinuxTermios DaemonWitness.

Definition added : system termios unit :=
  mkSystem (mkState [mkConnection esp 1 2 (lit "/dev/pts/4") 0])
    {[0%nat := new_task esp 1 2 (mkAsyncPty cooked)]} ∅ [] 1.

Lemma added_reachable : reachable 2048 added.
Proof.
  eapply (rtc_l _ _ (mkSystem state_default ∅ ∅ [CliCommand (ReqAdd esp 1 2) 1] 0));
    [apply (sys_command _ _ _ _ [])|].
  eapply rtc_l; [|apply rtc_refl].
  exact (sys_turn 2048 state_default ∅ ∅ (CliCommand (ReqAdd esp 1 2) 1) [] 0 (ok_env 0) _ _ eq_refl eq_refl).
Qed.

Lemma no_zombie_connections_witness : (0%nat ∉ sys_signalled added) /\
  ((exists t, sys_tasks added !! 0%nat = Some t /\ conn_name t = esp) \/
   ConnectionClosed esp ∈ sys_events added).
Proof.
  refine (proj2 (proj2 (no_zombie_connections 2048 added added_reachable))
    (mkConnection esp 1 2 (lit "/dev/pts/4") 0) _). left.
Defined.

Lemma no_orphan_tasks_witness :
  task_inv (T:=termios) (Sock:=unit) (new_task esp 1 2 (mkAsyncPty cooked)) /\
  (0%nat ∈ sys_signalled added \/
   exists c, find_conn esp (sys_state added) = Some c /\ co_task c = 0%nat).
Proof. exact (no_orphan_tasks 2048 added 0 _ added_reachable eq_refl). Defined.

Lemma task_survives_network_witness :
  sees_shutdown (T:=termios) (Sock:=unit) (InReconnecting [WaitShutdown]) = true \/
  Exists pty_failure [Sleep 100].
Proof.
  exact (task_survives_network (InReconnecting [WaitShutdown])
    (new_task esp 1 2 (mkAsyncPty cooked)) _ [Sleep 100] eq_refl eq_refl eq_refl).
Defined.

(** Added, removed, added again, and the first task sees that it is to stop. *)
Definition first_task : ConnectionTask termios unit := new_task esp 1 2 (mkAsyncPty cooked).
Definition closing_task : ConnectionTask termios unit :=
  mkConnectionTask esp (mkAsyncPty cooked) (tcp_bridge_new 1 2) ShuttingDown zero_array None.
Definition second_conn : Connection := mkConnection esp 1 2 (lit "/dev/pts/4") 2.
Definition replaced : system termios unit :=
  mkSystem (mkState [second_conn]) (<[0%nat := closing_task]> (<[2%nat := first_task]> (<[0%nat := first_task]> ∅)))
    ({[0%nat]} ∪ ∅) [] 3.

(** A command is queued and handled. *)
Lemma command_turn req env st st' acts (tasks : gmap nat (ConnectionTask termios unit)) sg fresh :
  env_fresh env = fresh -> main_turn 2048 (EventReceived (CliCommand req 1) env) st = Done (true, st', acts) ->
  let ts := foldr apply_action (tasks, sg) acts in
  rtc (sys_step 2048) (mkSystem st tasks sg [] fresh) (mkSystem st' ts.1 ts.2 [] (S fresh)).
Proof.
  intros Hf Ht ts. eapply rtc_l; [apply (sys_command _ _ _ _ [])|]. eapply rtc_l; [|apply rtc_refl].
  by apply (sys_turn 2048 st tasks sg (CliCommand req 1) [] fresh env st' acts).
Qed.

Lemma replaced_reachable : reachable 2048 replaced.
Proof.
  unfold reachable. etrans; [apply (command_turn (ReqAdd esp 1 2) (ok_env 0)); reflexivity|].
  etrans; [apply (command_turn (ReqRemove esp) (ok_env 1)); reflexivity|].
  etrans; [apply (command_turn (ReqAdd esp 1 2) (ok_env 2)); reflexivity|].
  eapply rtc_l; [|apply rtc_refl].
  eapply (sys_task_step 2048 _ _ _ _ _ 0%nat first_task (InReconnecting [WaitShutdown]));
    [reflexivity|reflexivity|set_solver|reflexivity].
Qed.

Lemma stale_close_removes_successor_witness : exists s1 s2,
  sys_step 2048 replaced s1 /\ sys_step 2048 s1 s2 /\ find_conn esp (sys_state replaced) = Some second_conn /\
  find_conn esp (sys_state s2) = None /\ (2%nat ∈ sys_signalled s2).
Proof.
  destruct (stale_close_removes_successor 2048 replaced 0 closing_task second_conn (ok_env 3) replaced_reachable)
    as (_ & s1 & s2 & H1 & _ & _ & H2 & Hn & Hs & _); [done..|].
  exists s1, s2. by split_and!.
Defined.
End SystemWitness.
