(* ===== verification/Mailbox.v ===== *)
(** * The daemon with its channels

    [System] lets the main loop handle a command in one turn.  In the code a
    turn that lists the connections, or resets one, sends a request to a
    task's channel and waits on a [oneshot] channel for the reply, while the
    tasks go on.  Here the request channels, the reply channels and the two
    capacities of the code are part of the state, and the main loop is a state
    machine.  The model is shown to refine [System], what happened in a run to
    explain every response, and requests to be one at a time; [History] goes on
    with what the tasks said, [Blocking] with what makes the daemon wait. *)
From S2P Require Import Prelude Utf8 DeviceMsg Ctl AsyncPty TcpBridge Connection Registry Daemon System.
From stdpp Require Import base numbers strings countable gmap sets list.
#[local] Open Scope Z_scope.

(** ** Channels *)

(** [mpsc::channel(8)] of [build_and_spawn], [mpsc::channel(128)] of [main]. *)
Definition REQUEST_CAPACITY : nat := 8.
Definition EVENT_CAPACITY : nat := 128.

(** What a reply channel carries: a [bool] or a [Result]. *)
Inductive reply_value :=
  | StatusIs (connected : bool)
  | CtlIs (r : ctl_result).

Definition request_sender (r : ConnectionTaskRequest) : sender :=
  match r with HardwareControl _ tx => tx | Status tx => tx end.

(** The requests a log takes off the channel, and the replies it gives. *)
Definition received (i : interaction) : option ConnectionTaskRequest :=
  match i with Request r => r | _ => None end.
Definition replied (i : interaction) : option (sender * reply_value) :=
  match i with
  | CtlReply tx r => Some (tx, CtlIs r)
  | StatusReply tx b => Some (tx, StatusIs b)
  | _ => None
  end.

Definition deliver (l : list interaction) (replies : gmap sender reply_value) : gmap sender reply_value :=
  list_to_map (omap replied l) ∪ replies.

(** ** The main loop *)

(** What the main loop goes on with after a reply: the loop of [State::list],
    with the entries it has and the connections it has left, or the [Reset] arm of
    [handle_daemon_request]. *)
Inductive call :=
  | ListCall (client : nat) (infos : list ConnectionInfo) (rest : list Connection)
  | ResetCall (client : nat) (name : rstring).

(** In [select!]; about to send a request to the task of [conn]; or waiting for
    its reply. *)
Inductive main_pc :=
  | Selecting
  | Asking (k : call) (conn : Connection)
  | Awaiting (k : call) (conn : Connection) (tx : sender).

(** Where the main loop is, and the responses it gives. *)
Abbreviation main_next := (main_pc * list (nat * DaemonResponse))%type.

Definition list_loop (client : nat) (infos : list ConnectionInfo) (rest : list Connection) : main_next :=
  match rest with
  | [] => (Selecting, [(client, RespList infos)])
  | conn :: rest => (Asking (ListCall client infos rest) conn, [])
  end.

Definition call_request (k : call) (tx : sender) : ConnectionTaskRequest :=
  match k with
  | ListCall _ _ _ => Status tx
  | ResetCall _ _ => HardwareControl DevReset tx
  end.

(** A reply channel carries one type; the other cases do not come up. *)
Definition status_answer (a : answer reply_value) : answer bool :=
  match a with
  | Replied (StatusIs b) => Replied b
  | SendFailed => SendFailed
  | _ => ReplyDropped
  end.
Definition ctl_answered (a : answer reply_value) : answer ctl_result :=
  match a with
  | Replied (CtlIs r) => Replied r
  | SendFailed => SendFailed
  | _ => ReplyDropped
  end.

Definition resume (k : call) (conn : Connection) (a : answer reply_value) : main_next :=
  match k with
  | ListCall client infos rest =>
      list_loop client (infos ++ [connection_info (fun _ => status_answer a) conn]) rest
  | ResetCall client name => (Selecting, [(client, reset_response name (ctl_answered a))])
  end.

(** The commands that ask a task. *)
Definition begin_call (e : DaemonEvent) (st : State) : option main_next :=
  match e with
  | CliCommand ReqList client => Some (list_loop client [] (conns st))
  | CliCommand (ReqReset name) client =>
      match find_conn name st with
      | Some conn => Some (Asking (ResetCall client name) conn, [])
      | None => Some (Selecting, [(client, RespError (not_found name))])
      end
  | _ => None
  end.

Definition response_given {T Sock} (a : main_action T Sock) : option (nat * DaemonResponse) :=
  match a with Responded client resp => Some (client, resp) | _ => None end.

(** What the main loop did, in order: it saw a connection close; it handled a
    command in one turn, with what the kernel gave it; it asked the task of a
    connection, through a reply channel if the request could be sent, and what
    came of it; it gave the response of a command that asks tasks. *)
Record asked := mkAsked { ask_conn : Connection; ask_tx : option sender; ask_answer : answer reply_value }.
Inductive happening (T : Type) :=
  | Closed (name : rstring)
  | Handled (req : DaemonRequest) (env : environment T) (given : nat * DaemonResponse)
  | Asked (a : asked)
  | Gave (given : nat * DaemonResponse).
Arguments Closed {T} name.
Arguments Handled {T} req env given.
Arguments Asked {T} a.
Arguments Gave {T} given.

(** What a turn is, and what the main loop has just heard when it moves on. *)
Definition turn_happens {T Sock} (e : DaemonEvent) (env : environment T) (acts : list (main_action T Sock)) :
    list (happening T) :=
  match e with
  | ConnectionClosed name => [Closed name]
  | CliCommand req _ => map (Handled req env) (omap response_given acts)
  end.
Definition heard (pc : main_pc) (replies : gmap sender reply_value) : list asked :=
  match pc with
  | Selecting => []
  | Asking _ conn => [mkAsked conn None SendFailed]
  | Awaiting _ conn tx =>
      [mkAsked conn (Some tx) (match replies !! tx with Some v => Replied v | None => ReplyDropped end)]
  end.

(** ** The state *)

(** [mb_given] and [mb_issued] record the responses given, and the clients
    whose command was queued with the command, in order; [mb_log] what the main
    loop did, and [mb_told] what each task replied to which sender. *)
Record mailbox (T Sock : Type) := mkMailbox {
  mb_sys : system T Sock;
  mb_main : main_pc;
  mb_inbox : gmap nat (list ConnectionTaskRequest);
  mb_replies : gmap sender reply_value;
  mb_next : sender;
  mb_given : list (nat * DaemonResponse);
  mb_issued : list (nat * DaemonRequest);
  mb_log : list (happening T);
  mb_told : list (nat * (sender * reply_value));
}.
Arguments mkMailbox {T Sock} _ _ _ _ _ _ _ _ _.
Arguments mb_sys {T Sock} _.
Arguments mb_main {T Sock} _.
Arguments mb_inbox {T Sock} _.
Arguments mb_replies {T Sock} _.
Arguments mb_next {T Sock} _.
Arguments mb_given {T Sock} _.
Arguments mb_issued {T Sock} _.
Arguments mb_log {T Sock} _.
Arguments mb_told {T Sock} _.

Section mailbox.
Context {T Sock : Type} `{!NixTermios T} (O_NONBLOCK : Z).
Abbreviation mb := (mailbox T Sock).

Definition mb_init : mb := mkMailbox sys_init Selecting ∅ ∅ 0 [] [] [] [].

Definition mb_tasks (s : mb) : gmap nat (ConnectionTask T Sock) := sys_tasks (mb_sys s).
Definition mb_events (s : mb) : list DaemonEvent := sys_events (mb_sys s).

(** The task [id] moves to [t'], leaving [rest] in its channel. *)
Definition set_task (id : nat) (t' : ConnectionTask T Sock) (y : system T Sock) : system T Sock :=
  mkSystem (sys_state y) (<[id := t']> (sys_tasks y)) (sys_signalled y) (sys_events y) (sys_fresh y).
Definition task_moves (id : nat) (t' : ConnectionTask T Sock) (l : list interaction)
    (rest : list ConnectionTaskRequest) (s : mb) : mb :=
  mkMailbox (set_task id t' (mb_sys s)) (mb_main s) (<[id := rest]> (mb_inbox s))
    (deliver l (mb_replies s)) (mb_next s) (mb_given s) (mb_issued s) (mb_log s)
    (mb_told s ++ map (pair id) (omap replied l)).

(** The main loop moves, having taken what is before [evs] off the queue. *)
Definition main_moves (next : main_next) (evs : list DaemonEvent) (s : mb) : mb :=
  let y := mb_sys s in
  mkMailbox
    (mkSystem (sys_state y) (sys_tasks y) (sys_signalled y) evs (sys_fresh y + length next.2)%nat)
    next.1 (mb_inbox s) (mb_replies s) (mb_next s) (mb_given s ++ next.2) (mb_issued s)
    (mb_log s ++ map Asked (heard (mb_main s) (mb_replies s)) ++ map Gave next.2) (mb_told s).

(** The main loop sends a request with a new reply channel. *)
Definition main_asks (k : call) (conn : Connection) (s : mb) : mb :=
  mkMailbox (mb_sys s) (Awaiting k conn (mb_next s))
    (<[co_task conn := (mb_inbox s !!! co_task conn) ++ [call_request k (mb_next s)]]> (mb_inbox s))
    (mb_replies s) (S (mb_next s)) (mb_given s) (mb_issued s) (mb_log s) (mb_told s).

(** [handle_stream] queues a command. *)
Definition queue_command (client : nat) (req : DaemonRequest) (s : mb) : mb :=
  mkMailbox
    (mkSystem (sys_state (mb_sys s)) (mb_tasks s) (sys_signalled (mb_sys s))
      (mb_events s ++ [CliCommand req client]) (sys_fresh (mb_sys s)))
    (mb_main s) (mb_inbox s) (mb_replies s) (mb_next s) (mb_given s) (mb_issued s ++ [(client, req)])
    (mb_log s) (mb_told s).

(** The sender of [tx] still exists: in the channel of the task that was
    asked, or as its pending one. *)
Definition holds (s : mb) (id : nat) (tx : sender) : bool :=
  match mb_tasks s !! id with
  | Some t => bool_decide (tx ∈ option_list (pending_hw_ctl t) ++ map request_sender (mb_inbox s !!! id))
  | None => false
  end.

(** A task takes requests off its channel in order; [recv] ends only when the
    channel is empty.  One turn of a waiting loop that refuses a request is a
    step of its own ([mb_task_refuses]), so that the main loop may go on in
    the middle of a [step].  A task that ends waits for room in the queue of
    events, with its channel still open, and only then drops it. *)
Inductive mb_step : mb -> mb -> Prop :=
  | mb_task_step s id t i t' l rest :
      mb_tasks s !! id = Some t -> should_close t = false ->
      (sees_shutdown i = true -> id ∈ sys_signalled (mb_sys s)) ->
      step i t = Finished tt t' l ->
      mb_inbox s !!! id = omap received l ++ rest -> (Request None ∈ l -> rest = []) ->
      mb_step s (task_moves id t' l rest s)
  | mb_task_refuses s id t req rest :
      mb_tasks s !! id = Some t -> should_close t = false -> is_connected (conn_state t) = false ->
      mb_inbox s !!! id = req :: rest ->
      mb_step s (task_moves id t (refusal req) rest s)
  | mb_task_failing s id t t' l :
      mb_tasks s !! id = Some t -> should_close t = true -> fail_pending_ctl t = Finished tt t' l ->
      mb_step s (task_moves id t' l (mb_inbox s !!! id) s)
  | mb_task_end s id t t' l :
      mb_tasks s !! id = Some t -> should_close t = true -> task_shutdown t = Finished tt t' l ->
      (length (mb_events s) < EVENT_CAPACITY)%nat ->
      mb_step s (mkMailbox
        (mkSystem (sys_state (mb_sys s)) (delete id (mb_tasks s)) (sys_signalled (mb_sys s))
          (mb_events s ++ map ConnectionClosed (omap reported l)) (sys_fresh (mb_sys s)))
        (mb_main s) (delete id (mb_inbox s)) (deliver l (mb_replies s)) (mb_next s)
        (mb_given s) (mb_issued s) (mb_log s) (mb_told s ++ map (pair id) (omap replied l)))
  | mb_command s req client :
      (length (mb_events s) < EVENT_CAPACITY)%nat ->
      mb_step s (queue_command client req s)
  | mb_turn s e evs env st' acts :
      mb_main s = Selecting -> mb_events s = e :: evs -> begin_call e (sys_state (mb_sys s)) = None ->
      env_fresh env = sys_fresh (mb_sys s) ->
      main_turn O_NONBLOCK (EventReceived e env) (sys_state (mb_sys s)) = Done (true, st', acts) ->
      let ts := foldr apply_action (mb_tasks s, sys_signalled (mb_sys s)) acts in
      mb_step s (mkMailbox (mkSystem st' ts.1 ts.2 evs (S (sys_fresh (mb_sys s))))
        Selecting (mb_inbox s) (mb_replies s) (mb_next s) (mb_given s ++ omap response_given acts) (mb_issued s)
        (mb_log s ++ turn_happens e env acts) (mb_told s))
  | mb_begin s e evs next :
      mb_main s = Selecting -> mb_events s = e :: evs -> begin_call e (sys_state (mb_sys s)) = Some next ->
      mb_step s (main_moves next evs s)
  | mb_ask_closed s k conn :
      mb_main s = Asking k conn -> mb_tasks s !! co_task conn = None ->
      mb_step s (main_moves (resume k conn SendFailed) (mb_events s) s)
  | mb_ask s k conn t :
      mb_main s = Asking k conn -> mb_tasks s !! co_task conn = Some t ->
      (length (mb_inbox s !!! co_task conn) < REQUEST_CAPACITY)%nat ->
      mb_step s (main_asks k conn s)
  | mb_reply s k conn tx v :
      mb_main s = Awaiting k conn tx -> mb_replies s !! tx = Some v ->
      mb_step s (main_moves (resume k conn (Replied v)) (mb_events s) s)
  | mb_dropped s k conn tx :
      mb_main s = Awaiting k conn tx -> mb_replies s !! tx = None -> holds s (co_task conn) tx = false ->
      mb_step s (main_moves (resume k conn ReplyDropped) (mb_events s) s).

Definition mb_reachable : mb -> Prop := rtc mb_step mb_init.
End mailbox.

(** ** The abstraction *)

(** The command the main loop is in the middle of. *)
Definition call_command (k : call) : nat * DaemonRequest :=
  match k with
  | ListCall client _ _ => (client, ReqList)
  | ResetCall client name => (client, ReqReset name)
  end.
Definition current (pc : main_pc) : list (nat * DaemonRequest) :=
  match pc with Selecting => [] | Asking k _ | Awaiting k _ _ => [call_command k] end.
Definition command_event (c : nat * DaemonRequest) : DaemonEvent := CliCommand c.2 c.1.
Definition event_command (e : DaemonEvent) : option (nat * DaemonRequest) :=
  match e with CliCommand req client => Some (client, req) | ConnectionClosed _ => None end.

(** In [System] the command being handled is still in the queue. *)
Definition abs {T Sock} (s : mailbox T Sock) : system T Sock :=
  let y := mb_sys s in
  mkSystem (sys_state y) (sys_tasks y) (sys_signalled y)
    (map command_event (current (mb_main s)) ++ sys_events y) (sys_fresh y).

(** The answers that reached the main loop are those of an environment, and the
    questions those a request asks. *)
Definition told_by {T} (env : environment T) (req : DaemonRequest) (a : asked) : Prop :=
  match req with
  | ReqReset _ => env_reply env (co_task (ask_conn a)) = ctl_answered (ask_answer a)
  | _ => env_status env (co_task (ask_conn a)) = status_answer (ask_answer a)
  end.
Definition asked_effect {T Sock} (req : DaemonRequest) (a : asked) : effect T Sock :=
  match req with
  | ReqReset _ => ControlSent (co_task (ask_conn a)) DevReset
  | _ => StatusAsked (co_task (ask_conn a))
  end.
Definition asks_tasks (req : DaemonRequest) : bool :=
  match req with ReqList | ReqReset _ => true | _ => false end.

(** What the main loop has so far, having asked [asks], is what the handler
    computes when the tasks answer as they did. *)
Definition call_ok (st : State) (asks : list asked) (k : call) (conn : Connection) : Prop :=
  match k with
  | ListCall _ infos rest => exists status,
      conns st = map ask_conn asks ++ conn :: rest /\
      infos = map (connection_info status) (map ask_conn asks) /\
      Forall (fun a => status (co_task (ask_conn a)) = status_answer (ask_answer a)) asks
  | ResetCall _ name => asks = [] /\ find_conn name st = Some conn
  end.
Definition main_ok (st : State) (asks : list asked) (pc : main_pc) : Prop :=
  match pc with Selecting => asks = [] | Asking k conn | Awaiting k conn _ => call_ok st asks k conn end.

Definition no_pty T : PtyCreation T :=
  let e := IoError UnexpectedEof "no terminal" in
  mkPtyCreation (Err e) (Err e) (Err e) (Err e)
    (mkPtyOpen T (Err e) (fun _ => Err e) (Err e) (Err e) (fun _ => Err e) (Err e) (fun _ => Err e)
       (Err e) (Err e)).
Definition asked_env T (fresh : nat) (status : nat -> answer bool) (reply : nat -> answer ctl_result) :
    environment T := mkEnvironment (no_pty T) fresh status reply.

Section calls.
Context {T Sock : Type} `{!NixTermios T} (O_NONBLOCK : Z).

(** Where the main loop goes next while it handles [c]: on with the command, or
    to the response the handler gives, with nothing else done. *)
Inductive next_ok (st : State) (c : nat * DaemonRequest) (fresh : nat) (asks : list asked) : main_next -> Prop :=
  | next_asks k conn :
      call_command k = c -> call_ok st asks k conn -> next_ok st c fresh asks (Asking k conn, [])
  | next_responds env resp effs :
      env_fresh env = fresh ->
      handle_daemon_request (T:=T) (Sock:=Sock) O_NONBLOCK env c.2 st = Done (resp, st, effs) ->
      Forall (told_by env c.2) asks -> effs = map (asked_effect c.2) asks ->
      next_ok st c fresh asks (Selecting, [(c.1, resp)]).

Lemma list_loop_ok st fresh client status asks rest :
  conns st = map ask_conn asks ++ rest ->
  Forall (fun a => status (co_task (ask_conn a)) = status_answer (ask_answer a)) asks ->
  next_ok st (client, ReqList) fresh asks
    (list_loop client (map (connection_info status) (map ask_conn asks)) rest).
Proof.
  intros E Hs. destruct rest as [|conn rest]; cbn [list_loop].
  - rewrite app_nil_r in E. rewrite <-E.
    apply (next_responds st (client, ReqList) fresh asks (asked_env T fresh status (fun _ => SendFailed)) _
      (map (fun c => StatusAsked (co_task c)) (conns st))); [done|done|done|]. by rewrite E, map_map.
  - apply next_asks; [done|]. by exists status.
Qed.

Lemma begin_ok st fresh e next :
  begin_call e st = Some next -> exists c, e = command_event c /\ asks_tasks c.2 = true /\ next_ok st c fresh [] next.
Proof.
  destruct e as [[| | |name] client|]; cbn; try done.
  - intros [= <-]. exists (client, ReqList). split_and!; [done..|].
    by apply (list_loop_ok st fresh client (fun _ => SendFailed) []).
  - destruct (find_conn name st) as [conn|] eqn:Hf; intros [= <-]; exists (client, ReqReset name);
      (split_and!; [done..|]).
    + by apply next_asks.
    + eapply (next_responds st (client, ReqReset name) fresh []
        (asked_env T fresh (fun _ => SendFailed) (fun _ => SendFailed)) _ []); [done| |done..]. cbn. unfold handle_reset,
        state_send_hardware_ctl. by rewrite Hf.
Qed.

Lemma connection_info_ext status status' prefix :
  (forall c, c ∈ prefix -> status (co_task c) = status' (co_task c)) ->
  map (connection_info status) prefix = map (connection_info status') prefix.
Proof.
  intros H. apply map_ext_in. intros c Hc%list_elem_of_In. unfold connection_info. by rewrite H.
Qed.

Lemma resume_ok st fresh asks k conn tx a :
  NoDup (map co_task (conns st)) -> call_ok st asks k conn ->
  next_ok st (call_command k) fresh (asks ++ [mkAsked conn tx a]) (resume k conn a).
Proof.
  intros Hnd. destruct k as [client infos rest|client name]; cbn.
  - intros (status & E & -> & Hs). rewrite E, map_app in Hnd. cbn in Hnd.
    apply NoDup_app in Hnd as (_ & Hd & _).
    set (status' := fun id => if decide (id = co_task conn) then status_answer a else status id).
    assert (forall c, c ∈ map ask_conn asks -> status (co_task c) = status' (co_task c)) as Hext.
    { intros c Hc. unfold status'. rewrite decide_False; [done|].
      intros Ec. apply (Hd (co_task c)); [by apply list_elem_of_fmap_2|]. rewrite Ec. left. }
    replace (map (connection_info status) (map ask_conn asks) ++ [connection_info (fun _ => status_answer a) conn])
      with (map (connection_info status') (map ask_conn (asks ++ [mkAsked conn tx a]))).
    + apply list_loop_ok; [by rewrite map_app, <-(assoc_L (++))|]. apply Forall_app. split.
      * rewrite Forall_forall in *. intros x Hx. rewrite <-Hext by by apply list_elem_of_fmap_2. by apply Hs.
      * apply Forall_singleton. cbn. unfold status'. by rewrite decide_True.
    + rewrite !map_app. f_equal; [symmetry; by apply connection_info_ext|].
      cbn. unfold connection_info, status'. by rewrite decide_True.
  - intros [-> Hf]. eapply (next_responds st (client, ReqReset name) fresh _
      (asked_env T fresh (fun _ => SendFailed) (fun _ => ctl_answered a)) _ [ControlSent (co_task conn) DevReset]);
      [done| |by apply Forall_singleton|done]. cbn. unfold handle_reset, state_send_hardware_ctl. rewrite Hf. cbn.
    by destruct (ctl_answered a) as [| |[[]|[]]].
Qed.

Lemma asked_nothing_done req asks (ts : gmap nat (ConnectionTask T Sock) * gset nat) :
  foldr apply_action ts (map TaskEffect (map (asked_effect req) asks)) = ts.
Proof. induction asks as [|a asks IH]; [done|]. by destruct req. Qed.

Lemma distinct_tasks (y : system T Sock) : sys_inv y -> NoDup (map co_task (conns (sys_state y))).
Proof.
  intros [m [Hr _ Hd _ _]]. pose proof (proj1 Hr) as Hnd. unfold names in Hnd.
  assert (forall c, c ∈ conns (sys_state y) -> m !! co_name c = Some c) as Hm
    by (intros c Hc; by apply (represents_lookup _ _ _ _ Hr)).
  clear Hr. induction (conns (sys_state y)) as [|c l IH]; cbn in *; [constructor|].
  apply NoDup_cons in Hnd as [Hn Hnd]. apply NoDup_cons. split; [|apply IH; [done|set_solver]].
  intros (c' & Ec & Hc')%list_elem_of_fmap. apply Hn, list_elem_of_fmap. exists c'. split; [|done].
  eapply (Hd _ _ c c'); [apply Hm; left|apply Hm; by right|done].
Qed.
End calls.

(** ** Refinement *)

Section refinement.
Context {T Sock : Type} `{!NixTermios T} (O_NONBLOCK : Z).
Implicit Types (s : mailbox T Sock) (y : system T Sock).

(** What explains a log: commands with their responses, one after the other, each
    the one specified on the connections there were at that moment, from what
    the kernel gave and what the tasks it asked answered. *)
Inductive history : list (happening T) -> list (nat * DaemonRequest * DaemonResponse) ->
    gmap rstring Connection -> Prop :=
  | history_start : history [] [] ∅
  | history_closed h cs m name :
      history h cs m -> history (h ++ [Closed name]) cs (delete name m)
  | history_handled h cs m req env client resp m' effs :
      history h cs m -> asks_tasks req = false ->
      request_spec (T:=T) (Sock:=Sock) O_NONBLOCK env m req resp m' effs ->
      history (h ++ [Handled req env (client, resp)]) (cs ++ [((client, req), resp)]) m'
  | history_asked h cs m req asks env client resp :
      history h cs m -> asks_tasks req = true -> Forall (told_by env req) asks ->
      request_spec (T:=T) (Sock:=Sock) O_NONBLOCK env m req resp m (map (asked_effect req) asks) ->
      history (h ++ map Asked asks ++ [Gave (client, resp)]) (cs ++ [((client, req), resp)]) m.

(** The log of a state is explained up to the command being handled, for which
    [asks] were asked. *)
Definition accounts s (cs : list (nat * DaemonRequest * DaemonResponse)) (m : gmap rstring Connection)
    (asks : list asked) : Prop :=
  exists h, mb_log s = h ++ map Asked asks /\ history h cs m /\ represents (sys_state (mb_sys s)) m.

Definition answered_of (x : nat * DaemonRequest * DaemonResponse) : nat * DaemonResponse := (x.1.1, x.2).

Record accounted s cs m asks : Prop := {
  ac_log : accounts s cs m asks;
  ac_main : main_ok (sys_state (mb_sys s)) asks (mb_main s);
  ac_given : mb_given s = map answered_of cs;
  ac_issued : mb_issued s = map fst cs ++ omap event_command (sys_events (abs s));
}.

Record mb_refines s : Prop := {
  ref_reachable : reachable O_NONBLOCK (abs s);
  ref_account : exists cs m asks, accounted s cs m asks;
}.

Lemma init_refines : mb_refines mb_init.
Proof.
  split; [apply rtc_refl|]. exists [], ∅, []. split; [|done..]. exists []. split_and!; [done|constructor|].
  apply represents_empty.
Qed.

Lemma responded_actions (effs : list (effect T Sock)) client resp :
  omap response_given (map TaskEffect effs ++ [Responded client resp]) = [(client, resp)].
Proof. by induction effs. Qed.

(** Nothing that concerns the main loop changes, and no command is queued. *)
Lemma task_refines s s' :
  rtc (sys_step O_NONBLOCK) (abs s) (abs s') -> sys_state (mb_sys s') = sys_state (mb_sys s) ->
  mb_main s' = mb_main s -> mb_log s' = mb_log s -> mb_given s' = mb_given s -> mb_issued s' = mb_issued s ->
  omap event_command (sys_events (abs s')) = omap event_command (sys_events (abs s)) ->
  mb_refines s -> mb_refines s'.
Proof.
  intros Hs E1 E2 E3 E4 E5 E6 [Hr (cs & m & asks & [(h & Hl & Hh & Hrep) Hm Hg Hi])].
  split; [by eapply rtc_trans|]. exists cs, m, asks. split; rewrite ?E1, ?E2, ?E4, ?E5, ?E6; try done.
  exists h. rewrite E1, E3. by split_and!.
Qed.

(** The main loop moves within a command, or ends it: a turn of [System]. *)
Lemma main_refines s c evs next asks cs m :
  sys_events (abs s) = command_event c :: evs -> asks_tasks c.2 = true -> accounted s cs m asks ->
  next_ok (T:=T) (Sock:=Sock) O_NONBLOCK (sys_state (mb_sys s)) c (sys_fresh (mb_sys s))
    (asks ++ heard (mb_main s) (mb_replies s)) next ->
  reachable O_NONBLOCK (abs s) -> mb_refines (main_moves next evs s).
Proof.
  intros Hev Hask [(h & El & Hh & Hrep) Hm Hg Ei] Hn Hr. rewrite Hev in Ei. cbn [omap list_omap] in Ei.
  set (asks' := asks ++ heard (mb_main s) (mb_replies s)) in *.
  assert (forall gave, mb_log s ++ map Asked (heard (mb_main s) (mb_replies s)) ++ gave =
    h ++ map Asked asks' ++ gave) as El' by (intros; unfold asks'; by rewrite El, map_app, <-!(assoc_L (++))).
  destruct Hn as [k conn Hk Hc|env resp effs Hf Hd Ht Heffs].
  - assert (abs (main_moves (Asking k conn, []) evs s) = abs s) as Eabs.
    { unfold abs in *. cbn in *. rewrite Hev, Hk. by rewrite Nat.add_0_r. }
    split; rewrite ?Eabs; [done|]. exists cs, m, asks'. split; [|done|cbn; by rewrite app_nil_r|].
    + exists h. cbn. split_and!; [|done..]. by rewrite El', app_nil_r.
    + rewrite Eabs, Hev. cbn. rewrite Ei. by destruct c.
  - split.
    + eapply rtc_r; [exact Hr|].
      assert (abs s = mkSystem (sys_state (mb_sys s)) (mb_tasks s) (sys_signalled (mb_sys s))
        (command_event c :: evs) (sys_fresh (mb_sys s))) as -> by by rewrite <-Hev.
      assert (abs (main_moves (Selecting, [(c.1, resp)]) evs s) =
        let ts := foldr apply_action (mb_tasks s, sys_signalled (mb_sys s))
          (map TaskEffect effs ++ [Responded c.1 resp]) in
        mkSystem (sys_state (mb_sys s)) ts.1 ts.2 evs (S (sys_fresh (mb_sys s)))) as ->.
      { unfold abs. cbn. rewrite foldr_actions, Heffs, asked_nothing_done. by rewrite Nat.add_1_r. }
      eapply (sys_turn O_NONBLOCK _ _ _ (command_event c)); [exact Hf|].
      cbn. by rewrite Hd.
    + destruct (request_meets (Sock:=Sock) O_NONBLOCK env c.2 _ m Hrep) as (resp' & s' & m' & effs' & E' & Hrep' & Hs).
      rewrite Hd in E'. simplify_eq.
      assert (m' = m) as -> by (destruct Hrep as [_ ->], Hrep' as [_ ->]; done).
      exists (cs ++ [((c.1, c.2), resp')]), m, []. split; [|done|cbn; by rewrite map_app, Hg|].
      * exists (h ++ map Asked asks' ++ [Gave (c.1, resp')]). cbn. rewrite El', app_nil_r.
        split_and!; [done| |done]. by apply history_asked with env.
      * rewrite map_app. cbn. rewrite Ei. destruct c. cbn. by rewrite <-(assoc_L (++)).
Qed.

(** A turn of the main loop that asks no task. *)
Lemma turn_accounts e env st st' (acts : list (main_action T Sock)) h cs m :
  begin_call e st = None -> represents st m -> history h cs m ->
  main_turn O_NONBLOCK (EventReceived e env) st = Done (true, st', acts) ->
  exists cs' m', history (h ++ turn_happens e env acts) (cs ++ cs') m' /\ represents st' m' /\
    omap response_given acts = map answered_of cs' /\ option_list (event_command e) = map fst cs'.
Proof.
  intros Hb Hrep Hh Hturn. destruct e as [req client|name]; cbn [main_turn turn_happens event_command option_list] in *.
  - destruct (request_meets (Sock:=Sock) O_NONBLOCK env req st m Hrep) as (resp & st1 & m' & effs & E & Hrep' & Hs).
    rewrite E in Hturn. injection Hturn as <- <-. exists [((client, req), resp)], m'. rewrite responded_actions. cbn.
    split_and!; [|done..]. eapply history_handled; [done| |exact Hs]. destruct req; try done; cbn in Hb.
    by destruct (find_conn _ _).
  - destruct (remove_represents name st m Hrep) as (st1 & E & Hrep'). rewrite E in Hturn.
    injection Hturn as <- <-. exists [], (delete name m). rewrite app_nil_r.
    split_and!; [by apply history_closed|done| |done]. by destruct (m !! name).
Qed.

Lemma turn_refines s e evs env st' acts :
  mb_main s = Selecting -> mb_events s = e :: evs -> begin_call e (sys_state (mb_sys s)) = None ->
  env_fresh env = sys_fresh (mb_sys s) ->
  main_turn O_NONBLOCK (EventReceived e env) (sys_state (mb_sys s)) = Done (true, st', acts) ->
  let ts := foldr apply_action (mb_tasks s, sys_signalled (mb_sys s)) acts in
  mb_refines s ->
  mb_refines (mkMailbox (mkSystem st' ts.1 ts.2 evs (S (sys_fresh (mb_sys s))))
    Selecting (mb_inbox s) (mb_replies s) (mb_next s) (mb_given s ++ omap response_given acts) (mb_issued s)
    (mb_log s ++ turn_happens e env acts) (mb_told s)).
Proof.
  intros Hsel Hev Hb Hf Hturn ts [Hr (cs & m & asks & [(h & El & Hh & Hrep) Hm Hg Ei])].
  rewrite Hsel in Hm. cbn in Hm. subst asks. cbn in El. rewrite app_nil_r in El.
  assert (sys_events (abs s) = e :: evs) as Hev' by (cbn; by rewrite Hsel, <-Hev).
  assert (abs s = mkSystem (sys_state (mb_sys s)) (mb_tasks s) (sys_signalled (mb_sys s))
    (e :: evs) (sys_fresh (mb_sys s))) as Eabs by by rewrite <-Hev'.
  rewrite Hev' in Ei. split.
  - eapply rtc_r; [exact Hr|]. rewrite Eabs. by eapply (sys_turn O_NONBLOCK).
  - destruct (turn_accounts _ _ _ _ _ _ _ _ Hb Hrep Hh Hturn) as (cs' & m' & Hh' & Hrep' & Eg & Ee).
    exists (cs ++ cs'), m', []. split; cbn; [|done|by rewrite Hg, Eg, map_app|].
    + eexists. cbn. rewrite app_nil_r, El. by split_and!.
    + rewrite map_app, <-Ee, Ei. cbn. destruct (event_command e); cbn; by rewrite <-?(assoc_L (++)).
Qed.

Lemma call_asks k : asks_tasks (call_command k).2 = true.
Proof. by destruct k. Qed.

Lemma step_refines s s' : mb_step O_NONBLOCK s s' -> mb_refines s -> mb_refines s'.
Proof.
  intros H Hi. pose proof (ref_reachable _ Hi) as Hr. pose proof (reachable_inv _ _ Hr) as Hinv.
  pose proof (distinct_tasks (abs s) Hinv) as Hnd. pose proof (ref_account _ Hi) as (cs & m & asks & Hac).
  pose proof (ac_main _ _ _ _ Hac) as Hmain.
  destruct H as [s id t i t' l rest Hid Hs Hsd Hstep _ _|s id t req rest Hid Hs Hc Hin
    |s id t t' l Hid Hs Hf|s id t t' l Hid Hs Hf Hcap|s req client Hcap
    |s e evs env st' acts Hsel Hev Hb Hf Hturn ts|s e evs next Hsel Hev Hb|s k conn Ha Ht|s k conn t Ha Ht Hcap
    |s k conn tx v Ha Hv|s k conn tx Ha Hv Hh].
  - apply (task_refines s); [|done..]. apply rtc_once. by eapply sys_task_step.
  - apply (task_refines s); [|done..]. replace (abs (task_moves _ _ _ _ _)) with (abs s); [done|].
    unfold abs. cbn. by rewrite insert_id.
  - apply (task_refines s); [|done..]. apply rtc_once. by eapply sys_task_failing.
  - apply (task_refines s); [|done..| |done].
    + apply rtc_once. unfold abs. cbn. rewrite (assoc_L (++)). by eapply sys_task_end.
    + cbn. rewrite (assoc_L (++)), omap_app.
      replace (omap event_command (map ConnectionClosed _)) with (@nil (nat * DaemonRequest));
        [by rewrite app_nil_r|]. by induction (omap reported l).
  - destruct Hac as [Hl _ Hg Ei]. split.
    + eapply rtc_r; [exact Hr|]. unfold abs. cbn. rewrite (assoc_L (++)). apply sys_command.
    + exists cs, m, asks. split; [done|done|done|]. cbn in *. by rewrite (assoc_L (++)), omap_app, Ei, (assoc_L (++)).
  - by apply turn_refines with (e := e) (env := env).
  - destruct (begin_ok (T:=T) (Sock:=Sock) O_NONBLOCK _ (sys_fresh (mb_sys s)) _ _ Hb) as (c & -> & Hask & Hn).
    assert (asks = []) as -> by by rewrite Hsel in Hmain.
    eapply main_refines; [|exact Hask|exact Hac| |done]; cbn; by rewrite Hsel.
  - rewrite Ha in Hmain. eapply main_refines; [|apply (call_asks k)|exact Hac| |done]; cbn; rewrite Ha; [done|].
    by apply resume_ok.
  - destruct Hac as [Hl Hm Hg Ei]. unfold abs in Hr. cbn in *. rewrite Ha in *. split; [done|]. by exists cs, m, asks.
  - rewrite Ha in Hmain. eapply main_refines; [|apply (call_asks k)|exact Hac| |done]; cbn; rewrite Ha; [done|].
    cbn. rewrite Hv. by apply resume_ok.
  - rewrite Ha in Hmain. eapply main_refines; [|apply (call_asks k)|exact Hac| |done]; cbn; rewrite Ha; [done|].
    cbn. rewrite Hv. by apply resume_ok.
Qed.

Lemma mb_reachable_refines s : mb_reachable O_NONBLOCK s -> mb_refines s.
Proof.
  unfold mb_reachable. intros H. pose proof init_refines as Hi. revert Hi.
  induction H as [|s1 s2 s3 Hs _ IH]; [done|]. intros Hi. by eapply IH, step_refines.
Qed.
End refinement.

(** ** Requests are one at a time *)

(** The senders a task holds: the pending one, and those in its channel. *)
Definition held {T Sock} (t : ConnectionTask T Sock) (inb : list ConnectionTaskRequest) : list sender :=
  option_list (pending_hw_ctl t) ++ map request_sender inb.

Definition is_list_call (k : call) : bool := match k with ListCall _ _ _ => true | _ => false end.
Definition is_status (v : reply_value) : bool := match v with StatusIs _ => true | _ => false end.

(** A task holds nothing, or just the sender the main loop waits on. *)
Definition outstanding {T Sock} (pc : main_pc) (replies : gmap sender reply_value) (id : nat)
    (t : ConnectionTask T Sock) (inb : list ConnectionTaskRequest) : Prop :=
  held t inb = [] \/
  exists k conn tx, pc = Awaiting k conn tx /\ co_task conn = id /\ held t inb = [tx] /\
    replies !! tx = None /\ Forall (eq (call_request k tx)) inb /\
    (is_list_call k = true -> pending_hw_ctl t = None).

Record channels_inv {T Sock} (pc : main_pc) (tasks : gmap nat (ConnectionTask T Sock))
    (inbox : gmap nat (list ConnectionTaskRequest)) (replies : gmap sender reply_value)
    (next : sender) : Prop := {
  ch_held id t : tasks !! id = Some t -> outstanding pc replies id t (inbox !!! id);
  ch_closed id : tasks !! id = None -> inbox !!! id = [];
  ch_fresh tx : (next <= tx)%nat -> replies !! tx = None;
  ch_sent k conn tx : pc = Awaiting k conn tx -> (tx < next)%nat;
  ch_kind k conn tx v : pc = Awaiting k conn tx -> replies !! tx = Some v -> is_status v = is_list_call k;
  ch_waiting k conn tx t : pc = Awaiting k conn tx -> replies !! tx = None -> tasks !! co_task conn = Some t ->
    tx ∈ held t (inbox !!! co_task conn);
}.

Lemma received_senders (l : list interaction) :
  map request_sender (omap received l) ≡ₚ omap ctl_requested l ++ omap status_requested l.
Proof.
  induction l as [|[| | | |[[]|]| | | |] l IH]; cbn; rewrite ?IH; try done. by rewrite Permutation_middle.
Qed.

Lemma replied_senders (l : list interaction) : (omap replied l).*1 ≡ₚ omap ctl_replied l ++ omap status_replied l.
Proof.
  induction l as [|[] l IH]; cbn; rewrite ?IH; try done. by rewrite Permutation_middle.
Qed.

Lemma elem_ctl_requested tx (l : list interaction) : tx ∈ omap ctl_requested l -> exists ctl, HardwareControl ctl tx ∈ omap received l.
Proof.
  intros ([| | | |[[ctl ?|?]|]| | | |] & Hi & E)%list_elem_of_omap; try done. cbn in E. simplify_eq.
  exists ctl. apply list_elem_of_omap. eauto.
Qed.
Lemma elem_status_requested tx (l : list interaction) : tx ∈ omap status_requested l -> Status tx ∈ omap received l.
Proof.
  intros ([| | | |[[ctl ?|?]|]| | | |] & Hi & E)%list_elem_of_omap; try done. cbn in E. simplify_eq.
  apply list_elem_of_omap. eauto.
Qed.
Lemma elem_replied tx v (l : list interaction) :
  (tx, v) ∈ omap replied l -> if is_status v then tx ∈ omap status_replied l else tx ∈ omap ctl_replied l.
Proof.
  intros ([] & Hi & E)%list_elem_of_omap; try done; cbn in E; simplify_eq; cbn;
    apply list_elem_of_omap; eauto.
Qed.

Section one_at_a_time.
Context {T Sock : Type} `{!NixTermios T} (O_NONBLOCK : Z).
Implicit Types (t : ConnectionTask T Sock) (s : mailbox T Sock).

(** Senders are conserved: what a task held is replied to or still held. *)
Lemma held_conserved t (l : list interaction) t' inb rest :
  answers t l t' -> inb = omap received l ++ rest ->
  held t inb ≡ₚ (omap replied l).*1 ++ held t' rest.
Proof.
  intros (P & _ & E) ->. unfold held. rewrite map_app, received_senders, replied_senders, E.
  rewrite !(assoc_L (++)), P. rewrite <-!(assoc_L (++)). apply Permutation_app_head.
  rewrite !(assoc_L (++)). apply Permutation_app_tail, Permutation_app_comm.
Qed.

(** Requests and replies go together: a status is asked and told, a reset asked
    and answered. *)
Lemma replied_kind k tx t l t' inb rest v :
  answers t l t' -> inb = omap received l ++ rest -> Forall (eq (call_request k tx)) inb ->
  (is_list_call k = true -> pending_hw_ctl t = None) ->
  (v ∈ (omap replied l).*2 -> is_status v = is_list_call k) /\
  (is_list_call k = true -> pending_hw_ctl t' = None).
Proof.
  intros (P & _ & E) -> Hall Hp. apply Forall_app in Hall as [Hall _]. rewrite Forall_forall in Hall.
  assert (forall x, x ∈ omap ctl_requested l -> is_list_call k = false) as Hc.
  { intros x (ctl & Hx%Hall)%elem_ctl_requested. by destruct k. }
  assert (forall x, x ∈ omap status_requested l -> is_list_call k = true) as Hs.
  { intros x Hx%elem_status_requested%Hall. by destruct k. }
  split.
  - intros ([x v'] & -> & Hx%elem_replied)%list_elem_of_fmap. cbn. destruct v'; cbn in *.
    + rewrite <-E in Hx. by rewrite (Hs x).
    + assert (x ∈ option_list (pending_hw_ctl t) ++ omap ctl_requested l) as [Hx'|Hx']%elem_of_app
        by (rewrite P; apply elem_of_app; by left); [|by rewrite (Hc x)].
      destruct (is_list_call k); [|done]. rewrite Hp in Hx' by done. by apply elem_of_nil in Hx'.
  - intros Hk. destruct (pending_hw_ctl t') as [x|] eqn:Hx; [|done].
    assert (x ∈ option_list (pending_hw_ctl t) ++ omap ctl_requested l) as [Hx'|Hx']%elem_of_app.
    { rewrite P. apply elem_of_app. right. left. }
    + rewrite Hp in Hx' by done. by apply elem_of_nil in Hx'.
    + apply Hc in Hx'. congruence.
Qed.

Lemma deliver_none (l : list interaction) replies : (omap replied l).*1 = [] -> deliver l replies = replies.
Proof. unfold deliver. intros ->%fmap_nil_inv. cbn. by rewrite (left_id_L ∅ (∪)). Qed.

Lemma deliver_lookup (l : list interaction) replies tx v :
  deliver l replies !! tx = Some v -> (tx, v) ∈ omap replied l \/ replies !! tx = Some v.
Proof.
  unfold deliver. intros [H|[_ H]]%lookup_union_Some_raw; [left|by right]. by apply elem_of_list_to_map_2 in H.
Qed.

Lemma replied_elem (l : list interaction) tx v :
  (tx, v) ∈ omap replied l -> tx ∈ (omap replied l).*1 /\ v ∈ (omap replied l).*2.
Proof. intros H. split; apply list_elem_of_fmap; by eexists (_, _). Qed.

(** A sender that was replied to, and replies that stay. *)
Lemma deliver_replied (l : list interaction) replies tx :
  tx ∈ (omap replied l).*1 \/ is_Some (replies !! tx) -> is_Some (deliver l replies !! tx).
Proof.
  intros H. apply lookup_union_is_Some. destruct H as [([x v] & -> & H)%list_elem_of_fmap|H]; [left|by right].
  cbn. destruct (list_to_map (M:=gmap sender reply_value) (omap replied l) !! x) as [w|] eqn:E; [by eexists|].
  apply not_elem_of_list_to_map in E. destruct E. by apply (list_elem_of_fmap_2 fst) in H.
Qed.

Lemma task_channels pc tasks inbox replies next id t t' l rest :
  tasks !! id = Some t -> answers t l t' -> inbox !!! id = omap received l ++ rest ->
  channels_inv pc tasks inbox replies next ->
  channels_inv pc (<[id := t']> tasks) (<[id := rest]> inbox) (deliver l replies) next.
Proof.
  intros Hid Ha Hin [Hh Hcl Hf Hs Hk Hw]. pose proof (held_conserved _ _ _ _ _ Ha Hin) as Hc.
  assert (forall k conn tx t0, pc = Awaiting k conn tx -> deliver l replies !! tx = None ->
    (<[id := t']> tasks) !! co_task conn = Some t0 -> tx ∈ held t0 ((<[id := rest]> inbox) !!! co_task conn)) as Hw'.
  { intros k conn tx t0 Hpc Hn Ht0.
    assert (replies !! tx = None /\ tx ∉ (omap replied l).*1) as [Hn' Hno].
    { split; [apply eq_None_not_Some; intros H|intros H]; pose proof (deliver_replied l replies tx) as Hd;
        rewrite Hn in Hd; destruct Hd as [? [=]]; auto. }
    destruct (decide (id = co_task conn)) as [Eid|Hne].
    - rewrite <-Eid, lookup_insert_eq in Ht0. injection Ht0 as <-. rewrite <-Eid, lookup_total_insert_eq.
      rewrite Eid in Hid. pose proof (Hw _ _ _ _ Hpc Hn' Hid) as Hin'. rewrite <-Eid, Hc in Hin'. by apply elem_of_app in Hin' as [?|?].
    - rewrite lookup_insert_ne in Ht0 by done. rewrite lookup_total_insert_ne by done. by eapply Hw. }
  assert (forall id0, (<[id := t']> tasks) !! id0 = None -> (<[id := rest]> inbox) !!! id0 = []) as Hcl'.
  { intros id0 [H0 Hne]%lookup_insert_None. rewrite lookup_total_insert_ne by done. by apply Hcl. }
  destruct (Hh id t Hid) as [E|(k & conn & tx & -> & Eid & E & Htx & Hall & Hp)]; rewrite E in Hc.
  - symmetry in Hc. apply Permutation_nil_r, app_nil in Hc as [Er Eh]. rewrite deliver_none in * by done.
    split; [|done..]. intros id0 t0. destruct (decide (id = id0)) as [<-|Hne].
    + rewrite lookup_insert_eq, lookup_total_insert_eq. intros [= <-]. by left.
    + rewrite lookup_insert_ne, lookup_total_insert_ne by done. apply Hh.
  - assert (forall v, v ∈ (omap replied l).*2 -> is_status v = is_list_call k) as Hv
      by (intros v; by eapply (proj1 (replied_kind _ _ _ _ _ _ _ _ Ha Hin Hall Hp))).
    pose proof (proj2 (replied_kind _ _ _ _ _ _ _ (StatusIs true) Ha Hin Hall Hp)) as Hp'.
    assert (forall x, x ∈ (omap replied l).*1 -> x = tx) as Hkeys.
    { intros x Hx. apply list_elem_of_singleton. rewrite Hc. apply elem_of_app. by left. }
    specialize (Hs k conn tx eq_refl). split; [|done| |by intros ? ? ? [= <- <- <-]| |done].
    + intros id0 t0. destruct (decide (id = id0)) as [<-|Hne].
      * rewrite lookup_insert_eq, lookup_total_insert_eq. intros [= <-].
        destruct (held t' rest) as [|x h] eqn:Eh; [by left|right].
        symmetry in Hc. apply Permutation_singleton_r in Hc.
        destruct ((omap replied l).*1) as [|x1 r1] eqn:Er; [|destruct r1; discriminate Hc].
        cbn in Hc. exists k, conn, tx. split_and!; [done..|congruence| | |done].
        -- by rewrite deliver_none.
        -- rewrite Hin in Hall. by apply Forall_app in Hall as [_ ?].
      * rewrite lookup_insert_ne, lookup_total_insert_ne by done. intros Ht0.
        destruct (Hh id0 t0 Ht0) as [?|(k' & conn' & tx' & [= <- <- <-] & Eid' & _)]; [by left|congruence].
    + intros x Hx. apply eq_None_not_Some. intros [v [[Hi _]%replied_elem|Hr]%deliver_lookup].
      * apply Hkeys in Hi. lia.
      * rewrite Hf in Hr by done. done.
    + intros k' conn' tx' v [= <- <- <-] [[_ Hi]%replied_elem|Hr]%deliver_lookup; [by apply Hv|congruence].
Qed.
End one_at_a_time.

Section channels.
Context {T Sock : Type} `{!NixTermios T} (O_NONBLOCK : Z).
Implicit Types (t : ConnectionTask T Sock) (s : mailbox T Sock).

Definition mb_channels s : Prop :=
  channels_inv (mb_main s) (mb_tasks s) (mb_inbox s) (mb_replies s) (mb_next s).

Definition is_awaiting (pc : main_pc) : bool := match pc with Awaiting _ _ _ => true | _ => false end.

(** Nothing is held unless the main loop waits. *)
Definition nothing_held (tasks : gmap nat (ConnectionTask T Sock)) (inbox : gmap nat (list ConnectionTaskRequest)) :=
  forall id t, tasks !! id = Some t -> held t (inbox !!! id) = [].

Lemma channels_nothing_held pc tasks inbox replies next :
  is_awaiting pc = false -> channels_inv pc tasks inbox replies next -> nothing_held tasks inbox.
Proof. intros Hpc [Hh _ _ _ _ _] id t Hid. destruct (Hh id t Hid) as [?|(? & ? & ? & -> & _)]; done. Qed.

Lemma channels_replied k conn tx v tasks inbox replies next :
  replies !! tx = Some v -> channels_inv (Awaiting k conn tx) tasks inbox replies next -> nothing_held tasks inbox.
Proof.
  intros Hv [Hh _ _ _ _ _] id t Hid. destruct (Hh id t Hid) as [?|(? & ? & ? & [= <- <- <-] & _ & _ & ? & _)]; congruence.
Qed.

Lemma nothing_held_channels pc pc' tasks inbox replies next :
  is_awaiting pc' = false -> nothing_held tasks inbox ->
  channels_inv pc tasks inbox replies next -> channels_inv pc' tasks inbox replies next.
Proof. intros Hpc Hi [_ Hcl Hf _ _ _]. split; try done; [intros id t Hid; left; by apply Hi|intros; by subst pc'..]. Qed.

Lemma list_loop_pc client infos rest : is_awaiting (list_loop client infos rest).1 = false.
Proof. by destruct rest. Qed.
Lemma resume_pc k conn a : is_awaiting (resume k conn a).1 = false.
Proof. destruct k; cbn; [apply list_loop_pc|done]. Qed.
Lemma begin_pc e st next : begin_call e st = Some next -> is_awaiting next.1 = false.
Proof.
  destruct e as [[| | |n] c|]; cbn; try done; [|destruct (find_conn n st)]; intros [= <-]; [apply list_loop_pc|done..].
Qed.

Lemma main_channels next evs s pc :
  is_awaiting next.1 = false -> nothing_held (mb_tasks s) (mb_inbox s) -> mb_main s = pc ->
  mb_channels s -> mb_channels (main_moves next evs s).
Proof. unfold mb_channels. cbn. intros ? ? -> ?. by eapply nothing_held_channels. Qed.

(** A turn leaves the tasks alone, or adds a new one under a fresh identity. *)
Lemma turn_tasks e env st st' acts tasks sg :
  main_turn O_NONBLOCK (EventReceived e env) st = Done (true, st', acts) -> (exists m, represents st m) ->
  let ts := foldr apply_action (tasks, sg) acts in
  ts.1 = tasks \/ exists name addr port (pty : AsyncPty T),
    ts.1 = <[env_fresh env := new_task (Sock:=Sock) name addr port pty]> tasks.
Proof.
  intros Hturn [m Hr]. cbn zeta. destruct e as [req client|name]; cbn [main_turn] in Hturn.
  - destruct (request_meets (Sock:=Sock) O_NONBLOCK env req st m Hr) as (resp & st1 & m' & effs & E & _ & Hs).
    rewrite E in Hturn. injection Hturn as <- <-. rewrite foldr_actions.
    destruct Hs; rewrite ?foldr_asked; cbn; eauto 6.
  - destruct (state_remove name st) as [[[b st1] sigs]|]; [|done]. injection Hturn as <- <-. left.
    by induction sigs.
Qed.

Lemma delete_channels pc tasks inbox replies next id :
  channels_inv pc tasks inbox replies next ->
  channels_inv (T:=T) (Sock:=Sock) pc (delete id tasks) (delete id inbox) replies next.
Proof.
  intros [Hh Hcl Hf Hs Hk Hw]. split; try done.
  - intros id0 t0 [Hne H0]%lookup_delete_Some. rewrite lookup_total_delete_ne by done. by apply Hh.
  - intros id0 H0. destruct (decide (id = id0)) as [<-|Hne]; [by rewrite lookup_total_delete_eq|].
    rewrite lookup_delete_ne in H0 by done. rewrite lookup_total_delete_ne by done. by apply Hcl.
  - intros k conn tx t0 Hpc Hn [Hne H0]%lookup_delete_Some. rewrite lookup_total_delete_ne by done. by eapply Hw.
Qed.

Lemma ask_channels k conn t tasks inbox replies next :
  tasks !! co_task conn = Some t ->
  channels_inv (Asking k conn) tasks inbox replies next ->
  channels_inv (T:=T) (Sock:=Sock) (Awaiting k conn next) tasks
    (<[co_task conn := (inbox !!! co_task conn) ++ [call_request k next]]> inbox) replies (S next).
Proof.
  intros Ht Hi. pose proof (channels_nothing_held (Asking k conn) _ _ _ _ eq_refl Hi) as Hidle.
  destruct Hi as [_ Hcl Hf _ _ _]. split.
  - intros id0 t0 Hid0. pose proof (Hidle _ _ Hid0) as E. destruct (decide (co_task conn = id0)) as [<-|Hne].
    + right. exists k, conn, next. rewrite lookup_total_insert_eq. unfold held in *.
      apply app_nil in E as [Ep Ei]. apply map_eq_nil in Ei. rewrite Ei, Ep. cbn. split_and!; try done.
      * by destruct k.
      * by apply Hf.
      * by apply Forall_singleton.
      * intros _. by destruct (pending_hw_ctl t0).
    + left. by rewrite lookup_total_insert_ne.
  - intros id0 Hid0. rewrite lookup_total_insert_ne by congruence. by apply Hcl.
  - intros x Hx. apply Hf. lia.
  - intros k' conn' tx' [= <- <- <-]. lia.
  - intros k' conn' tx' v [= <- <- <-]. by rewrite Hf.
  - intros k' conn' tx' t0 [= <- <- <-] _ _. rewrite lookup_total_insert_eq. unfold held. rewrite map_app.
    apply elem_of_app. right. apply elem_of_app. right. destruct k; left.
Qed.

Lemma refuse_answers req t : answers t (refusal req) t.
Proof. unfold answers. destruct req; cbn; rewrite ?app_nil_r; split_and!; try done. apply Permutation_app_comm. Qed.

Lemma fail_answers t t' l : fail_pending_ctl t = Finished tt t' l -> answers t l t' /\ omap received l = [].
Proof. rewrite fail_pending_eq. intros [= <- <-]. unfold answers. by destruct (pending_hw_ctl t). Qed.

Lemma shutdown_answers t t' l : task_shutdown t = Finished tt t' l -> answers t l t' /\ omap received l = [].
Proof. rewrite task_shutdown_eq. intros [= <- <-]. unfold answers. by destruct (pending_hw_ctl t). Qed.

Lemma step_channels s s' :
  (forall id t, mb_tasks s !! id = Some t -> (id < sys_fresh (mb_sys s))%nat) ->
  (exists m, represents (sys_state (mb_sys s)) m) ->
  mb_step O_NONBLOCK s s' -> mb_channels s -> mb_channels s'.
Proof.
  intros Hfresh Hrep H Hi.
  destruct H as [s id t i t' l rest Hid Hs Hsd Hstep Hin _|s id t req rest Hid Hs Hc Hin
    |s id t t' l Hid Hs Hf|s id t t' l Hid Hs Hf Hcap|s req client Hcap
    |s e evs env st' acts Hsel Hev Hb Hf Hturn ts|s e evs next Hsel Hev Hb|s k conn Ha Ht|s k conn t Ha Ht Hcap
    |s k conn tx v Ha Hv|s k conn tx Ha Hv Hh].
  - eapply task_channels; [done|by eapply step_answers|done|done].
  - eapply task_channels; [done|apply refuse_answers| |done]. by destruct req.
  - apply fail_answers in Hf as [Ha E]. eapply task_channels; [done|done| |done]. by rewrite E.
  - apply shutdown_answers in Hf as [Ha E]. unfold mb_channels. cbn.
    rewrite <-(delete_insert_eq (mb_tasks s) id t'),
      <-(delete_insert_eq (mb_inbox s) id (mb_inbox s !!! id)).
    apply delete_channels. eapply task_channels; [done|done| |done]. by rewrite E.
  - done.
  - unfold mb_channels in *. cbn. rewrite Hsel in Hi.
    destruct (turn_tasks _ _ _ _ _ (mb_tasks s) (sys_signalled (mb_sys s)) Hturn Hrep) as [E|(n & a & p & pty & E)];
      fold ts in E; rewrite E; [done|].
    pose proof (channels_nothing_held Selecting _ _ _ _ eq_refl Hi) as Hidle. destruct Hi as [_ Hcl Hfr Hs Hk _].
    assert (mb_tasks s !! env_fresh env = None) as Hnone.
    { apply eq_None_not_Some. intros [t Ht%Hfresh]. lia. }
    split; [|intros id0 [H0 _]%lookup_insert_None; by apply Hcl|done..]. intros id0 t0.
    destruct (decide (env_fresh env = id0)) as [<-|Hne].
    + rewrite lookup_insert_eq. intros [= <-]. left. by rewrite Hcl.
    + rewrite lookup_insert_ne by done. intros Ht0. left. by apply Hidle.
  - eapply main_channels; [by eapply begin_pc| |done|done]. eapply channels_nothing_held; [|exact Hi]. by rewrite Hsel.
  - eapply main_channels; [apply resume_pc| |done|done]. eapply channels_nothing_held; [|exact Hi]. by rewrite Ha.
  - unfold mb_channels in *. rewrite Ha in Hi. by eapply ask_channels.
  - eapply main_channels; [apply resume_pc| |done|done]. unfold mb_channels in Hi. rewrite Ha in Hi.
    by eapply channels_replied.
  - eapply main_channels; [apply resume_pc| |done|done]. unfold mb_channels in Hi. rewrite Ha in Hi.
    intros id t Hid. destruct (ch_held _ _ _ _ _ Hi id t Hid) as [?|(? & ? & ? & [= <- <- <-] & E & Eh & _)]; [done|].
    unfold holds in Hh. rewrite E, Hid in Hh. apply bool_decide_eq_false in Hh. destruct Hh.
    unfold held in Eh. rewrite Eh. left.
Qed.

Lemma init_channels : mb_channels mb_init.
Proof. split; try done. Qed.

Lemma mb_reachable_inv s : mb_reachable O_NONBLOCK s -> mb_refines O_NONBLOCK s /\ mb_channels s.
Proof.
  unfold mb_reachable. intros H. pose proof (init_refines (T:=T) (Sock:=Sock) O_NONBLOCK) as Hi.
  pose proof init_channels as Hc. revert Hi Hc.
  induction H as [|s1 s2 s3 Hs _ IH]; [done|]. intros Hi Hc. apply IH; [by eapply step_refines|].
  destruct (reachable_inv _ _ (ref_reachable _ _ Hi)) as [m [Hm _ _ Ht _]].
  apply (step_channels s1 s2); [|exists m; exact Hm|exact Hs|exact Hc].
  intros id t Hid. by apply (Ht id t).
Qed.
End channels.

(** ** What explains the responses *)

Section accounts.
Context {T Sock : Type} `{!NixTermios T} (O_NONBLOCK : Z).
Implicit Types (s : mailbox T Sock).

(** What was queued is answered, being handled or in the queue, in this order. *)
Lemma issued_split s :
  mb_reachable O_NONBLOCK s ->
  exists cs m asks, accounts O_NONBLOCK s cs m asks /\ mb_given s = map answered_of cs /\
    mb_issued s = map fst cs ++ current (mb_main s) ++ omap event_command (mb_events s).
Proof.
  intros [[_ (cs & m & asks & [Hl _ Hg E])] _]%mb_reachable_inv. exists cs, m, asks. split_and!; [done..|].
  rewrite E. f_equal. cbn. rewrite omap_app. f_equal.
  destruct (mb_main s) as [|k conn|k conn tx]; cbn; try done; by destruct (call_command k).
Qed.
End accounts.

(** ** Properties *)

Section properties.
Context {T Sock : Type} `{!NixTermios T} (O_NONBLOCK : Z).
Implicit Types (t : ConnectionTask T Sock) (s : mailbox T Sock).

(** C7. The channels change nothing a client or a task can see: every state the
    daemon reaches with its request, reply and event channels stands for one
    that [System] reaches with whole turns, with the same registry, tasks and
    signals, and the command being handled still at the head of the queue. *)
Theorem channels_refine_system s :
  mb_reachable O_NONBLOCK s ->
  exists y, reachable O_NONBLOCK y /\ sys_state y = sys_state (mb_sys s) /\
    sys_tasks y = mb_tasks s /\ sys_signalled y = sys_signalled (mb_sys s) /\
    sys_events y = map command_event (current (mb_main s)) ++ mb_events s.
Proof. intros [[Hr _] _]%mb_reachable_inv. by exists (abs s). Qed.

(** C17. At most one request is on its way to the tasks.  A task holds at most
    one sender, and only the one the main loop waits for; so the channel of
    capacity 8 never has more than one request, and a task with a pending
    control request never gets a second one: the reply that it is busy is never
    given. *)
Theorem one_request_at_a_time s id t :
  mb_reachable O_NONBLOCK s -> mb_tasks s !! id = Some t ->
  (length (held t (mb_inbox s !!! id)) <= 1)%nat /\
  (is_Some (pending_hw_ctl t) -> mb_inbox s !!! id = []) /\
  (forall tx, tx ∈ held t (mb_inbox s !!! id) -> exists k conn,
     mb_main s = Awaiting k conn tx /\ co_task conn = id).
Proof.
  intros [_ Hch]%mb_reachable_inv Hid.
  destruct (ch_held _ _ _ _ _ Hch id t Hid) as [E|(k & conn & tx & Hm & Hc & E & _)]; rewrite E; split_and!.
  - cbn. lia.
  - intros _. apply app_nil in E as [_ E]. by apply map_eq_nil in E.
  - by intros tx ?%elem_of_nil.
  - done.
  - intros [x Hx]. unfold held in E. rewrite Hx in E. injection E as _ E. by apply map_eq_nil in E.
  - intros x ->%list_elem_of_singleton. by exists k, conn.
Qed.

End properties.

(** ** Witnesses *)

Module MailboxWitness.
Import LinuxTermios DaemonWitness ConnectionWitness.

Definition here : Connection := mkConnection esp 1 2 (lit "/dev/pts/4") 0.
Definition link : ConnectionTask termios unit := new_task esp 1 2 (mkAsyncPty cooked).

(** A connection is added and connects. *)
Definition connected_task : ConnectionTask termios unit := Eval vm_compute in
  match run_steps [InReconnecting [WaitDone (Ok tt, Ok tt)]] link with
  | Finished _ t _ => t | _ => link end.
Definition up : mailbox termios unit :=
  mkMailbox (mkSystem (mkState [here]) {[0%nat := connected_task]} ∅ [] 1) Selecting
    {[0%nat := []]} ∅ 0 [(7%nat, AddOk (lit "/dev/pts/4"))] [(7%nat, ReqAdd esp 1 2)]
    [Handled (ReqAdd esp 1 2) (ok_env 0) (7%nat, AddOk (lit "/dev/pts/4"))] [].

Lemma up_reachable : mb_reachable 2048 up.
Proof.
  eapply rtc_l; [apply (mb_command _ mb_init (ReqAdd esp 1 2) 7); by apply Nat.ltb_lt|].
  eapply rtc_l; [by eapply (mb_turn _ _ (CliCommand (ReqAdd esp 1 2) 7) [] (ok_env 0))|].
  eapply rtc_l; [|apply rtc_refl].
  exact (mb_task_step 2048 (mkMailbox (mkSystem (mkState [here]) {[0%nat := link]} ∅ [] 1) Selecting ∅ ∅ 0
    [(7%nat, AddOk (lit "/dev/pts/4"))] [(7%nat, ReqAdd esp 1 2)]
    [Handled (ReqAdd esp 1 2) (ok_env 0) (7%nat, AddOk (lit "/dev/pts/4"))] []) 0 link
    (InReconnecting [WaitDone (Ok tt, Ok tt)]) connected_task [Sleep 100] [] eq_refl eq_refl (fun E => match Bool.diff_false_true E with end)
    eq_refl eq_refl (fun _ => eq_refl)).
Qed.

(** A client asks for a list, or a reset; the main loop has asked the task. *)
Definition listing : mailbox termios unit :=
  main_asks (ListCall 8 [] []) here
    (main_moves (Asking (ListCall 8 [] []) here, []) [] (queue_command 8 ReqList up)).
Definition resetting : mailbox termios unit :=
  main_asks (ResetCall 8 esp) here
    (main_moves (Asking (ResetCall 8 esp) here, []) [] (queue_command 8 (ReqReset esp) up)).

Lemma asked_reachable req k :
  begin_call (CliCommand req 8) (mkState [here]) = Some (Asking k here, []) ->
  mb_reachable 2048 (main_asks k here (main_moves (Asking k here, []) [] (queue_command 8 req up))).
Proof.
  intros Hb. eapply rtc_trans; [exact up_reachable|].
  eapply rtc_l; [apply (mb_command _ up req 8); by apply Nat.ltb_lt|].
  eapply rtc_l; [by apply (mb_begin _ (queue_command 8 req up) (CliCommand req 8) [])|].
  apply rtc_once. eapply mb_ask; [done|done|]. by apply Nat.ltb_lt.
Qed.
Lemma listing_reachable : mb_reachable 2048 listing.
Proof. by apply asked_reachable. Qed.
Lemma resetting_reachable : mb_reachable 2048 resetting.
Proof. by apply asked_reachable. Qed.

(** The task sends the reset to the device, which goes on sending data. *)
Definition reset_sent : mailbox termios unit := Eval vm_compute in
  match step (InConnected (CtlReady (Some (HardwareControl DevReset 0)) (Ok tt))) connected_task with
  | Finished _ t l => task_moves 0 t l [] resetting | _ => resetting end.

Lemma never_shut (X : Prop) : false = true -> X.
Proof. done. Qed.

Lemma reset_sent_reachable : mb_reachable 2048 reset_sent.
Proof.
  eapply rtc_r; [exact resetting_reachable|].
  eapply (mb_task_step 2048 resetting 0 connected_task
    (InConnected (CtlReady (Some (HardwareControl DevReset 0)) (Ok tt))) _ _ []
    eq_refl eq_refl (never_shut _) eq_refl eq_refl (fun _ => eq_refl)).
Qed.

Lemma channels_refine_system_witness : exists y : system termios unit,
  reachable 2048 y /\ sys_events y = [CliCommand ReqList 8].
Proof.
  destruct (channels_refine_system 2048 listing listing_reachable) as (y & Hr & _ & _ & _ & E).
  by exists y.
Defined.

Lemma one_request_at_a_time_witness :
  mb_inbox reset_sent !!! 0%nat = [] /\
  exists k conn, mb_main reset_sent = Awaiting k conn 0 /\ co_task conn = 0%nat.
Proof.
  pose proof (one_request_at_a_time 2048 reset_sent 0 _ reset_sent_reachable eq_refl) as (_ & H1 & H2).
  split; [by apply H1|]. apply H2. left.
Defined.

End MailboxWitness.
