(* ===== verification/History.v ===== *)
(** * What the daemon said, and what the tasks told it

    [Mailbox] logs what the main loop did and what the tasks replied.  Here: that
    the questions in the log got the answers the log says (the task replied just
    that, through the channel of the question; or it had ended), and with it what
    explains every response of the daemon. *)
From S2P Require Import Prelude Utf8 DeviceMsg Ctl AsyncPty TcpBridge Connection Registry Daemon System Mailbox.
From stdpp Require Import base numbers strings countable gmap sets list.
#[local] Open Scope Z_scope.

Section truth.
Context {T Sock : Type} `{!NixTermios T} (O_NONBLOCK : Z).
Implicit Types (s : mailbox T Sock) (t : ConnectionTask T Sock).

(** ** Answers that are true *)

Definition asked_of (x : happening T) : option asked := match x with Asked a => Some a | _ => None end.

(** The task [id] was there, and has ended. *)
Definition task_gone s (id : nat) : Prop := mb_tasks s !! id = None /\ (id < sys_fresh (mb_sys s))%nat.

(** An answer is what the task replied through the channel of the question; a
    request could only fail to be sent to a task that has ended, and a reply
    only stay out when the task ended without giving it. *)
Definition ask_true s (a : asked) : Prop :=
  let id := co_task (ask_conn a) in
  match ask_answer a, ask_tx a with
  | Replied v, Some tx => (id, (tx, v)) ∈ mb_told s
  | SendFailed, None => task_gone s id
  | ReplyDropped, Some tx => task_gone s id /\ forall v, (id, (tx, v)) ∉ mb_told s
  | _, _ => False
  end.

(** The senders replied to. *)
Definition told_senders s : list sender := map (fun x => x.2.1) (mb_told s).

Record told_inv s : Prop := {
  ti_told id tx v : (id, (tx, v)) ∈ mb_told s -> is_Some (mb_replies s !! tx);
  ti_reply k conn tx v : mb_main s = Awaiting k conn tx -> mb_replies s !! tx = Some v ->
    (co_task conn, (tx, v)) ∈ mb_told s;
  ti_once : NoDup (told_senders s);
  ti_asked : Forall (ask_true s) (omap asked_of (mb_log s));
}.

Lemma ask_true_mono s s' a :
  (forall x, x ∈ mb_told s -> x ∈ mb_told s') -> (forall id, task_gone s id -> task_gone s' id) ->
  (forall id x, (id, x) ∈ mb_told s' -> (id, x) ∈ mb_told s \/ is_Some (mb_tasks s !! id)) ->
  ask_true s a -> ask_true s' a.
Proof.
  intros H1 H2 H3. unfold ask_true. destruct (ask_answer a), (ask_tx a) as [tx|]; try done; [by apply H2| |by apply H1].
  intros [He Hn]. split; [by apply H2|]. intros v [Hv|[t Ht]]%H3; [by apply (Hn v)|]. destruct He. congruence.
Qed.

(** ** The tasks *)

(** A task replies to what the main loop waits for, once, or to nothing. *)
Lemma task_replies s id t t' l rest :
  mb_channels s -> mb_tasks s !! id = Some t -> answers t l t' -> mb_inbox s !!! id = omap received l ++ rest ->
  (omap replied l).*1 = [] \/ exists k conn tx,
    mb_main s = Awaiting k conn tx /\ co_task conn = id /\ mb_replies s !! tx = None /\ (omap replied l).*1 = [tx].
Proof.
  intros Hch Hid Ha Hin. pose proof (held_conserved _ _ _ _ _ Ha Hin) as Hc.
  destruct (ch_held _ _ _ _ _ Hch id t Hid) as [E|(k & conn & tx & Hm & Ec & E & Hn & _)]; rewrite E in Hc; symmetry in Hc.
  - apply Permutation_nil_r, app_nil in Hc as [Hc _]. by left.
  - apply Permutation_singleton_r in Hc. destruct ((omap replied l).*1) as [|x r] eqn:Er; [by left|right].
    destruct r; [|discriminate Hc]. cbn in Hc. exists k, conn, tx. split_and!; [done..|congruence].
Qed.

(** A task moves or ends, and replies what is in [l]. *)
Lemma task_told s s' id t l :
  (omap replied l).*1 = [] \/ (exists k conn tx,
    mb_main s = Awaiting k conn tx /\ co_task conn = id /\ mb_replies s !! tx = None /\ (omap replied l).*1 = [tx]) ->
  mb_tasks s !! id = Some t -> mb_told s' = mb_told s ++ map (pair id) (omap replied l) ->
  mb_replies s' = deliver l (mb_replies s) -> mb_main s' = mb_main s -> mb_log s' = mb_log s ->
  (forall id, task_gone s id -> task_gone s' id) -> told_inv s -> told_inv s'.
Proof.
  intros Hr Hid Et Er Em El He [H1 H2 H3 H4]. split; rewrite ?Et, ?Er, ?Em, ?El.
  - intros id0 tx v [Hin|Hin]%elem_of_app; apply deliver_replied; [right; by eapply H1|left].
    apply list_elem_of_fmap in Hin as (x & [= -> <-] & Hx). by apply replied_elem in Hx as [? _].
  - intros k conn tx v Hm [Hv|Hv]%deliver_lookup; apply elem_of_app; [right|left; by eapply H2].
    apply replied_elem in Hv as Hv'. destruct Hv' as [Htx _].
    destruct Hr as [E|(k' & conn' & tx' & Hm' & <- & _ & _)]; [rewrite E in Htx; by apply elem_of_nil in Htx|].
    rewrite Hm in Hm'. injection Hm' as -> -> ->. by apply list_elem_of_fmap_2.
  - unfold told_senders. rewrite Et, map_app, map_map. change (map (fun x => (id, x).2.1) (omap replied l)) with ((omap replied l).*1).
    destruct Hr as [->|(k & conn & tx & _ & _ & Hn & ->)]; [by rewrite app_nil_r|].
    apply NoDup_app. split_and!; [done| |apply NoDup_singleton]. intros x Hx ->%list_elem_of_singleton.
    apply list_elem_of_fmap in Hx as ([id0 [x v]] & -> & Hx). apply H1 in Hx as [w Hw]. cbn in Hn. congruence.
  - eapply Forall_impl; [exact H4|]. intros a. apply ask_true_mono; [|done|]; rewrite Et.
    + intros x Hx. apply elem_of_app. by left.
    + intros id0 x [Hx|Hx]%elem_of_app; [by left|right]. apply list_elem_of_fmap in Hx as (y & [= -> <-] & _). by eexists.
Qed.

(** ** The main loop *)

(** The connection that is asked is registered, and its task is or was there. *)
Lemma asked_known s k conn :
  mb_refines O_NONBLOCK s -> (mb_main s = Asking k conn \/ exists tx, mb_main s = Awaiting k conn tx) ->
  (co_task conn < sys_fresh (mb_sys s))%nat.
Proof.
  intros [Hr (cs & m0 & asks & [_ Hm _ _])] Hpc. destruct (reachable_inv _ _ Hr) as [m [Hrep Hen _ _ _]].
  assert (call_ok (sys_state (mb_sys s)) asks k conn) as Hc
    by (destruct Hpc as [Hpc|[tx Hpc]]; rewrite Hpc in Hm; exact Hm).
  assert (conn ∈ conns (sys_state (mb_sys s))) as Hin.
  { destruct k as [c infos rest|c name]; cbn in Hc.
    - destruct Hc as (status & -> & _). apply elem_of_app. right. left.
    - destruct Hc as [_ Hf]. by apply find_some in Hf as [Hf%list_elem_of_In _]. }
  by apply (Hen (co_name conn) conn), (represents_lookup _ _ _ _ Hrep).
Qed.

Lemma asked_log (l : list (happening T)) asks (given : list (nat * DaemonResponse)) :
  omap asked_of (l ++ map Asked asks ++ map Gave given) = omap asked_of l ++ asks.
Proof.
  rewrite !omap_app. f_equal. replace (omap asked_of (map Gave given)) with (@nil asked) by (by induction given).
  rewrite app_nil_r. induction asks as [|a asks IH]; [done|]. cbn. by rewrite IH.
Qed.

Lemma main_told next evs s :
  is_awaiting next.1 = false -> Forall (ask_true s) (heard (mb_main s) (mb_replies s)) ->
  told_inv s -> told_inv (main_moves next evs s).
Proof.
  intros Hpc Hh [H1 H2 H3 H4]. split; [done| |done|].
  - cbn. intros k conn tx v E. by rewrite E in Hpc.
  - cbn [main_moves mb_log]. rewrite asked_log. eapply Forall_impl; [by apply Forall_app|].
    intros a. apply ask_true_mono; [done| |by left]. intros id [? ?]. split; [done|]. cbn. lia.
Qed.

(** What the main loop hears is true. *)
Lemma heard_true s k conn :
  mb_refines O_NONBLOCK s -> mb_channels s -> told_inv s ->
  (mb_main s = Asking k conn /\ mb_tasks s !! co_task conn = None) \/
  (exists tx, mb_main s = Awaiting k conn tx /\
     (mb_replies s !! tx = None -> holds s (co_task conn) tx = false)) ->
  Forall (ask_true s) (heard (mb_main s) (mb_replies s)).
Proof.
  intros Hr Hch Ht Hpc.
  assert (co_task conn < sys_fresh (mb_sys s))%nat as Hlt.
  { eapply (asked_known s k conn Hr). destruct Hpc as [[? _]|(tx & ? & _)]; [by left|right; by eexists]. }
  destruct Hpc as [[-> Hn]|(tx & Hm & Hd)]; [by apply Forall_singleton|]. rewrite Hm. apply Forall_singleton.
  unfold ask_true. cbn. destruct (mb_replies s !! tx) as [v|] eqn:Hv; [by eapply ti_reply|].
  specialize (Hd eq_refl). split.
  - split; [|done]. apply eq_None_not_Some. intros [t Hid]. pose proof (ch_waiting _ _ _ _ _ Hch k conn tx t Hm Hv Hid) as Hh.
    unfold holds in Hd. rewrite Hid in Hd. by apply bool_decide_eq_false in Hd.
  - intros v [w Hw]%(ti_told _ Ht). congruence.
Qed.

Lemma turn_asked e env (acts : list (main_action T Sock)) : omap asked_of (turn_happens e env acts) = [].
Proof. destruct e as [req client|name]; [|done]. cbn. by induction (omap response_given acts). Qed.

Lemma step_told s s' :
  mb_step O_NONBLOCK s s' -> mb_refines O_NONBLOCK s -> mb_channels s -> told_inv s -> told_inv s'.
Proof.
  intros H Hr Hch Ht.
  assert (forall id t' (y : system T Sock), sys_tasks y = <[id := t']> (mb_tasks s) -> is_Some (mb_tasks s !! id) ->
    forall id0, mb_tasks s !! id0 = None -> sys_tasks y !! id0 = None) as Hins.
  { intros id t' y -> [t Hid] id0 Hn. rewrite lookup_insert_ne; [done|]. congruence. }
  destruct H as [s id t i t' l rest Hid Hs Hsd Hstep Hin _|s id t req rest Hid Hs Hc Hin
    |s id t t' l Hid Hs Hf|s id t t' l Hid Hs Hf Hcap|s req client Hcap
    |s e evs env st' acts Hsel Hev Hb Hf Hturn ts|s e evs next Hsel Hev Hb|s k conn Ha Hn|s k conn t Ha Hn Hcap
    |s k conn tx v Ha Hv|s k conn tx Ha Hv Hh].
  - eapply (task_told s _ id t l); try done; [by eapply task_replies, Hin; [..|by eapply step_answers]|].
    intros id0 [Hn ?]. split; [|done]. by eapply Hins.
  - eapply (task_told s _ id t (refusal req)); try done.
    + eapply (task_replies s id t t _ rest); [done|done|apply refuse_answers|]. by destruct req.
    + intros id0 [Hn ?]. split; [|done]. by eapply Hins.
  - apply fail_answers in Hf as [Ha E]. eapply (task_told s _ id t l); try done.
    + eapply (task_replies s id t t' l); [done..|]. by rewrite E.
    + intros id0 [Hn ?]. split; [|done]. by eapply Hins.
  - apply shutdown_answers in Hf as [Ha E]. eapply (task_told s _ id t l); try done.
    + eapply (task_replies s id t t' l); [done..|]. by rewrite E.
    + intros id0 [Hn ?]. split; [|done]. apply lookup_delete_None. by right.
  - destruct Ht as [H1 H2 H3 H4]. split; [done..|]. eapply Forall_impl; [exact H4|].
    intros a. by apply ask_true_mono; [|intros id []|left].
  - destruct Ht as [H1 H2 H3 H4]. split; [done|done|done|]. cbn [mb_log]. rewrite omap_app, turn_asked, app_nil_r.
    eapply Forall_impl; [exact H4|]. intros a. apply ask_true_mono; [done| |by left].
    intros id [Hn Hlt]. split; [|cbn; lia]. unfold mb_tasks. cbn.
    destruct (reachable_inv _ _ (ref_reachable _ _ Hr)) as [m [Hrep _ _ _ _]].
    destruct (turn_tasks _ _ _ _ _ _ (mb_tasks s) (sys_signalled (mb_sys s)) Hturn) as [E|(n & x & p & pty & E)];
      [by exists m|fold ts in E; by rewrite E..|].
    fold ts in E. rewrite E, lookup_insert_ne; [done|]. lia.
  - apply main_told; [by eapply begin_pc| |done]. by rewrite Hsel.
  - apply main_told; [apply resume_pc| |done]. eapply (heard_true s k conn); [done..|by left].
  - destruct Ht as [H1 H2 H3 H4]. split; [done| |done|].
    + cbn. intros k' conn' tx v [= <- <- <-]. by rewrite (ch_fresh _ _ _ _ _ Hch).
    + eapply Forall_impl; [exact H4|]. intros a. by apply ask_true_mono; [|intros id []|left].
  - apply main_told; [apply resume_pc| |done]. eapply (heard_true s k conn); [done..|right].
    exists tx. split; [done|]. congruence.
  - apply main_told; [apply resume_pc| |done]. eapply (heard_true s k conn); [done..|right]. by exists tx.
Qed.

Lemma mb_reachable_told s : mb_reachable O_NONBLOCK s -> told_inv s.
Proof.
  revert s. apply rtc_ind_r.
  - split; cbn; [by intros ? ? ? ?%elem_of_nil|done|constructor|constructor].
  - intros s s' Hr Hs Ht. destruct (mb_reachable_inv _ _ Hr). by eapply step_told.
Qed.

(** What explains the responses so far, with answers that are true. *)
Definition explained s (cs : list (nat * DaemonRequest * DaemonResponse)) : Prop :=
  (exists m asks, accounts O_NONBLOCK s cs m asks) /\ Forall (ask_true s) (omap asked_of (mb_log s)) /\
  NoDup (told_senders s).

Lemma reachable_explained s : mb_reachable O_NONBLOCK s ->
  exists cs, explained s cs /\ mb_given s = map answered_of cs /\
    mb_issued s = map fst cs ++ current (mb_main s) ++ omap event_command (mb_events s).
Proof.
  intros Hr. destruct (issued_split _ _ Hr) as (cs & m & asks & Ha & Hg & Hi). exists cs.
  destruct (mb_reachable_told _ Hr) as [_ _ Ho Ht]. split_and!; [|done..]. split_and!; [by exists m, asks|done..].
Qed.
End truth.

(** ** Properties *)

Section properties.
Context {T Sock : Type} `{!NixTermios T} (O_NONBLOCK : Z).
Implicit Types (s : mailbox T Sock).

(** C8. Commands are answered one by one, in the order they were queued, and each
    with what this run explains.  In every state the daemon can reach there are
    commands with their responses, the commands answered so far, such that: the
    commands queued are these, the one being handled and those waiting, in this
    order, and the responses given are theirs, in this order; the log of what
    the main loop did is, one after the other, closed connections that were
    removed and these commands, each answered with the response specified on
    the connections there were at that moment, from what the kernel gave in that
    very turn or from what the tasks it asked answered, all connections once for
    a list and the named one for a reset; and those answers are true: what a
    task answered it replied through the channel of that question, and no
    channel was replied to twice; only a task that has ended could not be asked
    or left a question without a reply.  This holds even though a list or a
    reset is spread over many steps of the tasks. *)
Theorem commands_answered_in_order s :
  mb_reachable O_NONBLOCK s ->
  exists cs m asks,
    mb_issued s = map fst cs ++ current (mb_main s) ++ omap event_command (mb_events s) /\
    mb_given s = map answered_of cs /\
    (exists h, mb_log s = h ++ map Asked asks /\ history (Sock:=Sock) O_NONBLOCK h cs m /\
       represents (sys_state (mb_sys s)) m) /\
    Forall (ask_true s) (omap asked_of (mb_log s)) /\ NoDup (told_senders s).
Proof.
  intros Hr. destruct (reachable_explained _ _ Hr) as (cs & ((m & asks & Ha) & Ht & Ho) & Hg & Hi).
  exists cs, m, asks. by split_and!.
Qed.
End properties.

(** ** Witnesses *)

Module HistoryWitness.
Import LinuxTermios DaemonWitness ConnectionWitness MailboxWitness.

(** The task answers that it is connected, and the list is given. *)
Definition answering : mailbox termios unit :=
  task_moves 0 connected_task [Request (Some (Status 0)); StatusReply 0 true] [] listing.
Definition listed : mailbox termios unit :=
  main_moves (resume (ListCall 8 [] []) here (Replied (StatusIs true))) [] answering.

Lemma listed_reachable : mb_reachable 2048 listed.
Proof.
  eapply rtc_r; [eapply rtc_r; [exact listing_reachable|]|].
  - exact (mb_task_step 2048 listing 0 connected_task (InConnected (CtlReady (Some (Status 0)) (Ok tt))) connected_task
      [Request (Some (Status 0)); StatusReply 0 true] [] eq_refl eq_refl (never_shut _) eq_refl eq_refl (fun _ => eq_refl)).
  - exact (mb_reply 2048 answering (ListCall 8 [] []) here 0 (StatusIs true) eq_refl eq_refl).
Qed.

Lemma commands_answered_in_order_witness :
  mb_given listed = [(7%nat, AddOk (lit "/dev/pts/4"));
                     (8%nat, RespList [connection_info (fun _ => Replied true) here])] /\
  exists cs, mb_given listed = map answered_of cs /\ map fst cs = [(7%nat, ReqAdd esp 1 2); (8%nat, ReqList)] /\
    Forall (ask_true listed) [mkAsked here (Some 0%nat) (Replied (StatusIs true))].
Proof.
  split; [by vm_compute|].
  destruct (commands_answered_in_order 2048 listed listed_reachable) as (cs & m & asks & Hi & Hg & _ & Ht & _).
  exists cs. cbn in Hi. rewrite app_nil_r in Hi. by split_and!.
Defined.
End HistoryWitness.
