(* ===== verification/Blocking.v ===== *)
(** * What makes the daemon wait

    The main loop waits for the reply of a task without a timeout.  Here: how
    long nothing else happens, the one situation in which it waits for ever, and
    that it goes on in every other. *)
From S2P Require Import Prelude Utf8 DeviceMsg Ctl AsyncPty TcpBridge Connection Registry Daemon System Mailbox.
From stdpp Require Import base numbers strings countable gmap sets list.
#[local] Open Scope Z_scope.

(** ** What makes the main loop wait *)

Section blocking.
Context {T Sock : Type} `{!NixTermios T} (O_NONBLOCK : Z).
Implicit Types (t : ConnectionTask T Sock) (s : mailbox T Sock).

(** The reply to [tx] has not come, and its sender exists. *)
Definition unanswered s (conn : Connection) (tx : sender) : Prop :=
  mb_replies s !! tx = None /\ holds s (co_task conn) tx = true.

(** The entry of a list for a connection, whatever its status. *)
Definition describes (info : ConnectionInfo) (conn : Connection) : Prop :=
  exists a, info = connection_info (fun _ => a) conn.

Lemma holds_spec s id tx :
  holds s id tx = true <-> exists t, mb_tasks s !! id = Some t /\ tx ∈ held t (mb_inbox s !!! id).
Proof.
  unfold holds. destruct (mb_tasks s !! id) as [t|] eqn:Ht.
  - rewrite bool_decide_eq_true. split; [by eauto|by intros (? & [= <-] & ?)].
  - split; [done|by intros (? & ? & _)].
Qed.

Lemma moves_holds s id t t' l rest id' tx :
  mb_tasks s !! id = Some t -> answers t l t' -> mb_inbox s !!! id = omap received l ++ rest ->
  holds (task_moves id t' l rest s) id' tx = true -> holds s id' tx = true.
Proof.
  intros Hid Ha Hin. rewrite !holds_spec. intros (t0 & H0 & Htx). unfold task_moves, mb_tasks in *. cbn in *.
  destruct (decide (id = id')) as [<-|Hne].
  - rewrite lookup_insert_eq in H0. injection H0 as <-. rewrite lookup_total_insert_eq in Htx.
    exists t. split; [done|]. rewrite (held_conserved _ _ _ _ _ Ha Hin). apply elem_of_app. by right.
  - rewrite lookup_insert_ne in H0 by done. rewrite lookup_total_insert_ne in Htx by done. by exists t0.
Qed.

(** A reply given stays given, and a sender that is gone does not come back. *)
Lemma step_back s s' id tx :
  mb_reachable O_NONBLOCK s -> mb_step O_NONBLOCK s s' -> (tx < mb_next s)%nat ->
  (mb_next s <= mb_next s')%nat /\
  (mb_replies s' !! tx = None -> mb_replies s !! tx = None) /\
  (holds s' id tx = true -> holds s id tx = true).
Proof.
  intros Hr H Hlt. destruct (mb_reachable_inv _ _ Hr) as [[Hrs _] Hch].
  destruct (reachable_inv _ _ Hrs) as [m [Hm _ _ _ _]].
  destruct H as [s id0 t i t' l rest Hid Hs Hsd Hstep Hin _|s id0 t req rest Hid Hs Hc Hin
    |s id0 t t' l Hid Hs Hf|s id0 t t' l Hid Hs Hf Hcap|s req client Hcap
    |s e evs env st' acts Hsel Hev Hb Hf Hturn ts|s e evs next Hsel Hev Hb|s k' conn' Ha Ht|s k' conn' t Ha Ht Hcap
    |s k' conn' tx' v Ha Hv|s k' conn' tx' Ha Hv Hh]; try by split_and!; [cbn; lia|done..].
  1-4: split; [cbn; lia|]; split; [unfold task_moves, deliver; cbn; by intros [_ ?]%lookup_union_None|].
  - eapply moves_holds; [done|by eapply step_answers|done].
  - eapply moves_holds; [done|apply refuse_answers|by destruct req].
  - apply fail_answers in Hf as [Ha E]. eapply moves_holds; [done|done|by rewrite E].
  - intros (t0 & H0 & Htx)%holds_spec. apply holds_spec. exists t0. unfold mb_tasks in H0 at 1. cbn in *.
    apply lookup_delete_Some in H0 as [Hne H0]. by rewrite lookup_total_delete_ne in Htx.
  - split_and!; [cbn; lia|done|]. intros (t0 & H0 & Htx)%holds_spec. apply holds_spec. cbn in *.
    destruct (turn_tasks O_NONBLOCK _ _ _ _ _ (mb_tasks s) (sys_signalled (mb_sys s)) Hturn (ex_intro _ _ Hm))
      as [E|(n & a & p & pty & E)]; fold ts in E; change (ts.1 !! id = Some t0) in H0; rewrite E in H0; [by exists t0|].
    apply lookup_insert_Some in H0 as [[<- <-]|[_ H0]]; [|by exists t0]. unfold held in Htx. cbn in Htx.
    destruct (mb_tasks s !! env_fresh env) as [t1|] eqn:H1.
    + exists t1. split; [done|]. apply elem_of_app. by right.
    + rewrite (ch_closed _ _ _ _ _ Hch) in Htx by done. by apply elem_of_nil in Htx.
  - split_and!; [cbn; lia|done|]. intros (t0 & H0 & Htx)%holds_spec. apply holds_spec. exists t0. cbn in *.
    split; [done|]. destruct (decide (co_task conn' = id)) as [<-|Hne].
    + rewrite lookup_total_insert_eq in Htx. unfold held in *. rewrite map_app, (assoc_L (++)) in Htx.
      apply elem_of_app in Htx as [?|Htx]; [done|]. cbn in Htx. apply list_elem_of_singleton in Htx.
      destruct k'; cbn in Htx; lia.
    + by rewrite lookup_total_insert_ne in Htx.
Qed.

(** While a reply is awaited nothing else is done for the clients. *)
Lemma step_waits s s' k conn tx :
  mb_step O_NONBLOCK s s' -> mb_main s = Awaiting k conn tx ->
  mb_replies s !! tx = None -> holds s (co_task conn) tx = true ->
  mb_main s' = mb_main s /\ mb_given s' = mb_given s /\ mb_events s `prefix_of` mb_events s'.
Proof.
  intros H Hw Hr Hh.
  destruct H as [| | | | |s e evs env st' acts Hsel|s e evs next Hsel|s k' conn' Ha|s k' conn' t Ha
    |s k' conn' tx' v Ha Hv|s k' conn' tx' Ha Hv Hd]; try congruence;
    (split_and!; [done..|first [reflexivity|by eexists]]).
Qed.

Lemma waits s s' k conn tx :
  mb_reachable O_NONBLOCK s -> rtc (mb_step O_NONBLOCK) s s' -> mb_main s = Awaiting k conn tx ->
  mb_replies s' !! tx = None -> holds s' (co_task conn) tx = true ->
  mb_main s' = mb_main s /\ mb_given s' = mb_given s /\ mb_events s `prefix_of` mb_events s'.
Proof.
  intros Hr H Hm. destruct (mb_reachable_inv _ _ Hr) as [_ Hch].
  pose proof (ch_sent _ _ _ _ _ Hch _ _ _ Hm) as Hlt.
  enough ((tx < mb_next s')%nat /\ (mb_replies s' !! tx = None -> holds s' (co_task conn) tx = true ->
    mb_main s' = mb_main s /\ mb_given s' = mb_given s /\ mb_events s `prefix_of` mb_events s')) by tauto.
  revert s' H. apply rtc_ind_r; [done|]. intros s' s'' H1 H2 [Hlt' IH].
  destruct (step_back s' s'' (co_task conn) tx) as (Hn & Hb1 & Hb2); [by eapply rtc_trans|done|done|].
  split; [lia|]. intros Hu Hh. destruct IH as (E1 & E2 & E3); [auto..|].
  destruct (step_waits s' s'' k conn tx) as (E1' & E2' & E3'); [done|congruence|auto..|].
  split_and!; [congruence|congruence|by etrans].
Qed.

(** A task that is closing with the request in its channel, and no room for
    its last event: nobody moves. *)
Definition stuck s k conn tx : Prop :=
  mb_main s = Awaiting k conn tx /\ mb_replies s !! tx = None /\
  (EVENT_CAPACITY <= length (mb_events s))%nat /\
  exists t, mb_tasks s !! co_task conn = Some t /\ should_close t = true /\
    tx ∈ map request_sender (mb_inbox s !!! co_task conn).

Lemma stuck_step s s' k conn tx :
  mb_channels s -> mb_step O_NONBLOCK s s' -> stuck s k conn tx ->
  stuck s' k conn tx /\ mb_given s' = mb_given s /\ mb_events s' = mb_events s.
Proof.
  intros Hch H (Hm & Hr & Hcap0 & t0 & Ht0 & Hs0 & Htx).
  assert (Hother : forall id t l t' rest, mb_tasks s !! id = Some t -> id <> co_task conn ->
    answers t l t' -> mb_inbox s !!! id = omap received l ++ rest ->
    stuck (task_moves id t' l rest s) k conn tx).
  { intros id t l t' rest Hid Hne Ha Hin. split_and!; [done| |done|].
    - cbn. rewrite deliver_none; [done|].
      destruct (ch_held _ _ _ _ _ Hch id t Hid) as [E|(k' & c' & x' & E & Eid & _)]; [|congruence].
      pose proof (held_conserved _ _ _ _ _ Ha Hin) as P. rewrite E in P.
      symmetry in P. by apply Permutation_nil_r, app_nil in P as [? _].
    - exists t0. unfold mb_tasks in *. cbn. rewrite lookup_insert_ne, lookup_total_insert_ne by done. done. }
  destruct H as [s id t i t' l rest Hid Hs Hsd Hstep Hin _|s id t req rest Hid Hs Hc Hin
    |s id t t' l Hid Hs Hf|s id t t' l Hid Hs Hf Hcap|s req client Hcap
    |s e evs env st' acts Hsel|s e evs next Hsel|s k' conn' Ha|s k' conn' t Ha
    |s k' conn' tx' v Ha Hv|s k' conn' tx' Ha Hv Hd]; try congruence; try (exfalso; lia).
  - split; [|done]. eapply Hother; [done|congruence|by eapply step_answers|done].
  - split; [|done]. eapply Hother; [done|congruence|apply refuse_answers|by destruct req].
  - split; [|done]. pose proof Hf as [Ha E]%fail_answers. destruct (decide (id = co_task conn)) as [->|Hne].
    + split_and!; [done| |done|].
      * rewrite fail_pending_eq in Hf. injection Hf as <- <-.
        destruct (ch_held _ _ _ _ _ Hch _ _ Hid) as [E0|(k' & c' & x' & E0 & _ & Eh & _)]; unfold held in *.
        -- apply app_nil in E0 as [_ E0]. rewrite E0 in Htx. by apply elem_of_nil in Htx.
        -- cbn. destruct (pending_hw_ctl t); [|by rewrite deliver_none].
           cbn in Eh. injection Eh as _ Eh. rewrite Eh in Htx. by apply elem_of_nil in Htx.
      * exists t'. unfold mb_tasks in *. cbn. rewrite lookup_insert_eq, lookup_total_insert_eq.
        rewrite fail_pending_eq in Hf. injection Hf as <- _. done.
    + eapply Hother; [done|done|done|by rewrite E].
  - exfalso. assert (tx' = tx) as -> by congruence. assert (conn' = conn) as -> by congruence.
    enough (holds s (co_task conn) tx = true) by congruence. apply holds_spec. exists t0.
    split; [done|]. apply elem_of_app. by right.
Qed.
End blocking.

(** ** What makes it go on *)

Section progress.
Context {T Sock : Type} `{!NixTermios T} (O_NONBLOCK : Z).
Implicit Types (t : ConnectionTask T Sock) (s : mailbox T Sock).

(** One step of a task that ends the wait for [tx]: everything else stays, but
    for at most one event. *)
Definition ends_wait s s' id tx : Prop :=
  mb_main s' = mb_main s /\ mb_given s' = mb_given s /\
  (length (mb_events s') <= S (length (mb_events s)))%nat /\
  (is_Some (mb_replies s' !! tx) \/ holds s' id tx = false).

Lemma reply_delivered l replies tx v : omap replied l = [(tx, v)] -> is_Some (deliver l replies !! tx).
Proof. unfold deliver. intros ->. cbn. rewrite insert_empty, lookup_union_l'; by rewrite lookup_singleton_eq. Qed.

(** A task that closes drops what it holds, if there is room for its event. *)
Lemma closing_ends_wait s id t tx :
  mb_tasks s !! id = Some t -> should_close t = true -> (length (mb_events s) < EVENT_CAPACITY)%nat ->
  exists s', mb_step O_NONBLOCK s s' /\ ends_wait s s' id tx.
Proof.
  intros Hid Hs Hcap. eexists. split; [eapply mb_task_end; [done|done|apply task_shutdown_eq|done]|].
  split_and!; [done|done| |].
  - cbn. rewrite length_app, length_map. destruct (pending_hw_ctl t); cbn; unfold mb_events; lia.
  - right. apply not_true_is_false. intros (t0 & H0 & _)%holds_spec. unfold mb_tasks in H0. cbn in H0.
    by rewrite lookup_delete_eq in H0.
Qed.

(** Without room it still refuses what is pending. *)
Lemma failing_ends_wait s id t tx :
  mb_tasks s !! id = Some t -> should_close t = true -> pending_hw_ctl t = Some tx ->
  exists s', mb_step O_NONBLOCK s s' /\ ends_wait s s' id tx.
Proof.
  intros Hid Hs Hp. eexists. split; [eapply mb_task_failing; [done|done|apply fail_pending_eq]|].
  split_and!; [done|done|cbn; unfold mb_events; lia|left]. cbn. rewrite Hp. by eapply reply_delivered.
Qed.

Lemma refusing_ends_wait s id t k tx :
  mb_tasks s !! id = Some t -> should_close t = false -> is_connected (conn_state t) = false ->
  mb_inbox s !!! id = [call_request k tx] ->
  exists s', mb_step O_NONBLOCK s s' /\ ends_wait s s' id tx.
Proof.
  intros Hid Hs Hc Hin. eexists. split; [by eapply mb_task_refuses|].
  split_and!; [done|done|cbn; unfold mb_events; lia|left]. cbn. by destruct k; eapply reply_delivered.
Qed.

Lemma connected_ends_wait s id t k tx :
  mb_tasks s !! id = Some t -> conn_state t = Connected -> is_Some (tb_framed (tcp t)) ->
  held t (mb_inbox s !!! id) = [tx] -> Forall (eq (call_request k tx)) (mb_inbox s !!! id) ->
  exists s', mb_step O_NONBLOCK s s' /\ ends_wait s s' id tx.
Proof.
  intros Hid Hs [sock Hf] Hh Hall. unfold held in Hh.
  assert (forall i t' l rest v, step i t = Finished tt t' l -> sees_shutdown i = false ->
    mb_inbox s !!! id = omap received l ++ rest -> Request None ∉ l -> omap replied l = [(tx, v)] ->
    exists s', mb_step O_NONBLOCK s s' /\ ends_wait s s' id tx) as Hgo.
  { intros i t' l rest v Hstep Hsd Hin Hn Hl. eexists. split.
    - eapply mb_task_step with (i := i); [done| |congruence|done|done|done].
      unfold should_close. by rewrite Hs.
    - split_and!; [done|done|cbn; unfold mb_events; lia|left]. cbn. by eapply reply_delivered. }
  destruct t as [name m [addr port fr] st buf p]. cbn in *. subst st fr.
  destruct p as [x|]; cbn in Hh.
  - injection Hh as -> Hi. apply map_eq_nil in Hi.
    eapply (Hgo (InConnected (TcpReady (Some (Ok (ControlRes DevOk))) (Ok tt))) _ _ [] (CtlIs (Ok DevOk)));
      [done|done|by rewrite Hi| |done]. by repeat (apply not_elem_of_cons; split); [..|apply not_elem_of_nil].
  - destruct (mb_inbox s !!! id) as [|r [|r' l]]; [discriminate Hh| |discriminate Hh].
    apply Forall_singleton in Hall as <-. destruct k as [client infos rest|client n]; cbn.
    + eapply (Hgo (InConnected (CtlReady (Some (Status tx)) (Ok tt))) _ _ [] (StatusIs true));
        [done|done|done| |done]. by repeat (apply not_elem_of_cons; split); [..|apply not_elem_of_nil].
    + eapply (Hgo (InConnected (CtlReady (Some (HardwareControl DevReset tx)) (Err not_connected))) _ _ []
        (CtlIs (Err Unavailable))); [done|done|done| |done]. by repeat (apply not_elem_of_cons; split); [..|apply not_elem_of_nil].
Qed.

Lemma resumes s k conn tx :
  mb_main s = Awaiting k conn tx ->
  is_Some (mb_replies s !! tx) \/ holds s (co_task conn) tx = false ->
  exists a, mb_step O_NONBLOCK s (main_moves (resume k conn a) (mb_events s) s).
Proof.
  intros Hm H. destruct (mb_replies s !! tx) as [v|] eqn:Hv.
  - exists (Replied v). by eapply mb_reply.
  - exists ReplyDropped. eapply mb_dropped; [done..|]. by destruct H as [[]|].
Qed.

(** The main loop gets its answer, unless it is stuck. *)
Lemma goes_on s k conn tx :
  mb_reachable O_NONBLOCK s -> mb_main s = Awaiting k conn tx -> ~ stuck s k conn tx ->
  exists s' a, rtc (mb_step O_NONBLOCK) s s' /\ mb_main s' = (resume k conn a).1 /\
    mb_given s' = mb_given s ++ (resume k conn a).2 /\
    (length (mb_events s') <= S (length (mb_events s)))%nat.
Proof.
  intros Hr Hm Hst. destruct (mb_reachable_inv _ _ Hr) as [[Hrs _] Hch].
  assert (is_Some (mb_replies s !! tx) \/ holds s (co_task conn) tx = false \/
    exists s', mb_step O_NONBLOCK s s' /\ ends_wait s s' (co_task conn) tx) as [H|[H|(s1 & H1 & E1 & E2 & E3 & H)]].
  { destruct (mb_replies s !! tx) eqn:Hrep; [by left; eexists|right].
    destruct (holds s (co_task conn) tx) eqn:Hh; [right|by left].
    apply holds_spec in Hh as (t & Ht & Htx). unfold mb_channels in Hch. rewrite Hm in Hch.
    destruct (ch_held _ _ _ _ _ Hch _ _ Ht) as [E|(k' & c' & x' & [= <- <- <-] & _ & Eh & _ & Hall & Hp)];
      [rewrite E in Htx; by apply elem_of_nil in Htx|].
    destruct (reachable_inv _ _ Hrs) as [m [_ _ _ Hti _]]. destruct (Hti _ _ Ht) as (_ & [Ip Ifr _ _] & _).
    destruct (should_close t) eqn:Hs.
    { destruct (decide (length (mb_events s) < EVENT_CAPACITY)%nat); [by eapply closing_ends_wait|].
      apply elem_of_app in Htx as [Htx|Htx].
      - destruct (pending_hw_ctl t) as [x|] eqn:Hx; cbn in Htx; [|by apply elem_of_nil in Htx].
        apply list_elem_of_singleton in Htx as ->. by eapply failing_ends_wait.
      - destruct Hst. split_and!; [done|done|lia|]. by exists t. }
    destruct (is_connected (conn_state t)) eqn:Hc.
    - destruct (conn_state t) eqn:Es; try done. by eapply connected_ends_wait.
    - eapply refusing_ends_wait; [done|done|done|]. unfold held in Eh. unfold should_close in Hs.
      replace (pending_hw_ctl t) with (@None sender) in Eh by by destruct (conn_state t).
      cbn in Eh. destruct (mb_inbox s !!! co_task conn) as [|r [|]]; try done.
      by apply Forall_singleton in Hall as <-. }
  - destruct (resumes s k conn tx Hm (or_introl H)) as [a Ha].
    exists (main_moves (resume k conn a) (mb_events s) s), a. split_and!; [by apply rtc_once|done|done|cbn; lia].
  - destruct (resumes s k conn tx Hm (or_intror H)) as [a Ha].
    exists (main_moves (resume k conn a) (mb_events s) s), a. split_and!; [by apply rtc_once|done|done|cbn; lia].
  - destruct (resumes s1 k conn tx) as [a Ha]; [congruence|done|].
    exists (main_moves (resume k conn a) (mb_events s1) s1), a.
    split_and!; [by eapply rtc_l, rtc_once|done|cbn; by rewrite E2|done].
Qed.

(** From the request about to be sent. *)
Lemma asks_goes_on s k conn :
  mb_reachable O_NONBLOCK s -> mb_main s = Asking k conn -> (length (mb_events s) < EVENT_CAPACITY)%nat ->
  exists s' a, rtc (mb_step O_NONBLOCK) s s' /\ mb_main s' = (resume k conn a).1 /\
    mb_given s' = mb_given s ++ (resume k conn a).2 /\
    (length (mb_events s') <= S (length (mb_events s)))%nat.
Proof.
  intros Hr Hm Hcap. destruct (mb_tasks s !! co_task conn) as [t|] eqn:Ht.
  - destruct (mb_reachable_inv _ _ Hr) as [_ Hch]. unfold mb_channels in Hch. rewrite Hm in Hch.
    pose proof (channels_nothing_held (Asking k conn) _ _ _ _ eq_refl Hch _ _ Ht) as Eh.
    apply app_nil in Eh as [_ Ei%map_eq_nil].
    assert (mb_step O_NONBLOCK s (main_asks k conn s)) as Hs.
    { eapply mb_ask; [done|done|]. rewrite Ei. unfold REQUEST_CAPACITY. cbn. lia. }
    destruct (goes_on _ k conn (mb_next s) (rtc_r _ _ _ Hr Hs) eq_refl) as (s' & a & H1 & H2 & H3 & H4).
    { intros (_ & _ & Hfull & _). unfold mb_events in *. cbn in Hfull. lia. }
    exists s', a. split_and!; [by eapply rtc_l|done..].
  - exists (main_moves (resume k conn SendFailed) (mb_events s) s), SendFailed.
    split_and!; [by apply rtc_once, mb_ask_closed|done|done|cbn; unfold mb_events; lia].
Qed.

(** A list goes on to its end: every connection costs at most one event. *)
Lemma list_goes_on rest : forall s client infos conn,
  mb_reachable O_NONBLOCK s -> mb_main s = Asking (ListCall client infos rest) conn ->
  (length (mb_events s) + length rest < EVENT_CAPACITY)%nat ->
  exists s' infos', rtc (mb_step O_NONBLOCK) s s' /\ mb_main s' = Selecting /\
    mb_given s' = mb_given s ++ [(client, RespList (infos ++ infos'))] /\
    Forall2 describes infos' (conn :: rest).
Proof.
  induction rest as [|conn' rest IH]; intros s client infos conn Hr Hm Hcap;
    destruct (asks_goes_on s _ conn Hr Hm) as (s1 & a & H1 & H2 & H3 & H4); try (cbn in Hcap; lia);
    cbn [resume list_loop fst snd] in H2, H3.
  - eexists s1, _. split_and!; [done..|]. constructor; [by eexists|constructor].
  - destruct (IH s1 client _ conn' (rtc_trans _ _ _ Hr H1) H2) as (s2 & infos2 & H5 & H6 & H7 & H8).
    { cbn in Hcap. lia. }
    eexists s2, (_ :: infos2). split_and!; [by etrans|done| |constructor; [by eexists|done]].
    by rewrite H7, H3, app_nil_r, <-app_assoc.
Qed.
End progress.

(** ** Properties *)

Section properties.
Context {T Sock : Type} `{!NixTermios T} (O_NONBLOCK : Z).
Implicit Types (t : ConnectionTask T Sock) (s : mailbox T Sock).

Lemma stuck_for_ever s s' k conn tx :
  mb_reachable O_NONBLOCK s -> stuck s k conn tx -> rtc (mb_step O_NONBLOCK) s s' ->
  stuck s' k conn tx /\ mb_given s' = mb_given s /\ mb_events s' = mb_events s.
Proof.
  intros Hr Hst H. induction H as [s|s s1 s' Hs H IH]; [done|].
  destruct (mb_reachable_inv _ _ Hr) as [_ Hch].
  destruct (stuck_step _ _ _ _ _ _ Hch Hs Hst) as (Hst1 & <- & <-). apply IH; [by eapply rtc_r|done].
Qed.

(** C20. One unanswered request stops the daemon for everybody.  However the
    system runs, as long as the reply the main loop waits for has not come
    and its sender exists, the main loop is where it was, no response has been
    given to any client and no event has left the queue; there is no timeout. *)
Theorem unanswered_request_blocks s s' k conn tx :
  mb_reachable O_NONBLOCK s -> rtc (mb_step O_NONBLOCK) s s' -> mb_main s = Awaiting k conn tx ->
  unanswered s' conn tx ->
  mb_main s' = Awaiting k conn tx /\ mb_given s' = mb_given s /\ mb_events s `prefix_of` mb_events s'.
Proof. intros Hr H Hm [Hu Hh]. rewrite <-Hm. by eapply waits. Qed.

(** C16. Exactly when the daemon deadlocks: a main loop that waits for a reply can
    go on, unless the task it asked is closing with the request still in its
    channel while the queue of events is full; then the task waits for the
    main loop to make room for its last event, and the main loop for the task,
    for ever. *)
Theorem deadlock_characterised s k conn tx :
  mb_reachable O_NONBLOCK s -> mb_main s = Awaiting k conn tx ->
  (stuck s k conn tx -> forall s', rtc (mb_step O_NONBLOCK) s s' ->
     mb_main s' = Awaiting k conn tx /\ mb_given s' = mb_given s /\ mb_events s' = mb_events s) /\
  (~ stuck s k conn tx -> exists s' a, rtc (mb_step O_NONBLOCK) s s' /\
     mb_main s' = (resume k conn a).1 /\ mb_given s' = mb_given s ++ (resume k conn a).2).
Proof.
  intros Hr Hm. split.
  - intros Hst s' H. destruct (stuck_for_ever _ _ _ _ _ Hr Hst H) as ([Hm' _] & E1 & E2). done.
  - intros Hst. destruct (goes_on _ _ _ _ _ Hr Hm Hst) as (s' & a & ? & ? & ? & _). by exists s', a.
Qed.

(** C19. A list can always be completed as long as the queue of events has room for
    the tasks that may end meanwhile: some steps lead on, and
    the client gets the entries of the registered connections, in order,
    whatever state the connections are in. *)
Theorem list_completes s client evs :
  mb_reachable O_NONBLOCK s -> mb_main s = Selecting -> mb_events s = CliCommand ReqList client :: evs ->
  (length evs + length (conns (sys_state (mb_sys s))) <= EVENT_CAPACITY)%nat ->
  exists s' infos, rtc (mb_step O_NONBLOCK) s s' /\ mb_main s' = Selecting /\
    mb_given s' = mb_given s ++ [(client, RespList infos)] /\
    Forall2 describes infos (conns (sys_state (mb_sys s))).
Proof.
  intros Hr Hm Hev Hcap. set (next := list_loop client [] (conns (sys_state (mb_sys s)))).
  assert (mb_step O_NONBLOCK s (main_moves next evs s)) as Hs by by eapply mb_begin.
  unfold next in *. destruct (conns (sys_state (mb_sys s))) as [|conn rest]; cbn [list_loop length] in *.
  - eexists _, _. split_and!; [by apply rtc_once|done..].
  - destruct (list_goes_on O_NONBLOCK rest (main_moves (Asking (ListCall client [] rest) conn, []) evs s)
      client [] conn) as (s' & infos & H1 & H2 & H3 & H4); [by eapply rtc_r|done|cbn; lia|].
    exists s', infos. split_and!; [by eapply rtc_l|done| |done]. rewrite H3. cbn. by rewrite app_nil_r.
Qed.
End properties.

(** ** Witnesses *)

Module BlockingWitness.
Import LinuxTermios DaemonWitness ConnectionWitness MailboxWitness.

(** The terminal fails before the task takes the request; then clients fill
    the queue. *)
Definition broken_poll : PtyPoll termios :=
  mkPtyPoll (Err reset_err) (ReadvOk []) (Ok cooked) (Ok cooked) (fun _ => Ok tt) (Ok cooked).
Definition broken : mailbox termios unit := Eval vm_compute in
  match step (InConnected (PtyReady [broken_poll] (Ok tt))) connected_task with
  | Finished _ t l => task_moves 0 t l [Status 0] listing | _ => listing end.

Lemma broken_reachable : mb_reachable 2048 broken.
Proof.
  eapply rtc_r; [exact listing_reachable|].
  refine (mb_task_step 2048 listing 0 connected_task (InConnected (PtyReady [broken_poll] (Ok tt))) _ _
    [Status 0] eq_refl eq_refl (never_shut _) eq_refl eq_refl _).
  by intros [|[]%elem_of_nil]%elem_of_cons.
Qed.

Fixpoint fill (n : nat) (s : mailbox termios unit) : mailbox termios unit :=
  match n with O => s | S n => fill n (queue_command 9 ReqList s) end.

Lemma fill_reachable n s :
  mb_reachable 2048 s -> (length (mb_events s) + n <= EVENT_CAPACITY)%nat -> mb_reachable 2048 (fill n s).
Proof.
  revert s. induction n as [|n IH]; intros s Hr Hn; [done|]. cbn. apply IH.
  - eapply rtc_r; [exact Hr|]. apply mb_command. lia.
  - unfold queue_command, mb_events in *. cbn [mb_sys sys_events]. rewrite length_app. cbn [length]. lia.
Qed.

Definition full : mailbox termios unit := fill 128 broken.

Lemma full_reachable : mb_reachable 2048 full.
Proof. apply fill_reachable; [exact broken_reachable|]. by apply Nat.leb_le. Qed.

Lemma full_stuck : stuck full (ListCall 8 [] []) here 0.
Proof.
  split_and!; [done|done|by apply Nat.leb_le|]. eexists. split_and!; [by vm_compute|done|]. by left.
Qed.

(** The reset is pending, the device says "ok" to the terminal, and another
    client has asked for a list. *)
Definition chatter : mailbox termios unit := Eval vm_compute in
  match mb_tasks reset_sent !! 0%nat with
  | Some t0 =>
      match step (InConnected (TcpReady (Some (Ok (from_slice [x6f; x6b]))) (Ok tt))) t0 with
      | Finished _ t l => task_moves 0 t l [] reset_sent | _ => reset_sent end
  | None => reset_sent end.

Lemma unanswered_request_blocks_witness :
  mb_main (queue_command 9 ReqList chatter) = Awaiting (ResetCall 8 esp) here 0 /\
  mb_given (queue_command 9 ReqList chatter) = mb_given reset_sent.
Proof.
  destruct (unanswered_request_blocks 2048 reset_sent (queue_command 9 ReqList chatter)
    (ResetCall 8 esp) here 0 reset_sent_reachable) as (H1 & H2 & _); [|done|by vm_compute|by split].
  eapply rtc_l; [|apply rtc_once, mb_command; by apply Nat.ltb_lt].
  refine (mb_task_step 2048 reset_sent 0 _ (InConnected (TcpReady (Some (Ok (from_slice [x6f; x6b]))) (Ok tt)))
    _ _ [] eq_refl eq_refl (never_shut _) eq_refl eq_refl (fun _ => eq_refl)).
Defined.

Lemma deadlock_characterised_witness :
  mb_main full = Awaiting (ListCall 8 [] []) here 0 /\ length (mb_events full) = 128%nat /\
  forall s', rtc (mb_step 2048) full s' ->
  mb_main s' = Awaiting (ListCall 8 [] []) here 0 /\ mb_given s' = mb_given full /\ mb_events s' = mb_events full.
Proof.
  split_and!; [by vm_compute..|].
  exact (proj1 (deadlock_characterised 2048 full _ _ _ full_reachable (proj1 full_stuck)) full_stuck).
Defined.

Lemma list_completes_witness : exists s' infos,
  rtc (mb_step 2048) (queue_command 8 ReqList up) s' /\ mb_main s' = Selecting /\
  mb_given s' = mb_given up ++ [(8%nat, RespList infos)] /\ Forall2 describes infos [here].
Proof.
  eapply (list_completes 2048 (queue_command 8 ReqList up) 8 []); [|done|done|by apply Nat.leb_le].
  eapply rtc_r; [exact up_reachable|]. apply mb_command. by apply Nat.ltb_lt.
Defined.
End BlockingWitness.
