(* ===== verification/Clients.v ===== *)
(** * The clients of the daemon, all at once

    One [handle_stream] task for every client of the Unix socket, next to the
    main loop and the connection tasks of [Mailbox]: where each of them waits,
    what it has read, queued and written.  The number of a command is its
    [oneshot] channel. *)
From S2P Require Import Prelude BytesApi Codec Framing Utf8 DeviceMsg Ctl AsyncPty TcpBridge Connection Registry Daemon System Mailbox History.
From stdpp Require Import base numbers strings countable gmap sets list sorting.
#[local] Open Scope Z_scope.

(** ** State and steps *)

(** In [reader.next()], in [event_tx.send], in [rx.await], in [writer.send], or
    at the end, with the request whose response could not be written. *)
Inductive handler_pc :=
  | StreamReading
  | StreamQueueing (msg : DaemonRequest)
  | StreamAwaiting (tx : nat) (msg : DaemonRequest)
  | StreamWriting (tx : nat) (msg : DaemonRequest) (resp : DaemonResponse)
  | StreamOver (e : stream_end) (unanswered : option DaemonRequest).

(** A command and the response that was written for it. *)
Record answered_command := mkExchange { ex_tx : nat; ex_request : DaemonRequest; ex_response : DaemonResponse }.

(** [hd_in] is the buffer of the framed reader; [hd_read] and [hd_out] are all
    the bytes read from the socket and written to it. *)
Record handler (B : Type) := mkHandler {
  hd_pc : handler_pc;
  hd_in : B;
  hd_read : list u8;
  hd_out : list u8;
  hd_done : list answered_command;
}.
Arguments mkHandler {B} _ _ _ _ _.
Arguments hd_pc {B} _.
Arguments hd_in {B} _.
Arguments hd_read {B} _.
Arguments hd_out {B} _.
Arguments hd_done {B} _.

(** The daemon with its clients. *)
Record clients (T Sock B : Type) := mkClients {
  cs_mailbox : mailbox T Sock;
  cs_handlers : gmap nat (handler B);
}.
Arguments mkClients {T Sock B} _ _.
Arguments cs_mailbox {T Sock B} _.
Arguments cs_handlers {T Sock B} _.

Section clients.
Context {T Sock : Type} `{!NixTermios T} (O_NONBLOCK : Z).
Context {B : Type} `{!BytesCrate B} (empty : B).
Implicit Types (s : mailbox T Sock) (h : handler B).

Definition new_handler : handler B := mkHandler StreamReading empty [] [] [].

(** Steps of a handler that involve only its socket. *)
Inductive handler_step : handler B -> handler B -> Prop :=
  | handler_reads h chunk buf :
      hd_pc h = StreamReading -> decode_request (hd_in h) = Done (Ok None, buf) -> chunk <> [] ->
      handler_step h (mkHandler StreamReading (put_slice chunk buf) (hd_read h ++ chunk) (hd_out h) (hd_done h))
  | handler_decodes h msg buf :
      hd_pc h = StreamReading -> decode_request (hd_in h) = Done (Ok (Some msg), buf) ->
      handler_step h (mkHandler (StreamQueueing msg) buf (hd_read h) (hd_out h) (hd_done h))
  | handler_refuses h e buf :
      hd_pc h = StreamReading -> decode_request (hd_in h) = Done (Err e, buf) ->
      handler_step h (mkHandler (StreamOver BadRequest None) buf (hd_read h) (hd_out h) (hd_done h))
  | handler_read_ends h e buf :
      hd_pc h = StreamReading -> decode_request (hd_in h) = Done (Ok None, buf) ->
      e = ClientClosed \/ e = BadRequest ->
      handler_step h (mkHandler (StreamOver e None) buf (hd_read h) (hd_out h) (hd_done h))
  | handler_writes h tx msg resp buf :
      hd_pc h = StreamWriting tx msg resp -> encode_response resp empty = (Ok tt, buf) ->
      handler_step h (mkHandler StreamReading (hd_in h) (hd_read h) (hd_out h ++ as_ref buf)
        (hd_done h ++ [mkExchange tx msg resp]))
  | handler_panics h tx msg resp :
      hd_pc h = StreamWriting tx msg resp ->
      handler_step h (mkHandler (StreamOver StreamPanic (Some msg)) (hd_in h) (hd_read h) (hd_out h) (hd_done h)).

Definition set_pc (pc : handler_pc) (h : handler B) : handler B :=
  mkHandler pc (hd_in h) (hd_read h) (hd_out h) (hd_done h).

(** A new client is accepted in the [select!] of the main loop; commands are
    numbered in the order in which they are queued; everything else of the
    daemon goes on by itself. *)
Inductive clients_step : clients T Sock B -> clients T Sock B -> Prop :=
  | clients_daemon s s' hs :
      mb_step O_NONBLOCK s s' -> mb_issued s' = mb_issued s -> clients_step (mkClients s hs) (mkClients s' hs)
  | clients_accept s hs id :
      mb_main s = Selecting -> hs !! id = None ->
      clients_step (mkClients s hs) (mkClients s (<[id := new_handler]> hs))
  | clients_handler s hs id h h' :
      hs !! id = Some h -> handler_step h h' -> clients_step (mkClients s hs) (mkClients s (<[id := h']> hs))
  | clients_queue s hs id h msg :
      hs !! id = Some h -> hd_pc h = StreamQueueing msg -> (length (mb_events s) < EVENT_CAPACITY)%nat ->
      let tx := length (mb_issued s) in
      clients_step (mkClients s hs)
        (mkClients (queue_command tx msg s) (<[id := set_pc (StreamAwaiting tx msg) h]> hs))
  | clients_answered s hs id h tx msg resp :
      hs !! id = Some h -> hd_pc h = StreamAwaiting tx msg -> (tx, resp) ∈ mb_given s ->
      clients_step (mkClients s hs) (mkClients s (<[id := set_pc (StreamWriting tx msg resp) h]> hs)).

Definition clients_init : clients T Sock B := mkClients mb_init ∅.
Definition clients_reachable : clients T Sock B -> Prop := rtc clients_step clients_init.

(** ** The invariant *)

(** The request in hand, and the numbers of the commands of a handler. *)
Definition request_in_hand h : list DaemonRequest :=
  match hd_pc h with
  | StreamReading => []
  | StreamQueueing msg | StreamAwaiting _ msg | StreamWriting _ msg _ => [msg]
  | StreamOver _ lost => option_list lost
  end.
Definition number_in_hand h : list nat :=
  match hd_pc h with StreamAwaiting tx _ | StreamWriting tx _ _ => [tx] | _ => [] end.
Definition numbers h : list nat := map ex_tx (hd_done h) ++ number_in_hand h.
Definition requests h : list DaemonRequest := map ex_request (hd_done h) ++ request_in_hand h.

(** The command has this place among all the commands queued, and the response
    this place among all given. *)
Definition took_place s (x : answered_command) : Prop :=
  mb_issued s !! ex_tx x = Some (ex_tx x, ex_request x) /\ mb_given s !! ex_tx x = Some (ex_tx x, ex_response x).

Definition pc_ok s h : Prop :=
  match hd_pc h with
  | StreamAwaiting tx msg => mb_issued s !! tx = Some (tx, msg)
  | StreamWriting tx msg resp => took_place s (mkExchange tx msg resp)
  | StreamOver ClientClosed None | StreamOver BadRequest None | StreamOver StreamPanic (Some _) => True
  | StreamOver _ _ => False
  | _ => True
  end.

Record handler_ok s h : Prop := {
  ho_pc : pc_ok s h;
  ho_done : Forall (took_place s) (hd_done h);
  ho_sorted : StronglySorted lt (numbers h);
  ho_bound : Forall (fun tx => tx < length (mb_issued s))%nat (numbers h);
  ho_fits : Forall (fun x => Forall str_fits (response_strings (ex_response x))) (hd_done h);
  ho_out : hd_out h = concat (map (fun x => response_wire (ex_response x)) (hd_done h));
}.

(** What was read begins with the requests taken so far, and what is left is in
    the buffer; for a handler that is over, only the first matters. *)
Definition reader_ok h : Prop :=
  match hd_pc h with
  | StreamOver _ _ => exists items rest, begins decode_request (hd_read h) items rest /\ requests h `prefix_of` items
  | _ => begins decode_request (hd_read h) (requests h) (as_ref (hd_in h))
  end.

Record clients_inv (c : clients T Sock B) : Prop := {
  ci_mailbox : mb_reachable O_NONBLOCK (cs_mailbox c);
  ci_numbered : map fst (mb_issued (cs_mailbox c)) = seq 0 (length (mb_issued (cs_mailbox c)));
  ci_handlers id h : cs_handlers c !! id = Some h -> handler_ok (cs_mailbox c) h /\ reader_ok h;
  ci_apart id1 id2 h1 h2 tx :
    cs_handlers c !! id1 = Some h1 -> cs_handlers c !! id2 = Some h2 ->
    tx ∈ numbers h1 -> tx ∈ numbers h2 -> id1 = id2;
}.

Context `{!BytesLaws B}.

(** ** The mailbox by number *)

(** What was queued and what was given only grows. *)
Lemma mb_grows s s' : mb_step O_NONBLOCK s s' ->
  mb_issued s `prefix_of` mb_issued s' /\ mb_given s `prefix_of` mb_given s'.
Proof. intros []; cbn; (split; [by first [reflexivity|by eexists]..]). Qed.

Lemma numbered_lookup s i c :
  map fst (mb_issued s) = seq 0 (length (mb_issued s)) -> mb_issued s !! i = Some c -> c.1 = i.
Proof.
  intros E H. assert (map fst (mb_issued s) !! i = Some c.1) as H1 by by rewrite list_lookup_fmap, H.
  rewrite E in H1. by apply lookup_seq in H1 as [-> _].
Qed.

(** The response to a number has its place. *)
Lemma given_place s tx resp :
  mb_reachable O_NONBLOCK s -> map fst (mb_issued s) = seq 0 (length (mb_issued s)) ->
  (tx, resp) ∈ mb_given s -> mb_given s !! tx = Some (tx, resp).
Proof.
  intros Hr Hn [i Hi]%list_elem_of_lookup. destruct (reachable_explained _ _ Hr) as (cs & _ & Eg & Ei).
  pose proof Hi as Hc. rewrite Eg, list_lookup_fmap in Hc. apply fmap_Some in Hc as ([c resp'] & Hc & [= -> ->]).
  assert (mb_issued s !! i = Some c) as Hi'.
  { rewrite Ei. apply lookup_app_l_Some. by rewrite list_lookup_fmap, Hc. }
  pose proof (numbered_lookup _ _ _ Hn Hi') as E. unfold answered_of in *. cbn in *. by rewrite <-E in *.
Qed.

(** What has a place is what explains the run. *)
Lemma place_answered s cs x :
  mb_given s = map answered_of cs -> (exists more, mb_issued s = map fst cs ++ more) -> took_place s x ->
  cs !! ex_tx x = Some ((ex_tx x, ex_request x), ex_response x).
Proof.
  intros Eg [more Ei] [Hi Hg]. rewrite Eg, list_lookup_fmap in Hg.
  apply fmap_Some in Hg as ([c resp] & Hc & [= E1 E2]). rewrite Ei in Hi.
  rewrite lookup_app_l in Hi by (rewrite length_map; by eapply lookup_lt_Some).
  rewrite list_lookup_fmap, Hc in Hi. cbn in *. injection Hi as ->. by rewrite Hc, E2.
Qed.

(** ** Preservation *)

Lemma took_place_grows s s' x :
  mb_issued s `prefix_of` mb_issued s' -> mb_given s `prefix_of` mb_given s' -> took_place s x -> took_place s' x.
Proof. intros H1 H2 [? ?]. split; by eapply prefix_lookup_Some. Qed.

Lemma handler_grows s s' h :
  mb_issued s `prefix_of` mb_issued s' -> mb_given s `prefix_of` mb_given s' -> handler_ok s h -> handler_ok s' h.
Proof.
  intros H1 H2 [Hp Hd Hs Hb Hf Ho]. split; [|..|done|done]; [| |done|].
  - unfold pc_ok in *. destruct (hd_pc h) as [| | | |[] []]; try done;
      [by eapply prefix_lookup_Some|by eapply took_place_grows].
  - eapply Forall_impl; [exact Hd|]. intros x. by apply took_place_grows.
  - eapply Forall_impl; [exact Hb|]. intros tx Htx. apply prefix_length in H1. cbn in *. lia.
Qed.

Lemma new_handler_ok s : as_ref empty = [] -> handler_ok s new_handler /\ reader_ok new_handler.
Proof. intros E. split; [split; cbn; by constructor|]. cbn. rewrite E. apply begins_nil. Qed.

(** A handler on its own: the mailbox stays, and so do its numbers, but those it
    drops when it is over. *)
Lemma handler_step_ok s h h' :
  as_ref empty = [] -> handler_step h h' -> handler_ok s h -> reader_ok h ->
  handler_ok s h' /\ reader_ok h' /\ numbers h' `sublist_of` numbers h.
Proof.
  intros He H [Hp Hd Hs Hb Hf Ho] Hr.
  destruct H as [h chunk buf Epc Ed Hne|h msg buf Epc Ed|h e buf Epc Ed|h e buf Epc Ed He'|h tx msg resp buf Epc Ee|h tx msg resp Epc];
    unfold pc_ok, reader_ok, numbers, requests, number_in_hand, request_in_hand in *; cbn in *; rewrite Epc in *;
    rewrite ?app_nil_r in Hr; rewrite ?app_nil_r in Hs; rewrite ?app_nil_r in Hb; rewrite ?app_nil_r.
  - pose proof (sd_keeps _ _ _ Ed ltac:(done)) as ->. rewrite as_ref_put_slice.
    split_and!; [by split; cbn; rewrite ?app_nil_r|by apply (begins_more decode_request)|done].
  - split_and!; [by split; cbn; rewrite ?app_nil_r|by eapply (begins_snoc decode_request)|done].
  - split_and!; [by split; cbn; rewrite ?app_nil_r|by eexists _, _|done].
  - split_and!; [split; cbn; rewrite ?app_nil_r; try done; by destruct He' as [-> | ->]|by eexists _, _|done].
  - pose proof (encode_response_result (B:=B) resp empty) as Hres. rewrite Ee in Hres. cbn in Hres.
    case_decide as Hfit; [|done]. destruct (encode_response_writes (B:=B) resp Hfit empty) as (b & E & Hb').
    rewrite Ee in E. injection E as <-. rewrite !map_app. cbn.
    split_and!; [split; cbn; rewrite ?map_app, ?app_nil_r; cbn; try done| |done].
    + apply Forall_app. split; [done|by constructor].
    + apply Forall_app. split; [done|by constructor].
    + by rewrite Ho, concat_app, Hb', He; cbn; rewrite app_nil_r.
    + done.
  - split_and!.
    + split; cbn; rewrite ?app_nil_r; try done.
      * by apply StronglySorted_app_1_l in Hs.
      * by apply Forall_app in Hb as [? _].
    + by eexists _, _.
    + by apply sublist_inserts_r.
Qed.

(** One handler changes, with the mailbox or without: its numbers are its own or
    new. *)
Lemma handler_update s s' hs id h' :
  clients_inv (mkClients s hs) -> mb_reachable O_NONBLOCK s' ->
  map fst (mb_issued s') = seq 0 (length (mb_issued s')) ->
  mb_issued s `prefix_of` mb_issued s' -> mb_given s `prefix_of` mb_given s' ->
  handler_ok s' h' -> reader_ok h' ->
  (forall tx, tx ∈ numbers h' -> (exists h, hs !! id = Some h /\ tx ∈ numbers h) \/ (length (mb_issued s) <= tx)%nat) ->
  clients_inv (mkClients s' (<[id := h']> hs)).
Proof.
  intros [_ _ Hh Ha] Hr Hn H1 H2 Hok Hrd Hnew. cbn in *.
  assert (forall id2 h2 tx, id2 <> id -> hs !! id2 = Some h2 -> tx ∈ numbers h2 -> tx ∈ numbers h' -> False) as Hap.
  { intros id2 h2 tx Hne E2 Hin [(h & E & Hin')|Hle]%Hnew; [by eapply Hne, Ha|].
    destruct (Hh _ _ E2) as [[_ _ _ Hb _ _] _]. rewrite Forall_forall in Hb. specialize (Hb _ Hin). cbn in Hb. lia. }
  split; cbn; [done..| |].
  - intros id2 h2 [[<- <-]|[Hne E]]%lookup_insert_Some; [done|]. destruct (Hh _ _ E) as [Ho2 Hr2].
    split; [by eapply handler_grows|done].
  - intros id1 id2 h1 h2 tx [[<- <-]|[Hne1 E1]]%lookup_insert_Some [[<- <-]|[Hne2 E2]]%lookup_insert_Some Hi1 Hi2;
      [done|by destruct (Hap id2 h2 tx)|by destruct (Hap id1 h1 tx)|by eapply Ha].
Qed.

Lemma clients_step_inv c c' : as_ref empty = [] -> clients_inv c -> clients_step c c' -> clients_inv c'.
Proof.
  intros He Hc H. pose proof Hc as [Hr Hn Hh Ha].
  destruct H as [s s' hs Hs Ei|s hs id Hm Hid|s hs id h h' Hid Hs|s hs id h msg Hid Hpc Hcap tx|s hs id h tx msg resp Hid Hpc Hg];
    cbn in *.
  - destruct (mb_grows _ _ Hs) as [H1 H2]. split; cbn; [by eapply rtc_r|by rewrite Ei| |done].
    intros id h Hid. destruct (Hh _ _ Hid). split; [by eapply handler_grows|done].
  - destruct (new_handler_ok s He). eapply handler_update; [done..|]. by intros tx Htx%elem_of_nil.
  - destruct (Hh _ _ Hid) as [Ho Hrd]. destruct (handler_step_ok s _ _ He Hs Ho Hrd) as (Ho' & Hrd' & Hsub).
    eapply handler_update; [done..|]. intros tx Htx. left. exists h. split; [done|].
    by eapply elem_of_submseteq, sublist_submseteq.
  - destruct (Hh _ _ Hid) as [[Hp Hd Hso Hb Hf Ho] Hrd]. unfold numbers, number_in_hand in *. rewrite Hpc, app_nil_r in *.
    assert (mb_issued s `prefix_of` mb_issued (queue_command tx msg s)) as H1 by by eexists.
    assert (length (mb_issued (queue_command tx msg s)) = S tx) as El by (cbn; rewrite length_app; cbn; unfold tx; lia).
    eapply handler_update; [done|by eapply rtc_r, mb_command| |done|done| | |].
    + rewrite El. cbn [queue_command mb_issued]. rewrite map_app, Hn, seq_S. done.
    + split; cbn [set_pc hd_pc hd_done hd_out]; try done.
      * unfold pc_ok. cbn. rewrite lookup_app_r, Nat.sub_diag by (unfold tx; lia). done.
      * eapply Forall_impl; [exact Hd|]. intros x. by apply took_place_grows.
      * apply StronglySorted_app_2; [|done|by repeat constructor]. intros x1 x2 Hx ->%list_elem_of_singleton.
        rewrite Forall_forall in Hb. by apply Hb.
      * rewrite El. apply Forall_app. split; [|by constructor; [lia|]]. eapply Forall_impl; [exact Hb|].
        cbn. fold tx. lia.
    + unfold reader_ok, requests, request_in_hand in *. cbn. rewrite Hpc in Hrd. exact Hrd.
    + intros tx'. unfold numbers. cbn [set_pc hd_done number_in_hand hd_pc].
      intros [Hin| ->%list_elem_of_singleton]%elem_of_app; [left|by right].
      exists h. split; [done|]. apply elem_of_app. by left.
  - destruct (Hh _ _ Hid) as [[Hp Hd Hso Hb Hf Ho] Hrd]. unfold pc_ok in Hp. rewrite Hpc in Hp.
    unfold numbers, number_in_hand, reader_ok, requests, request_in_hand in *. rewrite Hpc in *.
    eapply handler_update; [done..| | |].
    + split; cbn [set_pc hd_pc hd_done hd_out]; try done. split; [done|]. by apply given_place.
    + exact Hrd.
    + intros tx' Hin. left. exists h. split; [done|]. unfold numbers, number_in_hand. by rewrite Hpc.
Qed.

Lemma clients_reachable_inv c : as_ref empty = [] -> clients_reachable c -> clients_inv c.
Proof.
  intros He. revert c. apply rtc_ind_r; [|by intros c c' _ Hs Hi; eapply clients_step_inv].
  split; cbn; [apply rtc_refl|done|by intros|by intros].
Qed.
End clients.

(** The requests taken by a handler begin what its bytes hold. *)
Lemma reader_ok_taken {B} `{!BytesCrate B} (h : handler B) : reader_ok h ->
  exists items rest, begins decode_request (hd_read h) items rest /\ requests h `prefix_of` items.
Proof. unfold reader_ok. destruct (hd_pc h); [by eauto..|done]. Qed.

(** ** Waiting *)

Section waiting.
Context {T Sock : Type} `{!NixTermios T} (O_NONBLOCK : Z).
Implicit Types (s : mailbox T Sock).

Lemma events_step s s' : mb_step O_NONBLOCK s s' ->
  (length (mb_events s) <= EVENT_CAPACITY)%nat -> (length (mb_events s') <= EVENT_CAPACITY)%nat.
Proof.
  intros [] Hl; unfold mb_events, task_moves, main_moves in *; cbn in *; try done;
    repeat match goal with E : sys_events _ = _ :: _ |- _ => rewrite E in *; clear E end; cbn in *; try lia.
  - match goal with E : task_shutdown _ = _ |- _ => rewrite task_shutdown_eq in E; injection E as _ <- end.
    rewrite length_app, length_map. destruct (pending_hw_ctl t); cbn; lia.
  - rewrite length_app. cbn. unfold mb_events. lia.
Qed.

(** The queue never holds more than it may. *)
Lemma events_bounded s : mb_reachable O_NONBLOCK s -> (length (mb_events s) <= EVENT_CAPACITY)%nat.
Proof. revert s. apply rtc_ind_r; [cbn; lia|]. intros s s' _ Hs. by apply events_step. Qed.

Lemma length_omap_le {A C} (f : A -> option C) l : (length (omap f l) <= length l)%nat.
Proof. induction l as [|x l IH]; [done|]. cbn. destruct (f x); cbn; lia. Qed.

Lemma event_of_command (c : nat * DaemonRequest) (evs : list DaemonEvent) : c ∈ omap event_command evs -> CliCommand c.2 c.1 ∈ evs.
Proof. intros (e & He & E)%list_elem_of_omap. destruct e as [req tx|n]; [|done]. by injection E as <-. Qed.
End waiting.

(** ** Properties *)

Section properties.
Context {T Sock : Type} `{!NixTermios T} (O_NONBLOCK : Z).
Context {B : Type} `{!BytesCrate B, !BytesLaws B} (empty : B).

Implicit Types (s : mailbox T Sock) (h : handler B).

(** C12. Every client gets the answers to its own requests.  However any number of
    clients, the main loop and the connection tasks interleave: the requests
    of a client are taken from its bytes in order; what it has been written
    is the encoding of the responses to them, one each, in order; each request
    has its own place among all the commands queued, and its response the same
    place among all the responses given; no other client has a command there;
    and one history of this very run explains the responses of all clients: at
    that place it has this request with this response, each response being the
    one specified on the connections there were at that moment, from what the
    kernel gave and what the tasks truly answered (C8). *)
Theorem every_client_answered c id h :
  as_ref empty = [] -> clients_reachable (T:=T) (Sock:=Sock) O_NONBLOCK empty c -> cs_handlers c !! id = Some h ->
  map ex_request (hd_done h) `prefix_of` rx_items (feed_all decode_request empty [hd_read h]) /\
  hd_out h = concat (map (fun x => response_wire (ex_response x)) (hd_done h)) /\
  StronglySorted lt (map ex_tx (hd_done h)) /\
  Forall (took_place (cs_mailbox c)) (hd_done h) /\
  (forall id' h' tx, cs_handlers c !! id' = Some h' -> id' <> id -> tx ∈ numbers h -> tx ∉ numbers h') /\
  (exists cs, explained O_NONBLOCK (cs_mailbox c) cs /\
     mb_given (cs_mailbox c) = map answered_of cs /\ map fst cs `prefix_of` mb_issued (cs_mailbox c) /\
     forall id' h' x, cs_handlers c !! id' = Some h' -> x ∈ hd_done h' ->
       cs !! ex_tx x = Some ((ex_tx x, ex_request x), ex_response x)).
Proof.
  intros He Hr Hid. destruct (clients_reachable_inv _ _ _ He Hr) as [Hm _ Hh Ha].
  destruct (Hh _ _ Hid) as [[_ Hd Hs _ _ Ho] Hrd]. split_and!.
  - destruct (reader_ok_taken h Hrd) as (items & rest & Hb & Hp). etrans; [|by eapply (begins_feed decode_request)].
    etrans; [|exact Hp]. by eexists.
  - done.
  - by apply StronglySorted_app_1_l in Hs.
  - done.
  - intros id' h' tx Hid' Hne H1 H2. by eapply Hne, Ha.
  - destruct (reachable_explained _ _ Hm) as (cs & Hex & Hg & Hi). exists cs. split_and!; [done..|by eexists|].
    intros id' h' x Hid' Hx. destruct (Hh _ _ Hid') as [[_ Hd' _ _ _ _] _]. rewrite Forall_forall in Hd'.
    apply (place_answered (cs_mailbox c)); [done|by eexists|by apply Hd'].
Qed.

(** C18. A command is never lost, and waits its turn.  A client whose command is
    queued has been answered, or its command is the one being handled or in the
    queue, where at most 128 commands come before it. *)
Theorem client_waits_its_turn c id h tx msg :
  as_ref empty = [] -> clients_reachable (T:=T) (Sock:=Sock) O_NONBLOCK empty c -> cs_handlers c !! id = Some h -> hd_pc h = StreamAwaiting tx msg ->
  let s := cs_mailbox c in
  (tx <= length (mb_given s) + EVENT_CAPACITY)%nat /\
  ((exists resp, mb_given s !! tx = Some (tx, resp)) \/ current (mb_main s) = [(tx, msg)] \/
   CliCommand msg tx ∈ mb_events s).
Proof.
  intros He Hr Hid Hpc s. destruct (clients_reachable_inv _ _ _ He Hr) as [Hm Hn Hh _].
  destruct (Hh _ _ Hid) as [[Hp _ _ _ _ _] _]. unfold pc_ok in Hp. rewrite Hpc in Hp. fold s in Hm, Hn, Hp.
  destruct (reachable_explained _ _ Hm) as (cs & _ & Eg & E).
  assert (length (mb_given s) = length (map fst cs)) as Hl by by rewrite Eg, !length_map.
  assert (length (current (mb_main s)) <= 1)%nat as Hc by (destruct (mb_main s); cbn; lia).
  pose proof (length_omap_le event_command (mb_events s)). pose proof (events_bounded _ _ Hm).
  rewrite E in Hp. split.
  - apply lookup_lt_Some in Hp. rewrite !length_app in Hp. lia.
  - apply lookup_app_Some in Hp as [Hp|[_ [Hp|[_ Hp]]%lookup_app_Some]].
    + left. rewrite list_lookup_fmap in Hp. apply fmap_Some in Hp as ([c' resp] & Hc' & [= <-]).
      exists resp. by rewrite Eg, list_lookup_fmap, Hc'.
    + right. left. destruct (current (mb_main s)) as [|x [|]]; [done| |cbn in Hc; lia].
      apply list_elem_of_lookup_2 in Hp. by apply list_elem_of_singleton in Hp as ->.
    + right. right. apply list_elem_of_lookup_2 in Hp. by apply event_of_command in Hp.
Qed.
End properties.

(** ** Witnesses *)

Module ClientsWitness.
Import ListBytes LinuxTermios DaemonWitness MailboxWitness.
Abbreviation handlers := (gmap nat (handler (list u8))).

(** The first client adds a connection and gets its answer; the second asks for
    a list meanwhile and waits. *)
Definition add_bytes : list u8 := request_wire (ReqAdd esp 1 2).
Definition ask_bytes : list u8 := request_wire ReqList.
Definition asked_add : mailbox termios unit := queue_command 0 (ReqAdd esp 1 2) mb_init.
Definition did_add : mailbox termios unit :=
  mkMailbox (mkSystem (mkState [here]) {[0%nat := link]} ∅ [] 1) Selecting ∅ ∅ 0
    [(0%nat, AddOk (lit "/dev/pts/4"))] [(0%nat, ReqAdd esp 1 2)]
    [Handled (ReqAdd esp 1 2) (ok_env 0) (0%nat, AddOk (lit "/dev/pts/4"))] [].
Definition asked_list : mailbox termios unit := queue_command 1 ReqList did_add.

Definition first_client : handler (list u8) :=
  mkHandler StreamReading [] add_bytes (response_wire (AddOk (lit "/dev/pts/4")))
    [mkExchange 0 (ReqAdd esp 1 2) (AddOk (lit "/dev/pts/4"))].
Definition second_client : handler (list u8) := mkHandler (StreamAwaiting 1 ReqList) [] ask_bytes [] [].
Definition two_clients : clients termios unit (list u8) :=
  mkClients asked_list {[0%nat := first_client; 1%nat := second_client]}.

Lemma request_queued s (hs : handlers) id req bytes :
  hs !! id = Some (new_handler []) -> (length (mb_events s) < EVENT_CAPACITY)%nat ->
  bytes <> [] -> decode_request (B:=list u8) [] = Done (Ok None, []) ->
  decode_request (B:=list u8) bytes = Done (Ok (Some req), []) ->
  rtc (clients_step (T:=termios) (Sock:=unit) 2048 (B:=list u8) []) (mkClients s hs)
    (mkClients (queue_command (length (mb_issued s)) req s)
      (<[id := mkHandler (StreamAwaiting (length (mb_issued s)) req) [] bytes [] []]> hs)).
Proof.
  intros Hid Hcap Hne H0 H1.
  eapply rtc_l; [eapply clients_handler; [exact Hid|by apply (handler_reads _ _ bytes [])]|].
  eapply rtc_l; [eapply clients_handler; [apply lookup_insert_eq|by apply (handler_decodes _ _ req [])]|].
  eapply rtc_l; [eapply clients_queue; [apply lookup_insert_eq|done|done]|].
  by rewrite !insert_insert_eq.
Qed.

Lemma add_handled : mb_step 2048 asked_add did_add.
Proof.
  exact (mb_turn 2048 asked_add (CliCommand (ReqAdd esp 1 2) 0) [] (ok_env 0) (mkState [here])
    [TaskEffect (Spawned 0 link); Responded 0 (AddOk (lit "/dev/pts/4"))] eq_refl eq_refl eq_refl eq_refl eq_refl).
Qed.

Lemma two_reachable : clients_reachable 2048 [] two_clients.
Proof.
  pose (hs := <[1%nat := new_handler []]> (<[0%nat := new_handler []]> ∅) : handlers).
  eapply rtc_l; [by apply (clients_accept _ _ mb_init ∅ 0)|].
  eapply rtc_l; [by apply (clients_accept _ _ mb_init _ 1)|]. fold hs.
  eapply rtc_trans; [apply (request_queued mb_init hs 0 (ReqAdd esp 1 2) add_bytes); [done|cbn; unfold EVENT_CAPACITY; lia|done..]|].
  eapply rtc_l; [apply (clients_daemon _ _ _ did_add); [exact add_handled|done]|].
  eapply rtc_trans; [eapply (request_queued did_add _ 1 ReqList ask_bytes); [done|cbn; unfold EVENT_CAPACITY; lia|done..]|].
  eapply rtc_l; [eapply (clients_answered _ _ asked_list _ 0 _ 0 _ (AddOk (lit "/dev/pts/4"))); [done|done|by left]|].
  eapply rtc_l; [eapply clients_handler; [apply lookup_insert_eq|by eapply handler_writes]|].
  match goal with |- rtc _ ?c two_clients => replace c with two_clients by by vm_compute end. apply rtc_refl.
Qed.

Lemma no_bytes : as_ref (B:=list u8) [] = [].
Proof. done. Qed.

Lemma every_client_answered_witness :
  hd_out first_client = response_wire (AddOk (lit "/dev/pts/4")) /\
  (exists cs, explained 2048 asked_list cs /\
     cs !! 0%nat = Some ((0%nat, ReqAdd esp 1 2), AddOk (lit "/dev/pts/4"))) /\
  0%nat ∉ numbers second_client.
Proof.
  destruct (every_client_answered 2048 (B:=list u8) [] two_clients 0 first_client no_bytes two_reachable eq_refl)
    as (_ & Ho & _ & _ & Ha & cs & Hex & _ & _ & Hcs).
  split_and!; [exact Ho| |].
  - exists cs. split; [exact Hex|].
    apply (Hcs 0%nat first_client (mkExchange 0 (ReqAdd esp 1 2) (AddOk (lit "/dev/pts/4"))) eq_refl). left.
  - apply (Ha 1%nat second_client); [done|done|by left].
Defined.

Lemma client_waits_its_turn_witness : CliCommand ReqList 1 ∈ mb_events asked_list /\ (1 <= 129)%nat.
Proof.
  destruct (client_waits_its_turn 2048 (B:=list u8) [] two_clients 1 second_client 1 ReqList no_bytes two_reachable eq_refl eq_refl)
    as [Hle [[resp H]|[H|H]]]; [discriminate H|discriminate H|by split].
Defined.
End ClientsWitness.
