(* ===== verification/Firmware.v ===== *)
(** * The device end of the protocol (server/main/tcp.c, server/main/uart.c,
    server/main/message.h)

    What the firmware does with the frames of the daemon: reading them off the
    TCP socket, applying them to the UART, and framing what the UART receives.
    FreeRTOS queues are lists; the socket is the bytes the daemon sends before it
    closes, given to [recv] in portions of any size; UART and GPIO calls are a
    list of actions.  The Kconfig options the code tests are arguments. *)
From S2P Require Import Prelude BytesApi Codec Framing DeviceMsg AsyncPty TcpBridge Connection.
From stdpp Require Import base numbers strings list.
#[local] Open Scope Z_scope.

(** ** message.h *)

Definition MAX_MESSAGE_BODY_SIZE : nat := 255.

Record Message := mkMessage { hdr_kind : u8; hdr_len : u8; msg_body : list u8 }.

Definition MESSAGE_KIND_DATA : Z := 1.
Definition MESSAGE_KIND_CONFIG : Z := 2.
Definition MESSAGE_KIND_CONTROL : Z := 3.
Definition MESSAGE_KIND_RESPONSE : Z := 4.
Definition SIZEOF_CONFIG : Z := 8.
Definition SIZEOF_CONTROL : Z := 1.

(** The part of the body that is sent and read. *)
Definition fw_payload (m : Message) : list u8 := take (u8_usize (hdr_len m)) (msg_body m).
Definition fw_wire (m : Message) : list u8 := hdr_kind m :: hdr_len m :: fw_payload m.

(** ** tcp.c *)

(** One [recv] of at most [want] bytes: what is there, up to the portion the
    network happens to deliver; nothing at the end of the stream. *)
Definition recv (want portion : nat) (stream : list u8) : list u8 * list u8 :=
  let n := Nat.min want (Nat.max 1 portion) in (take n stream, drop n stream).

(** [read_all]: the bytes read, the portions left and the rest of the stream, or
    nothing when it returns -1.  Every turn reads a byte, so [size] turns do. *)
Fixpoint read_all (fuel size : nat) (portions : list nat) (stream : list u8) :
    option (list u8 * list nat * list u8) :=
  match size with
  | O => Some ([], portions, stream)
  | _ =>
      match fuel with
      | O => None
      | S fuel =>
          let '(bytes, stream) := recv size (hd 1%nat portions) stream in
          match bytes with
          | [] => None
          | _ =>
              match read_all fuel (size - length bytes) (tl portions) stream with
              | Some (rest, portions, stream) => Some (bytes ++ rest, portions, stream)
              | None => None
              end
          end
      end
  end.

(** [read_msg] into a message whose body holds anything. *)
Definition read_msg (portions : list nat) (stream : list u8) (garbage : list u8) :
    option (Message * list nat * list u8) :=
  match read_all 2 2 portions stream with
  | Some ([kind; len], portions, stream) =>
      match read_all (u8_usize len) (u8_usize len) portions stream with
      | Some (bytes, portions, stream) =>
          Some (mkMessage kind len (copy_prefix bytes garbage), portions, stream)
      | None => None
      end
  | _ => None
  end.

(** The state [handle_client] shares with the UART tasks, and its socket. *)
Record client := mkClient {
  cl_unread : list u8;
  cl_portions : list nat;
  cl_sent : list u8;
  cl_to_uart : list Message;
  cl_to_tcp : list Message;
  cl_open : bool;
}.

(** One return of [select]: it failed, or the descriptors that are ready, with
    the garbage the message buffer holds and whether each [send] succeeds. *)
Inductive select_result :=
  | SelectFailed
  | SelectReady (client_ready uart_ready : bool) (garbage : list u8) (sends : list bool).

(** [while (xQueueReceive(...)) { send header; send body }]: the bytes sent, the
    messages left, and whether it went well. *)
Fixpoint drain_queue (queue : list Message) (sends : list bool) : list u8 * list Message * bool :=
  match queue with
  | [] => ([], [], true)
  | m :: queue =>
      match sends with
      | true :: true :: sends =>
          let '(bytes, queue, ok) := drain_queue queue sends in (fw_wire m ++ bytes, queue, ok)
      | true :: _ => ([hdr_kind m; hdr_len m], queue, false)
      | _ => ([], queue, false)
      end
  end.

(** The read half of a turn: nothing when the loop is left. *)
Definition client_turn_read (ready : bool) (garbage : list u8) (c : client) : option client :=
  if ready then
    match read_msg (cl_portions c) (cl_unread c) garbage with
    | None => None
    | Some (m, portions, unread) =>
        Some (mkClient unread portions (cl_sent c) (cl_to_uart c ++ [m]) (cl_to_tcp c) (cl_open c))
    end
  else Some c.

(** [handle_client] over what [select] returns; whether it returned. *)
Fixpoint handle_client (events : list select_result) (c : client) : client * bool :=
  match events with
  | [] => (c, false)
  | SelectFailed :: _ => (c, true)
  | SelectReady client_ready uart_ready garbage sends :: events =>
      match client_turn_read client_ready garbage c with
      | None => (c, true)
      | Some c =>
          if uart_ready then
            let '(bytes, queue, ok) := drain_queue (cl_to_tcp c) sends in
            let c' := mkClient (cl_unread c) (cl_portions c) (cl_sent c ++ bytes) (cl_to_uart c) queue in
            if ok : bool then handle_client events (c' (cl_open c)) else (c' false, true)
          else handle_client events c
      end
  end.

(** The accept loop of [tcp_task]: every client gets the queues as the one
    before left them; the sockets still open are counted. *)
Fixpoint tcp_task (clients : list (list u8 * list nat * list select_result))
    (to_uart to_tcp : list Message) (sockets : nat) : list Message * list Message * nat :=
  match clients with
  | [] => (to_uart, to_tcp, sockets)
  | (stream, portions, events) :: clients =>
      let '(c, returned) := handle_client events (mkClient stream portions [] to_uart to_tcp true) in
      let sockets := if cl_open c then S sockets else sockets in
      if returned : bool then tcp_task clients (cl_to_uart c) (cl_to_tcp c) sockets
      else (cl_to_uart c, cl_to_tcp c, sockets)
  end.

(** ** uart.c *)

Record fw_config := mkFwConfig { allow_hw_flow_ctrl : bool; reset_enabled : bool }.

Inductive uart_action :=
  | UartWrite (bytes : list u8)
  | SetBaudrate (baud : Z)
  | SetWordLength (bits : Z)
  | SetStopBits (bits : Z)
  | SetParityDisable
  | SetParityOdd
  | SetParityEven
  | SetFlowCtrl (on : bool)
  | ResetPulse
  | QueueToTcp (m : Message)
  | LogError.

Definition body_byte (i : nat) (m : Message) : u8 := nth i (msg_body m) x00.

(** [apply_config]: the fields of the packed [ConfigMessage], [ntohl] of the
    first. *)
Definition apply_config (cfg : fw_config) (m : Message) : list uart_action :=
  let data_bits := u8_val (body_byte 4 m) in
  let stop_bits := u8_val (body_byte 5 m) in
  let parity := u8_val (body_byte 6 m) in
  let hw_flow_ctl := u8_val (body_byte 7 m) in
  [SetBaudrate (of_be (take 4 (msg_body m)));
   if (5 <=? data_bits) && (data_bits <=? 8) then SetWordLength data_bits else LogError;
   if (1 <=? stop_bits) && (stop_bits <=? 2) then SetStopBits stop_bits else LogError;
   if parity =? 0 then SetParityDisable else if parity =? 1 then SetParityOdd
   else if parity =? 2 then SetParityEven else LogError] ++
  (if allow_hw_flow_ctrl cfg then [SetFlowCtrl (negb (hw_flow_ctl =? 0))] else []).

Definition response (status : u8) : Message :=
  mkMessage (u8_of MESSAGE_KIND_RESPONSE) x01 (copy_prefix [status] zero_array).

(** [handle_control]: command 1 resets, if that is configured. *)
Definition handle_control (cfg : fw_config) (m : Message) : list uart_action :=
  if (u8_val (body_byte 0 m) =? 1) && reset_enabled cfg
  then [ResetPulse; QueueToTcp (response x01)]
  else [LogError; QueueToTcp (response x02)].

(** One turn of [uart_tx_task]. *)
Definition uart_tx (cfg : fw_config) (m : Message) : list uart_action :=
  let kind := u8_val (hdr_kind m) in
  if kind =? MESSAGE_KIND_DATA then [UartWrite (fw_payload m)]
  else if kind =? MESSAGE_KIND_CONFIG then
    if u8_val (hdr_len m) =? SIZEOF_CONFIG then apply_config cfg m else [LogError]
  else if kind =? MESSAGE_KIND_CONTROL then
    if u8_val (hdr_len m) =? SIZEOF_CONTROL then handle_control cfg m else [LogError]
  else [].

(** The loop of [uart_rx_task] for one [UART_DATA] event: [buffered] bytes are
    read in messages of at most 255; [arrivals] come meanwhile, one batch a
    turn.  The messages queued, and what is left. *)
Fixpoint uart_rx (fuel : nat) (arrivals : list (list u8)) (buffered : list u8) :
    list Message * list u8 :=
  match buffered, fuel with
  | [], _ | _, O => ([], buffered)
  | _, S fuel =>
      let n := Nat.min (length buffered) MAX_MESSAGE_BODY_SIZE in
      let m := mkMessage (u8_of MESSAGE_KIND_DATA) (u8_of (Z.of_nat n))
                 (copy_prefix (take n buffered) zero_array) in
      let '(ms, rest) := uart_rx fuel (tl arrivals) (drop n buffered ++ hd [] arrivals) in
      (m :: ms, rest)
  end.

(** ** Reading frames *)

Lemma recv_some want portion stream :
  (0 < want)%nat -> stream <> [] -> exists n, (0 < n <= want)%nat /\ (n <= length stream)%nat /\
    recv want portion stream = (take n stream, drop n stream).
Proof.
  intros Hw Hs. unfold recv. set (n := Nat.min want (Nat.max 1 portion)).
  destruct stream as [|b stream]; [done|]. exists (Nat.min n (length (b :: stream))). cbn [length].
  split_and!; [lia..|]. f_equal.
  - by rewrite <-firstn_firstn, firstn_all2 with (n := length (b :: stream)) by (cbn; lia).
  - destruct (decide (n <= S (length stream))%nat); [by rewrite Nat.min_l|].
    rewrite Nat.min_r by lia. rewrite !skipn_all2 by (cbn; lia). done.
Qed.

(** [read_all] reads what it was asked for, whatever the portions; it fails
    exactly when the stream ends before. *)
Lemma read_all_spec fuel size portions stream :
  (size <= fuel)%nat ->
  exists portions', read_all fuel size portions stream =
    if decide (size <= length stream)%nat
    then Some (take size stream, portions', drop size stream) else None.
Proof.
  revert size portions stream. induction fuel as [|fuel IH]; intros size portions stream Hf.
  { assert (size = 0)%nat as -> by lia. by exists portions. }
  destruct size as [|size]; [by exists portions|]. cbn [read_all].
  destruct stream as [|b stream].
  { exists []. unfold recv. by rewrite take_nil, decide_False by (cbn; lia). }
  destruct (recv_some (S size) (hd 1%nat portions) (b :: stream)) as (n & Hn & Hl & ->); [lia|done|].
  destruct (take n (b :: stream)) as [|b' bytes] eqn:E; [by destruct n; [lia|]|]. rewrite <-E.
  assert (length (take n (b :: stream)) = n) as Ht by (rewrite length_take; lia). rewrite Ht.
  destruct (IH (S size - n)%nat (tl portions) (drop n (b :: stream)) ltac:(lia)) as (portions' & ->).
  exists portions'. rewrite length_drop. destruct (decide (S size <= length (b :: stream))%nat).
  - rewrite decide_True by lia. rewrite drop_drop. replace (n + (S size - n))%nat with (S size) by lia.
    by rewrite take_take_drop; replace (n + (S size - n))%nat with (S size) by lia.
  - by rewrite decide_False by lia.
Qed.

(** The firmware's view of a frame of the daemon. *)
Definition same_frame (m : Message) (f : DeviceMessage) : Prop :=
  hdr_kind m = device_kind f /\ hdr_len m = u8_of (Z.of_nat (data_size f)) /\ fw_payload m = payload f.

Lemma read_msg_wire portions f rest garbage :
  device_wf f ->
  exists m portions', read_msg portions (device_wire f ++ rest) garbage = Some (m, portions', rest) /\
    same_frame m f.
Proof.
  intros Hwf. pose proof (length_payload f Hwf) as Hlen. pose proof (data_size_le f) as Hle.
  unfold read_msg, device_wire.
  destruct (read_all_spec 2 2 portions (device_kind f :: u8_of (Z.of_nat (data_size f)) :: payload f ++ rest)
    ltac:(lia)) as (portions1 & E). rewrite decide_True in E by (cbn; lia). cbn [app]. rewrite E. cbn [take drop].
  rewrite take_0, drop_0. cbv beta iota. rewrite u8_usize_of by done.
  destruct (read_all_spec (data_size f) (data_size f) portions1 (payload f ++ rest) ltac:(lia)) as (portions2 & ->).
  rewrite decide_True by (rewrite length_app; lia). rewrite take_app_length', drop_app_length' by done.
  eexists _, _. split; [done|]. split_and!; [done|done|]. unfold fw_payload. cbn.
  rewrite u8_usize_of by done. unfold copy_prefix. by rewrite take_app_length'.
Qed.

(** ** What a frame of the daemon does *)

Definition parity_action (parity : Z) : uart_action :=
  if parity =? 0 then SetParityDisable else if parity =? 1 then SetParityOdd
  else if parity =? 2 then SetParityEven else LogError.

(** The actions a message of the daemon asks for. *)
Definition device_actions (cfg : fw_config) (f : DeviceMessage) : list uart_action :=
  match f with
  | Data _ _ => [UartWrite (payload f)]
  | Config baudrate data_bits stop_bits parity hw_flow_ctl =>
      [SetBaudrate baudrate;
       if (5 <=? u8_val data_bits) && (u8_val data_bits <=? 8) then SetWordLength (u8_val data_bits) else LogError;
       if (1 <=? u8_val stop_bits) && (u8_val stop_bits <=? 2) then SetStopBits (u8_val stop_bits) else LogError;
       parity_action (u8_val parity)] ++
      (if allow_hw_flow_ctrl cfg then [SetFlowCtrl hw_flow_ctl] else [])
  | ControlReq DevReset =>
      if reset_enabled cfg then [ResetPulse; QueueToTcp (response x01)]
      else [LogError; QueueToTcp (response x02)]
  | ControlRes _ => []
  end.

Lemma body_of_payload m : msg_body m = fw_payload m ++ drop (u8_usize (hdr_len m)) (msg_body m).
Proof. unfold fw_payload. by rewrite take_drop. Qed.

Lemma uart_tx_frame cfg m f : device_wf f -> same_frame m f -> uart_tx cfg m = device_actions cfg f.
Proof.
  intros Hwf (Hk & Hl & Hp). pose proof (body_of_payload m) as Hb. unfold uart_tx. rewrite Hk, Hp in *.
  destruct f as [len data|baud d s p hw|[]|res]; cbn [device_kind payload data_size] in *.
  - eval_u8. done.
  - eval_u8. rewrite Hl. cbn [u8_val]. change (u8_val (u8_of (Z.of_nat 8)) =? SIZEOF_CONFIG) with true. cbv iota.
    destruct (be_bytes 4 baud) as [|b0 [|b1 [|b2 [|b3 [|]]]]] eqn:E; try discriminate (f_equal length E).
    unfold apply_config, body_byte. rewrite Hb. cbn [app take nth]. rewrite <-E, of_be_bytes by exact Hwf.
    unfold device_actions, parity_action. by destruct hw.
  - eval_u8. rewrite Hl. change (u8_val (u8_of (Z.of_nat 1)) =? SIZEOF_CONTROL) with true. cbv iota.
    unfold handle_control, body_byte. rewrite Hb. cbn [app nth control_request_u8]. eval_u8. unfold device_actions. by destruct (reset_enabled cfg).
  - eval_u8. done.
Qed.

(** [select] says the client is readable, once per message. *)
Definition reading (garbage : list u8) : select_result := SelectReady true false garbage [].

Lemma handle_client_frames frames garbages c rest :
  Forall device_wf frames -> length garbages = length frames ->
  cl_unread c = concat (map device_wire frames) ++ rest ->
  exists ms c', handle_client (map reading garbages) c = (c', false) /\
    cl_to_uart c' = cl_to_uart c ++ ms /\ Forall2 same_frame ms frames /\
    cl_unread c' = rest /\ cl_to_tcp c' = cl_to_tcp c /\ cl_open c' = cl_open c /\ cl_sent c' = cl_sent c.
Proof.
  intros Hwf. revert garbages c. induction Hwf as [|f frames Hf _ IH]; intros garbages c Hg Hu.
  - destruct garbages; [|done]. exists [], c. by rewrite app_nil_r.
  - destruct garbages as [|g garbages]; [done|]. cbn [map handle_client reading client_turn_read].
    cbn [map concat] in Hu. rewrite <-app_assoc in Hu. rewrite Hu.
    destruct (read_msg_wire (cl_portions c) f (concat (map device_wire frames) ++ rest) g Hf)
      as (m & portions & -> & Hm).
    destruct (IH garbages (mkClient (concat (map device_wire frames) ++ rest) portions (cl_sent c)
      (cl_to_uart c ++ [m]) (cl_to_tcp c) (cl_open c)) ltac:(by injection Hg) eq_refl)
      as (ms & c' & E & Hms & Hall & Hrest). exists (m :: ms), c'. split_and!; try apply Hrest.
    + exact E.
    + rewrite Hms. cbn. by rewrite <-app_assoc.
    + by constructor.
Qed.

Lemma uart_tx_frames cfg ms frames :
  Forall device_wf frames -> Forall2 same_frame ms frames ->
  concat (map (uart_tx cfg) ms) = concat (map (device_actions cfg) frames).
Proof.
  intros Hwf Hm. induction Hm as [|m f ms frames Hm _ IH]; [done|]. apply Forall_cons in Hwf as [Hf Hwf].
  cbn [map concat]. by rewrite (uart_tx_frame cfg m f), IH.
Qed.

(** ** What the UART receives *)

(** The messages of a reading loop hold the bytes, in order, 1 to 255 each. *)
Lemma uart_rx_spec fuel arrivals buffered :
  (length buffered + length (concat arrivals) <= fuel)%nat ->
  exists ms k, uart_rx fuel arrivals buffered = (ms, []) /\
    concat (map fw_payload ms) = buffered ++ concat (take k arrivals) /\
    Forall (fun m => fw_wire m = device_wire (from_slice (fw_payload m)) /\ fw_payload m <> []) ms.
Proof.
  revert arrivals buffered. induction fuel as [|fuel IH]; intros arrivals buffered Hf.
  { assert (buffered = []) as -> by (apply length_zero_iff_nil; lia). by exists [], O. }
  destruct buffered as [|b buffered]; [by exists [], O|]. cbn [uart_rx].
  set (buf := b :: buffered) in *. set (n := Nat.min (length buf) MAX_MESSAGE_BODY_SIZE).
  assert (0 < n <= 255)%nat as Hn by (unfold n, buf, MAX_MESSAGE_BODY_SIZE; cbn; lia).
  assert (n <= length buf)%nat as Hnl by lia.
  destruct (IH (tl arrivals) (drop n buf ++ hd [] arrivals)) as (ms & k & -> & Hc & Hms).
  { rewrite length_app, length_drop. destruct arrivals as [|a arrivals]; cbn [hd tl concat length] in *;
      rewrite ?length_app in Hf; cbn in *; lia. }
  assert (length (take n buf) = n) as Hlt by (rewrite length_take; lia).
  set (m := mkMessage _ _ _).
  assert (fw_payload m = take n buf) as Hp.
  { unfold fw_payload, m. cbn [hdr_len msg_body]. rewrite u8_usize_of by lia. by apply take_copy_prefix. }
  exists (m :: ms), (match arrivals with [] => O | _ => S k end). split_and!; [done| |].
  - cbn [map concat]. rewrite Hp, Hc. destruct arrivals; cbn [hd tl take concat];
      rewrite ?take_nil, ?app_nil_r; cbn [concat]; rewrite ?app_nil_r, ?app_assoc, take_drop; done.
  - constructor; [|done]. rewrite Hp. split; [|by intros E; rewrite E in Hlt; cbn in Hlt; lia].
    unfold fw_wire. rewrite Hp. unfold device_wire. rewrite payload_from_slice.
    rewrite (take_ge (take n buf) MAX_MESSAGE_LEN) by (rewrite Hlt; unfold MAX_MESSAGE_LEN; lia).
    unfold from_slice, MAX_MESSAGE_LEN. cbn [device_kind data_size]. rewrite Hlt, u8_usize_of by lia.
    by rewrite Nat.min_l by lia.
Qed.

(** ** Properties *)

Lemma handle_client_app events1 events2 c c' :
  handle_client events1 c = (c', false) -> handle_client (events1 ++ events2) c = handle_client events2 c'.
Proof.
  revert c. induction events1 as [|e events1 IH]; intros c; cbn [handle_client app]; [by intros [= ->]|].
  destruct e as [|r u g sends]; [done|]. destruct (client_turn_read r g c) as [c1|]; [|done].
  destruct u; [|apply IH]. destruct (drain_queue (cl_to_tcp c1) sends) as [[bytes queue] []]; [apply IH|done].
Qed.

(** A client that sent some frames and went away. *)
Definition gone_client (v : list DeviceMessage * list nat * list u8) :
    list u8 * list nat * list select_result :=
  let '(frames, portions, garbage) := v in
  (concat (map device_wire frames), portions, replicate (S (length frames)) (reading garbage)).

Lemma gone_client_returns frames portions garbage to_uart to_tcp :
  Forall device_wf frames ->
  exists c, handle_client (replicate (S (length frames)) (reading garbage))
      (mkClient (concat (map device_wire frames)) portions [] to_uart to_tcp true) = (c, true) /\
    cl_open c = true /\ cl_to_tcp c = to_tcp.
Proof.
  intros Hwf. rewrite replicate_S_end.
  destruct (handle_client_frames frames (replicate (length frames) garbage)
    (mkClient (concat (map device_wire frames)) portions [] to_uart to_tcp true) [])
    as (ms & c & E & _ & _ & Hu & Ht & Ho & _); [done|apply length_replicate|cbn; by rewrite app_nil_r|].
  rewrite fmap_replicate in E. rewrite (handle_client_app _ _ _ c E). exists c. cbn. rewrite Hu.
  unfold read_msg. destruct (read_all_spec 2 2 (cl_portions c) [] ltac:(lia)) as (? & ->). done.
Qed.

Lemma tcp_task_leaks visits to_uart to_tcp sockets :
  Forall (fun v => Forall device_wf v.1.1) visits ->
  (tcp_task (map gone_client visits) to_uart to_tcp sockets).2 = (length visits + sockets)%nat.
Proof.
  intros Hwf. revert to_uart sockets. induction Hwf as [|[[frames portions] garbage] visits Hf _ IH];
    intros to_uart sockets; [done|]. cbn [map tcp_task gone_client].
  destruct (gone_client_returns frames portions garbage to_uart to_tcp Hf) as (c & -> & Ho & Ht).
  rewrite Ho, Ht, IH. cbn. lia.
Qed.

(** The daemon and the firmware speak the same protocol.  Whatever frames the
    daemon writes, and however the network cuts them, the firmware does for
    each, in order, exactly what it asks for: the bytes of a data frame are
    written to the UART, a configuration sets its fields, a reset request
    pulses the pin; what is left unread is what follows the frames. *)
Theorem firmware_follows_daemon cfg frames garbages c rest :
  Forall device_wf frames -> length garbages = length frames -> cl_to_uart c = [] ->
  cl_unread c = concat (map device_wire frames) ++ rest ->
  exists c', handle_client (map reading garbages) c = (c', false) /\ cl_unread c' = rest /\
    concat (map (uart_tx cfg) (cl_to_uart c')) = concat (map (device_actions cfg) frames).
Proof.
  intros Hwf Hg Hc Hu.
  destruct (handle_client_frames frames garbages c rest Hwf Hg Hu) as (ms & c' & E & Hms & Hm & Hr & _).
  exists c'. split_and!; [done..|]. rewrite Hms, Hc. by apply uart_tx_frames.
Qed.

(** The calls for a configuration built from a terminal; its word length is
    always accepted. *)
Lemma termios_actions {T} `{!NixTermios T, !TermiosMasks T} cfg (tio : T) :
  let c := get_termios_change tio in
  device_actions cfg (Config (tc_baudrate c) (tc_data_bits c) (tc_stop_bits c) (tc_parity c) (tc_hw_flow_ctl c)) =
    [SetBaudrate (speed_to_u32 (cfgetispeed tio)); SetWordLength (u8_val (tc_data_bits c));
     SetStopBits (if contains (control_flags tio) CSTOPB then 2 else 1);
     if contains (control_flags tio) PARENB
     then (if contains (control_flags tio) PARODD then SetParityOdd else SetParityEven)
     else SetParityDisable] ++
    (if allow_hw_flow_ctrl cfg then [SetFlowCtrl (contains (control_flags tio) CRTSCTS)] else []).
Proof.
  intros c. destruct (termios_change_range tio) as (Hd & _). unfold device_actions.
  assert ((5 <=? u8_val (tc_data_bits c)) && (u8_val (tc_data_bits c) <=? 8) = true) as ->.
  { unfold c. rewrite !elem_of_cons in Hd. by destruct Hd as [->|[->|[->|[->|[]%not_elem_of_nil]]]]. }
  unfold c. cbn. by destruct (contains _ CSTOPB), (contains _ PARENB), (contains _ PARODD), (allow_hw_flow_ctrl cfg).
Qed.

(** The UART gets the line settings of the terminal: the configuration the
    daemon builds from any [termios] is applied in full, with the terminal's
    speed, character size and stop bits, its parity (none without [PARENB],
    odd with [PARODD], even otherwise), and its flow control where the
    firmware has it; the firmware rejects none of them. *)
Theorem terminal_settings_applied {T} `{!NixTermios T, !TermiosMasks T} cfg (tio : T) m :
  let c := get_termios_change tio in
  same_frame m (Config (tc_baudrate c) (tc_data_bits c) (tc_stop_bits c) (tc_parity c) (tc_hw_flow_ctl c)) ->
  uart_tx cfg m =
    [SetBaudrate (speed_to_u32 (cfgetispeed tio)); SetWordLength (u8_val (tc_data_bits c));
     SetStopBits (if contains (control_flags tio) CSTOPB then 2 else 1);
     if contains (control_flags tio) PARENB
     then (if contains (control_flags tio) PARODD then SetParityOdd else SetParityEven)
     else SetParityDisable] ++
    (if allow_hw_flow_ctrl cfg then [SetFlowCtrl (contains (control_flags tio) CRTSCTS)] else []) /\
  LogError ∉ uart_tx cfg m.
Proof.
  intros c Hm. destruct (termios_change_range tio) as (_ & _ & _ & _ & Hb).
  match type of Hm with same_frame _ ?f => rewrite (uart_tx_frame cfg m f Hb Hm) end.
  unfold c. rewrite termios_actions. split; [done|].
  destruct (contains _ PARENB), (contains (control_flags tio) PARODD), (allow_hw_flow_ctrl cfg);
    cbn; rewrite !not_elem_of_cons; split_and!; try done; apply not_elem_of_nil.
Qed.

(** The frames of a reading loop, as the daemon's decoder reads them. *)
Lemma uart_frames_decoded {B} `{!BytesCrate B, !BytesLaws B} ms (buf : B) chunks :
  Forall (fun m => fw_wire m = device_wire (from_slice (fw_payload m)) /\ fw_payload m <> []) ms ->
  as_ref buf = [] -> chunks <> [] -> concat chunks = concat (map fw_wire ms) ->
  let rx := feed_all device_decode buf chunks in
  rx_items rx = map (fun m => zero_padded (from_slice (fw_payload m))) ms /\
  rx_error rx = None /\ as_ref (rx_buffer rx) = [].
Proof.
  intros Hms Hb Hne Hch rx. set (frames := map (fun m => from_slice (fw_payload m)) ms).
  assert (Forall device_wf frames) as Hwf.
  { apply Forall_fmap, Forall_true. intros m. apply from_slice_wf. }
  assert (concat (map fw_wire ms) = concat (map device_wire frames)) as Hw.
  { unfold frames. rewrite map_map. f_equal. apply map_ext_in. intros m Hm%list_elem_of_In.
    rewrite Forall_forall in Hms. by apply Hms. }
  destruct (device_feed (B:=B) frames [] buf chunks Hwf eq_refl Hb Hne) as (Hi & He & Hr).
  { by rewrite app_nil_r, <-Hw. }
  fold rx in Hi, He, Hr. split_and!; [|done..]. rewrite Hi. unfold frames. by rewrite map_map.
Qed.

Lemma payload_decoded m : payload (zero_padded (from_slice (fw_payload m))) = fw_payload m.
Proof.
  rewrite (zero_padded_equiv _ (from_slice_wf _)), payload_from_slice.
  apply take_ge. unfold fw_payload. rewrite length_take. pose proof (u8_usize_le (hdr_len m)).
  unfold MAX_MESSAGE_LEN. lia.
Qed.

(** What the UART receives reaches the terminal.  The firmware's reading
    loop always ends, and the data frames it queues, read by the daemon in
    chunks of any size, carry exactly the bytes received, those that arrived
    while it was reading included, in order. *)
Theorem uart_reaches_terminal {B} `{!BytesCrate B, !BytesLaws B} fuel arrivals buffered (buf : B) :
  (length buffered + length (concat arrivals) <= fuel)%nat -> as_ref buf = [] ->
  exists ms k, uart_rx fuel arrivals buffered = (ms, []) /\
    forall chunks, chunks <> [] -> concat chunks = concat (map fw_wire ms) ->
      let rx := feed_all device_decode buf chunks in
      concat (map payload (rx_items rx)) = buffered ++ concat (take k arrivals) /\
      rx_error rx = None /\ as_ref (rx_buffer rx) = [].
Proof.
  intros Hf Hb. destruct (uart_rx_spec fuel arrivals buffered Hf) as (ms & k & E & Hc & Hms).
  exists ms, k. split; [done|]. intros chunks Hne Hch rx.
  destruct (uart_frames_decoded ms buf chunks Hms Hb Hne Hch) as (Hi & He & Hr).
  split_and!; [|done..]. unfold rx. rewrite Hi, <-Hc, map_map. f_equal. apply map_ext, payload_decoded.
Qed.

(** The firmware never closes the socket of a client that went away: when a
    read fails, [handle_client] leaves its loop without [close], so every
    client that disconnects leaves one more socket open. *)
Theorem firmware_leaks_sockets visits to_uart to_tcp :
  Forall (fun v => Forall device_wf v.1.1) visits ->
  (tcp_task (map gone_client visits) to_uart to_tcp 0).2 = length visits.
Proof. intros H. rewrite tcp_task_leaks by done. lia. Qed.

(** A reset can be answered by the answer to another.  When the connection is
    lost while the firmware performs a reset, its answer stays in the queue and
    is the first thing the next connection gets; a daemon that has sent another
    reset on that connection takes it for the answer, whatever becomes of the
    second reset. *)
Theorem stale_reset_answer {T Sock} `{!NixTermios T} cfg portions garbage
    (t : ConnectionTask T Sock) tx written :
  reset_enabled cfg = true -> conn_state t = Connected -> is_Some (tb_framed (tcp t)) ->
  pending_hw_ctl t = Some tx ->
  (exists c1 m, handle_client [reading garbage; reading garbage]
      (mkClient (device_wire (ControlReq DevReset)) portions [] [] [] true) = (c1, true) /\
    cl_to_uart c1 = [m] /\ uart_tx cfg m = [ResetPulse; QueueToTcp (response x01)]) /\
  (exists c2, handle_client [SelectReady false true garbage [true; true]]
      (mkClient [] portions [] [] [response x01] true) = (c2, false) /\
    cl_sent c2 = device_wire (ControlRes DevOk)) /\
  (exists t' l, step (InConnected (TcpReady (Some (Ok (ControlRes DevOk))) written)) t = Finished tt t' l /\
    omap ctl_replied l = [tx] /\ omap ctl_answer l = [DevOk]).
Proof.
  intros Hr Hs [sock Hf] Hp. split_and!.
  - destruct (handle_client_frames [ControlReq DevReset] [garbage]
      (mkClient (device_wire (ControlReq DevReset)) portions [] [] [] true) [])
      as (ms & c & E & Hms & Hm & Hu & _); [by repeat constructor|done|done|].
    destruct ms as [|m [|? ms]]; [by inversion Hm| |by inversion Hm as [|???? _ Hm']; inversion Hm'].
    inversion Hm as [|? ? ? ? Hf1 _]; subst. exists c, m.
    split_and!; [|done|].
    + change [reading garbage; reading garbage] with ([reading garbage] ++ [reading garbage]).
      rewrite (handle_client_app [reading garbage] [reading garbage] _ c E). cbn. rewrite Hu. unfold read_msg. by destruct (read_all_spec 2 2 (cl_portions c) [] ltac:(lia)) as (? & ->).
    + rewrite (uart_tx_frame cfg m (ControlReq DevReset)) by done. cbn. by rewrite Hr.
  - eexists. split; [reflexivity|]. by vm_compute.
  - destruct t as [name pty [addr port fr] s b p]. cbn in *. subst. eexists _, _. split_and!; [reflexivity|done..].
Qed.

(** ** Witnesses *)

Module FirmwareWitness.
Import ListBytes LinuxTermios.

Definition full_config : fw_config := mkFwConfig true true.
Definition typed_frames : list DeviceMessage :=
  [from_slice [x68; x69]; Config 115200 x08 x01 x02 true; ControlReq DevReset].

(** The frames of a session, received a byte or two at a time. *)
Definition listening : client :=
  mkClient (concat (map device_wire typed_frames) ++ [x01]) [1; 2; 1; 1]%nat [] [] [] true.

Lemma typed_frames_wf : Forall device_wf typed_frames.
Proof. unfold typed_frames. repeat (apply Forall_cons; split); done. Qed.

Lemma firmware_follows_daemon_witness : exists c',
  handle_client (map reading [[]; []; []]) listening = (c', false) /\ cl_unread c' = [x01] /\
  concat (map (uart_tx full_config) (cl_to_uart c')) =
    [UartWrite [x68; x69]; SetBaudrate 115200; SetWordLength 8; SetStopBits 1; SetParityEven;
     SetFlowCtrl true; ResetPulse; QueueToTcp (response x01)].
Proof.
  exact (firmware_follows_daemon full_config typed_frames [[]; []; []] listening [x01]
    typed_frames_wf eq_refl eq_refl eq_refl).
Defined.

Lemma terminal_settings_applied_witness :
  uart_tx full_config (mkMessage x02 x08 [x00; x01; xc2; x00; x07; x01; x01; x00]) =
    [SetBaudrate 115200; SetWordLength 7; SetStopBits 1; SetParityOdd; SetFlowCtrl false].
Proof.
  refine (proj1 (terminal_settings_applied full_config fast
    (mkMessage x02 x08 [x00; x01; xc2; x00; x07; x01; x01; x00]) _)).
  by vm_compute.
Defined.

Lemma uart_reaches_terminal_witness : exists ms k,
  uart_rx 300 [[x0a]] (replicate 256 x41) = (ms, []) /\
  concat (map payload (rx_items (feed_all (B:=list u8) device_decode [] [concat (map fw_wire ms)]))) =
    replicate 256 x41 ++ concat (take k [[x0a]]).
Proof.
  destruct (uart_reaches_terminal (B:=list u8) 300 [[x0a]] (replicate 256 x41) []) as (ms & k & E & H);
    [by apply Nat.leb_le|done|].
  exists ms, k. split; [done|]. apply (H [concat (map fw_wire ms)]); [done|]. apply app_nil_r.
Defined.

Lemma firmware_leaks_sockets_witness :
  (tcp_task (map gone_client [(typed_frames, [], []); ([], [], [])]) [] [] 0).2 = 2%nat.
Proof.
  apply (firmware_leaks_sockets [(typed_frames, [], []); ([], [], [])]).
  constructor; [apply typed_frames_wf|repeat constructor].
Defined.
End FirmwareWitness.
