(* ===== verification/FirmwareTasks.v ===== *)
(** * The tasks of the firmware and their queues (server/main/main.c, tcp.c,
    uart.c)

    Three FreeRTOS tasks share two bounded queues and an [eventfd].  [Firmware]
    says what each does with its messages; here they run side by side: where
    each task is, and which of its calls may have to wait.  What is proved is
    that nothing is lost or reordered inside, when the tasks wait for each
    other for ever, and when a message is left behind. *)
From S2P Require Import Prelude BytesApi Codec DeviceMsg AsyncPty TcpBridge Connection Firmware.
From stdpp Require Import base numbers strings relations list.
#[local] Open Scope Z_scope.

(** ** State *)

(** [state_init] of main.c. *)
Definition TCP_TO_UART_DEPTH : nat := 16.
Definition UART_TO_TCP_DEPTH : nat := 128.
#[global] Arguments TCP_TO_UART_DEPTH : simpl never.
#[global] Arguments UART_TO_TCP_DEPTH : simpl never.

(** [tcp_task]: in [accept], in [select], in [read_msg] and then in [xQueueSend]
    with what [select] said of the [eventfd], or in the loop that empties the
    queue. *)
Inductive tcp_pc :=
  | TcpAccepting
  | TcpSelecting
  | TcpReading (uart_ready : bool)
  | TcpQueueing (m : Message) (uart_ready : bool)
  | TcpDraining.

(** [uart_tx_task] and [uart_rx_task]: waiting for work, in [xQueueSend], or
    about to write to the [eventfd]. *)
Inductive uart_pc :=
  | UartIdle
  | UartQueueing (m : Message)
  | UartSignalling.

(** [fw_read], [fw_taken], [fw_queued] and [fw_out] record the messages read from
    clients, taken by [uart_tx_task], queued for the client, and taken off that
    queue, with whether they were sent; [fw_done] what the UART was told. *)
Record firmware := mkFirmware {
  fw_tcp : tcp_pc;
  fw_tx : uart_pc;
  fw_rx : uart_pc;
  fw_to_uart : list Message;
  fw_to_tcp : list Message;
  fw_efd : bool;
  fw_read : list Message;
  fw_taken : list Message;
  fw_queued : list Message;
  fw_out : list (Message * bool);
  fw_done : list uart_action;
}.

Definition fw_init : firmware :=
  mkFirmware TcpAccepting UartIdle UartIdle [] [] false [] [] [] [] [].

Definition queued_message (a : uart_action) : option Message :=
  match a with QueueToTcp m => Some m | _ => None end.

(** Where [uart_tx_task] is after a message: [handle_control] queues an answer. *)
Definition after_tx (acts : list uart_action) : uart_pc :=
  match omap queued_message acts with m :: _ => UartQueueing m | [] => UartIdle end.

Definition set_tcp_pc (pc : tcp_pc) (efd : bool) (s : firmware) : firmware :=
  mkFirmware pc (fw_tx s) (fw_rx s) (fw_to_uart s) (fw_to_tcp s) efd
    (fw_read s) (fw_taken s) (fw_queued s) (fw_out s) (fw_done s).

(** [read_msg] has read [m]. *)
Definition tcp_reads (m : Message) (uart_ready : bool) (s : firmware) : firmware :=
  mkFirmware (TcpQueueing m uart_ready) (fw_tx s) (fw_rx s) (fw_to_uart s) (fw_to_tcp s) (fw_efd s)
    (fw_read s ++ [m]) (fw_taken s) (fw_queued s) (fw_out s) (fw_done s).

(** [xQueueSend] to the UART; then the queue to the client, if [select] said so. *)
Definition tcp_queues (m : Message) (uart_ready : bool) (s : firmware) : firmware :=
  mkFirmware (if uart_ready then TcpDraining else TcpSelecting) (fw_tx s) (fw_rx s) (fw_to_uart s ++ [m])
    (fw_to_tcp s) (if uart_ready then false else fw_efd s)
    (fw_read s) (fw_taken s) (fw_queued s) (fw_out s) (fw_done s).

(** [xQueueReceive] and the two [send]s. *)
Definition tcp_sends (m : Message) (queue : list Message) (sent : bool) (s : firmware) : firmware :=
  mkFirmware (if sent then TcpDraining else TcpAccepting) (fw_tx s) (fw_rx s) (fw_to_uart s) queue (fw_efd s)
    (fw_read s) (fw_taken s) (fw_queued s) (fw_out s ++ [(m, sent)]) (fw_done s).

Definition tx_takes (cfg : fw_config) (m : Message) (queue : list Message) (s : firmware) : firmware :=
  mkFirmware (fw_tcp s) (after_tx (uart_tx cfg m)) (fw_rx s) queue (fw_to_tcp s) (fw_efd s)
    (fw_read s) (fw_taken s ++ [m]) (fw_queued s) (fw_out s) (fw_done s ++ uart_tx cfg m).

(** [xQueueSend] to the client, then the [eventfd], by either UART task. *)
Definition uart_queues (m : Message) (tx rx : uart_pc) (s : firmware) : firmware :=
  mkFirmware (fw_tcp s) tx rx (fw_to_uart s) (fw_to_tcp s ++ [m]) (fw_efd s)
    (fw_read s) (fw_taken s) (fw_queued s ++ [m]) (fw_out s) (fw_done s).
Definition uart_moves (tx rx : uart_pc) (efd : bool) (s : firmware) : firmware :=
  mkFirmware (fw_tcp s) tx rx (fw_to_uart s) (fw_to_tcp s) efd
    (fw_read s) (fw_taken s) (fw_queued s) (fw_out s) (fw_done s).

(** ** Steps *)

(** The call that returns: of [tcp_task], of [uart_tx_task], of [uart_rx_task]. *)
Inductive fw_action :=
  | Accept
  | SelectClient
  | SelectUart
  | SelectFails
  | ReadMsg (m : option Message)
  | TcpQueueSend
  | Send (sent : bool)
  | Drained
  | TxReceive
  | TxQueueSend
  | TxSignal
  | RxReceive (m : Message)
  | RxQueueSend
  | RxSignal.

Section tasks.
Context (cfg : fw_config).

(** The state after an action, if the task is at that call and it need not
    wait. *)
Definition fw_exec (a : fw_action) (s : firmware) : option firmware :=
  match a with
  | Accept =>
      match fw_tcp s with TcpAccepting => Some (set_tcp_pc TcpSelecting (fw_efd s) s) | _ => None end
  | SelectClient =>
      match fw_tcp s with TcpSelecting => Some (set_tcp_pc (TcpReading (fw_efd s)) (fw_efd s) s) | _ => None end
  | SelectUart =>
      match fw_tcp s, fw_efd s with TcpSelecting, true => Some (set_tcp_pc TcpDraining false s) | _, _ => None end
  | SelectFails =>
      match fw_tcp s with TcpSelecting => Some (set_tcp_pc TcpAccepting (fw_efd s) s) | _ => None end
  | ReadMsg r =>
      match fw_tcp s, r with
      | TcpReading uart_ready, Some m => Some (tcp_reads m uart_ready s)
      | TcpReading _, None => Some (set_tcp_pc TcpAccepting (fw_efd s) s)
      | _, _ => None
      end
  | TcpQueueSend =>
      match fw_tcp s with
      | TcpQueueing m uart_ready =>
          if decide (length (fw_to_uart s) < TCP_TO_UART_DEPTH)%nat then Some (tcp_queues m uart_ready s) else None
      | _ => None
      end
  | Send sent =>
      match fw_tcp s, fw_to_tcp s with TcpDraining, m :: queue => Some (tcp_sends m queue sent s) | _, _ => None end
  | Drained =>
      match fw_tcp s, fw_to_tcp s with
      | TcpDraining, [] => Some (set_tcp_pc TcpSelecting (fw_efd s) s)
      | _, _ => None
      end
  | TxReceive =>
      match fw_tx s, fw_to_uart s with UartIdle, m :: queue => Some (tx_takes cfg m queue s) | _, _ => None end
  | TxQueueSend =>
      match fw_tx s with
      | UartQueueing m =>
          if decide (length (fw_to_tcp s) < UART_TO_TCP_DEPTH)%nat
          then Some (uart_queues m UartSignalling (fw_rx s) s) else None
      | _ => None
      end
  | TxSignal =>
      match fw_tx s with UartSignalling => Some (uart_moves UartIdle (fw_rx s) true s) | _ => None end
  | RxReceive m =>
      match fw_rx s with UartIdle => Some (uart_moves (fw_tx s) (UartQueueing m) (fw_efd s) s) | _ => None end
  | RxQueueSend =>
      match fw_rx s with
      | UartQueueing m =>
          if decide (length (fw_to_tcp s) < UART_TO_TCP_DEPTH)%nat
          then Some (uart_queues m (fw_tx s) UartSignalling s) else None
      | _ => None
      end
  | RxSignal =>
      match fw_rx s with UartSignalling => Some (uart_moves (fw_tx s) UartIdle true s) | _ => None end
  end.

Definition fw_step (s s' : firmware) : Prop := exists a, fw_exec a s = Some s'.

Fixpoint fw_run (acts : list fw_action) (s : firmware) : option firmware :=
  match acts with
  | [] => Some s
  | a :: acts => s ← fw_exec a s; fw_run acts s
  end.

Definition fw_reachable : firmware -> Prop := rtc fw_step fw_init.

Lemma fw_run_steps acts s s' : fw_run acts s = Some s' -> rtc fw_step s s'.
Proof.
  revert s. induction acts as [|a acts IH]; intros s; cbn; [by intros [= ->]|].
  destruct (fw_exec a s) as [s1|] eqn:E; cbn; [|done]. intros H%IH. eapply rtc_l; [by exists a|done].
Qed.

(** ** The invariant *)

Definition in_hand (pc : tcp_pc) : list Message :=
  match pc with TcpQueueing m _ => [m] | _ => [] end.

Definition signalling (pc : uart_pc) : bool :=
  match pc with UartSignalling => true | _ => false end.

(** Somebody is going to look at the queue to the client. *)
Definition awake (s : firmware) : bool :=
  fw_efd s || signalling (fw_tx s) || signalling (fw_rx s) ||
  match fw_tcp s with TcpDraining => true | _ => false end.

Record fw_inv (s : firmware) : Prop := {
  fi_to_uart : (length (fw_to_uart s) <= TCP_TO_UART_DEPTH)%nat;
  fi_to_tcp : (length (fw_to_tcp s) <= UART_TO_TCP_DEPTH)%nat;
  fi_read : fw_read s = fw_taken s ++ fw_to_uart s ++ in_hand (fw_tcp s);
  fi_queued : fw_queued s = map fst (fw_out s) ++ fw_to_tcp s;
  fi_done : fw_done s = concat (map (uart_tx cfg) (fw_taken s));
  fi_ready : match fw_tcp s with TcpReading u | TcpQueueing _ u => u = true -> fw_efd s = true | _ => True end;
  fi_awake : forallb snd (fw_out s) = true -> fw_to_tcp s <> [] -> awake s = true;
}.

(** One case per action that is possible, with what the task was at. *)
Ltac action_cases H :=
  let a := fresh "a" in destruct H as [a H]; destruct a; cbn in H; repeat (case_match; simplify_eq).
Ltac rewrite_state s :=
  repeat match goal with
  | H : fw_tcp s = _ |- _ => rewrite H in *; clear H
  | H : fw_tx s = _ |- _ => rewrite H in *; clear H
  | H : fw_rx s = _ |- _ => rewrite H in *; clear H
  | H : fw_to_uart s = _ |- _ => rewrite H in *; clear H
  | H : fw_to_tcp s = _ |- _ => rewrite H in *; clear H
  end.

Lemma fw_step_inv s s' : fw_inv s -> fw_step s s' -> fw_inv s'.
Proof.
  intros [H1 H2 H3 H4 H5 H6 H7] H. unfold awake in H7. action_cases H; split; unfold awake; cbn in *;
    rewrite_state s; cbn in *; rewrite ?length_app, ?map_app, ?concat_app, ?app_nil_r, ?orb_true_r in *; cbn in *;
    try done; try lia; auto;
    try (by rewrite ?H3, ?H4, ?H5, ?app_nil_r, <-?(assoc_L (++)));
    try (by destruct uart_ready; cbn; rewrite ?orb_true_r, ?app_nil_r);
    try (by destruct sent; cbn; rewrite ?app_nil_r);
    try (intros Ho Hne; specialize (H7 Ho Hne); rewrite !orb_true_iff in *; destruct_or!; by auto).
  rewrite forallb_app. cbn. intros [_ Hs]%andb_prop. rewrite andb_true_r in Hs. subst sent.
  by rewrite orb_true_r.
Qed.

Lemma fw_reachable_inv s : fw_reachable s -> fw_inv s.
Proof.
  unfold fw_reachable. intros H. assert (fw_inv fw_init) as Hi by (split; cbn; try done; unfold TCP_TO_UART_DEPTH, UART_TO_TCP_DEPTH; lia).
  revert Hi. induction H as [|s1 s2 s3 Hs _ IH]; [done|]. intros Hi. by eapply IH, fw_step_inv.
Qed.

(** ** Waiting for each other *)

(** [tcp_task] waits for room in the queue to the UART, [uart_tx_task] for room
    in the queue to the client, which [tcp_task] alone empties. *)
Definition jammed (s : firmware) : Prop :=
  (exists m uart_ready, fw_tcp s = TcpQueueing m uart_ready) /\ (TCP_TO_UART_DEPTH <= length (fw_to_uart s))%nat /\
  (exists m, fw_tx s = UartQueueing m) /\ (UART_TO_TCP_DEPTH <= length (fw_to_tcp s))%nat.

(** What the outside sees of the firmware, and of its queues. *)
Definition visible (s : firmware) : list uart_action * list (Message * bool) * list Message * list Message :=
  (fw_done s, fw_out s, fw_to_uart s, fw_to_tcp s).

Lemma jammed_step s s' : jammed s -> fw_step s s' -> jammed s' /\ visible s' = visible s.
Proof.
  intros ((m & u & Ht) & Hu & (r & Hx) & Hc) H. unfold jammed, visible.
  action_cases H; cbn; try lia; (split; [|done]); split_and!; eauto.
Qed.

Lemma jammed_for_ever s s' : jammed s -> rtc fw_step s s' -> jammed s' /\ visible s' = visible s.
Proof.
  intros Hj H. induction H as [s|s s1 s' Hs H IH]; [done|].
  destruct (jammed_step _ _ Hj Hs) as [Hj1 <-]. by apply IH.
Qed.

(** A message in the hand of [tcp_task] gets into the queue, unless they are
    jammed: at most three calls of [uart_tx_task] make room for it. *)
Lemma queueing_goes_on s m uart_ready :
  fw_inv s -> fw_tcp s = TcpQueueing m uart_ready -> ~ jammed s ->
  exists acts s1, fw_run acts s = Some s1 /\ (length acts <= 3)%nat /\
    fw_exec TcpQueueSend s1 = Some (tcp_queues m uart_ready s1).
Proof.
  intros Hi Ht Hj. pose proof (fi_to_uart _ Hi) as Hle.
  destruct (decide (length (fw_to_uart s) < TCP_TO_UART_DEPTH)%nat) as [Hl|Hl].
  { exists [], s. cbn. rewrite Ht, decide_True by done. split_and!; [done|lia|done]. }
  destruct (fw_to_uart s) as [|m' queue] eqn:Hq; [cbn in Hl; unfold TCP_TO_UART_DEPTH in Hl; lia|]. cbn in Hle.
  destruct (fw_tx s) as [|r|] eqn:Hx.
  - exists [TxReceive]. eexists. cbn. rewrite Hx, Hq. cbn. split_and!; [done|lia|].
    cbn. by rewrite Ht, decide_True by lia.
  - destruct (decide (length (fw_to_tcp s) < UART_TO_TCP_DEPTH)%nat) as [Hc|Hc].
    + exists [TxQueueSend; TxSignal; TxReceive]. eexists. cbn. rewrite Hx, decide_True by done. cbn.
      rewrite Hq. cbn. split_and!; [done|lia|]. cbn. by rewrite Ht, decide_True by lia.
    + destruct Hj. split_and!; [by eauto|rewrite Hq; cbn in *; lia|by eauto|lia].
  - exists [TxSignal; TxReceive]. eexists. cbn. rewrite Hx. cbn. rewrite Hq. cbn. split_and!; [done|lia|].
    cbn. by rewrite Ht, decide_True by lia.
Qed.

(** ** A message left behind *)

(** Messages for the client and everybody at rest, with nothing in the
    [eventfd]. *)
Definition stranded (s : firmware) : Prop :=
  (fw_tcp s = TcpAccepting \/ fw_tcp s = TcpSelecting \/ fw_tcp s = TcpReading false) /\ fw_tx s = UartIdle /\
  fw_rx s = UartIdle /\ fw_efd s = false /\ fw_to_uart s = [] /\ fw_to_tcp s <> [].

(** Something new: a message of the client, or data of the UART. *)
Definition new_message (a : fw_action) : bool :=
  match a with ReadMsg (Some _) | RxReceive _ => true | _ => false end.

Lemma stranded_run acts s s' :
  stranded s -> existsb new_message acts = false -> fw_run acts s = Some s' ->
  stranded s' /\ fw_out s' = fw_out s /\ fw_to_tcp s' = fw_to_tcp s.
Proof.
  revert s. induction acts as [|a acts IH]; intros s Hs; cbn [existsb fw_run]; [by intros _ [= ->]|].
  rewrite orb_false_iff. intros [Ha Hacts].
  destruct (fw_exec a s) as [s1|] eqn:E; cbn [mbind option_bind]; [|done]. intros Hr.
  enough (stranded s1 /\ fw_out s1 = fw_out s /\ fw_to_tcp s1 = fw_to_tcp s) as (Hs1 & <- & <-) by by apply IH.
  destruct Hs as (Ht & Hx & Hrx & He & Hu & Hc). unfold stranded.
  destruct a; cbn in E; rewrite ?Hx, ?Hrx, ?He, ?Hu in E; try done;
    destruct Ht as [Ht|[Ht|Ht]]; rewrite Ht in E; try done; repeat case_match; simplify_eq; cbn; rewrite ?He; auto 10.
Qed.
End tasks.

(** ** Properties *)

Section properties.
Context (cfg : fw_config).

(** C22. Inside the firmware nothing is lost, made up or reordered.  However the
    three tasks interleave, the queues stay within their depth; what was read
    from clients is what the UART task took, what is queued for it and what
    is in hand; the UART was told exactly what the taken messages ask for;
    what was queued for clients is what was taken off the queue and what is
    still there; and as long as no [send] has failed, somebody is going to
    look at a queue that is not empty. *)
Theorem firmware_queues_sound s :
  fw_reachable cfg s ->
  (length (fw_to_uart s) <= TCP_TO_UART_DEPTH)%nat /\ (length (fw_to_tcp s) <= UART_TO_TCP_DEPTH)%nat /\
  fw_read s = fw_taken s ++ fw_to_uart s ++ in_hand (fw_tcp s) /\
  fw_done s = concat (map (uart_tx cfg) (fw_taken s)) /\
  fw_queued s = map fst (fw_out s) ++ fw_to_tcp s /\
  (forallb snd (fw_out s) = true -> fw_to_tcp s <> [] -> awake s = true).
Proof. by intros [H1 H2 H3 H4 H5 _ H6]%fw_reachable_inv. Qed.

(** C21. Exactly when the firmware deadlocks.  A message [tcp_task] has read gets
    into the queue to the UART after at most three calls of [uart_tx_task],
    unless both queues are full and [uart_tx_task] is answering a control
    request: then [tcp_task] waits for it, and it for [tcp_task], for ever; the
    UART is never written again, and no client is served. *)
Theorem firmware_deadlock_characterised s m uart_ready :
  fw_reachable cfg s -> fw_tcp s = TcpQueueing m uart_ready ->
  (jammed s -> forall s', rtc (fw_step cfg) s s' -> visible s' = visible s) /\
  (~ jammed s -> exists acts s1, fw_run cfg acts s = Some s1 /\ (length acts <= 3)%nat /\
     fw_exec cfg TcpQueueSend s1 = Some (tcp_queues m uart_ready s1)).
Proof.
  intros Hr Ht. split.
  - intros Hj s' H. by eapply jammed_for_ever.
  - intros Hj. eapply queueing_goes_on; [by apply fw_reachable_inv|done|done].
Qed.

(** C40. A failed [send] leaves messages behind.  The [eventfd] was emptied before the
    queue: when a [send] fails with more messages in the queue, while the UART
    tasks have nothing in hand and nothing else has been signalled, these
    messages stay in the queue and nothing is sent, to the next client either,
    however long it is connected, until a client or the UART says something
    new. *)
Theorem failed_send_strands_messages s s1 acts s' :
  fw_exec cfg (Send false) s = Some s1 -> fw_to_tcp s1 <> [] ->
  fw_tx s = UartIdle -> fw_rx s = UartIdle -> fw_to_uart s = [] -> fw_efd s = false ->
  existsb new_message acts = false -> fw_run cfg acts s1 = Some s' ->
  fw_out s' = fw_out s1 /\ fw_to_tcp s' = fw_to_tcp s1.
Proof.
  intros H Hne Hx Hr Hu He Hacts Hrun. cbn in H. destruct (fw_tcp s); try done. destruct (fw_to_tcp s) as [|m queue]; [done|].
  injection H as <-. cbn in Hne. apply (stranded_run cfg acts _ s'); [|done..]. split_and!; [by left|done..].
Qed.
End properties.

(** ** Witnesses *)

Module FirmwareTasksWitness.
Definition plain : fw_config := mkFwConfig false true.
Definition data_message : Message := mkMessage x01 x01 [x41].
Definition reset_message : Message := mkMessage x03 x01 [x01].

Definition client_sends (m : Message) : list fw_action := [SelectClient; ReadMsg (Some m); TcpQueueSend].
Definition uart_says : list fw_action := [RxReceive data_message; RxQueueSend; RxSignal].

(** A reset and more data than the UART takes; then the UART says more than the
    waiting [tcp_task] passes on. *)
Definition jam : list fw_action :=
  Accept :: client_sends reset_message ++ concat (replicate 15 (client_sends data_message)) ++
  [SelectClient; ReadMsg (Some data_message)] ++ concat (replicate 128 uart_says) ++
  [TxReceive; TcpQueueSend; SelectClient; ReadMsg (Some data_message)].
Definition jammed_state : firmware := Eval vm_compute in default fw_init (fw_run plain jam fw_init).

Lemma jam_run : fw_run plain jam fw_init = Some jammed_state.
Proof. by vm_compute. Qed.
Lemma jam_reachable : fw_reachable plain jammed_state.
Proof. exact (fw_run_steps plain jam fw_init jammed_state jam_run). Qed.
Lemma jam_jammed : jammed jammed_state.
Proof. split_and!; [by eexists _, _|by apply Nat.leb_le|by eexists|by apply Nat.leb_le]. Qed.

Lemma firmware_queues_sound_witness :
  length (fw_to_uart jammed_state) = 16%nat /\ (length (fw_to_tcp jammed_state) <= UART_TO_TCP_DEPTH)%nat.
Proof.
  split; [by vm_compute|].
  exact (proj1 (proj2 (firmware_queues_sound plain jammed_state jam_reachable))).
Defined.

Lemma firmware_deadlock_characterised_witness :
  fw_tcp jammed_state = TcpQueueing data_message true /\
  forall s', rtc (fw_step plain) jammed_state s' -> visible s' = visible jammed_state.
Proof.
  split; [by vm_compute|].
  refine (proj1 (firmware_deadlock_characterised plain jammed_state data_message true jam_reachable _) jam_jammed).
  by vm_compute.
Defined.

(** Two messages of the UART, and a client that is gone when the first is sent. *)
Definition before_strand : firmware :=
  Eval vm_compute in default fw_init (fw_run plain (Accept :: uart_says ++ uart_says ++ [SelectUart]) fw_init).
Definition stranded_state : firmware :=
  Eval vm_compute in default fw_init (fw_exec plain (Send false) before_strand).

Lemma failed_send_strands_messages_witness :
  fw_run plain (Accept :: uart_says ++ uart_says ++ [SelectUart]) fw_init = Some before_strand /\
  exists s', fw_run plain [Accept; SelectClient] stranded_state = Some s' /\ fw_to_tcp s' = [data_message].
Proof.
  split; [by vm_compute|]. eexists. split; [by vm_compute|].
  by refine (proj2 (failed_send_strands_messages plain before_strand stranded_state [Accept; SelectClient] _ _ _ _ _ _ _ _ _));
    vm_compute.
Defined.
End FirmwareTasksWitness.
