(* ===== verification/StatusLed.v ===== *)
(** * The status LED (server/main/status.c)

    Each colour of the LED has a value and the time it stays on.  The task waits
    for a message or for the shortest time to pass, whichever comes first, and
    takes the time that passed off every colour.  Times are in milliseconds; a
    wait is in ticks of the scheduler, [tick_ms] each. *)
From S2P Require Import Prelude.
From stdpp Require Import base numbers list.
#[local] Open Scope Z_scope.

(** ** State *)

Inductive StatusUpdateMessage :=
  | STATUS_WIFI_CONNECTING
  | STATUS_WIFI_CONNECTED
  | STATUS_WIFI_CONNECTION_FAILED
  | STATUS_WIFI_RETRIES_FAILED
  | STATUS_TCP_CLIENT_CONNECTED
  | STATUS_TCP_CLIENT_DISCONNECTED
  | STATUS_UART_SEND
  | STATUS_UART_RECV
  | STATUS_REMOTE_RESET
  | STATUS_TAILSCALE_CONNECTING
  | STATUS_TAILSCALE_CONNECTED
  | STATUS_TAILSCALE_FAILED.

(** The value and the delay of a colour ([uint32_t]). *)
Record colour := mkColour { value : Z; delay : Z }.
Record led := mkLed { red : colour; green : colour; blue : colour }.

Definition dark : colour := mkColour 0 0.
Definition led_init : led := mkLed dark dark dark.
Definition on_for (ms : Z) : colour := mkColour 255 ms.
Definition off (c : colour) : colour := mkColour 0 (delay c).

(** [handle_queue_msg]; [reset_ms] is the configured pulse, if resets are. *)
Definition handle_queue_msg (reset_ms : option Z) (msg : StatusUpdateMessage) (s : led) : led :=
  match msg with
  | STATUS_WIFI_CONNECTING => mkLed (on_for 250) (on_for 250) (blue s)
  | STATUS_WIFI_CONNECTED => mkLed (red s) (on_for 250) (blue s)
  | STATUS_WIFI_CONNECTION_FAILED => mkLed (on_for 250) (green s) (blue s)
  | STATUS_WIFI_RETRIES_FAILED => mkLed (on_for 3000) (green s) (blue s)
  | STATUS_TCP_CLIENT_CONNECTED => mkLed (red s) (green s) (on_for 500)
  | STATUS_TCP_CLIENT_DISCONNECTED => mkLed (red s) (green s) (on_for 500)
  | STATUS_UART_SEND => mkLed (on_for 10) (green s) (blue s)
  | STATUS_UART_RECV => mkLed (red s) (on_for 10) (blue s)
  | STATUS_REMOTE_RESET =>
      match reset_ms with
      | Some ms => mkLed (on_for ms) (green s) (on_for ms)
      | None => s
      end
  | STATUS_TAILSCALE_CONNECTING => mkLed (off (red s)) (on_for 500) (on_for 500)
  | STATUS_TAILSCALE_CONNECTED => mkLed (off (red s)) (on_for 1500) (on_for 1500)
  | STATUS_TAILSCALE_FAILED => mkLed (on_for 3000) (off (green s)) (on_for 3000)
  end.

(** [update_delays]. *)
Definition wear (elapsed : Z) (c : colour) : colour :=
  let d := delay c - Z.min elapsed (delay c) in
  mkColour (if d =? 0 then 0 else value c) d.
Definition update_delays (elapsed : Z) (s : led) : led :=
  mkLed (wear elapsed (red s)) (wear elapsed (green s)) (wear elapsed (blue s)).

Definition UINT32_MAX : Z := 2 ^ 32 - 1.
Definition armed (c : colour) : Z := if delay c =? 0 then UINT32_MAX else delay c.

(** [calculate_queue_wait], in ticks; nothing for [portMAX_DELAY]. *)
Definition calculate_queue_wait (tick_ms : Z) (s : led) : option Z :=
  if (delay (red s) =? 0) && (delay (green s) =? 0) && (delay (blue s) =? 0) then None
  else Some (Z.min (Z.min (armed (red s)) (armed (green s))) (armed (blue s)) / tick_ms).

(** One turn of [status_led_task]: the ticks that passed, and the message if one
    came. *)
Definition led_turn (tick_ms : Z) (reset_ms : option Z) (ticks : Z) (msg : option StatusUpdateMessage)
    (s : led) : led :=
  let s := update_delays (ticks * tick_ms) s in
  match msg with Some msg => handle_queue_msg reset_ms msg s | None => s end.

Fixpoint led_run (tick_ms : Z) (reset_ms : option Z) (turns : list (Z * option StatusUpdateMessage))
    (s : led) : led :=
  match turns with
  | [] => s
  | (ticks, msg) :: turns => led_run tick_ms reset_ms turns (led_turn tick_ms reset_ms ticks msg s)
  end.

(** [update_color]: what the strip is set to, the brightness in percent. *)
Definition update_color (brightness : Z) (s : led) : Z * Z * Z :=
  (value (red s) * brightness / 100, value (green s) * brightness / 100, value (blue s) * brightness / 100).

(** ** The invariant *)

(** A colour that is on will go off: it has a timer. *)
Definition colour_inv (c : colour) : Prop :=
  0 <= delay c <= 5000 /\ (value c = 0 \/ value c = 255) /\ (delay c = 0 -> value c = 0).
Definition led_inv (s : led) : Prop := colour_inv (red s) /\ colour_inv (green s) /\ colour_inv (blue s).

Lemma on_for_inv ms : 0 < ms <= 5000 -> colour_inv (on_for ms).
Proof. intros ?. unfold colour_inv. cbn. split_and!; [lia..|by right|lia]. Qed.

Lemma off_inv c : colour_inv c -> colour_inv (off c).
Proof. unfold colour_inv. cbn. intros (? & _ & _). by split_and!; [lia..|left|]. Qed.

Lemma wear_inv elapsed c : 0 <= elapsed -> colour_inv c -> colour_inv (wear elapsed c).
Proof.
  unfold colour_inv, wear. cbn. intros He (Hd & Hv & H0).
  destruct (delay c - Z.min elapsed (delay c) =? 0) eqn:E; split_and!; try lia; done.
Qed.

#[local] Hint Resolve off_inv wear_inv : core.

Lemma turn_inv tick_ms reset_ms ticks msg s :
  0 <= tick_ms -> from_option (fun ms => 1 <= ms <= 5000) True reset_ms -> 0 <= ticks ->
  led_inv s -> led_inv (led_turn tick_ms reset_ms ticks msg s).
Proof.
  intros Hk Hr Ht (H1 & H2 & H3). assert (0 <= ticks * tick_ms) as He by nia.
  unfold led_turn. destruct msg as [[]|]; [..|by split_and!; cbn; auto].
  9: destruct reset_ms as [ms|]; cbn in Hr; [|by split_and!; cbn; auto].
  all: split_and!; cbn; auto; apply on_for_inv; lia.
Qed.

Lemma run_inv tick_ms reset_ms turns s :
  0 <= tick_ms -> from_option (fun ms => 1 <= ms <= 5000) True reset_ms ->
  Forall (fun t => 0 <= t.1) turns -> led_inv s -> led_inv (led_run tick_ms reset_ms turns s).
Proof.
  intros Hk Hr Ht. revert s. induction Ht as [|[ticks msg] turns Ht _ IH]; intros s Hs; [done|].
  by apply IH, turn_inv.
Qed.

(** ** Going off *)

(** A turn in which no message comes: the wait passes in full. *)
Definition quiet_turn (tick_ms : Z) (reset_ms : option Z) (s : led) : led :=
  match calculate_queue_wait tick_ms s with
  | Some ticks => led_turn tick_ms reset_ms ticks None s
  | None => s
  end.

Definition whole_ticks (tick_ms : Z) (s : led) : Prop :=
  (tick_ms | delay (red s)) /\ (tick_ms | delay (green s)) /\ (tick_ms | delay (blue s)).

Definition ticking (c : colour) : nat := if delay c =? 0 then 0 else 1.
Definition still_on (s : led) : nat := ticking (red s) + ticking (green s) + ticking (blue s).

Lemma wear_whole tick_ms e c : (tick_ms | e) -> (tick_ms | delay c) -> (tick_ms | delay (wear e c)).
Proof.
  intros He Hc. cbn. destruct (Z.min_spec e (delay c)) as [[_ ->]|[_ ->]]; by apply Z.divide_sub_r.
Qed.

Lemma wear_ticking e c : 0 <= e -> 0 <= delay c ->
  (ticking (wear e c) <= ticking c)%nat /\ (delay c = e -> 0 < e -> (ticking (wear e c) < ticking c)%nat).
Proof. intros He Hc. unfold ticking, wear. cbn. split; intros; repeat case_match; lia. Qed.

(** What a quiet turn takes off: the time of a colour that is on. *)
Lemma quiet_elapsed tick_ms s :
  0 < tick_ms -> led_inv s -> whole_ticks tick_ms s ->
  match calculate_queue_wait tick_ms s with
  | None => still_on s = 0%nat
  | Some ticks => exists e, ticks * tick_ms = e /\ 0 < e /\ (tick_ms | e) /\
      (e = delay (red s) \/ e = delay (green s) \/ e = delay (blue s))
  end.
Proof.
  intros Hk ((H1 & _) & (H2 & _) & (H3 & _)) (D1 & D2 & D3).
  unfold calculate_queue_wait, still_on, ticking, armed, UINT32_MAX.
  destruct (delay (red s) =? 0) eqn:E1, (delay (green s) =? 0) eqn:E2, (delay (blue s) =? 0) eqn:E3; cbn; [done|..].
  all: match goal with |- exists e, ?x / ?k * _ = _ /\ _ =>
    assert (x = delay (red s) \/ x = delay (green s) \/ x = delay (blue s)) as Hx by lia;
    assert (0 < x) as Hp by lia;
    assert (k | x) as Hd by (destruct Hx as [Hx|[Hx|Hx]]; by rewrite Hx);
    exists x; split_and!; [|done|done|done]; destruct Hd as [q Hq]; rewrite Hq; rewrite Z.div_mul by lia; done
  end.
Qed.

Lemma quiet_turn_off tick_ms reset_ms s :
  0 < tick_ms -> led_inv s -> whole_ticks tick_ms s ->
  led_inv (quiet_turn tick_ms reset_ms s) /\ whole_ticks tick_ms (quiet_turn tick_ms reset_ms s) /\
  (still_on (quiet_turn tick_ms reset_ms s) <= pred (still_on s))%nat.
Proof.
  intros Hk Hi Hw. pose proof (quiet_elapsed tick_ms s Hk Hi Hw) as He. unfold quiet_turn.
  destruct (calculate_queue_wait tick_ms s) as [ticks|]; [|rewrite He; by split_and!].
  destruct He as (e & Ee & Hp & Hd & Hone). unfold led_turn. rewrite Ee.
  destruct Hi as (I1 & I2 & I3), Hw as (W1 & W2 & W3). split_and!.
  - split_and!; (apply wear_inv; [lia|done]).
  - split_and!; by apply wear_whole.
  - unfold still_on. cbn [update_delays red green blue].
    destruct (wear_ticking e (red s)) as [A1 B1], (wear_ticking e (green s)) as [A2 B2],
      (wear_ticking e (blue s)) as [A3 B3]; try lia; try (by apply I1); try (by apply I2); try (by apply I3).
Qed.

Lemma dark_when_off s : led_inv s -> still_on s = 0%nat -> value (red s) = 0 /\ value (green s) = 0 /\ value (blue s) = 0.
Proof.
  intros ((_ & _ & H1) & (_ & _ & H2) & (_ & _ & H3)). unfold still_on, ticking.
  repeat case_match; try done. intros _. split_and!; [apply H1|apply H2|apply H3]; lia.
Qed.

(** ** Properties *)

Lemma led_init_inv : led_inv led_init.
Proof. unfold led_inv, colour_inv. cbn. split_and!; try lia; by left. Qed.

(** Whatever messages come and whenever, a colour is either off or fully on
    with a timer of at most five seconds, so none stays on without one. *)
Theorem led_colours_timed tick_ms reset_ms turns :
  0 <= tick_ms -> from_option (fun ms => 1 <= ms <= 5000) True reset_ms ->
  Forall (fun t => 0 <= t.1) turns -> led_inv (led_run tick_ms reset_ms turns led_init).
Proof. intros. apply run_inv; [done..|]. apply led_init_inv. Qed.

(** The LED goes off.  When the timers are whole ticks of the scheduler, it is
    dark after at most three waits without a message. *)
Theorem led_goes_off tick_ms reset_ms s :
  0 < tick_ms -> led_inv s -> whole_ticks tick_ms s ->
  let s' := Nat.iter 3 (quiet_turn tick_ms reset_ms) s in
  value (red s') = 0 /\ value (green s') = 0 /\ value (blue s') = 0 /\ calculate_queue_wait tick_ms s' = None.
Proof.
  intros Hk Hi Hw s'. destruct (quiet_turn_off tick_ms reset_ms s Hk Hi Hw) as (I1 & W1 & S1).
  destruct (quiet_turn_off tick_ms reset_ms _ Hk I1 W1) as (I2 & W2 & S2).
  destruct (quiet_turn_off tick_ms reset_ms _ Hk I2 W2) as (I3 & W3 & S3).
  fold (Nat.iter 3 (quiet_turn tick_ms reset_ms) s) in *. change (quiet_turn tick_ms reset_ms
    (quiet_turn tick_ms reset_ms (quiet_turn tick_ms reset_ms s))) with s' in *.
  assert (still_on s <= 3)%nat by (unfold still_on, ticking; repeat case_match; lia).
  assert (still_on s' = 0)%nat as S4 by lia. destruct (dark_when_off s' I3 S4) as (V1 & V2 & V3). split_and!; try done.
  unfold calculate_queue_wait. unfold still_on, ticking in S4. by repeat case_match.
Qed.

(** The LED task spins when a timer is shorter than a tick: the wait is
    rounded down to no ticks, the call returns at once, and as no tick has
    passed the timers are what they were. *)
Theorem led_spins tick_ms reset_ms s :
  led_inv s -> (exists c, c ∈ [red s; green s; blue s] /\ 0 < delay c < tick_ms) ->
  calculate_queue_wait tick_ms s = Some 0 /\ quiet_turn tick_ms reset_ms s = s.
Proof.
  intros ((H1 & _ & Z1) & (H2 & _ & Z2) & (H3 & _ & Z3)) (c & Hc & Hd).
  assert (calculate_queue_wait tick_ms s = Some 0) as E.
  { unfold calculate_queue_wait, armed, UINT32_MAX.
    rewrite !elem_of_cons, elem_of_nil in Hc.
    destruct (delay (red s) =? 0) eqn:E1, (delay (green s) =? 0) eqn:E2, (delay (blue s) =? 0) eqn:E3; cbn;
      [exfalso; destruct Hc as [-> | [-> | [-> | []]]]; lia|..];
      f_equal; apply Z.div_small; destruct Hc as [-> | [-> | [-> | []]]]; lia. }
  split; [done|]. unfold quiet_turn. rewrite E. unfold led_turn, update_delays, wear. cbn.
  destruct s as [[r dr] [g dg] [b db]]. cbn in *. rewrite !Z.min_l, !Z.sub_0_r by lia.
  repeat case_match; repeat f_equal; try lia; symmetry; auto with lia.
Qed.

(** ** Witnesses *)

Module StatusLedWitness.

(** A reset of 105 ms while data comes and goes, with ticks of 10 ms. *)
Definition busy : list (Z * option StatusUpdateMessage) :=
  [(0, Some STATUS_REMOTE_RESET); (3, Some STATUS_UART_RECV); (1, None); (6, None)].
Definition nearly_off : led := Eval vm_compute in led_run 10 (Some 105) busy led_init.

Lemma led_colours_timed_witness : nearly_off = mkLed (mkColour 255 5) dark (mkColour 255 5) /\ led_inv nearly_off.
Proof.
  split; [done|]. refine (led_colours_timed 10 (Some 105) busy _ _ _); [done|by cbn|].
  by repeat constructor.
Defined.

Definition connecting : led := handle_queue_msg None STATUS_TCP_CLIENT_CONNECTED
  (handle_queue_msg None STATUS_WIFI_CONNECTING led_init).

Lemma led_goes_off_witness : value (blue connecting) = 255 /\
  value (blue (Nat.iter 3 (quiet_turn 10 None) connecting)) = 0.
Proof.
  split; [done|]. refine (proj1 (proj2 (proj2 (led_goes_off 10 None connecting _ _ _)))); [done| |].
  - unfold led_inv, colour_inv. cbn. split_and!; try lia; by right.
  - split_and!; cbn; [by exists 25|by exists 25|by exists 50].
Defined.

Lemma led_spins_witness : calculate_queue_wait 10 nearly_off = Some 0 /\
  quiet_turn 10 (Some 105) nearly_off = nearly_off.
Proof.
  apply (led_spins 10 (Some 105) nearly_off).
  - unfold led_inv, colour_inv. cbn. split_and!; try lia; try (by right); by left.
  - exists (mkColour 255 5). split; [left|done].
Defined.
End StatusLedWitness.
