(* ===== verification/Wifi.v ===== *)
(** * Joining a Wi-Fi network (server/main/wifi.c)

    An event handler tries the configured networks in turn; [wifi_init] waits
    for the outcome and reboots when there is none.  The configuration is the
    number of networks and of retries; what the handler does outside is a list
    of actions. *)
From S2P Require Import Prelude StatusLed.
From stdpp Require Import base numbers list.

(** ** State *)

(** [s_current_wifi_idx], [s_retry_count] and the bits of [wifi_events]. *)
Record wifi := mkWifi { w_idx : nat; w_retry : nat; w_connected : bool; w_failed : bool }.
Definition wifi_boot : wifi := mkWifi 0 0 false false.

Inductive wifi_event := StaStart | StaDisconnected | GotIp.

Inductive wifi_action :=
  | LedUpdate (msg : StatusUpdateMessage)
  | ConnectTo (network : nat).

(** What [wifi_init] is at: waiting for a bit, returned, or about to restart. *)
Inductive wifi_phase := AwaitingBits | Returned | Rebooting.

Section wifi.
Context (networks max_retries : nat) (led_enabled : bool).

Definition update_config_and_connect (w : wifi) : list wifi_action :=
  (if led_enabled then [LedUpdate STATUS_WIFI_CONNECTING] else []) ++ [ConnectTo (w_idx w)].

Definition event_handler (e : wifi_event) (w : wifi) : wifi * list wifi_action :=
  match e with
  | StaStart => (w, update_config_and_connect w)
  | StaDisconnected =>
      let led := if led_enabled then [LedUpdate STATUS_WIFI_CONNECTION_FAILED] else [] in
      let idx := S (w_idx w) in
      if decide (networks <= idx) then
        let retry := S (w_retry w) in
        if decide (retry = max_retries) then (mkWifi 0 retry (w_connected w) true, led)
        else let w := mkWifi 0 retry (w_connected w) (w_failed w) in (w, led ++ update_config_and_connect w)
      else let w := mkWifi idx (w_retry w) (w_connected w) (w_failed w) in (w, led ++ update_config_and_connect w)
  | GotIp => (mkWifi (w_idx w) 0 true (w_failed w), [])
  end.

(** [wifi_init] after [xEventGroupWaitBits]; the bits are never cleared. *)
Definition wifi_wakes (p : wifi_phase) (w : wifi) : wifi_phase * list wifi_action :=
  match p with
  | AwaitingBits =>
      if w_connected w then (Returned, if led_enabled then [LedUpdate STATUS_WIFI_CONNECTED] else [])
      else if w_failed w then (Rebooting, if led_enabled then [LedUpdate STATUS_WIFI_RETRIES_FAILED] else [])
      else (AwaitingBits, [])
  | _ => (p, [])
  end.

(** Events, and what [wifi_init] does after each. *)
Fixpoint wifi_run (evs : list wifi_event) (p : wifi_phase) (w : wifi) : wifi_phase * wifi * list wifi_action :=
  match evs with
  | [] => (p, w, [])
  | e :: evs =>
      let '(w, acts) := event_handler e w in
      let '(p, acts') := wifi_wakes p w in
      let '(p, w, acts'') := wifi_run evs p w in
      (p, w, acts ++ acts' ++ acts'')
  end.

Definition attempt (a : wifi_action) : option nat :=
  match a with ConnectTo n => Some n | LedUpdate _ => None end.

(** ** Trying the networks *)

Lemma run_app evs1 evs2 p w :
  wifi_run (evs1 ++ evs2) p w =
    let '(p1, w1, acts1) := wifi_run evs1 p w in
    let '(p2, w2, acts2) := wifi_run evs2 p1 w1 in (p2, w2, acts1 ++ acts2).
Proof.
  revert p w. induction evs1 as [|e evs1 IH]; intros p w; cbn; [by destruct (wifi_run evs2 p w) as [[]]|].
  destruct (event_handler e w) as [w1 a1], (wifi_wakes p w1) as [p1 a2]. rewrite IH.
  destruct (wifi_run evs1 p1 w1) as [[p2 w2] a3], (wifi_run evs2 p2 w2) as [[p3 w3] a4].
  by rewrite !app_assoc.
Qed.

Lemma attempts_led msg : omap attempt (if led_enabled then [LedUpdate msg] else []) = [].
Proof. by destruct led_enabled. Qed.

(** One failure, by how many there have been: the state after [k] of them in a
    row is [k] in base [networks]. *)
Definition after_failures (k : nat) (connected failed : bool) : wifi :=
  mkWifi (k mod networks) (k / networks) connected failed.

Lemma next_digits k : (0 < networks)%nat ->
  if decide (networks <= S (k mod networks))%nat
  then S k mod networks = 0%nat /\ S k / networks = S (k / networks)
  else S k mod networks = S (k mod networks) /\ S k / networks = k / networks.
Proof.
  intros Hn. pose proof (Nat.div_mod_eq k networks) as E. pose proof (Nat.mod_upper_bound k networks ltac:(lia)).
  case_decide.
  - split.
    + symmetry. apply Nat.mod_unique with (q := S (k / networks)); lia.
    + symmetry. apply Nat.div_unique with (r := 0%nat); lia.
  - split; symmetry.
    + apply Nat.mod_unique with (q := (k / networks)%nat); lia.
    + apply Nat.div_unique with (r := S (k mod networks)); lia.
Qed.

Lemma fails_once k connected failed : (0 < networks)%nat -> (S k <> networks * max_retries)%nat ->
  exists acts, event_handler StaDisconnected (after_failures k connected failed) =
    (after_failures (S k) connected failed, acts) /\ omap attempt acts = [(S k mod networks)%nat].
Proof.
  intros Hn Hk. pose proof (next_digits k Hn) as Hd. pose proof (Nat.div_mod_eq (S k) networks) as E.
  unfold event_handler, after_failures, update_config_and_connect. cbn [w_idx w_retry w_connected w_failed].
  case_decide; destruct Hd as [Hm Hq]; rewrite Hm, Hq in E; rewrite Hm, Hq.
  - rewrite decide_False by (intros Heq; rewrite Heq in E; lia). eexists. split; [done|].
    rewrite !omap_app, !attempts_led. cbn. done.
  - eexists. split; [done|]. rewrite !omap_app, !attempts_led. cbn. done.
Qed.

Lemma fails_last k connected failed : (0 < networks)%nat -> (S k = networks * max_retries)%nat ->
  exists acts, event_handler StaDisconnected (after_failures k connected failed) =
    (mkWifi 0 max_retries connected true, acts) /\ omap attempt acts = [].
Proof.
  intros Hn Hk. pose proof (next_digits k Hn) as Hd. pose proof (Nat.div_mod_eq (S k) networks) as E.
  assert (S k mod networks = 0)%nat as Hm by (rewrite Hk, Nat.mul_comm; apply Nat.Div0.mod_mul).
  assert (S k / networks = max_retries)%nat as Hq by (rewrite Hk, Nat.mul_comm; by apply Nat.div_mul; lia).
  unfold event_handler, after_failures, update_config_and_connect. cbn [w_idx w_retry w_connected w_failed].
  case_decide; destruct Hd as [Hm' Hq']; [|lia].
  rewrite decide_True by lia. eexists. split; [|apply attempts_led]. f_equal. f_equal. lia.
Qed.
(** While the phase stays: nothing is waited for, or no bit is set. *)
Definition settled (p : wifi_phase) (connected failed : bool) : Prop :=
  match p with AwaitingBits => connected = false /\ failed = false | _ => True end.

Lemma settled_wakes p w : settled p (w_connected w) (w_failed w) -> wifi_wakes p w = (p, []).
Proof. destruct p; cbn; [by intros [-> ->]|done..]. Qed.

Lemma fails_run j k p connected failed : (0 < networks)%nat -> (k + j < networks * max_retries)%nat ->
  settled p connected failed ->
  exists acts, wifi_run (replicate j StaDisconnected) p (after_failures k connected failed) =
    (p, after_failures (k + j) connected failed, acts) /\
    omap attempt acts = map (fun i => (i mod networks)%nat) (seq (S k) j).
Proof.
  intros Hn Hk Hp. revert k Hk. induction j as [|j IH]; intros k Hk.
  - exists []. by rewrite Nat.add_0_r.
  - destruct (fails_once k connected failed Hn) as (a1 & E1 & A1); [lia|].
    destruct (IH (S k)) as (a2 & E2 & A2); [lia|]. cbn [replicate wifi_run]. rewrite E1.
    rewrite settled_wakes by done. rewrite E2. exists (a1 ++ [] ++ a2).
    split; [by rewrite Nat.add_succ_r|]. rewrite omap_app, A1. cbn. by rewrite A2.
Qed.

(** The failure that ends it, after [k + j] of them. *)
Lemma fails_out j k p connected failed : (0 < networks)%nat -> (k + S j = networks * max_retries)%nat ->
  settled p connected failed ->
  exists acts acts', wifi_run (replicate (S j) StaDisconnected) p (after_failures k connected failed) =
    ((wifi_wakes p (mkWifi 0 max_retries connected true)).1, mkWifi 0 max_retries connected true, acts ++ acts') /\
    omap attempt acts = map (fun i => (i mod networks)%nat) (seq (S k) j) /\ omap attempt acts' = [].
Proof.
  intros Hn Hk Hp. destruct (fails_run j k p connected failed Hn) as (a1 & E1 & A1); [lia|done|].
  destruct (fails_last (k + j) connected failed Hn) as (a2 & E2 & A2); [lia|].
  rewrite replicate_S_end, run_app, E1. cbn [wifi_run]. rewrite E2.
  destruct (wifi_wakes p (mkWifi 0 max_retries connected true)) as [p' a3] eqn:Ew.
  exists a1, (a2 ++ a3 ++ []). split_and!; [done|done|]. rewrite !omap_app, A2. cbn.
  destruct p; cbn in Ew; repeat case_match; simplify_eq; cbn; try done; by rewrite ?attempts_led.
Qed.

Lemma after_failures_small k connected failed : (k < networks)%nat ->
  after_failures k connected failed = mkWifi k 0 connected failed.
Proof. intros H. unfold after_failures. by rewrite Nat.mod_small, Nat.div_small. Qed.

(** ** Properties *)

(** At the start the networks are tried in their order, over and over: the
    [i]-th attempt is network [i mod networks]; after as many failures as there
    are networks, [max_retries] times over, the firmware reboots, and not
    before. *)
Theorem wifi_boot_tries_all j : (0 < networks)%nat -> (j <= networks * max_retries)%nat -> (0 < max_retries)%nat ->
  exists w acts, wifi_run (StaStart :: replicate j StaDisconnected) AwaitingBits wifi_boot =
      (if decide (j < networks * max_retries)%nat then AwaitingBits else Rebooting, w, acts) /\
    omap attempt acts = map (fun i => (i mod networks)%nat) (seq 0 (Nat.min (S j) (networks * max_retries))).
Proof.
  intros Hn Hj Hm. assert (0 < networks * max_retries)%nat by nia.
  assert (wifi_boot = after_failures 0 false false) as Eb by by rewrite after_failures_small.
  assert (0 = 0 mod networks)%nat as E0 by by rewrite Nat.mod_small.
  change (StaStart :: replicate j StaDisconnected) with ([StaStart] ++ replicate j StaDisconnected).
  rewrite run_app. cbn [wifi_run event_handler wifi_wakes wifi_boot w_connected w_failed].
  destruct (decide (j < networks * max_retries)%nat) as [Hl|Hl].
  - destruct (fails_run j 0 AwaitingBits false false Hn) as (acts & E & A); [lia|done|].
    change (mkWifi 0 0 false false) with wifi_boot. rewrite Eb, E. eexists _, _. split; [done|].
    unfold update_config_and_connect. rewrite !omap_app, attempts_led, A, Nat.min_l by lia.
    cbn. by rewrite Nat.mod_small.
  - destruct j as [|j]; [lia|].
    destruct (fails_out j 0 AwaitingBits false false Hn) as (acts & acts' & E & A & A'); [lia|done|].
    change (mkWifi 0 0 false false) with wifi_boot. rewrite Eb, E. eexists _, _. split; [done|].
    unfold update_config_and_connect. rewrite !omap_app, attempts_led, A, A', Nat.min_r by lia.
    replace (networks * max_retries)%nat with (S j) by lia. cbn. by rewrite Nat.mod_small, app_nil_r.
Qed.

(** C37. Once [wifi_init] has returned nobody watches the failure bit.  When a
    connection on network [idx] is lost and every attempt fails, the firmware
    makes [networks * max_retries - idx - 1] more attempts and then stops: it
    neither tries again nor reboots.  The networks before [idx] are tried one
    time less, since a new connection does not start the cycle again; with one
    retry and the last network, there is no attempt at all. *)
Theorem wifi_gives_up idx failed : (idx < networks)%nat -> (0 < max_retries)%nat ->
  exists acts, wifi_run (replicate (networks * max_retries - idx) StaDisconnected) Returned (mkWifi idx 0 true failed) =
      (Returned, mkWifi 0 max_retries true true, acts) /\
    omap attempt acts = map (fun i => (i mod networks)%nat) (seq (S idx) (networks * max_retries - idx - 1)).
Proof.
  intros Hi Hm. assert (networks <= networks * max_retries)%nat by nia.
  destruct (networks * max_retries - idx)%nat as [|j] eqn:Ej; [lia|].
  destruct (fails_out j idx Returned true failed) as (acts & acts' & E & A & A'); [lia|lia|done|].
  rewrite after_failures_small in E by done. rewrite E. exists (acts ++ acts'). split; [done|].
  rewrite omap_app, A, A', app_nil_r. do 2 f_equal. lia.
Qed.

(** A network that answers ends the wait: after fewer failures than it takes
    to give up, an address makes [wifi_init] return and clears the retries. *)
Theorem wifi_connects j : (0 < networks)%nat -> (j < networks * max_retries)%nat ->
  exists acts, wifi_run (StaStart :: replicate j StaDisconnected ++ [GotIp]) AwaitingBits wifi_boot =
    (Returned, mkWifi (j mod networks) 0 true false, acts).
Proof.
  intros Hn Hj. assert (wifi_boot = after_failures 0 false false) as Eb by by rewrite after_failures_small.
  change (StaStart :: replicate j StaDisconnected ++ [GotIp])
    with ([StaStart] ++ replicate j StaDisconnected ++ [GotIp]).
  rewrite run_app. cbn [wifi_run event_handler wifi_wakes wifi_boot w_connected w_failed].
  destruct (fails_run j 0 AwaitingBits false false Hn) as (acts & E & _); [lia|done|].
  rewrite run_app. change (mkWifi 0 0 false false) with wifi_boot. rewrite Eb, E. cbn. by eexists.
Qed.
End wifi.

(** ** Witnesses *)

Module WifiWitness.

Lemma wifi_boot_tries_all_witness : exists w acts,
  wifi_run 2 2 false (StaStart :: replicate 4 StaDisconnected) AwaitingBits wifi_boot = (Rebooting, w, acts) /\
  omap attempt acts = [0; 1; 0; 1]%nat.
Proof. apply (wifi_boot_tries_all 2 2 false 4); lia. Defined.

Lemma wifi_gives_up_witness : exists acts,
  wifi_run 3 1 true (replicate 1 StaDisconnected) Returned (mkWifi 2 0 true false) =
    (Returned, mkWifi 0 1 true true, acts) /\ omap attempt acts = [].
Proof. apply (wifi_gives_up 3 1 true 2 false); lia. Defined.

Lemma wifi_connects_witness : exists acts,
  wifi_run 2 5 true [StaStart; StaDisconnected; GotIp] AwaitingBits wifi_boot =
    (Returned, mkWifi 1 0 true false, acts).
Proof. apply (wifi_connects 2 5 true 1); lia. Defined.
End WifiWitness.
