(* ===== verification/Startup.v ===== *)
(** * Starting the firmware (server/main/main.c)

    [app_main]: the tasks are started once the network is there; when it is not,
    the device restarts.  [wifi_init] and MicroLink are given by what they
    return.  The parameters of the Wi-Fi event handler live in the frame of
    [app_main]; what happens to them when it returns is modelled too.  Last, what the tasks
    of the bridge set up before their loops. *)
From S2P Require Import Prelude DeviceMsg Firmware StatusLed Wifi.
From stdpp Require Import base numbers list.

(** ** [app_main] *)

Inductive fw_task := StatusTask | UartRxTask | UartTxTask | TcpTask.

Inductive boot_action :=
  | WifiInit
  | StartTask (t : fw_task)
  | BootStatus (msg : StatusUpdateMessage)
  | MicrolinkInit
  | MicrolinkStart
  | DelayMs (ms : Z)
  | Restart.

(** The options of Kconfig, what [wifi_init] comes to, whether [microlink_init]
    gives an instance, and the answer of each call of [microlink_is_connected]. *)
Record boot := mkBoot {
  boot_led : bool;
  boot_tailscale : bool;
  boot_wifi : wifi_phase;
  boot_microlink : bool;
  boot_connected : nat -> bool;
}.

Definition boot_status (b : boot) (msg : StatusUpdateMessage) : list boot_action :=
  if boot_led b then [BootStatus msg] else [].

(** [while (!microlink_is_connected(ml) && timeout_sec > 0)]: the delays, and
    how often it has been asked; [k] times before. *)
Fixpoint vpn_wait (connected : nat -> bool) (timeout_sec k : nat) : list boot_action * nat :=
  if connected k then ([], S k) else
  match timeout_sec with
  | O => ([], S k)
  | S timeout_sec => let '(acts, k) := vpn_wait connected timeout_sec (S k) in (DelayMs 1000 :: acts, k)
  end.

(** The Tailscale part: what it does, and whether it goes on. *)
Definition tailscale_up (b : boot) : list boot_action * bool :=
  let failed := boot_status b STATUS_TAILSCALE_FAILED ++ [DelayMs 5000; Restart] in
  let init := boot_status b STATUS_TAILSCALE_CONNECTING ++ [MicrolinkInit] in
  if negb (boot_microlink b) then (init ++ failed, false) else
  let '(waits, k) := vpn_wait (boot_connected b) 60 0 in
  if boot_connected b k
  then (init ++ MicrolinkStart :: waits ++ boot_status b STATUS_TAILSCALE_CONNECTED, true)
  else (init ++ MicrolinkStart :: waits ++ failed, false).

Definition bridge : list boot_action := [StartTask UartRxTask; StartTask UartTxTask; StartTask TcpTask].

(** [app_main]; [wifi_init] restarts the device itself. *)
Definition app_main (b : boot) : list boot_action :=
  (if boot_led b then [StartTask StatusTask] else []) ++ WifiInit ::
  match boot_wifi b with
  | AwaitingBits => []
  | Rebooting => [DelayMs 5000; Restart]
  | Returned =>
      if boot_tailscale b then let '(acts, go) := tailscale_up b in acts ++ (if go : bool then bridge else [])
      else bridge
  end.

(** ** The parameters of the event handler *)

(** [app_main] returns, and its frame is gone with the task that ran it; or the
    event loop calls the handler. *)
Inductive boot_event := MainReturns | HandlerCalled (e : wifi_event).

(** Every status message of the handler is sent through [params]: whether they
    were still there, one entry for each use. *)
Fixpoint params_uses (networks max_retries : nat) (led_enabled alive : bool) (evs : list boot_event) (w : wifi) :
    list bool :=
  match evs with
  | [] => []
  | MainReturns :: evs => params_uses networks max_retries led_enabled false evs w
  | HandlerCalled e :: evs =>
      let '(w, acts) := event_handler networks max_retries led_enabled e w in
      omap (fun a => match a with LedUpdate _ => Some alive | ConnectTo _ => None end) acts ++
      params_uses networks max_retries led_enabled alive evs w
  end.

(** ** The tasks before their loops *)

(** The calls of [tcp_task], then those of [uart_rx_task]. *)
Inductive setup_call :=
  | SockCreate
  | SockReuseAddr
  | SockBind
  | SockListen
  | SockClose
  | TaskDelete
  | PinOutput
  | PinActive (active : bool)
  | UartInstall (rx_buffer tx_buffer : Z)
  | UartParams (baud : Z)
  | UartPins (rts_cts : bool)
  | ErrorAborts.

(** [tcp_task] up to its accept loop; whether it gets there. *)
Definition tcp_setup (sock_ok bind_ok : bool) : list setup_call * bool :=
  if negb sock_ok then ([SockCreate; TaskDelete], false) else
  if negb bind_ok then ([SockCreate; SockReuseAddr; SockBind; SockClose; TaskDelete], false) else
  ([SockCreate; SockReuseAddr; SockBind; SockListen], true).

(** [ESP_ERROR_CHECK] of one call after the other: the first that fails aborts,
    which restarts the device. *)
Fixpoint error_checks (ok : setup_call -> bool) (calls : list setup_call) : list setup_call * bool :=
  match calls with
  | [] => ([], true)
  | c :: calls =>
      if ok c then let '(done, go) := error_checks ok calls in (c :: done, go) else ([c; ErrorAborts], false)
  end.

(** [uart_rx_task] up to its loop. *)
Definition uart_setup (cfg : fw_config) (ok : setup_call -> bool) : list setup_call * bool :=
  error_checks ok
    ((if reset_enabled cfg then [PinOutput; PinActive false] else []) ++
     [UartInstall 1024 1024; UartParams 115200; UartPins (allow_hw_flow_ctrl cfg)]).

(** ** Lemmas *)

(** The calls made begin those wanted; all of them are exactly when the task goes
    on, and otherwise the device aborts after the first that failed. *)
Lemma error_checks_spec ok calls :
  let '(made, go) := error_checks ok calls in
  if go : bool then made = calls /\ Forall (fun c => ok c = true) calls
  else exists before c after, calls = before ++ c :: after /\ made = before ++ [c; ErrorAborts] /\
    Forall (fun c => ok c = true) before /\ ok c = false.
Proof.
  induction calls as [|c calls IH]; cbn; [done|]. destruct (ok c) eqn:Hc; [|by exists [], c, calls].
  destruct (error_checks ok calls) as [made []].
  - destruct IH as [-> H]. split; [done|by constructor].
  - destruct IH as (before & c' & after & -> & -> & H & Hc'). exists (c :: before), c', after.
    split_and!; [done..|by constructor|done].
Qed.

Definition is_bridge (a : boot_action) : bool :=
  match a with StartTask UartRxTask | StartTask UartTxTask | StartTask TcpTask => true | _ => false end.
Definition is_restart (a : boot_action) : bool := match a with Restart => true | _ => false end.
Definition restarts (acts : list boot_action) : bool := existsb is_restart acts.
Definition delay_of (a : boot_action) : Z := match a with DelayMs ms => ms | _ => 0 end.
Definition total_delay (acts : list boot_action) : Z := foldr (fun a n => delay_of a + n)%Z 0%Z acts.

Lemma total_delay_app acts1 acts2 : total_delay (acts1 ++ acts2) = (total_delay acts1 + total_delay acts2)%Z.
Proof.
  induction acts1 as [|a acts1 IH]; [done|].
  change (delay_of a + total_delay (acts1 ++ acts2) = delay_of a + total_delay acts1 + total_delay acts2)%Z. lia.
Qed.

(** The wait asks until the first yes, at most [timeout_sec] seconds. *)
Lemma vpn_wait_spec connected timeout_sec k :
  exists j, j <= timeout_sec /\ vpn_wait connected timeout_sec k = (replicate j (DelayMs 1000), S (k + j)) /\
    (forall i, i < j -> connected (k + i) = false) /\ (connected (k + j) = true \/ j = timeout_sec).
Proof.
  revert k. induction timeout_sec as [|n IH]; intros k; cbn; destruct (connected k) eqn:Ek.
  1, 2: exists 0; rewrite !Nat.add_0_r; split_and!; [lia|done|lia|by auto].
  - exists 0. rewrite !Nat.add_0_r. split_and!; [lia|done|lia|by left].
  - destruct (IH (S k)) as (j & Hj & -> & Hf & Ht). exists (S j). cbn. rewrite <-!Nat.add_succ_comm in *.
    split_and!; [lia|done| |destruct Ht as [Ht| ->]; auto].
    intros [|i] Hi; [by rewrite Nat.add_0_r|]. rewrite <-Nat.add_succ_comm. apply Hf. lia.
Qed.

Lemma total_delay_replicate n : total_delay (replicate n (DelayMs 1000)) = (1000 * Z.of_nat n)%Z.
Proof.
  induction n as [|n IH]; [done|]. cbn [replicate].
  change (1000 + total_delay (replicate n (DelayMs 1000)) = 1000 * Z.of_nat (S n))%Z. lia.
Qed.

(** The wait lasts [j] seconds: until the first yes, or all of the 60. *)
Definition waits_for (connected : nat -> bool) (j : nat) : Prop :=
  j <= 60 /\ (forall i, i < j -> connected i = false) /\ (connected j = true \/ j = 60).

(** What decides whether the device goes on: the answer when Tailscale is asked
    once more after the wait, whether the wait saw a yes or ran out. *)
Definition vpn_ready (connected : nat -> bool) : Prop := exists j, waits_for connected j /\ connected (S j) = true.
Definition boot_ready (b : boot) : Prop :=
  boot_wifi b = Returned /\
  (boot_tailscale b = true -> boot_microlink b = true /\ vpn_ready (boot_connected b)).

Lemma first_yes_unique (connected : nat -> bool) j j' :
  j <= 60 -> j' <= 60 -> (forall i, i < j -> connected i = false) -> (forall i, i < j' -> connected i = false) ->
  (connected j = true \/ j = 60) -> (connected j' = true \/ j' = 60) -> j = j'.
Proof.
  intros Hj Hj' Hf Hf' Ht Ht'. destruct (decide (j < j')) as [H|H]; [|destruct (decide (j' < j)) as [H'|H']; [|lia]].
  - destruct Ht as [Ht| ->]; [|lia]. rewrite Hf' in Ht by done. done.
  - destruct Ht' as [Ht'| ->]; [|lia]. rewrite Hf in Ht' by done. done.
Qed.

(** What a part of the start-up does that starts no bridging task. *)
Definition preparing (acts : list boot_action) : Prop := filter is_bridge acts = [].

Lemma boot_status_prepares b msg : preparing (boot_status b msg) /\ total_delay (boot_status b msg) = 0%Z.
Proof. unfold boot_status, preparing. by destruct (boot_led b). Qed.

Lemma restarts_app acts1 acts2 : restarts (acts1 ++ acts2) = restarts acts1 || restarts acts2.
Proof. apply existsb_app. Qed.
Lemma restarts_cons a acts : restarts (a :: acts) = is_restart a || restarts acts.
Proof. done. Qed.
Lemma restarts_waits n : restarts (replicate n (DelayMs 1000)) = false.
Proof. by induction n. Qed.
Lemma restarts_status b msg : restarts (boot_status b msg) = false.
Proof. unfold boot_status. by destruct (boot_led b). Qed.

Lemma waits_prepare n : preparing (replicate n (DelayMs 1000)).
Proof. by induction n. Qed.

Lemma preparing_app acts1 acts2 : preparing (acts1 ++ acts2) <-> preparing acts1 /\ preparing acts2.
Proof. unfold preparing. rewrite filter_app. split; [apply app_nil|by intros [-> ->]]. Qed.

(** Tailscale: what it does, whichever way it goes. *)
Lemma tailscale_up_spec b : let '(acts, go) := tailscale_up b in
  preparing acts /\ (total_delay acts <= 65000)%Z /\
  (go = true <-> boot_microlink b = true /\ vpn_ready (boot_connected b)) /\
  if go : bool then restarts acts = false else last acts = Some Restart.
Proof.
  unfold tailscale_up. pose proof (fun msg => proj1 (boot_status_prepares b msg)) as Hp.
  pose proof (fun msg => proj2 (boot_status_prepares b msg)) as Hd.
  destruct (boot_microlink b) eqn:Hm; cbn [negb].
  2: { rewrite !preparing_app, !total_delay_app, !Hd. split_and!; try done.
       - by split; [|intros []].
       - by rewrite !last_app. }
  destruct (vpn_wait_spec (boot_connected b) 60 0) as (j & Hj & -> & Hf & Ht). cbn [Nat.add] in *.
  assert (vpn_ready (boot_connected b) <-> boot_connected b (S j) = true) as Hr.
  { split; [|by exists j]. intros (j' & (Hj' & Hf' & Ht') & Hc). by rewrite (first_yes_unique _ j j' Hj Hj' Hf Hf' Ht Ht'). }
  pose proof (waits_prepare j) as Hw. pose proof (total_delay_replicate j) as Hdw.
  assert (forall acts, preparing (MicrolinkStart :: acts) <-> preparing acts) as Hs by done.
  assert (forall acts, total_delay (MicrolinkStart :: acts) = total_delay acts) as Hds by done.
  destruct (boot_connected b (S j)) eqn:Hc; rewrite !preparing_app, Hs, !preparing_app, !total_delay_app, Hds,
    !total_delay_app, !Hd, Hdw; split_and!; try done; try (cbn; lia).
  - by rewrite Hr.
  - repeat first [rewrite restarts_app|rewrite restarts_cons]. by rewrite restarts_waits, !restarts_status.
  - by split; [|intros [_ H%Hr]].
  - by rewrite !last_app, last_cons, !last_app.
Qed.

(** The use of the parameters before and after [app_main] returns. *)
Section params.
Context (networks max_retries : nat).

Lemma handler_uses_params e w acts w' : event_handler networks max_retries true e w = (w', acts) -> e <> GotIp ->
  exists msg, LedUpdate msg ∈ acts.
Proof.
  unfold event_handler, update_config_and_connect. intros H He.
  destruct e; try done; cbn in H; repeat case_decide; simplify_eq; eexists; by left.
Qed.

Lemma handler_no_led e w acts w' : event_handler networks max_retries false e w = (w', acts) ->
  Forall (fun a => match a with LedUpdate _ => False | _ => True end) acts.
Proof.
  unfold event_handler, update_config_and_connect. intros H.
  destruct e; cbn in H; repeat case_decide; simplify_eq; by repeat constructor.
Qed.

Lemma params_uses_alive led evs w : MainReturns ∉ evs ->
  Forall (eq true) (params_uses networks max_retries led true evs w).
Proof.
  revert w. induction evs as [|[|e] evs IH]; intros w; cbn; [constructor|rewrite not_elem_of_cons; by intros []|].
  rewrite not_elem_of_cons. intros [_ H]. destruct (event_handler _ _ _ _ _) as [w' acts].
  apply Forall_app. split; [|by apply IH]. clear. induction acts as [|[]]; cbn; [constructor|by constructor|done].
Qed.

Lemma params_uses_dead evs w e : HandlerCalled e ∈ evs -> e <> GotIp ->
  false ∈ params_uses networks max_retries true false evs w.
Proof.
  intros Hin He. revert w. induction evs as [|[|e'] evs IH]; intros w; [by apply elem_of_nil in Hin|..].
  - apply elem_of_cons in Hin as [?|Hin]; [done|]. by apply IH.
  - cbn. destruct (event_handler networks max_retries true e' w) as [w' acts] eqn:E. apply elem_of_app.
    apply elem_of_cons in Hin as [[= <-]|Hin]; [left|right; by apply IH].
    destruct (handler_uses_params _ _ _ _ E He) as [msg Hm]. apply list_elem_of_omap. by exists (LedUpdate msg).
Qed.
End params.

(** ** Properties *)

(** C35. The bridge is only started on a network.  Once [wifi_init] has come to an
    end: the tasks of the UART and of TCP are started, all three and once,
    exactly when Wi-Fi was joined and, if Tailscale is configured, MicroLink gave
    an instance and says that it is connected when it is asked once more after
    the wait; the wait asks every second and lasts until the first yes, or 60
    seconds without one (then the last question alone decides).  In every other
    case the device restarts.  All this takes at most 65 seconds. *)
Theorem app_main_starts_bridge b :
  boot_wifi b <> AwaitingBits ->
  (boot_ready b -> filter is_bridge (app_main b) = bridge /\ restarts (app_main b) = false) /\
  (~ boot_ready b -> filter is_bridge (app_main b) = [] /\ last (app_main b) = Some Restart) /\
  (total_delay (app_main b) <= 65000)%Z.
Proof.
  intros Hw. unfold app_main, boot_ready. pose proof (tailscale_up_spec b) as Ht.
  set (start := if boot_led b then [StartTask StatusTask] else []).
  assert (preparing start /\ restarts start = false /\ total_delay start = 0%Z) as (H1 & H2 & H3)
    by (unfold start; by destruct (boot_led b)).
  rewrite filter_app, H1, total_delay_app, H3, restarts_app, H2, last_app. clearbody start. cbn [app orb].
  destruct (boot_wifi b); [done| |].
  2: { split_and!; [by intros []|by split|done]. }
  destruct (boot_tailscale b); [destruct (tailscale_up b) as [acts go]; destruct Ht as (Hp & Hd & Hg & Hr)|].
  2: { split_and!; [by split|by intros []|done]. }
  rewrite filter_cons, restarts_cons, filter_app, Hp, restarts_app, last_cons, last_app.
  assert (total_delay (WifiInit :: acts ++ (if go then bridge else [])) = total_delay acts) as ->.
  { change (total_delay (acts ++ (if go then bridge else [])) = total_delay acts). rewrite total_delay_app. destruct go; cbn; lia. }
  split_and!; [| |lia].
  - intros [_ Hgo%(fun H => H eq_refl)%Hg]. subst go. by rewrite Hr.
  - intros Hn. destruct go; [by destruct Hn; split; [|intros _; apply Hg]|]. split; [done|]. by rewrite Hr.
Qed.

(** The tasks of the bridge before their loops.  [tcp_task] accepts clients
    exactly when its socket was created and bound; otherwise it closes what it
    opened and ends alone, without a restart.  [uart_rx_task] drives the reset
    pin to its inactive level before it touches the UART, and enters its loop
    exactly when all calls went well; otherwise the device aborts. *)
Theorem bridge_tasks_set_up cfg sock_ok bind_ok ok :
  let '(tcp_calls, listens) := tcp_setup sock_ok bind_ok in
  let '(uart_calls, runs) := uart_setup cfg ok in
  listens = (sock_ok && bind_ok) /\
  (SockClose ∈ tcp_calls <-> (sock_ok = true /\ bind_ok = false)) /\
  (TaskDelete ∈ tcp_calls <-> listens = false) /\ (ErrorAborts ∉ tcp_calls) /\
  (last uart_calls = Some ErrorAborts <-> runs = false) /\
  (runs = true -> reset_enabled cfg = true ->
   exists after, uart_calls = [PinOutput; PinActive false] ++ after /\ PinOutput ∉ after).
Proof.
  destruct (tcp_setup sock_ok bind_ok) as [tcp_calls listens] eqn:Et. unfold uart_setup.
  set (calls := (if reset_enabled cfg then _ else _) ++ _).
  pose proof (error_checks_spec ok calls) as Hs. destruct (error_checks ok calls) as [made runs].
  split; [|split; [|split; [|split; [|split]]]].
  1-4: unfold tcp_setup in Et; destruct sock_ok, bind_ok; injection Et as <- <-; rewrite ?elem_of_cons, ?elem_of_nil; intuition congruence.
  - destruct runs; [destruct Hs as [-> _]|destruct Hs as (before & c & after & _ & -> & _)].
    + split; [|done]. unfold calls. by rewrite last_app.
    + split; [done|]. intros _. by rewrite last_app.
  - intros -> Hr. destruct Hs as [-> _]. unfold calls. rewrite Hr. eexists. split; [reflexivity|].
    rewrite !elem_of_cons, elem_of_nil. intuition congruence.
Qed.

(** The event handler outlives its parameters.  While [app_main] runs they are
    there for every status message; once it has returned (as it does when the
    bridge was started) and if there is an LED, every network that is lost, and
    every attempt to join one, reads them from a frame that is gone; without
    an LED they are never read. *)
Theorem wifi_params_outlived networks max_retries evs1 evs2 w e :
  MainReturns ∉ evs1 ->
  Forall (eq true) (params_uses networks max_retries true true evs1 w) /\
  (HandlerCalled e ∈ evs2 -> e <> GotIp ->
   false ∈ params_uses networks max_retries true true (evs1 ++ MainReturns :: evs2) w) /\
  params_uses networks max_retries false true (evs1 ++ MainReturns :: evs2) w = [].
Proof.
  intros Hm. split_and!; [by apply params_uses_alive| |].
  - intros Hin He. revert w. induction evs1 as [|[|e1] evs1 IH]; intros w; cbn [app params_uses].
    + by apply (params_uses_dead _ _ _ _ _ Hin He).
    + by apply not_elem_of_cons in Hm as [[] _].
    + destruct (event_handler _ _ _ _ _) as [w' acts]. apply elem_of_app. right. apply IH.
      by apply not_elem_of_cons in Hm as [_ ?].
  - generalize (evs1 ++ MainReturns :: evs2) true. intros evs. revert w.
    induction evs as [|[|e1] evs IH]; intros w alive; cbn [params_uses]; [done|apply IH|].
    destruct (event_handler networks max_retries false e1 w) as [w' acts] eqn:E.
    apply handler_no_led in E. rewrite IH, app_nil_r.
    induction E as [|a acts Ha _ IHa]; [done|]. by destruct a.
Qed.

(** ** Witnesses *)

Module StartupWitness.
Definition slow_vpn (k : nat) : bool := (20 <=? k)%nat.
Definition good_boot : boot := mkBoot true true Returned true slow_vpn.

Lemma app_main_starts_bridge_witness :
  filter is_bridge (app_main good_boot) = bridge /\ total_delay (app_main good_boot) = 20000%Z.
Proof.
  split; [|by vm_compute].
  refine (proj1 (proj1 (app_main_starts_bridge good_boot _) _)); [done|]. split; [done|]. intros _. split; [done|].
  exists 20. split; [|done]. split_and!; [lia| |by left]. intros i Hi. apply Nat.leb_gt. lia.
Defined.

Lemma wifi_params_outlived_witness :
  false ∈ params_uses 2 5 true true [HandlerCalled StaStart; HandlerCalled GotIp; MainReturns; HandlerCalled StaDisconnected]
    wifi_boot.
Proof.
  apply (proj1 (proj2 (wifi_params_outlived 2 5 [HandlerCalled StaStart; HandlerCalled GotIp]
    [HandlerCalled StaDisconnected] wifi_boot StaDisconnected ltac:(repeat (apply not_elem_of_cons; split; [done|]); apply not_elem_of_nil)))); [by left|done].
Defined.
End StartupWitness.
