(* ===== verification/EndToEnd.v ===== *)
(** * From the terminal to the UART and back

    The connection task and the firmware put together.  The log of a task is cut
    into TCP sessions; of each session the firmware receives the frames the
    task's connection accepted, up to some byte, over a client of its accept
    loop.  What reaches the UART is compared with what was typed, and what
    reaches the terminal with what the UART received. *)
From S2P Require Import Prelude BytesApi Codec Framing DeviceMsg AsyncPty TcpBridge Connection Firmware.
From stdpp Require Import base numbers strings list.
#[local] Open Scope Z_scope.

(** ** Sessions *)

(** A message the framed connection accepted. *)
Definition accepted (i : interaction) : option DeviceMessage :=
  match i with FrameSend m (TcpOk _) => Some m | _ => None end.

(** The sessions of a log: the frames accepted before the connection was lost,
    and the frame whose sending failed, if that is how it was. *)
Fixpoint sessions (cur : list DeviceMessage) (l : list interaction) :
    list (list DeviceMessage * option DeviceMessage) :=
  match l with
  | [] => [(cur, None)]
  | FrameSend m (TcpOk _) :: l => sessions (cur ++ [m]) l
  | FrameSend m (Disconnected _) :: l => (cur, Some m) :: sessions [] l
  | FrameNext (Disconnected _) :: l => (cur, None) :: sessions [] l
  | _ :: l => sessions cur l
  end.

(** The start of a frame, without its end. *)
Definition cut_frame (q : list u8) : Prop :=
  q = [] \/ exists f l, device_wf f /\ l <> [] /\ device_wire f = q ++ l.

(** What may arrive of a session: the accepted frames up to some byte; if all of
    them, perhaps the start of the one that failed. *)
Definition arrives (s : list DeviceMessage * option DeviceMessage) (stream : list u8) : Prop :=
  exists q, stream `prefix_of` concat (map device_wire s.1) ++ q /\
    match s.2 with
    | None => q = []
    | Some f => exists l, l <> [] /\ device_wire f = q ++ l
    end.

(** A client of the firmware: what arrives, the portions in which it does, what
    the message buffer holds, and how often [select] returns for it. *)
Record visit := mkVisit {
  v_stream : list u8;
  v_portions : list nat;
  v_garbage : list u8;
  v_turns : nat;
}.
Definition visit_client (v : visit) : list u8 * list nat * list select_result :=
  (v_stream v, v_portions v, replicate (v_turns v) (reading (v_garbage v))).

(** The data of a message, of an action on the UART, and of what the task read. *)
Definition message_data (m : DeviceMessage) : option (list u8) :=
  match m with Data _ _ => Some (payload m) | _ => None end.
Definition uart_written (a : uart_action) : option (list u8) :=
  match a with UartWrite bytes => Some bytes | _ => None end.
Definition typed_data (i : interaction) : option (list u8) := m ← pty_message i; message_data m.

(** What the firmware does on the UART, one client after the other. *)
Definition uart_actions (cfg : fw_config) (visits : list visit) : list uart_action :=
  concat (map (uart_tx cfg) (tcp_task (map visit_client visits) [] [] 0).1.1).

Lemma concat_sessions cur l : concat (map fst (sessions cur l)) = cur ++ omap accepted l.
Proof.
  revert cur. induction l as [|i l IH]; intros cur; cbn [sessions omap list_omap].
  - cbn. by rewrite app_nil_r.
  - destruct i as [| |m [e|[]]|[e|m]| | | | |]; cbn [accepted map concat fst]; rewrite ?IH; try done.
    by rewrite <-(assoc_L (++)).
Qed.

(** ** Frames that arrive *)

Lemma read_msg_cut portions q garbage : cut_frame q -> read_msg portions q garbage = None.
Proof.
  unfold read_msg. destruct (read_all_spec 2 2 portions q ltac:(lia)) as (portions1 & E1). rewrite E1.
  intros [->|(f & l & Hwf & Hl & E)]; [done|]. case_decide as H2; [|done].
  pose proof (length_payload f Hwf) as Hlen. pose proof (data_size_le f) as Hle. unfold device_wire in E.
  destruct q as [|k [|n body]]; cbn [length] in H2; [lia..|]. injection E as <- <- E. cbn [take drop].
  rewrite take_0, drop_0, u8_usize_of by done.
  destruct (read_all_spec (data_size f) (data_size f) portions1 body ltac:(lia)) as (portions2 & ->).
  rewrite decide_False; [done|]. rewrite <-Hlen, E, length_app. destruct l; [done|]. cbn. lia.
Qed.

(** A prefix of a stream of frames is some frames and the start of another. *)
Lemma prefix_frames frames q stream :
  Forall device_wf frames -> cut_frame q -> stream `prefix_of` concat (map device_wire frames) ++ q ->
  exists got q', got `prefix_of` frames /\ cut_frame q' /\ stream = concat (map device_wire got) ++ q'.
Proof.
  intros Hwf Hq. revert stream. induction Hwf as [|f frames Hf Hwf IH]; intros stream Hp; cbn [map concat app] in Hp.
  - exists [], stream. split_and!; [done| |done]. destruct Hp as [l E].
    destruct Hq as [->|(f & l' & Hf & Hl & E')].
    + left. symmetry in E. by apply app_nil in E as [-> _].
    + right. exists f, (l ++ l'). split_and!; [done| |by rewrite E', E, <-(assoc_L (++))].
      by destruct l.
  - rewrite <-(assoc_L (++)) in Hp.
    destruct (decide (length stream < length (device_wire f))%nat) as [Hlt|Hge].
    + exists [], stream. split_and!; [apply prefix_nil| |done]. right. exists f, (drop (length stream) (device_wire f)).
      destruct Hp as [l E]. split_and!; [done| |].
      * intros Hn. apply (f_equal length) in Hn. rewrite length_drop in Hn. change (length (@nil u8)) with O in Hn. lia.
      * rewrite <-(take_drop (length stream) (device_wire f)) at 1. f_equal.
        apply (f_equal (take (length stream))) in E. rewrite take_app_length, take_app_le in E by lia. done.
    + destruct Hp as [l E]. assert (stream = device_wire f ++ drop (length (device_wire f)) stream) as Es.
      { rewrite <-(take_drop (length (device_wire f)) stream) at 1. f_equal.
        apply (f_equal (take (length (device_wire f)))) in E. rewrite take_app_length, take_app_le in E by lia. done. }
      destruct (IH (drop (length (device_wire f)) stream)) as (got & q' & Hg & Hq' & E').
      { exists l. rewrite Es in E. rewrite <-(assoc_L (++)) in E. by apply app_inv_head in E. }
      exists (f :: got), q'. split_and!; [by apply prefix_cons|done|]. cbn [map concat].
      by rewrite <-(assoc_L (++)), <-E'.
Qed.

(** A client that sends frames, then stops in the middle of one: the firmware
    queues the first of them, as many as it had turns for. *)
Lemma visit_reads n garbage got q portions to_uart to_tcp sent :
  Forall device_wf got -> cut_frame q ->
  exists c b ms k, handle_client (replicate n (reading garbage))
      (mkClient (concat (map device_wire got) ++ q) portions sent to_uart to_tcp true) = (c, b) /\
    cl_to_uart c = to_uart ++ ms /\ Forall2 same_frame ms (take k got) /\
    (length got < n -> k = length got /\ b = true)%nat.
Proof.
  intros Hwf Hq. revert n portions to_uart. induction Hwf as [|f got Hf _ IH]; intros n portions to_uart.
  - destruct n as [|n]; cbn [replicate handle_client reading client_turn_read cl_portions cl_unread map concat app].
    + eexists _, _, [], 0%nat. split_and!; [done|by rewrite app_nil_r|constructor|cbn; lia].
    + rewrite read_msg_cut by done. eexists _, _, [], 0%nat.
      split_and!; [done|by rewrite app_nil_r|constructor|done].
  - destruct n as [|n]; cbn [replicate handle_client reading client_turn_read cl_portions cl_unread].
    + eexists _, _, [], 0%nat. split_and!; [done|by rewrite app_nil_r|constructor|cbn; lia].
    + cbn [map concat]. rewrite <-(assoc_L (++)).
      destruct (read_msg_wire portions f (concat (map device_wire got) ++ q) garbage Hf) as (m & portions' & -> & Hm).
      cbn [cl_sent cl_to_uart cl_to_tcp cl_open].
      destruct (IH n portions' (to_uart ++ [m])) as (c & b & ms & k & E & Hu & Hall & Hn).
      exists c, b, (m :: ms), (S k). split_and!; [done|by rewrite Hu, <-(assoc_L (++))|by constructor|].
      cbn. intros. destruct Hn as [-> ->]; [lia|done].
Qed.

(** The accept loop queues, client after client, some of the frames that were
    sent, in order. *)
Lemma tcp_task_reads visits ss to_uart to_tcp sockets :
  Forall2 (fun v s => arrives s (v_stream v)) visits ss ->
  Forall (fun s => Forall device_wf s.1 /\ from_option device_wf True s.2) ss ->
  exists ms got, (tcp_task (map visit_client visits) to_uart to_tcp sockets).1.1 = to_uart ++ ms /\
    Forall2 same_frame ms got /\ got `sublist_of` concat (map fst ss) /\ Forall device_wf got.
Proof.
  intros Har Hwf. revert to_uart to_tcp sockets.
  induction Har as [|v [frames cut] visits ss (q & Hp & Hq) _ IH]; intros to_uart to_tcp sockets.
  - exists [], []. rewrite app_nil_r. split_and!; constructor.
  - apply Forall_cons in Hwf as [[Hf Hc] Hwf]. cbn [fst snd] in *.
    assert (cut_frame q) as Hcut.
    { destruct cut as [f|]; [|by left]. destruct Hq as (l & Hl & E). right. by exists f, l. }
    destruct (prefix_frames frames q (v_stream v) Hf Hcut Hp) as (got & q' & Hg & Hcut' & E).
    assert (Forall device_wf got) as Hgwf by (destruct Hg as [l ->]; by apply Forall_app in Hf as [? _]).
    destruct (visit_reads (v_turns v) (v_garbage v) got q' (v_portions v) to_uart to_tcp [] Hgwf Hcut')
      as (c & b & ms & k & Eh & Hu & Hm & _).
    cbn [map visit_client tcp_task]. rewrite E, Eh. cbn [map concat fst].
    assert (take k got `sublist_of` frames) as Hsub
      by (etrans; [apply sublist_take|destruct Hg as [l ->]; by apply sublist_inserts_r]).
    destruct b.
    + destruct (IH Hwf (cl_to_uart c) (cl_to_tcp c) (if cl_open c then S sockets else sockets))
        as (ms' & got' & E' & Hm' & Hs' & Hw'). rewrite E', Hu. exists (ms ++ ms'), (take k got ++ got').
      split_and!; [by rewrite <-(assoc_L (++))|by apply Forall2_app|by apply sublist_app|].
      apply Forall_app. split; [by apply Forall_take|done].
    + exists ms, (take k got). cbn. split_and!; [done..| |by apply Forall_take].
      by apply sublist_inserts_r.
Qed.

(** ** What the task sends *)

Lemma omap_app_sublist {A B} (f : A -> option B) (l k : list A) :
  l `sublist_of` k -> omap f l `sublist_of` omap f k.
Proof.
  induction 1 as [|x l k _ IH|x l k _ IH]; cbn; [done|destruct (f x); [by constructor|done]|].
  destruct (f x); [by constructor|done].
Qed.

Section upstream.
Context {T Sock : Type} `{!NixTermios T}.
Implicit Types (t : ConnectionTask T Sock).

Lemma pty_config_wf polls (pty : AsyncPty T) buf c pty' buf' :
  pty_read polls pty buf = Some (Ok (PtyTermiosChange c), pty', buf') -> is_u32 (tc_baudrate c).
Proof.
  revert buf. induction polls as [|p polls IH]; intros buf; cbn; [done|].
  destruct (read_round p pty buf) as [r pty1 buf1|pty1 buf1] eqn:E.
  - intros [= -> -> ->]. unfold read_round in E. repeat (case_match; simplify_eq). cbn.
    unfold is_u32, speed_to_u32. case_match; lia.
  - apply round_again in E as (_ & -> & _). apply IH.
Qed.

(** The frames a step sends are well-formed, and so is the one it keeps. *)
Lemma step_frames_wf i t t' l :
  Forall device_wf (kept (conn_state t)) -> step i t = Finished tt t' l ->
  Forall device_wf (omap frame_sent l) /\ Forall device_wf (kept (conn_state t')).
Proof.
  assert (forall reqs closed, omap frame_sent (wait_log reqs closed) = []) as Hw.
  { intros. apply omap_wait_log; [by intros []|done]. }
  intros Hk H. step_cases t i H; rewrite ?omap_app, ?Hw; cbn; split; try done; auto;
    repeat constructor; try (by eapply pty_config_wf); try apply from_slice_wf;
    try (by apply Forall_singleton in Hk).
Qed.

Lemma steps_frames_wf t tr t' :
  steps t tr t' -> Forall device_wf (kept (conn_state t)) ->
  Forall device_wf (omap frame_sent tr) /\ Forall device_wf (kept (conn_state t')).
Proof.
  intros H Hk. induction H as [|t tr t1 i l t2 _ IH _ Hs]; [by split; [constructor|]|].
  destruct (IH Hk) as [H1 H2], (step_frames_wf _ _ _ _ (proj2 (IH Hk)) Hs) as [H3 H4].
  rewrite omap_app. split; [by apply Forall_app|done].
Qed.

Lemma sessions_wf cur tr :
  Forall device_wf cur -> Forall device_wf (omap frame_sent tr) ->
  Forall (fun s => Forall device_wf s.1 /\ from_option device_wf True s.2) (sessions cur tr).
Proof.
  revert cur. induction tr as [|i tr IH]; intros cur Hc Ht; cbn [sessions omap list_omap] in *.
  - by repeat constructor.
  - destruct i as [| |m [e|[]]|[e|m]| | | | |]; cbn [frame_sent] in Ht; try (by apply IH);
      try (apply Forall_cons in Ht as [Hm Ht]).
    + constructor; [done|]. by apply IH.
    + apply IH; [|done]. apply Forall_app. by split; [|repeat constructor].
    + constructor; [done|]. by apply IH.
Qed.

(** The data the connection accepted is data that was typed, in order. *)
Lemma accepted_data (tr : list interaction) :
  omap message_data (omap accepted tr) = omap message_data (omap pty_delivered tr).
Proof.
  induction tr as [|i tr IH]; [done|]. destruct i as [| |m [e|[]]| | | | | |]; cbn; try done.
  destruct m as [| |r|r]; cbn; by rewrite ?IH.
Qed.

Lemma typed_messages (tr : list interaction) : omap typed_data tr = omap message_data (omap pty_message tr).
Proof. unfold typed_data. induction tr as [|i tr IH]; [done|]. cbn. destruct (pty_message i); cbn; by rewrite IH. Qed.

Lemma sessions_unbroken cur l :
  existsb lost l = false -> sessions cur l = [(cur ++ omap accepted l, None)].
Proof.
  revert cur. induction l as [|i l IH]; intros cur; cbn [sessions omap list_omap existsb].
  - by rewrite app_nil_r.
  - destruct i as [| |m [e|[]]|[e|m]| | | | |]; cbn [accepted lost orb]; intros H; rewrite ?IH by done; try done.
    by rewrite <-(assoc_L (++)).
Qed.

Lemma step_unbroken i t t' l :
  task_inv t -> kept (conn_state t) = [] -> existsb lost l = false -> step i t = Finished tt t' l ->
  kept (conn_state t') = [].
Proof.
  intros [_ Hf _ _] Hk Hl H. step_cases t i H; try done; rewrite ?existsb_app in Hl; cbn in Hl;
    rewrite ?orb_true_r in Hl; try done.
Qed.

Lemma steps_unbroken t tr t' :
  task_inv t -> steps t tr t' -> kept (conn_state t) = [] -> existsb lost tr = false ->
  kept (conn_state t') = [].
Proof.
  intros Hi H Hk. induction H as [|t tr t1 i l t2 Hst IH _ Hs]; [done|].
  rewrite existsb_app, orb_false_iff. intros [H1 H2]. eapply step_unbroken; [|by apply IH|done|done].
  by eapply steps_inv.
Qed.

Lemma written_actions cfg frames :
  omap uart_written (concat (map (device_actions cfg) frames)) = omap message_data frames.
Proof.
  induction frames as [|f frames IH]; [done|]. cbn [map concat omap list_omap]. rewrite omap_app, IH.
  destruct f as [| |[]|]; cbn; unfold parity_action; repeat case_match; done.
Qed.

Lemma uart_actions_frames cfg visits ss :
  Forall2 (fun v s => arrives s (v_stream v)) visits ss ->
  Forall (fun s => Forall device_wf s.1 /\ from_option device_wf True s.2) ss ->
  exists got, uart_actions cfg visits = concat (map (device_actions cfg) got) /\
    got `sublist_of` concat (map fst ss).
Proof.
  intros Har Hwf. destruct (tcp_task_reads visits ss [] [] 0 Har Hwf) as (ms & got & E & Hm & Hs & Hg).
  exists got. split; [|done]. unfold uart_actions. rewrite E. by apply uart_tx_frames.
Qed.
End upstream.

(** ** What the task receives *)

Definition frame_received (i : interaction) : option DeviceMessage :=
  match i with FrameNext (TcpOk m) => Some m | _ => None end.

Lemma received_data (tr : list interaction) :
  omap device_data tr = omap message_data (omap frame_received tr).
Proof.
  induction tr as [|i tr IH]; [done|]. destruct i as [| | |[e|[n data| | |]]| | | | |]; cbn; try done. by rewrite IH.
Qed.

(** ** Properties *)

Section properties.
Context {T Sock : Type} `{!NixTermios T}.
Implicit Types (t : ConnectionTask T Sock).

(** Whatever happens to the network, what the UART is given is what was typed.
    The data written to the UART, over all the TCP sessions of a connection and
    however much of each the network delivers, is a subsequence of the packets
    the task read from the terminal: nothing is made up, doubled, reordered
    or cut in the middle. *)
Theorem uart_keeps_order name addr port (pty : AsyncPty T) tr (t' : ConnectionTask T Sock) cfg visits ss :
  steps (new_task name addr port pty) tr t' ->
  ss `prefix_of` sessions [] tr -> Forall2 (fun v s => arrives s (v_stream v)) visits ss ->
  omap uart_written (uart_actions cfg visits) `sublist_of` omap typed_data tr.
Proof.
  intros Hst [rest Hss] Har.
  destruct (steps_frames_wf _ _ _ Hst) as [Hwf _]; [constructor|].
  pose proof (sessions_wf [] tr (Forall_nil_2 _) Hwf) as Hswf. rewrite Hss in Hswf.
  apply Forall_app in Hswf as [Hswf _].
  destruct (uart_actions_frames cfg visits ss Har Hswf) as (got & -> & Hg). rewrite written_actions.
  destruct (steps_ledger _ _ _ (new_task_inv name addr port pty) Hst) as (lost & E & _). cbn in E.
  rewrite typed_messages, E, omap_app. apply sublist_inserts_r. rewrite <-accepted_data.
  apply omap_app_sublist. etrans; [exact Hg|]. change (omap accepted tr) with ([] ++ omap accepted tr).
  rewrite <-concat_sessions, Hss, map_app, concat_app. by apply sublist_inserts_r.
Qed.

(** While the connection holds, every byte typed reaches the UART: once the
    device has read the frames of an unbroken session, the UART was written
    exactly the packets read from the terminal, in order, between the line
    settings and resets asked for, in order. *)
Theorem typed_bytes_reach_uart name addr port (pty : AsyncPty T) tr (t' : ConnectionTask T Sock) cfg v :
  steps (new_task name addr port pty) tr t' ->
  existsb lost tr = false -> conn_state t' <> ShuttingDown ->
  v_stream v = concat (map device_wire (omap accepted tr)) ->
  (length (omap accepted tr) < v_turns v)%nat ->
  omap uart_written (uart_actions cfg [v]) = omap typed_data tr /\
  uart_actions cfg [v] = concat (map (device_actions cfg) (omap accepted tr)).
Proof.
  intros Hst Hl Hs Hv Hn. pose proof (new_task_inv (Sock:=Sock) name addr port pty) as Hi.
  destruct (steps_frames_wf _ _ _ Hst) as [Hwf _]; [constructor|].
  pose proof (sessions_wf [] tr (Forall_nil_2 _) Hwf) as Hswf. rewrite sessions_unbroken in Hswf by done.
  apply Forall_singleton in Hswf as [Hacc _]. cbn [fst app] in Hacc.
  destruct (visit_reads (v_turns v) (v_garbage v) (omap accepted tr) [] (v_portions v) [] [] [] Hacc)
    as (c & b & ms & k & E & Hu & Hm & Hk); [by left|]. destruct (Hk Hn) as [-> ->].
  rewrite app_nil_r, <-Hv in E. rewrite firstn_all in Hm.
  assert (uart_actions cfg [v] = concat (map (device_actions cfg) (omap accepted tr))) as Ea.
  { unfold uart_actions. cbn [map tcp_task visit_client]. rewrite E. cbn [fst]. rewrite Hu. cbn [app].
    by apply uart_tx_frames. }
  split; [|done]. rewrite Ea, written_actions, accepted_data, typed_messages.
  destruct (steps_ledger _ _ _ Hi Hst) as (gone & El & Hg & _). cbn in El.
  by rewrite El, (steps_unbroken _ _ _ Hi Hst eq_refl Hl), (Hg Hs), !app_nil_r.
Qed.

(** What the UART receives is written to the terminal: when the frames a
    connection receives are those of the firmware's reading loop, read in
    chunks of any size, the bytes written to the PTY so far and those of the
    frames still to come are exactly the bytes of the UART, in order. *)
Theorem uart_bytes_reach_pty {B} `{!BytesCrate B, !BytesLaws B} name addr port (pty : AsyncPty T) tr
    (t' : ConnectionTask T Sock) fuel arrivals buffered (buf : B) :
  (length buffered + length (concat arrivals) <= fuel)%nat -> as_ref buf = [] ->
  exists ms k, uart_rx fuel arrivals buffered = (ms, []) /\
    forall chunks rest, chunks <> [] -> concat chunks = concat (map fw_wire ms) ->
      steps (new_task name addr port pty) tr t' ->
      rx_items (feed_all device_decode buf chunks) = omap frame_received tr ++ rest ->
      concat (omap pty_written tr) ++ concat (omap message_data rest) = buffered ++ concat (take k arrivals).
Proof.
  intros Hf Hb. destruct (uart_rx_spec fuel arrivals buffered Hf) as (ms & k & E & Hc & Hms).
  exists ms, k. split; [done|]. intros chunks rest Hne Hch Hst Hrx.
  destruct (uart_frames_decoded ms buf chunks Hms Hb Hne Hch) as (Hi & _ & _).
  destruct (steps_downstream _ _ _ Hst) as [-> _]. rewrite received_data, <-concat_app, <-omap_app, <-Hrx, Hi, <-Hc.
  f_equal. clear. induction ms as [|m ms IH]; [done|].
  change (payload (zero_padded (from_slice (fw_payload m))) ::
    omap message_data (map (fun m => zero_padded (from_slice (fw_payload m))) ms) = fw_payload m :: map fw_payload ms).
  by rewrite IH, payload_decoded.
Qed.
End properties.

(** ** Witnesses *)

Module EndToEndWitness.
Import LinuxTermios ListBytes FirmwareWitness ConnectionWitness.

(** "hi" is typed and sent; "ok" is typed, its frame is cut, and sent again over
    a new connection; the first session loses the end of "hi". *)
Definition typing : list (step_input termios unit) := [
  InReconnecting [WaitDone (Ok tt, Ok tt)];
  InConnected (PtyReady [data_poll [x68; x69]] (Ok tt));
  InConnected (PtyReady [data_poll [x6f; x6b]] (Err reset_err));
  InReconnecting [WaitDone (Ok tt, Ok tt)];
  InResyncing [WaitDone (Ok tt)]].
Definition typing_end := Eval vm_compute in
  match run_steps typing fresh with Finished _ t l => (t, l) | _ => (fresh, []) end.
Lemma typing_run : run_steps typing fresh = Finished tt typing_end.1 typing_end.2.
Proof. by vm_compute. Qed.

Definition broken_visits : list visit :=
  [mkVisit [x01; x02; x68; x69; x01; x02; x6f] [1; 3]%nat [] 3; mkVisit [x01; x02; x6f; x6b] [2]%nat [] 2].

Lemma uart_keeps_order_witness :
  omap uart_written (uart_actions full_config broken_visits) = [[x68; x69]; [x6f; x6b]] /\
  omap uart_written (uart_actions full_config broken_visits) `sublist_of` omap typed_data typing_end.2.
Proof.
  split; [by vm_compute|].
  apply (uart_keeps_order _ _ _ _ _ _ full_config broken_visits (sessions [] typing_end.2)
    (run_steps_steps _ _ _ _ typing_run)); [done|].
  repeat constructor; cbn [fst snd v_stream].
  - exists [x01; x02; x6f]. split; [by exists []|]. by exists [x6b].
  - exists []. split; [by exists []|done].
Defined.

Definition fluent : list (step_input termios unit) := [
  InReconnecting [WaitDone (Ok tt, Ok tt)];
  InConnected (PtyReady [data_poll [x68; x69]] (Ok tt));
  InConnected (PtyReady [ioctl_poll LinuxTermios.fast] (Ok tt));
  InConnected (PtyReady [data_poll [x6f]] (Ok tt));
  InConnected (TcpReady (Some (Ok (from_slice [x3e; x20]))) (Ok tt));
  InConnected (TcpReady (Some (Ok (from_slice [x0a]))) (Ok tt))].
Definition fluent_end := Eval vm_compute in
  match run_steps fluent fresh with Finished _ t l => (t, l) | _ => (fresh, []) end.
Lemma fluent_run : run_steps fluent fresh = Finished tt fluent_end.1 fluent_end.2.
Proof. by vm_compute. Qed.

Definition fluent_visit : visit :=
  mkVisit (concat (map device_wire (omap accepted fluent_end.2))) [1; 1; 4]%nat [] 4.

Lemma typed_bytes_reach_uart_witness :
  omap typed_data fluent_end.2 = [[x68; x69]; [x6f]] /\
  omap uart_written (uart_actions full_config [fluent_visit]) = omap typed_data fluent_end.2.
Proof.
  split; [by vm_compute|].
  refine (proj1 (typed_bytes_reach_uart _ _ _ _ _ _ full_config fluent_visit
    (run_steps_steps _ _ _ _ fluent_run) _ _ _ _)); [by vm_compute|done|done|]. by apply Nat.ltb_lt.
Defined.

Lemma uart_bytes_reach_pty_witness : exists k,
  concat (omap pty_written fluent_end.2) ++ [] = [x3e; x20] ++ concat (take k [[x0a]]).
Proof.
  destruct (uart_bytes_reach_pty (B:=list u8) (T:=termios) (Sock:=unit) [x61] 1 2 (mkAsyncPty cooked)
    fluent_end.2 fluent_end.1 3 [[x0a]] [x3e; x20] []) as (ms & k & E & H); [by apply Nat.leb_le|done|].
  exists k. vm_compute in E. injection E as <-.
  apply (H [[x01; x02; x3e; x20; x01; x01; x0a]] []); [done|by vm_compute|exact (run_steps_steps _ _ _ _ fluent_run)|].
  by vm_compute.
Defined.
End EndToEndWitness.
