(* ===== verification/Device.v ===== *)
(** * The whole device (server/main)

    The tasks of [FirmwareTasks] with what they are connected to: the TCP
    streams of the clients that come one after the other, the receive buffer of
    the UART, and what each client has been sent.  What the tasks read, take and
    send is now computed from these by the functions of [Firmware], so the
    queues are bounded and the bytes are there in one model. *)
From S2P Require Import Prelude BytesApi Codec Framing DeviceMsg AsyncPty TcpBridge Connection Firmware FirmwareTasks EndToEnd.
From stdpp Require Import base numbers strings relations list.
#[local] Open Scope Z_scope.

(** ** State and steps *)

(** [dv_unread] is what the current client will still send, [dv_clients] what
    each client to come will; [dv_fifo] the receive buffer of the UART driver.
    [dv_gone], [dv_wire], [dv_received] and [dv_kept] record what earlier clients
    and the current one were sent, what arrived at the UART, and what of it
    there was room for in the buffer. *)
Record device := mkDevice {
  dv_fw : firmware;
  dv_clients : list (list u8);
  dv_unread : list u8;
  dv_fifo : list u8;
  dv_gone : list (list u8);
  dv_wire : list u8;
  dv_received : list u8;
  dv_kept : list u8;
}.

(** The second argument of [uart_driver_install]. *)
Definition UART_RX_BUFFER : nat := 1024.
#[global] Arguments UART_RX_BUFFER : simpl never.

Definition dev_init (clients : list (list u8)) : device := mkDevice fw_init clients [] [] [] [] [] [].

(** A call of a task that involves neither the socket nor the UART. *)
Definition internal_call (a : fw_action) : bool :=
  match a with Accept | SelectFails | ReadMsg _ | Send _ | RxReceive _ => false | _ => true end.

(** What happens: a call returns, or the UART receives bytes.  [DevSend None] is
    two [send]s that return what they were given; [DevSend (Some n)] one that
    fails when [n] bytes of the message have left.  [DevUartGets] says of every
    byte that arrives whether the driver keeps it. *)
Inductive dev_action :=
  | DevAccept
  | DevSelectFails
  | DevRead (portions : list nat) (garbage : list u8)
  | DevSend (failed : option nat)
  | DevUartGets (arrived : list (u8 * bool))
  | DevRxReceive
  | DevTask (a : fw_action).

Definition with_fw (fw : firmware) (d : device) : device :=
  mkDevice fw (dv_clients d) (dv_unread d) (dv_fifo d) (dv_gone d) (dv_wire d) (dv_received d) (dv_kept d).

(** [handle_client] returns. *)
Definition client_leaves (fw : firmware) (wire : list u8) (d : device) : device :=
  mkDevice fw (dv_clients d) [] (dv_fifo d) (dv_gone d ++ [wire]) [] (dv_received d) (dv_kept d).

(** The message of [uart_rx_task] for the first bytes of the buffer. *)
Definition rx_message (fifo : list u8) : Message :=
  let n := Nat.min (length fifo) MAX_MESSAGE_BODY_SIZE in
  mkMessage (u8_of MESSAGE_KIND_DATA) (u8_of (Z.of_nat n)) (copy_prefix (take n fifo) zero_array).

(** The bytes of a message that two [send]s put on the wire. *)
Definition sent_bytes (m : Message) (failed : option nat) : list u8 :=
  match failed with None => fw_wire m | Some n => take n (fw_wire m) end.

(** The bytes of those that arrive that the driver keeps; it only keeps what there
    is room for, and only loses bytes when there is no room for all of them. *)
Definition uart_kept (arrived : list (u8 * bool)) : list u8 :=
  omap (fun x : u8 * bool => if x.2 then Some x.1 else None) arrived.
Definition uart_may_keep (fifo : list u8) (arrived : list (u8 * bool)) : bool :=
  (length fifo + length (uart_kept arrived) <=? UART_RX_BUFFER)%nat &&
  (forallb snd arrived || (UART_RX_BUFFER <? length fifo + length arrived)%nat).

Lemma uart_kept_sublist arrived : uart_kept arrived `sublist_of` map fst arrived.
Proof.
  induction arrived as [|[b []] arrived IH]; [done|..]; cbn; [by apply sublist_skip|by apply sublist_cons].
Qed.

Lemma uart_keeps_all arrived : forallb snd arrived = true -> uart_kept arrived = map fst arrived.
Proof. induction arrived as [|[b []] arrived IH]; cbn; [done| |done]. intros H. f_equal. by apply IH. Qed.

Section device.
Context (cfg : fw_config).

Definition dev_exec (a : dev_action) (d : device) : option device :=
  let fw := dv_fw d in
  match a with
  | DevAccept =>
      match dv_clients d with
      | stream :: clients =>
          fw' ← fw_exec cfg Accept fw;
          Some (mkDevice fw' clients stream (dv_fifo d) (dv_gone d) (dv_wire d) (dv_received d) (dv_kept d))
      | [] => None
      end
  | DevSelectFails => fw' ← fw_exec cfg SelectFails fw; Some (client_leaves fw' (dv_wire d) d)
  | DevRead portions garbage =>
      match read_msg portions (dv_unread d) garbage with
      | Some (m, _, unread) =>
          fw' ← fw_exec cfg (ReadMsg (Some m)) fw;
          Some (mkDevice fw' (dv_clients d) unread (dv_fifo d) (dv_gone d) (dv_wire d) (dv_received d) (dv_kept d))
      | None => fw' ← fw_exec cfg (ReadMsg None) fw; Some (client_leaves fw' (dv_wire d) d)
      end
  | DevSend failed =>
      match fw_to_tcp fw with
      | m :: _ =>
          let wire := dv_wire d ++ sent_bytes m failed in
          match failed with
          | None =>
              fw' ← fw_exec cfg (Send true) fw;
              Some (mkDevice fw' (dv_clients d) (dv_unread d) (dv_fifo d) (dv_gone d) wire (dv_received d) (dv_kept d))
          | Some _ => fw' ← fw_exec cfg (Send false) fw; Some (client_leaves fw' wire d)
          end
      | [] => None
      end
  | DevUartGets arrived =>
      if uart_may_keep (dv_fifo d) arrived then
        Some (mkDevice fw (dv_clients d) (dv_unread d) (dv_fifo d ++ uart_kept arrived) (dv_gone d) (dv_wire d)
                (dv_received d ++ map fst arrived) (dv_kept d ++ uart_kept arrived))
      else None
  | DevRxReceive =>
      match dv_fifo d with
      | [] => None
      | fifo =>
          fw' ← fw_exec cfg (RxReceive (rx_message fifo)) fw;
          Some (mkDevice fw' (dv_clients d) (dv_unread d)
                  (drop (Nat.min (length fifo) MAX_MESSAGE_BODY_SIZE) fifo) (dv_gone d) (dv_wire d) (dv_received d) (dv_kept d))
      end
  | DevTask a =>
      if internal_call a then fw' ← fw_exec cfg a fw; Some (with_fw fw' d) else None
  end.

Fixpoint dev_run (acts : list dev_action) (d : device) : option device :=
  match acts with
  | [] => Some d
  | a :: acts => d ← dev_exec a d; dev_run acts d
  end.

Lemma dev_run_app acts1 acts2 d : dev_run (acts1 ++ acts2) d = d1 ← dev_run acts1 d; dev_run acts2 d1.
Proof.
  revert d. induction acts1 as [|a acts1 IH]; intros d; cbn; [done|]. destruct (dev_exec a d); cbn; [apply IH|done].
Qed.

(** One case per way an action goes. *)
Ltac device_cases_at H :=
  cbn [dev_exec] in H;
  repeat match type of H with
  | context [match ?x with _ => _ end] =>
      lazymatch x with
      | context [match _ with _ => _ end] => fail
      | _ => destruct x eqn:?; try discriminate H
      end
  end;
  try (let fw := fresh "fw" in let Hfw := fresh "Hfw" in apply bind_Some in H as (fw & Hfw & H));
  injection H as <-.
Ltac device_cases a H := destruct a; device_cases_at H.

(** Every step of the device is one of the firmware's tasks, or none. *)
Lemma dev_exec_fw a d d' : dev_exec a d = Some d' -> dv_fw d' = dv_fw d \/ fw_step cfg (dv_fw d) (dv_fw d').
Proof. intros H. device_cases a H; try (by left); right; by eexists. Qed.

Lemma dev_run_fw acts d d' : dev_run acts d = Some d' -> rtc (fw_step cfg) (dv_fw d) (dv_fw d').
Proof.
  revert d. induction acts as [|a acts IH]; intros d; cbn; [by intros [= ->]|].
  destruct (dev_exec a d) as [d1|] eqn:E; cbn; [|done]. intros H%IH.
  apply dev_exec_fw in E as [<-|E]; [done|by eapply rtc_l].
Qed.

Lemma dev_fw_inv clients acts d : dev_run acts (dev_init clients) = Some d -> fw_inv cfg (dv_fw d).
Proof. intros H. apply fw_reachable_inv. by apply (dev_run_fw acts (dev_init clients)). Qed.

(** An invariant of the device holds after every run. *)
Lemma dev_run_inv (P : device -> Prop) acts d d' :
  (forall a d d', P d -> dev_exec a d = Some d' -> P d') -> P d -> dev_run acts d = Some d' -> P d'.
Proof.
  intros HP. revert d. induction acts as [|a acts IH]; intros d Hd; cbn; [by intros [= <-]|].
  destruct (dev_exec a d) as [d1|] eqn:E; cbn; [|done]. apply IH. by eapply HP.
Qed.

(** ** What an action of the tasks records *)

Ltac exec_cases a H := destruct a; cbn in H; repeat (case_match; simplify_eq); cbn; rewrite ?app_nil_r.

Lemma exec_read a s s' : fw_exec cfg a s = Some s' ->
  fw_read s' = fw_read s ++ match a with ReadMsg (Some m) => [m] | _ => [] end.
Proof. intros H. exec_cases a H; done. Qed.

Lemma exec_out a s s' : fw_exec cfg a s = Some s' ->
  fw_out s' = fw_out s ++ match a with Send sent => map (fun m => (m, sent)) (take 1 (fw_to_tcp s)) | _ => [] end.
Proof. intros H. exec_cases a H; by rewrite ?app_nil_r. Qed.

(** The message a UART task is about to queue; the data of a message. *)
Definition uart_hand (pc : uart_pc) : list Message := match pc with UartQueueing m => [m] | _ => [] end.
Definition msg_data (m : Message) : option (list u8) :=
  if u8_val (hdr_kind m) =? MESSAGE_KIND_DATA then Some (fw_payload m) else None.

(** What [handle_control] queues, and what [uart_rx_task] does. *)
Definition is_response (m : Message) : Prop := m = response x01 \/ m = response x02.
Definition is_rx (m : Message) : Prop := exists fifo, fifo <> [] /\ m = rx_message fifo.

Lemma tx_queues_responses m : Forall is_response (omap queued_message (uart_tx cfg m)).
Proof.
  unfold uart_tx, apply_config, handle_control. repeat case_match; cbn; try constructor; unfold is_response; auto.
Qed.

Lemma after_tx_hand acts : uart_hand (after_tx acts) = take 1 (omap queued_message acts).
Proof. unfold after_tx. by destruct (omap _ _). Qed.

Lemma data_response m : is_response m -> msg_data m = None.
Proof. by intros [-> | ->]. Qed.

(** What the UART tasks have in hand is what they make, and so is what they
    queued; the data among it is what [uart_rx_task] made, in order. *)
Record hands_inv (s : firmware) : Prop := {
  hi_tx : Forall is_response (uart_hand (fw_tx s));
  hi_rx : Forall is_rx (uart_hand (fw_rx s));
  hi_queued : Forall (fun m => is_response m \/ is_rx m) (fw_queued s);
}.

Definition rx_taken (a : fw_action) : list Message := match a with RxReceive m => [m] | _ => [] end.
Definition data_out (s : firmware) : list (list u8) := omap msg_data (fw_queued s ++ uart_hand (fw_rx s)).

Lemma exec_hands a s s' :
  hands_inv s -> Forall is_rx (rx_taken a) -> fw_exec cfg a s = Some s' ->
  hands_inv s' /\ data_out s' = data_out s ++ omap msg_data (rx_taken a).
Proof.
  intros [H1 H2 H3] Ha H. unfold data_out. exec_cases a H; (split; [split; cbn in *|]); cbn;
    repeat match goal with H : fw_tx s = _ |- _ => rewrite H in *; clear H | H : fw_rx s = _ |- _ => rewrite H in *; clear H end;
    cbn in *; rewrite ?app_nil_r, <-?app_assoc, ?omap_app; cbn; try done.
  - rewrite after_tx_hand. apply Forall_take, tx_queues_responses.
  - apply Forall_cons in H1 as [H1 _]. apply Forall_app. split; [done|]. constructor; [by left|constructor].
  - apply Forall_cons in H1 as [H1 _]. by rewrite (data_response _ H1).
  - apply Forall_cons in H2 as [H2 _]. apply Forall_app. split; [done|]. constructor; [by right|constructor].
Qed.

#[local] Arguments fw_exec : simpl never.
#[local] Arguments MAX_MESSAGE_BODY_SIZE : simpl never.

(** ** What reaches the clients *)

(** What there was room for is what [uart_rx_task] has made messages of and what
    is still in the buffer, and some of what arrived; what a client was sent is the start of the
    messages taken off the queue for it. *)
Definition group_wire (g : list (Message * bool)) : list u8 := concat (map (fun x => fw_wire x.1) g).

Definition wires_inv (out : list (Message * bool)) (gone : list (list u8)) (wire : list u8) : Prop :=
  exists groups cur, out = concat groups ++ cur /\
    Forall2 (fun w g => w `prefix_of` group_wire g) gone groups /\ wire = group_wire cur.

Record down_inv (d : device) : Prop := {
  di_hands : hands_inv (dv_fw d);
  di_kept : dv_kept d = concat (data_out (dv_fw d)) ++ dv_fifo d;
  di_received : dv_kept d `sublist_of` dv_received d;
  di_wires : wires_inv (fw_out (dv_fw d)) (dv_gone d) (dv_wire d);
}.

Lemma rx_message_spec fifo : fifo <> [] ->
  fw_payload (rx_message fifo) = take (Nat.min (length fifo) MAX_MESSAGE_BODY_SIZE) fifo /\
  msg_data (rx_message fifo) = Some (fw_payload (rx_message fifo)) /\
  fw_wire (rx_message fifo) = device_wire (from_slice (fw_payload (rx_message fifo))).
Proof.
  intros Hf. set (n := Nat.min (length fifo) MAX_MESSAGE_BODY_SIZE).
  destruct (uart_rx_spec (length fifo) [] fifo ltac:(cbn; lia)) as (ms & k & E & Hc & Hms).
  assert (n <= 255)%nat by (unfold n, MAX_MESSAGE_BODY_SIZE; lia).
  assert (fw_payload (rx_message fifo) = take n fifo) as Hp.
  { unfold fw_payload, rx_message. cbn [hdr_len msg_body]. fold n. rewrite u8_usize_of by lia.
    apply take_copy_prefix. rewrite length_take. lia. }
  split_and!; [done|done|]. destruct fifo as [|b fifo]; [done|]. cbn [length uart_rx] in E.
  destruct (uart_rx _ _ _) as [ms' rest]. injection E as <- _. apply Forall_cons in Hms as [[Hw _] _]. exact Hw.
Qed.

Lemma wires_send out gone wire m :
  wires_inv out gone wire -> wires_inv (out ++ [(m, true)]) gone (wire ++ fw_wire m).
Proof.
  intros (groups & cur & -> & Hg & ->). exists groups, (cur ++ [(m, true)]).
  split_and!; [by rewrite (assoc_L (++))|done|]. unfold group_wire. by rewrite map_app, concat_app; cbn; rewrite app_nil_r.
Qed.

Lemma wires_leave out gone wire last bytes :
  wires_inv out gone wire -> bytes `prefix_of` group_wire last ->
  wires_inv (out ++ last) (gone ++ [wire ++ bytes]) [].
Proof.
  intros (groups & cur & -> & Hg & ->) Hb. exists (groups ++ [cur ++ last]), [].
  split_and!; [|apply Forall2_app; [done|]|done].
  - rewrite concat_app. cbn. by rewrite !app_nil_r, (assoc_L (++)).
  - repeat constructor. unfold group_wire in *. rewrite map_app, concat_app. by apply prefix_app.
Qed.

(** The three ways an action of the tasks changes what was taken off the queue. *)
Lemma exec_no_send a s s' : fw_exec cfg a s = Some s' ->
  match a with Send _ => False | _ => True end -> fw_out s' = fw_out s.
Proof. intros H Ha. rewrite (exec_out _ _ _ H). destruct a; by rewrite ?app_nil_r. Qed.

Lemma rx_step fifo s s' :
  hands_inv s -> fifo <> [] -> fw_exec cfg (RxReceive (rx_message fifo)) s = Some s' ->
  hands_inv s' /\ fw_out s' = fw_out s /\
  concat (data_out s') ++ drop (Nat.min (length fifo) MAX_MESSAGE_BODY_SIZE) fifo = concat (data_out s) ++ fifo.
Proof.
  intros Hh Hf H. destruct (rx_message_spec fifo Hf) as (Hp & Hm & _).
  assert (Forall is_rx (rx_taken (RxReceive (rx_message fifo)))) as Hb by (constructor; [by exists fifo|constructor]).
  destruct (exec_hands _ _ _ Hh Hb H) as [Hh' Hd].
  split_and!; [done|by apply (exec_no_send _ _ _ H)|]. rewrite Hd. cbn [rx_taken omap list_omap]. rewrite Hm, Hp, concat_app.
  cbn [concat]. by rewrite app_nil_r, <-(assoc_L (++)), take_drop.
Qed.

Lemma dev_exec_down a d d' : down_inv d -> dev_exec a d = Some d' -> down_inv d'.
Proof.
  intros [Hh Hr Hk Hw] H. device_cases a H;
    try (match type of Hfw with fw_exec _ (RxReceive _) _ = _ => idtac end;
         pose proof (fun Hf => rx_step _ _ _ Hh Hf Hfw) as Hrx; specialize (Hrx ltac:(done)));
    cbn in *; try match type of Hfw with fw_exec _ ?b _ = _ =>
      match b with RxReceive _ => fail 1 | _ => idtac end;
      assert (Forall is_rx (rx_taken b)) as Hb by (try (destruct b; try done; by constructor); constructor);
      destruct (exec_hands b _ _ Hh Hb Hfw) as [Hh' Hd] end;
    split; cbn; try done; try (by rewrite Hd, Hr; destruct a; cbn; rewrite ?app_nil_r);
    try (by rewrite Hd; cbn; rewrite ?app_nil_r); try (by rewrite (exec_no_send _ _ _ Hfw I)).
  1, 2: rewrite (exec_no_send _ _ _ Hfw I), <-(app_nil_r (fw_out _)), <-(app_nil_r (dv_wire d));
    by apply wires_leave; [|apply prefix_nil].
  - rewrite (exec_out _ _ _ Hfw), Heql. cbn. apply wires_leave; [done|].
    unfold group_wire. cbn. rewrite app_nil_r. apply prefix_take.
  - rewrite (exec_out _ _ _ Hfw), Heql. cbn. by apply wires_send.
  - by rewrite Hr, (assoc_L (++)).
  - apply sublist_app; [done|]. apply uart_kept_sublist.
  - by apply Hrx.
  - rewrite Hr. symmetry. by apply Hrx.
  - rewrite (exec_no_send _ _ _ Hfw); [done|by destruct a].
Qed.

(** ** What comes from the clients *)

(** What was read, what the current client and those to come will still be
    read of: some of what was sent, in order, and all of it as long as no
    client has left. *)
Definition cut_stream (stream : list u8) (frames : list DeviceMessage) : Prop :=
  exists q, cut_frame q /\ stream = concat (map device_wire frames) ++ q.

Definition up_inv (sent : list DeviceMessage) (d : device) : Prop :=
  exists read rest later,
    Forall2 same_frame (fw_read (dv_fw d)) read /\
    cut_stream (dv_unread d) rest /\ Forall2 cut_stream (dv_clients d) later /\
    Forall device_wf (read ++ rest ++ concat later) /\
    (fw_tcp (dv_fw d) = TcpAccepting -> rest = []) /\
    (read ++ rest ++ concat later) `sublist_of` sent /\
    (dv_gone d = [] -> read ++ rest ++ concat later = sent).

Lemma exec_accept a s s' : fw_exec cfg a s = Some s' ->
  match a with Accept => fw_tcp s = TcpAccepting /\ fw_tcp s' <> TcpAccepting
  | SelectFails | ReadMsg None | Send false => True
  | ReadMsg (Some _) => fw_tcp s' <> TcpAccepting
  | _ => fw_tcp s' = TcpAccepting -> fw_tcp s = TcpAccepting end.
Proof.
  intros H. unfold fw_exec in H. destruct a; repeat (case_match; simplify_eq); cbn; intros; repeat case_match; simplify_eq; split_and?; done.
Qed.

Lemma cut_read portions garbage stream frames :
  Forall device_wf frames -> cut_stream stream frames ->
  match read_msg portions stream garbage with
  | Some (m, _, unread) => exists f rest, frames = f :: rest /\ same_frame m f /\ cut_stream unread rest
  | None => frames = []
  end.
Proof.
  intros Hwf (q & Hq & ->). destruct frames as [|f frames]; cbn [map concat app].
  - by rewrite read_msg_cut.
  - apply Forall_cons in Hwf as [Hf _]. rewrite <-(assoc_L (++)).
    destruct (read_msg_wire portions f (concat (map device_wire frames) ++ q) garbage Hf) as (m & p & -> & Hm).
    exists f, frames. split_and!; [done|done|by exists q].
Qed.

Lemma up_leaves sent d fw wire :
  up_inv sent d -> fw_read fw = fw_read (dv_fw d) -> up_inv sent (client_leaves fw wire d).
Proof.
  intros (read & rest & later & Hm & Hu & Hl & Hwf & _ & Hs & _) E. exists read, [], later. cbn. rewrite E.
  rewrite !Forall_app in Hwf. destruct Hwf as (Hw1 & _ & Hw3).
  split_and!; [done|by exists []; split; [left|]|done|by apply Forall_app|done| |by destruct (dv_gone d)].
  etrans; [|exact Hs]. apply sublist_app; [done|]. by apply sublist_inserts_l.
Qed.

Lemma up_stays sent d d' :
  up_inv sent d -> fw_read (dv_fw d') = fw_read (dv_fw d) -> dv_unread d' = dv_unread d ->
  dv_clients d' = dv_clients d -> dv_gone d' = dv_gone d ->
  (fw_tcp (dv_fw d') = TcpAccepting -> fw_tcp (dv_fw d) = TcpAccepting) -> up_inv sent d'.
Proof.
  intros (read & rest & later & Hup) E1 E2 E3 E4 E5. exists read, rest, later. rewrite E1, E2, E3, E4.
  destruct Hup as (? & ? & ? & ? & Hacc & ?). split_and!; auto; tauto.
Qed.

Lemma dev_exec_up sent a d d' : up_inv sent d -> dev_exec a d = Some d' -> up_inv sent d'.
Proof.
  intros Hup H. device_cases a H;
    try (pose proof (exec_read _ _ _ Hfw) as Hread; pose proof (exec_accept _ _ _ Hfw) as Htcp; cbn in Hread, Htcp;
         rewrite ?app_nil_r in Hread);
    try (by apply up_leaves); try (by apply (up_stays sent d)).
  - destruct Hup as (read & rest & later & Hm & Hu & Hl & Hwf & Hacc & Hs & He).
    assert (rest = []) as -> by by apply Hacc, Htcp. rewrite Heql in Hl. apply Forall2_cons_inv_l in Hl as (g & later' & Hg & Hl & ->).
    exists read, g, later'. cbn. rewrite Hread. split_and!; try done. intros E. by destruct Htcp as [_ []].
  - destruct Hup as (read & rest & later & Hm & Hu & Hl & Hwf & Hacc & Hs & He).
    rewrite !Forall_app in Hwf. destruct Hwf as (Hw1 & Hw2 & Hw3).
    pose proof (cut_read portions garbage _ _ Hw2 Hu) as Hc. rewrite Heqo in Hc.
    destruct Hc as (f & rest' & -> & Hf & Hu'). exists (read ++ [f]), rest', later. cbn. rewrite Hread.
    rewrite <-!(assoc_L (++)). cbn. split_and!; try done; [by apply Forall2_app; [|constructor]|].
    apply Forall_app; split; [done|]. apply (Forall_app device_wf (f :: rest') (concat later)). by split.
  - apply (up_stays sent d); try done; cbn.
    + rewrite Hread. destruct a; by rewrite ?app_nil_r.
    + by destruct a.
Qed.

(** A run over clients whose streams are what arrives of frames. *)
Lemma dev_run_up acts clients frames d :
  Forall2 cut_stream clients frames -> Forall (Forall device_wf) frames ->
  dev_run acts (dev_init clients) = Some d -> up_inv (concat frames) d.
Proof.
  intros Hc Hwf. apply dev_run_inv; [apply dev_exec_up|]. exists [], [], frames. cbn. split_and!; try done.
  - by exists []; split; [left|].
  - by apply Forall_concat.
Qed.

Lemma dev_init_down clients : down_inv (dev_init clients).
Proof. split; [by split; cbn|done|done|]. exists [], []. by split_and!. Qed.

Lemma dev_run_down acts clients d : dev_run acts (dev_init clients) = Some d -> down_inv d.
Proof. apply dev_run_inv; [apply dev_exec_down|apply dev_init_down]. Qed.

(** Never do more bytes arrive than there is room for: then all of them are kept. *)
Definition always_room (acts : list dev_action) (d : device) : Prop :=
  forall acts1 arrived acts2 d1, acts = acts1 ++ DevUartGets arrived :: acts2 -> dev_run acts1 d = Some d1 ->
    (length (dv_fifo d1) + length arrived <= UART_RX_BUFFER)%nat.

Lemma dev_run_room acts d d' :
  dv_kept d = dv_received d -> always_room acts d -> dev_run acts d = Some d' -> dv_kept d' = dv_received d'.
Proof.
  revert d. induction acts as [|a acts IH]; intros d Hd Hroom; cbn; [by intros [= <-]|].
  destruct (dev_exec a d) as [d1|] eqn:E; cbn; [|done]. apply IH.
  - clear IH. destruct a; try by (device_cases_at E; cbn in *).
    cbn [dev_exec] in E. unfold uart_may_keep in E. pose proof (Hroom [] arrived acts d eq_refl eq_refl) as Hl.
    rewrite (proj2 (Nat.ltb_ge _ _) Hl), orb_false_r in E. destruct (forallb snd arrived) eqn:Ek; [|by rewrite andb_false_r in E].
    destruct (_ <=? _)%nat; [|done]. injection E as <-. cbn. by rewrite Hd, uart_keeps_all.
  - intros acts1 arrived acts2 d2 -> H. apply (Hroom (a :: acts1) arrived acts2); [done|]. cbn. by rewrite E.
Qed.

(** What was read of the clients, and what the UART was told. *)
Lemma up_done sent d : fw_inv cfg (dv_fw d) -> up_inv sent d ->
  exists got, fw_done (dv_fw d) = concat (map (device_actions cfg) got) /\ got `sublist_of` sent /\
    (dv_gone d = [] -> got `prefix_of` sent).
Proof.
  intros Hi (read & rest & later & Hm & _ & _ & Hwf & _ & Hs & He).
  set (k := length (fw_taken (dv_fw d))). exists (take k read).
  assert (fw_taken (dv_fw d) = take k (fw_read (dv_fw d))) as Et
    by (unfold k; by rewrite (fi_read _ _ Hi), take_app_length).
  split_and!.
  - rewrite (fi_done _ _ Hi). apply uart_tx_frames.
    + apply Forall_take. by apply Forall_app in Hwf as [? _].
    + rewrite Et. by apply Forall2_take.
  - etrans; [apply sublist_take|]. etrans; [|exact Hs]. by apply sublist_inserts_r.
  - intros Hg. rewrite <-(He Hg). exists (drop k read ++ rest ++ concat later).
    by rewrite (app_assoc (take k read)), take_drop.
Qed.

(** When everything was read and done. *)
Lemma up_all sent d : fw_inv cfg (dv_fw d) -> up_inv sent d -> fw_to_uart (dv_fw d) = [] ->
  in_hand (fw_tcp (dv_fw d)) = [] -> dv_gone d = [] -> dv_unread d = [] -> dv_clients d = [] ->
  fw_done (dv_fw d) = concat (map (device_actions cfg) sent).
Proof.
  intros Hi (read & rest & later & Hm & (q & _ & Eq) & Hl & Hwf & _ & _ & He) Eu Ep Eg Er Ec.
  rewrite Ec in Hl. apply Forall2_nil_inv_l in Hl as ->. rewrite Er in Eq.
  symmetry in Eq. apply app_nil in Eq as [Eq _]. assert (rest = []) as -> by (by destruct rest).
  specialize (He Eg). cbn in He. rewrite app_nil_r in He. subst sent. rewrite (fi_done _ _ Hi). apply uart_tx_frames.
  - by apply Forall_app in Hwf as [? _].
  - by rewrite (fi_read _ _ Hi), Eu, Ep, !app_nil_r in Hm.
Qed.
End device.

(** ** The daemon's side *)

(** Sessions whose frames arrive are clients that send those frames. *)
Lemma arrives_cut streams ss :
  Forall2 (fun stream s => arrives s stream) streams ss ->
  Forall (fun s => Forall device_wf s.1 /\ from_option device_wf True s.2) ss ->
  exists frames, Forall2 cut_stream streams frames /\ Forall (Forall device_wf) frames /\
    concat frames `sublist_of` concat (map fst ss).
Proof.
  intros Har Hwf. induction Har as [|stream [frames cut] streams ss (q & Hp & Hq) _ IH].
  - exists []. by split_and!.
  - apply Forall_cons in Hwf as [[Hf Hc] Hwf]. cbn [fst snd] in *.
    assert (cut_frame q) as Hcut.
    { destruct cut as [f|]; [|by left]. destruct Hq as (l & Hl & E). right. by exists f, l. }
    destruct (prefix_frames frames q stream Hf Hcut Hp) as (got & q' & [l ->] & Hcut' & ->).
    destruct (IH Hwf) as (fs & H1 & H2 & H3). exists (got :: fs). apply Forall_app in Hf as [Hg _].
    split_and!; [by constructor; [exists q'|]|by constructor|]. cbn. apply sublist_app; [|done].
    by apply sublist_inserts_r.
Qed.

(** The frames the task received in each TCP session. *)
Fixpoint receptions (cur : list DeviceMessage) (l : list interaction) : list (list DeviceMessage) :=
  match l with
  | [] => [cur]
  | FrameSend _ (Disconnected _) :: l | FrameNext (Disconnected _) :: l => cur :: receptions [] l
  | FrameNext (TcpOk m) :: l => receptions (cur ++ [m]) l
  | _ :: l => receptions cur l
  end.

Lemma concat_receptions cur l : concat (receptions cur l) = cur ++ omap frame_received l.
Proof.
  revert cur. induction l as [|i l IH]; intros cur; cbn [receptions omap list_omap].
  - cbn. by rewrite app_nil_r.
  - destruct i as [| |m [e|[]]|[e|m]| | | | |]; cbn [frame_received concat]; rewrite ?IH; try done.
    by rewrite <-(assoc_L (++)).
Qed.

(** What a session of the daemon receives of what the client was sent: the
    items decoded from some start of it, read in chunks. *)
Definition hears {B} `{!BytesCrate B} (wire : list u8) (received : list DeviceMessage) : Prop :=
  exists (buf : B) chunks, as_ref buf = [] /\ chunks <> [] /\ concat chunks `prefix_of` wire /\
    received `prefix_of` rx_items (feed_all device_decode buf chunks).
Arguments hears B {_} wire received.

(** The answer a frame is to a control request, and a message. *)
Definition frame_answer (f : DeviceMessage) : option DeviceControlResponse :=
  match f with ControlRes resp => Some resp | _ => None end.
Definition msg_answer (m : Message) : option DeviceControlResponse :=
  if u8_val (hdr_kind m) =? MESSAGE_KIND_RESPONSE
  then Some (if u8_val (body_byte 0 m) =? 1 then DevOk else DevNotSupported) else None.

(** The frame a message of the firmware is. *)
Definition message_frame (m : Message) (f : DeviceMessage) : Prop :=
  device_wf f /\ fw_wire m = device_wire f /\ message_data (zero_padded f) = msg_data m /\
  frame_answer (zero_padded f) = msg_answer m.

Lemma message_has_frame m : is_response m \/ is_rx m -> exists f, message_frame m f.
Proof.
  intros [[-> | ->]|(fifo & Hf & ->)].
  - by exists (ControlRes DevOk).
  - by exists (ControlRes DevNotSupported).
  - destruct (rx_message_spec fifo Hf) as (_ & Hm & Hw). exists (from_slice (fw_payload (rx_message fifo))).
    split_and!; [apply from_slice_wf|done| |done]. rewrite Hm.
    change (Some (payload (zero_padded (from_slice (fw_payload (rx_message fifo))))) = Some (fw_payload (rx_message fifo))).
    by rewrite payload_decoded.
Qed.

Lemma omap_prefix {A B} (f : A -> option B) (l k : list A) : l `prefix_of` k -> omap f l `prefix_of` omap f k.
Proof. intros [x ->]. rewrite omap_app. by exists (omap f x). Qed.

(** What is looked at of frames ([view]) and of messages ([part]), the data or
    the answers. *)
Section hearing.
Context {B : Type} `{!BytesCrate B, !BytesLaws B}.
Context {A : Type} (view : DeviceMessage -> option A) (part : Message -> option A).
Hypothesis view_part : forall m f, message_frame m f -> view (zero_padded f) = part m.

(** A daemon that hears a group of messages decodes the first of them. *)
Lemma hears_group wire g received :
  Forall (fun x => exists f, message_frame x.1 f) g -> wire `prefix_of` group_wire g -> hears B wire received ->
  omap view received `prefix_of` omap part (map fst g).
Proof.
  intros Hg Hw (buf & chunks & Hb & Hne & Hc & Hr).
  assert (exists fs, Forall2 message_frame (map fst g) fs) as [fs Hfs].
  { clear -Hg. induction Hg as [|x g [f Hf] _ [fs IH]]; [by exists []|]. exists (f :: fs). by constructor. }
  assert (group_wire g = concat (map device_wire fs) /\ Forall device_wf fs /\
    omap view (map zero_padded fs) = omap part (map fst g)) as (E & Hwf & Hd).
  { unfold group_wire. rewrite <-(map_map fst fw_wire). revert Hfs. generalize (map fst g). clear -view_part.
    intros ms0 Hfs. induction Hfs as [|m f ms fs Hm _ (IH1 & IH2 & IH3)]; [done|].
    cbn [map concat omap list_omap]. rewrite (view_part _ _ Hm), IH1, IH3. destruct Hm as (H1 & -> & _).
    split_and!; [done|by constructor|done]. }
  destruct (prefix_frames fs [] (concat chunks) Hwf) as (got & q & [l ->] & Hq & Ec); [by left| |].
  { rewrite app_nil_r, <-E. by etrans. }
  apply Forall_app in Hwf as [Hgot _].
  destruct (device_feed (B:=B) got q buf chunks Hgot) as (Hi & _ & _); [|done..|].
  { destruct Hq as [->|(f & l' & Hf & Hl & E')]; [done|]. by eapply device_spec_partial. }
  rewrite Hi in Hr. rewrite <-Hd, map_app, omap_app. etrans; [by apply omap_prefix|]. by eexists.
Qed.

Lemma hears_groups wires groups received :
  Forall (fun x => exists f, message_frame x.1 f) (concat groups) ->
  Forall2 (fun w g => w `prefix_of` group_wire g) wires groups -> Forall2 (hears B) wires received ->
  omap view (concat received) `sublist_of` omap part (map fst (concat groups)).
Proof.
  intros Hf Hw. revert received. induction Hw as [|w g wires groups Hw _ IH]; intros received Hr.
  - by apply Forall2_nil_inv_l in Hr as ->.
  - apply Forall2_cons_inv_l in Hr as (r & received' & Hr & Hrs & ->). cbn [concat] in *.
    apply Forall_app in Hf as [Hf1 Hf2]. rewrite map_app, !omap_app. apply sublist_app; [|by apply IH].
    destruct (hears_group _ _ _ Hf1 Hw Hr) as [l ->]. by apply sublist_inserts_r.
Qed.
End hearing.

(** What the daemon hears of all clients, the last of them being it, is what the
    device took off its queue, in order. *)
Lemma device_heard {B} `{!BytesCrate B, !BytesLaws B} cfg {A} (view : DeviceMessage -> option A)
    (part : Message -> option A) acts streams d tr k :
  (forall m f, message_frame m f -> view (zero_padded f) = part m) -> dev_run cfg acts (dev_init streams) = Some d ->
  Forall2 (hears B) (dv_gone d ++ dv_wire d :: replicate k []) (receptions [] tr) ->
  omap view (omap frame_received tr) `sublist_of` omap part (map fst (fw_out (dv_fw d))).
Proof.
  intros Hvp Hd Hh. destruct (dev_run_down _ _ _ _ Hd) as [[_ _ Hq] _ _ (groups & cur & Eo & Hg & Hw)].
  pose proof (fi_queued _ _ (dev_fw_inv _ _ _ _ Hd)) as Ef.
  change (omap frame_received tr) with ([] ++ omap frame_received tr). rewrite <-concat_receptions.
  assert (concat (replicate k (@nil (Message * bool))) = []) as Ek by (clear; induction k; [done|cbn; done]).
  assert (fw_out (dv_fw d) = concat (groups ++ cur :: replicate k [])) as Eo'
    by (rewrite Eo, concat_app; cbn; by rewrite Ek, app_nil_r).
  rewrite Eo'. apply (hears_groups view part Hvp (dv_gone d ++ dv_wire d :: replicate k [])); [| |done].
  - rewrite <-Eo'. rewrite Ef in Hq. apply Forall_app in Hq as [Hq _]. rewrite Forall_map in Hq.
    eapply Forall_impl; [exact Hq|]. intros x. apply message_has_frame.
  - apply Forall2_app; [done|]. constructor; [by rewrite Hw|]. clear. induction k; constructor; [apply prefix_nil|done].
Qed.

(** ** Coming to rest *)

(** What happens while the client says nothing, the UART receives nothing, and
    the network takes what it is given. *)
Definition settling (a : dev_action) : bool :=
  match a with
  | DevSend failed => match failed with None => true | Some _ => false end
  | DevRxReceive => true
  | DevTask SelectClient => false
  | DevTask a => internal_call a
  | _ => false
  end.

(** A client is connected, and none of its frames is half read. *)
Definition serving (d : device) : bool :=
  match fw_tcp (dv_fw d) with TcpSelecting | TcpQueueing _ _ | TcpDraining => true | _ => false end.

Definition at_rest (d : device) : Prop :=
  fw_to_uart (dv_fw d) = [] /\ fw_to_tcp (dv_fw d) = [] /\ dv_fifo d = [] /\
  fw_tx (dv_fw d) = UartIdle /\ fw_rx (dv_fw d) = UartIdle /\ fw_tcp (dv_fw d) = TcpSelecting.

(** Work left: every message is worth more than what becomes of it. *)
Definition uart_work (pc : uart_pc) : nat :=
  match pc with UartIdle => 0 | UartQueueing _ => 8 | UartSignalling => 3 end.
Definition work (d : device) : nat :=
  let s := dv_fw d in
  (10 * length (fw_to_uart s) + 4 * length (fw_to_tcp s) + 10 * length (dv_fifo d) +
   uart_work (fw_tx s) + uart_work (fw_rx s) + (if fw_efd s then 2 else 0) +
   match fw_tcp s with TcpDraining => 1 | TcpQueueing _ _ => 12 | _ => 0 end)%nat.

Section rest.
Context (cfg : fw_config).

Lemma after_tx_work acts : (uart_work (after_tx acts) <= 8)%nat.
Proof. unfold after_tx. destruct (omap _ _); cbn; lia. Qed.

(** What a settling action keeps, and that it takes work away. *)
Lemma settling_step a d d' :
  serving d = true -> forallb snd (fw_out (dv_fw d)) = true -> settling a = true -> dev_exec cfg a d = Some d' ->
  serving d' = true /\ forallb snd (fw_out (dv_fw d')) = true /\ (work d' < work d)%nat /\
  fw_read (dv_fw d') = fw_read (dv_fw d) /\ dv_kept d' = dv_kept d /\ dv_gone d' = dv_gone d.
Proof.
  intros Hs Ho Ha H. unfold serving, work in *.
  destruct a as [| | |[n|]| | |a]; try done; cbn in Ha.
  - cbn in H. destruct (fw_to_tcp (dv_fw d)) as [|m queue] eqn:Eq; [done|].
    destruct (fw_tcp (dv_fw d)) eqn:Et; try done. cbn in H. injection H as <-. cbn. rewrite forallb_app, Ho.
    split_and!; try done. lia.
  - cbn in H. destruct (dv_fifo d) as [|b fifo] eqn:Ef; [done|]. destruct (fw_rx (dv_fw d)) eqn:Ex; try done.
    cbn in H. injection H as <-. cbn. split_and!; try done. destruct fifo; cbn; rewrite ?length_drop; lia.
  - cbn [dev_exec] in H. assert (internal_call a = true) as Hi by (by destruct a). rewrite Hi in H.
    apply bind_Some in H as (fw & Hfw & [= <-]).
    destruct d as [[pc tx rx to_uart to_tcp efd ? ? ? out ?] clients unread fifo gone wire received kept].
    cbn -[Nat.mul] in *.
    destruct pc as [| | |? []|], a; try done; cbn in Hfw; repeat (case_match; simplify_eq); cbn -[Nat.mul]; rewrite ?length_app; cbn -[Nat.mul];
      try match goal with |- context [after_tx ?acts] => pose proof (after_tx_work acts) end;
      split_and!; try done; lia.
Qed.

Lemma settling_run acts d d' :
  serving d = true -> forallb snd (fw_out (dv_fw d)) = true -> forallb settling acts = true ->
  dev_run cfg acts d = Some d' ->
  serving d' = true /\ forallb snd (fw_out (dv_fw d')) = true /\ (length acts + work d' <= work d)%nat /\
  fw_read (dv_fw d') = fw_read (dv_fw d) /\ dv_kept d' = dv_kept d /\ dv_gone d' = dv_gone d.
Proof.
  revert d. induction acts as [|a acts IH]; intros d Hs Ho; cbn [forallb dev_run].
  { intros _ [= <-]. split_and!; try done. }
  intros [Ha Hacts]%andb_prop (d1 & E & H)%bind_Some.
  destruct (settling_step _ _ _ Hs Ho Ha E) as (Hs1 & Ho1 & Hw & <- & <- & <-).
  destruct (IH _ Hs1 Ho1 Hacts H) as (? & ? & ? & ? & ? & ?). split_and!; try done. cbn [length]. lia.
Qed.

(** Nothing can settle any more only when everything is done, or the tasks wait
    for each other. *)
Lemma settled_rest d :
  fw_inv cfg (dv_fw d) -> serving d = true -> forallb snd (fw_out (dv_fw d)) = true ->
  (forall a, settling a = true -> dev_exec cfg a d = None) -> at_rest d \/ jammed (dv_fw d).
Proof.
  intros Hi Hs Ho Hn. pose proof (fi_awake _ _ Hi Ho) as Haw. unfold awake in Haw. clear Hi.
  destruct d as [[pc tx rx to_uart to_tcp efd ? ? ? out ?] clients unread fifo gone wire received kept].
  unfold serving, at_rest, jammed in *. cbn in *.
  pose proof (Hn (DevSend None) eq_refl) as H1. pose proof (Hn DevRxReceive eq_refl) as H2.
  pose proof (Hn (DevTask SelectUart) eq_refl) as H3. pose proof (Hn (DevTask Drained) eq_refl) as H4.
  pose proof (Hn (DevTask TxReceive) eq_refl) as H5. pose proof (Hn (DevTask TxQueueSend) eq_refl) as H6.
  pose proof (Hn (DevTask TxSignal) eq_refl) as H7. pose proof (Hn (DevTask RxQueueSend) eq_refl) as H8.
  pose proof (Hn (DevTask RxSignal) eq_refl) as H9. pose proof (Hn (DevTask TcpQueueSend) eq_refl) as H10.
  clear Hn. cbn in *. destruct pc; try done; [left| |by destruct to_tcp].
  2: { right. case_decide as Hu; [done|]. destruct to_uart as [|m1 to_uart]; [cbn in Hu; unfold TCP_TO_UART_DEPTH in Hu; lia|].
    destruct tx as [|m2|]; try done. case_decide as Hc; [done|]. split_and!; eauto; lia. }
  destruct tx as [|m1|], rx as [|m2|], efd; try done; cbn in *.
  all: destruct to_tcp as [|m3 to_tcp]; [|by specialize (Haw ltac:(done))]; cbn in *.
  all: try (by rewrite decide_True in H6 by (unfold UART_TO_TCP_DEPTH; lia)).
  all: try (by rewrite decide_True in H8 by (unfold UART_TO_TCP_DEPTH; lia)).
  destruct to_uart, fifo; by split_and!.
Qed.
End rest.

(** ** Properties *)

Section unbroken.
Context {T Sock : Type} `{!NixTermios T} (cfg : fw_config).
Implicit Types (t : ConnectionTask T Sock).

(** An unbroken connection accepted every message of the terminal. *)
Lemma unbroken_typed name addr port (pty : AsyncPty T) tr (t' : ConnectionTask T Sock) :
  steps (new_task name addr port pty) tr t' -> existsb lost tr = false -> conn_state t' <> ShuttingDown ->
  omap pty_message tr = omap pty_delivered tr.
Proof.
  intros Hst Hl Hs. pose proof (new_task_inv (Sock:=Sock) name addr port pty) as Hi.
  destruct (steps_ledger _ _ _ Hi Hst) as (gone & El & Hg & _). cbn in El.
  by rewrite El, (steps_unbroken _ _ _ Hi Hst eq_refl Hl), (Hg Hs), !app_nil_r.
Qed.

Lemma unbroken_done name addr port (pty : AsyncPty T) tr (t' : ConnectionTask T Sock) acts d :
  steps (new_task name addr port pty) tr t' ->
  dev_run cfg acts (dev_init [concat (map device_wire (omap accepted tr))]) = Some d ->
  at_rest d -> dv_gone d = [] -> dv_unread d = [] -> dv_clients d = [] ->
  fw_done (dv_fw d) = concat (map (device_actions cfg) (omap accepted tr)).
Proof.
  intros Hst Hd (Eu & _ & _ & _ & _ & Ep) Hg Hu Hc.
  destruct (steps_frames_wf _ _ _ Hst) as [Hwf _]; [constructor|].
  assert (Forall device_wf (omap accepted tr)) as Hacc.
  { pose proof (sessions_wf [] tr (Forall_nil_2 _) Hwf) as Hswf.
    change (omap accepted tr) with ([] ++ omap accepted tr). rewrite <-concat_sessions.
    apply Forall_concat, Forall_fmap. eapply Forall_impl; [exact Hswf|]. by intros s [? _]. }
  apply (up_all cfg (omap accepted tr) d); [by eapply dev_fw_inv| |done|by rewrite Ep|done..].
  rewrite <-(app_nil_r (omap accepted tr)). change (omap accepted tr ++ []) with (concat [omap accepted tr]).
  eapply dev_run_up; [|by constructor|exact Hd]. constructor; [|constructor].
  exists []. split; [by left|]. by rewrite app_nil_r.
Qed.

(** What the UART was told is asked for by some of the accepted frames, in order. *)
Lemma device_does_accepted t tr t' acts streams ss d :
  Forall device_wf (kept (conn_state t)) -> steps t tr t' ->
  ss `prefix_of` sessions [] tr -> Forall2 (fun stream s => arrives s stream) streams ss ->
  dev_run cfg acts (dev_init streams) = Some d ->
  exists got, fw_done (dv_fw d) = concat (map (device_actions cfg) got) /\ got `sublist_of` omap accepted tr.
Proof.
  intros Hk Hst [rest Hss] Har Hd. destruct (steps_frames_wf _ _ _ Hst Hk) as [Hwf _].
  pose proof (sessions_wf [] tr (Forall_nil_2 _) Hwf) as Hswf. rewrite Hss in Hswf.
  apply Forall_app in Hswf as [Hswf _].
  destruct (arrives_cut _ _ Har Hswf) as (frames & Hc & Hf & Hsub).
  destruct (up_done cfg _ d (dev_fw_inv _ _ _ _ Hd) (dev_run_up _ _ _ _ _ Hc Hf Hd)) as (got & E & Hg & _).
  exists got. split; [done|]. etrans; [exact Hg|]. etrans; [exact Hsub|].
  change (omap accepted tr) with ([] ++ omap accepted tr).
  rewrite <-concat_sessions, Hss, map_app, concat_app. by apply sublist_inserts_r.
Qed.
End unbroken.

Section properties.
Context {T Sock : Type} `{!NixTermios T} (cfg : fw_config).
Implicit Types (t : ConnectionTask T Sock).

(** C2. From the terminal to the UART, through bounded queues.  However the tasks
    of the firmware interleave, and whatever the network delivers of each TCP
    session, the data written to the UART so far is a subsequence of the
    packets the task read from the terminal: nothing is made up, doubled,
    reordered or cut in the middle. *)
Theorem device_keeps_order name addr port (pty : AsyncPty T) tr t' acts streams ss d :
  steps (new_task name addr port pty) tr t' ->
  ss `prefix_of` sessions [] tr -> Forall2 (fun stream s => arrives s stream) streams ss ->
  dev_run cfg acts (dev_init streams) = Some d ->
  omap uart_written (fw_done (dv_fw d)) `sublist_of` omap typed_data tr.
Proof.
  intros Hst Hss Har Hd.
  destruct (device_does_accepted cfg (new_task name addr port pty) tr t' acts streams ss d (Forall_nil_2 _) Hst Hss Har Hd)
    as (got & -> & Hg).
  rewrite written_actions. destruct (steps_ledger _ _ _ (new_task_inv name addr port pty) Hst) as (gone & E & _).
  cbn in E. rewrite typed_messages, E, omap_app. apply sublist_inserts_r. rewrite <-accepted_data.
  by apply omap_app_sublist.
Qed.

(** C3. While the connection holds, every byte typed reaches the UART: when the
    device is at rest and has read the frames of an unbroken session, the UART
    was written exactly the packets read from the terminal, in order, between
    the line settings and resets asked for, in order. *)
Theorem device_gets_all_typed name addr port (pty : AsyncPty T) tr t' acts d :
  steps (new_task name addr port pty) tr t' ->
  existsb lost tr = false -> conn_state t' <> ShuttingDown ->
  dev_run cfg acts (dev_init [concat (map device_wire (omap accepted tr))]) = Some d ->
  at_rest d -> dv_gone d = [] -> dv_unread d = [] -> dv_clients d = [] ->
  fw_done (dv_fw d) = concat (map (device_actions cfg) (omap accepted tr)) /\
  omap uart_written (fw_done (dv_fw d)) = omap typed_data tr.
Proof.
  intros Hst Hl Hs Hd Hrest Hg Hu Hc.
  assert (fw_done (dv_fw d) = concat (map (device_actions cfg) (omap accepted tr))) as E
    by by eapply unbroken_done.
  split; [done|]. rewrite E, written_actions, accepted_data, typed_messages. by erewrite unbroken_typed.
Qed.

(** C4. From the UART to the terminal, through bounded queues and the bounded
    buffer of the UART.  However the tasks interleave, whatever the network
    delivers to each session of the daemon and in whatever chunks: what was
    written to the PTY is a subsequence of the data messages the firmware took
    off its queue for the clients; these, put together, are the first of the
    bytes that found room in the buffer of the UART, in order; and these are
    some of the bytes that arrived, in order, and all of them if never more
    arrived than there was room for. *)
Theorem device_bytes_reach_pty {B} `{!BytesCrate B, !BytesLaws B} name addr port (pty : AsyncPty T) tr t' acts
    streams d k :
  steps (new_task name addr port pty) tr t' -> dev_run cfg acts (dev_init streams) = Some d ->
  Forall2 (hears B) (dv_gone d ++ dv_wire d :: replicate k []) (receptions [] tr) ->
  let messages : list (list u8) := omap msg_data (map fst (fw_out (dv_fw d))) in
  omap pty_written tr `sublist_of` messages /\ concat messages `prefix_of` dv_kept d /\
  dv_kept d `sublist_of` dv_received d /\
  (always_room cfg acts (dev_init streams) -> dv_kept d = dv_received d).
Proof.
  intros Hst Hd Hh messages. destruct (dev_run_down _ _ _ _ Hd) as [_ Hk Hr _].
  pose proof (fi_queued _ _ (dev_fw_inv _ _ _ _ Hd)) as Ef. split_and!; [| |done|].
  - destruct (steps_downstream _ _ _ Hst) as [-> _]. rewrite received_data.
    apply (device_heard cfg message_data msg_data) with acts streams k; [by intros ? ? (_ & _ & ? & _)|done..].
  - rewrite Hk. unfold data_out. rewrite Ef, !omap_app, !concat_app, <-!(assoc_L (++)). by eexists.
  - intros Hroom. by apply (dev_run_room cfg acts (dev_init streams)).
Qed.

(** C14. The device comes to rest, or its tasks wait for each other.  Take a
    device that has a client, between two frames of it, and with which no send
    has failed.  As soon as the client and the UART pause, and the network takes
    what it is given, every schedule of the tasks is bounded by the work left;
    and it can only stop when everything was done (the UART was told what every
    message read asks for, and every byte that found room in its buffer was sent
    to a client), or in the deadlock of C21. *)
Theorem device_comes_to_rest acts0 streams d acts d' :
  dev_run cfg acts0 (dev_init streams) = Some d -> serving d = true -> forallb snd (fw_out (dv_fw d)) = true ->
  forallb settling acts = true -> dev_run cfg acts d = Some d' ->
  (length acts <= work d)%nat /\
  ((forall a, settling a = true -> dev_exec cfg a d' = None) ->
   (fw_done (dv_fw d') = concat (map (uart_tx cfg) (fw_read (dv_fw d))) /\
    dv_kept d = concat (omap msg_data (map fst (fw_out (dv_fw d')))) /\
    forallb snd (fw_out (dv_fw d')) = true) \/
   jammed (dv_fw d')).
Proof.
  intros H0 Hs Ho Ha H. destruct (settling_run cfg _ _ _ Hs Ho Ha H) as (Hs' & Ho' & Hl & Er & Ev & _).
  split; [lia|]. intros Hn.
  assert (dev_run cfg (acts0 ++ acts) (dev_init streams) = Some d') as Hr by (rewrite dev_run_app, H0; exact H).
  pose proof (dev_fw_inv _ _ _ _ Hr) as Hi. destruct (dev_run_down _ _ _ _ Hr) as [_ Hrec _ _].
  destruct (settled_rest _ _ Hi Hs' Ho' Hn) as [(Eu & Et & Ef & Ex & Ey & Ep)|Hj]; [left|by right].
  split_and!; [| |done].
  - rewrite (fi_done _ _ Hi), <-Er, (fi_read _ _ Hi), Eu, Ep. cbn. by rewrite app_nil_r.
  - rewrite <-Ev, Hrec, Ef. unfold data_out. rewrite (fi_queued _ _ Hi), Et, Ey. cbn. by rewrite !app_nil_r.
Qed.
End properties.

(** ** Witnesses *)

Module WholeDeviceWitness.
Import LinuxTermios ListBytes FirmwareWitness ConnectionWitness EndToEndWitness.

(** A frame read and taken; bytes of the UART queued; the queue emptied. *)
Definition frame_in (portions : list nat) : list dev_action :=
  [DevTask SelectClient; DevRead portions []; DevTask TcpQueueSend; DevTask TxReceive].
Definition bytes_in (bytes : list u8) : list dev_action :=
  [DevUartGets (map (fun b => (b, true)) bytes); DevRxReceive; DevTask RxQueueSend; DevTask RxSignal].

(** The first client is cut in the middle of its second frame, the second one
    sends it again. *)
Definition broken_streams : list (list u8) := [[x01; x02; x68; x69; x01; x02; x6f]; [x01; x02; x6f; x6b]].
Definition broken_acts : list dev_action :=
  DevAccept :: frame_in [1; 3]%nat ++ [DevTask SelectClient; DevRead [] []; DevAccept] ++ frame_in [2]%nat.
Definition broken_device : device :=
  Eval vm_compute in default (dev_init []) (dev_run full_config broken_acts (dev_init broken_streams)).

Lemma device_keeps_order_witness :
  omap uart_written (fw_done (dv_fw broken_device)) = [[x68; x69]; [x6f; x6b]] /\
  omap uart_written (fw_done (dv_fw broken_device)) `sublist_of` omap typed_data typing_end.2.
Proof.
  split; [by vm_compute|].
  apply (device_keeps_order full_config _ _ _ _ _ _ broken_acts broken_streams (sessions [] typing_end.2) broken_device
    (run_steps_steps _ _ _ _ typing_run)); [done| |by vm_compute].
  repeat constructor; cbn [fst snd].
  - exists [x01; x02; x6f]. split; [by exists []|]. by exists [x6b].
  - exists []. split; [by exists []|done].
Defined.

(** The session of [fluent]: three frames one way, three bytes the other. *)
Definition busy_acts : list dev_action :=
  DevAccept :: frame_in [1%nat] ++ frame_in [] ++ frame_in [2%nat] ++ bytes_in [x3e; x20] ++ bytes_in [x0a].
Definition settle_acts : list dev_action :=
  [DevTask SelectUart; DevSend None; DevSend None; DevTask Drained].
Definition fluent_stream : list u8 := concat (map device_wire (omap accepted fluent_end.2)).
Definition busy_device : device :=
  Eval vm_compute in default (dev_init []) (dev_run full_config busy_acts (dev_init [fluent_stream])).
Definition calm_device : device :=
  Eval vm_compute in default (dev_init []) (dev_run full_config settle_acts busy_device).

Lemma device_gets_all_typed_witness :
  omap typed_data fluent_end.2 = [[x68; x69]; [x6f]] /\
  omap uart_written (fw_done (dv_fw calm_device)) = omap typed_data fluent_end.2.
Proof.
  split; [by vm_compute|].
  refine (proj2 (device_gets_all_typed full_config _ _ _ _ _ _ (busy_acts ++ settle_acts) calm_device
    (run_steps_steps _ _ _ _ fluent_run) _ _ _ _ _ _ _)); by vm_compute.
Defined.

Lemma device_bytes_reach_pty_witness :
  omap pty_written fluent_end.2 = [[x3e; x20]; [x0a]] /\ dv_received calm_device = [x3e; x20; x0a] /\
  omap pty_written fluent_end.2 `sublist_of` omap msg_data (map fst (fw_out (dv_fw calm_device))).
Proof.
  split; [by vm_compute|]. split; [by vm_compute|].
  refine (proj1 (device_bytes_reach_pty (B:=list u8) full_config _ _ _ _ _ _ (busy_acts ++ settle_acts) [fluent_stream]
    calm_device 0 (run_steps_steps _ _ _ _ fluent_run) _ _)); [by vm_compute|].
  change (Forall2 (hears (list u8)) [dv_wire calm_device] (receptions [] fluent_end.2)).
  constructor; [|constructor]. exists [], [[x01; x02; x3e]; [x20; x01; x01; x0a]].
  split_and!; [done|done|by exists []|]. exists []. by vm_compute.
Defined.

Lemma device_comes_to_rest_witness :
  work busy_device = 10%nat /\ (length settle_acts <= 10)%nat /\
  ((fw_done (dv_fw calm_device) = concat (map (uart_tx full_config) (fw_read (dv_fw busy_device))) /\
    dv_kept busy_device = concat (omap msg_data (map fst (fw_out (dv_fw calm_device)))) /\
    forallb snd (fw_out (dv_fw calm_device)) = true) \/
   jammed (dv_fw calm_device)).
Proof.
  split; [by vm_compute|].
  destruct (device_comes_to_rest full_config busy_acts [fluent_stream] busy_device settle_acts calm_device)
    as [Hl H]; [by vm_compute..|].
  split; [exact Hl|]. apply H. intros [| | |[]| | |[]]; by vm_compute.
Defined.
End WholeDeviceWitness.
