(* ===== verification/LineSync.v ===== *)
(** * The settings of the UART and those of the terminal

    What the UART is set to, as a state the firmware's calls change, from the
    settings it boots with; and how it follows the line settings of the terminal
    through the connection task, the network and the firmware. *)
From S2P Require Import Prelude BytesApi Codec DeviceMsg AsyncPty TcpBridge Connection Firmware FirmwareTasks EndToEnd Device.
From stdpp Require Import base numbers strings list.
#[local] Open Scope Z_scope.

(** ** The settings of the UART *)

Inductive line_parity := ParityDisable | ParityOdd | ParityEven.

Record uart_line := mkUartLine {
  line_baud : Z;
  line_bits : Z;
  line_stops : Z;
  line_parity_of : line_parity;
  line_flow : bool;
}.

(** The [uart_config_t] the UART is installed with. *)
Definition boot_line : uart_line := mkUartLine 115200 8 1 ParityDisable false.

(** The [uart_set_*] calls. *)
Definition set_line (l : uart_line) (a : uart_action) : uart_line :=
  match a with
  | SetBaudrate baud => mkUartLine baud (line_bits l) (line_stops l) (line_parity_of l) (line_flow l)
  | SetWordLength bits => mkUartLine (line_baud l) bits (line_stops l) (line_parity_of l) (line_flow l)
  | SetStopBits bits => mkUartLine (line_baud l) (line_bits l) bits (line_parity_of l) (line_flow l)
  | SetParityDisable => mkUartLine (line_baud l) (line_bits l) (line_stops l) ParityDisable (line_flow l)
  | SetParityOdd => mkUartLine (line_baud l) (line_bits l) (line_stops l) ParityOdd (line_flow l)
  | SetParityEven => mkUartLine (line_baud l) (line_bits l) (line_stops l) ParityEven (line_flow l)
  | SetFlowCtrl on => mkUartLine (line_baud l) (line_bits l) (line_stops l) (line_parity_of l) on
  | _ => l
  end.
Definition line_after (acts : list uart_action) (l : uart_line) : uart_line := foldl set_line l acts.

(** The settings a terminal asks for; without hardware flow control in the
    firmware, the UART has none. *)
Definition terminal_line {T} `{!NixTermios T} (cfg : fw_config) (tio : T) (l : uart_line) : uart_line :=
  let flags := control_flags tio in
  mkUartLine (speed_to_u32 (cfgetispeed tio)) (u8_val (tc_data_bits (get_termios_change tio)))
    (if contains flags CSTOPB then 2 else 1)
    (if contains flags PARENB then if contains flags PARODD then ParityOdd else ParityEven else ParityDisable)
    (if allow_hw_flow_ctrl cfg then contains flags CRTSCTS else line_flow l).

(** A change of settings the task read from the terminal, and a configuration
    frame. *)
Definition settings_change (i : interaction) : option TermiosChange :=
  match i with PtyRead (Ok (PtyTermiosChange c)) _ => Some c | _ => None end.
Definition is_config (m : DeviceMessage) : bool :=
  match m with Config _ _ _ _ _ => true | _ => false end.
Definition config_of (c : TermiosChange) : DeviceMessage :=
  Config (tc_baudrate c) (tc_data_bits c) (tc_stop_bits c) (tc_parity c) (tc_hw_flow_ctl c).

Lemma line_after_app acts1 acts2 l : line_after (acts1 ++ acts2) l = line_after acts2 (line_after acts1 l).
Proof. unfold line_after. by rewrite foldl_app. Qed.

(** Only configurations change the settings. *)
Lemma line_other cfg m l : is_config m = false -> line_after (device_actions cfg m) l = l.
Proof. destruct m as [| |[]|]; cbn; try done. by destruct (reset_enabled cfg). Qed.

Lemma line_config {T} `{!NixTermios T, !TermiosMasks T} cfg (tio : T) l :
  line_after (device_actions cfg (config_of (get_termios_change tio))) l = terminal_line cfg tio l.
Proof.
  unfold config_of. rewrite termios_actions. unfold terminal_line.
  by destruct (contains _ PARENB), (contains (control_flags tio) PARODD), (allow_hw_flow_ctrl cfg).
Qed.

(** ** The settings the task saw *)

Section changes.
Context {T Sock : Type} `{!NixTermios T}.
Implicit Types (t : ConnectionTask T Sock).

(** A read remembers the settings it reports, and only those. *)
Lemma pty_read_settings polls (pty : AsyncPty T) buf r pty' buf' :
  pty_read polls pty buf = Some (r, pty', buf') ->
  match r with
  | Ok (PtyTermiosChange c) => c = get_termios_change (current_tio pty')
  | _ => pty' = pty
  end.
Proof.
  revert buf. induction polls as [|p polls IH]; intros buf; cbn; [done|].
  destruct (read_round p pty buf) as [r1 pty1 buf1|pty1 buf1] eqn:E.
  - intros [= -> -> ->]. unfold read_round in E. by repeat (case_match; simplify_eq).
  - apply round_again in E as (_ & -> & _). apply IH.
Qed.

(** The changes of a run are the settings the terminal had, the last of them
    those the task knows at the end. *)
Definition saw t (l : list interaction) t' : Prop :=
  exists tios, omap settings_change l = map get_termios_change tios /\
    current_tio (master t') = default (current_tio (master t)) (last tios).

Lemma step_saw i t t' l : step i t = Finished tt t' l -> saw t l t'.
Proof.
  assert (forall reqs closed, omap settings_change (wait_log reqs closed) = []) as Hw.
  { intros. apply omap_wait_log; [by intros []|done]. }
  intros H. unfold saw. step_cases t i H; rewrite ?omap_app, ?Hw; cbn; try (by exists []).
  all: match goal with E : pty_read _ _ _ = Some _ |- _ => apply pty_read_settings in E; cbn in E end.
  all: subst; try (by exists []).
  all: match goal with |- context [get_termios_change (current_tio ?p)] => exists [current_tio p] end.
  all: done.
Qed.

Lemma steps_saw t tr t' : steps t tr t' -> saw t tr t'.
Proof.
  induction 1 as [|t tr t1 i l t2 _ (tios1 & E1 & L1) _ Hi]; [by exists []|].
  destruct (step_saw _ _ _ _ Hi) as (tios2 & E2 & L2). exists (tios1 ++ tios2).
  rewrite omap_app, map_app, E1, E2, L2, L1, last_app. split; [done|]. by destruct (last tios2).
Qed.

(** The configurations among the messages of the terminal. *)
Lemma config_messages (tr : list interaction) :
  filter is_config (omap pty_message tr) = map config_of (omap settings_change tr).
Proof.
  induction tr as [|i tr IH]; [done|]. destruct i as [[[n|c|c]|e] buf| | | | | | | |]; cbn; rewrite ?filter_cons;
    repeat case_decide; try done; by f_equal.
Qed.

Lemma config_delivered (tr : list interaction) :
  filter is_config (omap accepted tr) = filter is_config (omap pty_delivered tr).
Proof.
  induction tr as [|i tr IH]; [done|]. destruct i as [| |m [e|[]]| | | | | |]; cbn; try done.
  destruct m; cbn; rewrite ?filter_cons; repeat case_decide; try done; by f_equal.
Qed.

(** The line after some frames is that after the configurations among them. *)
Lemma line_configs cfg frames l :
  line_after (concat (map (device_actions cfg) frames)) l =
  line_after (concat (map (device_actions cfg) (filter is_config frames))) l.
Proof.
  revert l. induction frames as [|m frames IH]; intros l; [done|]. cbn [map concat]. rewrite line_after_app.
  rewrite filter_cons. case_decide as Hm.
  - cbn [map concat]. by rewrite line_after_app, IH.
  - rewrite line_other by (by destruct (is_config m)). apply IH.
Qed.

(** Without a change of settings, the only configuration that is sent is the one
    that was kept. *)
Lemma no_change_configs t tr t' :
  task_inv t -> steps t tr t' -> omap settings_change tr = [] ->
  filter is_config (omap accepted tr) `sublist_of` kept (conn_state t).
Proof.
  intros Hi Hst Hn. destruct (steps_ledger _ _ _ Hi Hst) as (gone & E & _).
  apply (f_equal (filter is_config)) in E. rewrite !filter_app, config_messages, Hn in E. cbn [map] in E.
  rewrite app_nil_r, <-config_delivered in E. etrans; [|apply (sublist_filter is_config)].
  rewrite E. by apply sublist_inserts_r.
Qed.

Lemma filter_sublist_mono (l k : list DeviceMessage) :
  l `sublist_of` k -> filter is_config l `sublist_of` filter is_config k.
Proof.
  induction 1 as [|x l k _ IH|x l k _ IH]; [done|..]; rewrite !filter_cons; case_decide;
    [by apply sublist_skip|done|by apply sublist_cons|done].
Qed.

Lemma sublist_kept (l : list DeviceMessage) (s : ConnState) : l `sublist_of` kept s -> l = [] \/ exists m, l = [m] /\ kept s = [m].
Proof.
  assert (forall m, l `sublist_of` [m] -> l = [] \/ l = [m]) as H1.
  { intros m [H%sublist_nil_r|(l' & -> & ->%sublist_nil_r)]%sublist_cons_r; auto. }
  destruct s as [|b [m|]|m|]; cbn; [by intros ?%sublist_nil_r; left|..|by intros ?%sublist_nil_r; left];
    try (intros [->| ->]%H1; [by left|right; by exists m]). by intros ?%sublist_nil_r; left.
Qed.

(** The settings of the last of some terminals win. *)
Lemma line_terminals `{!TermiosMasks T} cfg (tios : list T) l :
  line_after (concat (map (device_actions cfg) (map config_of (map get_termios_change tios)))) l =
  match last tios with Some tio => terminal_line cfg tio l | None => l end.
Proof.
  revert l. induction tios as [|tio tios IH]; intros l; [done|]. cbn [map concat].
  rewrite line_after_app, line_config, IH. destruct tios as [|tio' tios]; [done|].
  cbn [last]. destruct (last (tio' :: tios)) as [tio2|] eqn:E; [|by apply last_None in E].
  unfold terminal_line. cbn. by destruct (allow_hw_flow_ctrl cfg).
Qed.
End changes.

(** ** Properties *)

Section properties.
Context {T Sock : Type} `{!NixTermios T, !TermiosMasks T} (cfg : fw_config).
Implicit Types (t : ConnectionTask T Sock).

(** C5. The settings of the UART follow those of the terminal.  Over an unbroken
    session, once the device has read the frames and is at rest, the UART is
    set to the speed, size, stop bits, parity and flow control the task knows
    the terminal to have, whatever the UART was set to before, if the
    terminal's settings changed at all; and it is left as it was otherwise. *)
Theorem line_follows_terminal name addr port (pty : AsyncPty T) tr t' acts d l :
  steps (new_task name addr port pty) tr t' ->
  existsb lost tr = false -> conn_state t' <> ShuttingDown ->
  dev_run cfg acts (dev_init [concat (map device_wire (omap accepted tr))]) = Some d ->
  at_rest d -> dv_gone d = [] -> dv_unread d = [] -> dv_clients d = [] ->
  line_after (fw_done (dv_fw d)) l =
    match omap settings_change tr with
    | [] => l
    | _ => terminal_line cfg (current_tio (master t')) l
    end.
Proof.
  intros Hst Hl Hs Hd Hrest Hg Hu Hc. erewrite unbroken_done by done.
  rewrite line_configs, config_delivered. erewrite <-unbroken_typed by done. rewrite config_messages.
  destruct (steps_saw _ _ _ Hst) as (tios & -> & ->). rewrite line_terminals.
  destruct tios as [|tio tios]; [done|]. cbn [map]. destruct (last (tio :: tios)) as [tio'|] eqn:E; [done|].
  by apply last_None in E.
Qed.

(** C36. Settings are only sent when they change.  Take a task in any state it
    can reach and a device that was restarted.  Whatever is typed afterwards and
    however often the connection is lost, as long as no application changes the
    settings the UART stays as it booted, with one exception: if the task still
    kept a configuration whose sending had failed, the UART may be set to that
    one configuration.  Settings that were sent are not sent again. *)
Theorem settings_not_restored name addr port (pty : AsyncPty T) tr0 t tr t' acts streams ss d l :
  steps (new_task name addr port pty) tr0 t ->
  steps t tr t' -> omap settings_change tr = [] ->
  ss `prefix_of` sessions [] tr -> Forall2 (fun stream s => arrives s stream) streams ss ->
  dev_run cfg acts (dev_init streams) = Some d ->
  line_after (fw_done (dv_fw d)) l = l \/
  exists m, kept (conn_state t) = [m] /\ is_config m = true /\
    line_after (fw_done (dv_fw d)) l = line_after (device_actions cfg m) l.
Proof.
  intros H0 Hst Hn Hss Har Hd.
  pose proof (steps_inv _ _ _ (new_task_inv name addr port pty) H0) as Hi.
  destruct (steps_frames_wf _ _ _ H0) as [_ Hkw]; [constructor|].
  destruct (device_does_accepted cfg _ _ _ _ _ _ _ Hkw Hst Hss Har Hd) as (got & -> & Hg).
  rewrite line_configs. apply filter_sublist_mono in Hg.
  pose proof (no_change_configs _ _ _ Hi Hst Hn) as Hk. rewrite <-Hg in Hk.
  apply sublist_kept in Hk as [E|(m & E & Hm)]; rewrite E; [by left|right]. exists m. split_and!; [done| |].
  - assert (m ∈ filter is_config got) as Hin by (rewrite E; left). apply list_elem_of_filter in Hin as [Hin _].
    by destruct (is_config m).
  - cbn. by rewrite app_nil_r.
Qed.
End properties.

(** ** Witnesses *)

Module LineSyncWitness.
Import LinuxTermios FirmwareWitness ConnectionWitness EndToEndWitness WholeDeviceWitness.

(** The session of [fluent] changes the settings to those of [fast]. *)
Lemma line_follows_terminal_witness :
  line_after (fw_done (dv_fw calm_device)) boot_line = mkUartLine 115200 7 1 ParityOdd false /\
  line_after (fw_done (dv_fw calm_device)) boot_line = terminal_line full_config fast boot_line.
Proof.
  split; [by vm_compute|].
  refine (line_follows_terminal full_config _ _ _ _ _ _ (busy_acts ++ settle_acts) calm_device boot_line
    (run_steps_steps _ _ _ _ fluent_run) _ _ _ _ _ _ _); by vm_compute.
Defined.

(** The terminal of [typing] has 9600 baud and two stop bits from the start; what
    is typed is written at 115200. *)
Lemma settings_not_restored_witness :
  line_after (fw_done (dv_fw broken_device)) boot_line = boot_line /\
  terminal_line full_config (current_tio (master typing_end.1)) boot_line = mkUartLine 9600 8 2 ParityDisable false.
Proof.
  split; [|by vm_compute].
  destruct (settings_not_restored full_config _ _ _ _ [] fresh typing_end.2 typing_end.1 broken_acts broken_streams
    (sessions [] typing_end.2) broken_device boot_line (steps_refl _)) as [E|(m & E & _)];
    [exact (run_steps_steps _ _ _ _ typing_run)|by vm_compute|done| |by vm_compute|exact E|discriminate E].
  repeat constructor; cbn [fst snd].
  - exists [x01; x02; x6f]. split; [by exists []|]. by exists [x6b].
  - exists []. split; [by exists []|done].
Defined.
End LineSyncWitness.
