(* ===== verification/Resets.v ===== *)
(** * Resets, from the user to the pin and back

    A reset is a request to the task of a connection, a frame to the device, a
    pulse on a pin, a response in a queue, a frame back, and an answer to the
    user.  Here: that no stage makes up or repeats what the one before did not
    do, through lost connections and bounded queues. *)
From S2P Require Import Prelude BytesApi Codec Framing DeviceMsg AsyncPty TcpBridge Connection Firmware FirmwareTasks EndToEnd Device.
From stdpp Require Import base numbers strings relations list.
#[local] Open Scope Z_scope.

(** ** The stages *)

(** A reset among the frames, the calls of the firmware, and the answers it
    queues. *)
Definition reset_frame (f : DeviceMessage) : option unit :=
  match f with ControlReq DevReset => Some tt | _ => None end.
Definition reset_pulse (a : uart_action) : option unit := match a with ResetPulse => Some tt | _ => None end.
Definition queued_answer (a : uart_action) : option DeviceControlResponse :=
  match a with QueueToTcp m => msg_answer m | _ => None end.

(** An answer that says the reset was done. *)
Definition reset_done (a : DeviceControlResponse) : option unit :=
  match a with DevOk => Some tt | DevNotSupported => None end.

(** What the device answers to a reset. *)
Definition device_verdict (cfg : fw_config) : DeviceControlResponse :=
  if reset_enabled cfg then DevOk else DevNotSupported.

(** ** In the task *)

Section task.
Context {T Sock : Type} `{!NixTermios T}.
Implicit Types (t : ConnectionTask T Sock).

Definition keeps_no_reset t : Prop := Forall (fun m => reset_frame m = None) (kept (conn_state t)).

(** A step sends at most one reset for each request it takes; messages that are
    kept and sent again are never resets. *)
Lemma step_resets i t t' l : keeps_no_reset t -> step i t = Finished tt t' l ->
  keeps_no_reset t' /\ (length (omap reset_frame (omap accepted l)) <= length (omap ctl_requested l))%nat.
Proof.
  assert (forall reqs closed, omap accepted (wait_log reqs closed) = []) as Hw.
  { intros. apply omap_wait_log; [by intros []|done]. }
  unfold keeps_no_reset. intros Hk H. step_cases t i H; rewrite ?omap_app, ?Hw, ?length_app; cbn;
    try (split; [first [done|by repeat constructor]|cbn; lia]).
  - destruct ctl. split; [constructor|cbn; lia].
  - apply Forall_cons in Hk as [-> _]. split; [constructor|cbn; lia].
Qed.

Lemma steps_resets t tr t' : keeps_no_reset t -> steps t tr t' ->
  (length (omap reset_frame (omap accepted tr)) <= length (omap ctl_requested tr))%nat.
Proof.
  intros Hk H. enough (keeps_no_reset t' /\
    (length (omap reset_frame (omap accepted tr)) <= length (omap ctl_requested tr))%nat) by tauto.
  induction H as [|t tr t1 i l t2 _ IH _ Hi]; [done|]. destruct (IH Hk) as [Hk1 Hl].
  destruct (step_resets _ _ _ _ Hk1 Hi) as [? ?]. split; [done|]. rewrite !omap_app, !length_app. lia.
Qed.

Lemma answers_of_frames (tr : list interaction) :
  omap device_answer tr = omap frame_answer (omap frame_received tr).
Proof.
  induction tr as [|i tr IH]; [done|]. destruct i as [| | |[e|[n data| | |]]| | | | |]; cbn; try done. by rewrite IH.
Qed.
End task.

(** ** In the device *)

Section device.
Context (cfg : fw_config).

Lemma tx_answers m : omap msg_answer (uart_hand (after_tx (uart_tx cfg m))) = omap queued_answer (uart_tx cfg m).
Proof.
  rewrite after_tx_hand. unfold uart_tx, apply_config, handle_control. repeat case_match; done.
Qed.

Lemma rx_no_answer m : is_rx m -> msg_answer m = None.
Proof. by intros (fifo & _ & ->). Qed.

(** The answers queued, and the one about to be, are those of the calls. *)
Lemma exec_answers a s s' : hands_inv s -> fw_exec cfg a s = Some s' ->
  omap msg_answer (fw_queued s ++ uart_hand (fw_tx s)) = omap queued_answer (fw_done s) ->
  omap msg_answer (fw_queued s' ++ uart_hand (fw_tx s')) = omap queued_answer (fw_done s').
Proof.
  intros [_ Hx _] H E. unfold fw_exec in H. destruct a; repeat (case_match; simplify_eq); cbn; try done;
    repeat match goal with H : fw_tx s = _ |- _ => rewrite H in *; clear H | H : fw_rx s = _ |- _ => rewrite H in *; clear H end;
    cbn in *; rewrite ?app_nil_r in *; try done.
  - by rewrite !omap_app, E, tx_answers.
  - apply Forall_cons in Hx as [Hx%rx_no_answer _]. rewrite <-E, !omap_app. cbn. by rewrite Hx, app_nil_r.
Qed.

Lemma dev_answers acts streams d : dev_run cfg acts (dev_init streams) = Some d ->
  omap msg_answer (map fst (fw_out (dv_fw d))) `prefix_of` omap queued_answer (fw_done (dv_fw d)).
Proof.
  intros Hd. pose proof (fi_queued _ _ (dev_fw_inv _ _ _ _ Hd)) as Eq.
  enough (down_inv d /\ omap msg_answer (fw_queued (dv_fw d) ++ uart_hand (fw_tx (dv_fw d))) =
    omap queued_answer (fw_done (dv_fw d))) as [_ <-] by (rewrite Eq, !omap_app, <-!(assoc_L (++)); by eexists).
  revert Hd. apply (dev_run_inv cfg (fun d => down_inv d /\
    omap msg_answer (fw_queued (dv_fw d) ++ uart_hand (fw_tx (dv_fw d))) = omap queued_answer (fw_done (dv_fw d)))).
  - intros a d1 d2 [Hi E] H. split; [by eapply dev_exec_down|].
    destruct (dev_exec_fw _ _ _ _ H) as [->|[b Hb]]; [done|]. eapply exec_answers; [apply Hi|done|done].
  - split; [apply dev_init_down|done].
Qed.

(** Per frame: the pulses and the answers of a reset, of others none. *)
Lemma frames_resets frames :
  omap queued_answer (concat (map (device_actions cfg) frames)) =
    map (fun _ => device_verdict cfg) (omap reset_frame frames) /\
  omap reset_pulse (concat (map (device_actions cfg) frames)) =
    if reset_enabled cfg then omap reset_frame frames else [].
Proof.
  unfold device_verdict. induction frames as [|f frames [IH1 IH2]]; [by destruct (reset_enabled cfg)|]. cbn [map concat].
  rewrite !omap_app, IH1, IH2.
  destruct f as [| |[]|]; unfold device_actions, parity_action; repeat case_match; done.
Qed.

Lemma verdicts_done {A} (l : list A) :
  length (omap reset_done (map (fun _ => device_verdict cfg) l)) = if reset_enabled cfg then length l else 0%nat.
Proof. unfold device_verdict. destruct (reset_enabled cfg); induction l as [|a l IH]; cbn; auto. Qed.
End device.

(** ** Properties *)

Section properties.
Context {T Sock : Type} `{!NixTermios T} {B : Type} `{!BytesCrate B, !BytesLaws B} (cfg : fw_config).

(** C6. Nobody is told of a reset that did not happen, and no reset happens that
    nobody asked for.  Whatever is lost, delayed or cut on the way in either
    direction, and however the tasks of the firmware interleave: every answer
    of the device to a user says what the firmware is configured to do, [DevOk]
    if it has the reset pin and [DevNotSupported] if not; there are no more
    answers [DevOk] than pulses of the pin, no more answers than requests of
    users, and no more pulses than requests, so a reset is never repeated when a
    connection comes back; a firmware without resets gives no pulse, and one
    with resets no more answers of any kind than pulses. *)
Theorem reset_answers_are_real name addr port (pty : AsyncPty T) tr (t' : ConnectionTask T Sock) acts streams ss d k :
  steps (new_task name addr port pty) tr t' ->
  ss `prefix_of` sessions [] tr -> Forall2 (fun stream s => arrives s stream) streams ss ->
  dev_run cfg acts (dev_init streams) = Some d ->
  Forall2 (hears B) (dv_gone d ++ dv_wire d :: replicate k []) (receptions [] tr) ->
  let answers := omap ctl_answer tr in
  let pulses := omap reset_pulse (fw_done (dv_fw d)) in
  Forall (eq (device_verdict cfg)) answers /\
  (length (omap reset_done answers) <= length pulses)%nat /\
  (length answers <= length (omap ctl_requested tr))%nat /\ (length pulses <= length (omap ctl_requested tr))%nat /\
  if reset_enabled cfg then (length answers <= length pulses)%nat else pulses = [].
Proof.
  intros Hst Hss Har Hd Hh answers pulses.
  destruct (device_does_accepted cfg (new_task name addr port pty) tr t' acts streams ss d (Forall_nil_2 _) Hst Hss Har Hd)
    as (got & Ed & Hg).
  destruct (frames_resets cfg got) as [Ha Hp]. rewrite <-Ed in Ha, Hp.
  assert (answers `sublist_of` map (fun _ => device_verdict cfg) (omap reset_frame got)) as Hs.
  { destruct (steps_answers _ _ _ Hst) as (_ & Hs & _). etrans; [exact Hs|]. rewrite answers_of_frames, <-Ha.
    etrans; [apply (device_heard (B:=B) cfg frame_answer msg_answer) with acts streams k; [by intros ? ? (_ & _ & _ & ?)|done..]|].
    destruct (dev_answers _ _ _ _ Hd) as [l ->]. by apply sublist_inserts_r. }
  assert (length (omap reset_frame got) <= length (omap ctl_requested tr))%nat as Hl.
  { etrans; [|by eapply (steps_resets (new_task name addr port pty)); [constructor|]].
    by apply sublist_length, omap_app_sublist. }
  pose proof (sublist_length _ _ Hs) as Hls. rewrite length_map in Hls.
  pose proof (sublist_length _ _ (omap_app_sublist reset_done _ _ Hs)) as Hok. rewrite verdicts_done in Hok.
  unfold pulses. rewrite Hp. split_and!.
  - apply Forall_forall. intros a Hin. pose proof (elem_of_submseteq _ _ a Hin (sublist_submseteq _ _ Hs)) as Hin'.
    by apply list_elem_of_fmap in Hin' as (? & -> & _).
  - destruct (reset_enabled cfg); cbn in *; lia.
  - lia.
  - destruct (reset_enabled cfg); cbn; lia.
  - by destruct (reset_enabled cfg).
Qed.
End properties.

(** ** Witnesses *)

Module ResetsWitness.
Import LinuxTermios ListBytes FirmwareWitness ConnectionWitness EndToEndWitness WholeDeviceWitness.

(** A reset asked for, done and answered. *)
Definition resetting_session : list (step_input termios unit) := [
  InReconnecting [WaitDone (Ok tt, Ok tt)];
  InConnected (CtlReady (Some (HardwareControl DevReset 5)) (Ok tt));
  InConnected (TcpReady (Some (Ok (ControlRes DevOk))) (Ok tt))].
Definition resetting_end := Eval vm_compute in
  match run_steps resetting_session fresh with Finished _ t l => (t, l) | _ => (fresh, []) end.
Lemma resetting_run : run_steps resetting_session fresh = Finished tt resetting_end.1 resetting_end.2.
Proof. by vm_compute. Qed.

Definition reset_acts : list dev_action :=
  DevAccept :: frame_in [1%nat] ++
  [DevTask TxQueueSend; DevTask TxSignal; DevTask SelectUart; DevSend None; DevTask Drained].
Definition reset_stream : list u8 := concat (map device_wire (omap accepted resetting_end.2)).
Definition reset_device : device :=
  Eval vm_compute in default (dev_init []) (dev_run full_config reset_acts (dev_init [reset_stream])).

Lemma reset_answers_are_real_witness :
  omap ctl_answer resetting_end.2 = [DevOk] /\ omap reset_pulse (fw_done (dv_fw reset_device)) = [tt] /\
  (length (omap reset_done (omap ctl_answer resetting_end.2)) <=
   length (omap reset_pulse (fw_done (dv_fw reset_device))))%nat.
Proof.
  split; [by vm_compute|]. split; [by vm_compute|].
  refine (proj1 (proj2 (reset_answers_are_real (B:=list u8) full_config _ _ _ _ _ _ reset_acts [reset_stream]
    (sessions [] resetting_end.2) reset_device 0 (run_steps_steps _ _ _ _ resetting_run) _ _ _ _))); [done| |by vm_compute|].
  - constructor; [|constructor]. exists []. split; [by exists []|done].
  - change (Forall2 (hears (list u8)) [dv_wire reset_device] (receptions [] resetting_end.2)).
    constructor; [|constructor]. exists [], [[x04]; [x01; x01]]. split_and!; [done|done|by exists []|]. exists []. by vm_compute.
Defined.
End ResetsWitness.
