(* ===== verification/TestServer.v ===== *)
(** * The test server (test-server/src/main.rs)

    A stand-in for the device: one [handle_conn] per TCP connection.  It sends
    what it is given to type, and answers control requests, the first with [Ok]
    and then in alternation.  The lines typed come from the broadcast channel,
    which [main] fills from the standard input and hands to every connection it
    accepts; what the sockets and the input do are arguments. *)
From S2P Require Import Prelude Utf8 DeviceMsg.
From stdpp Require Import base numbers strings list.
#[local] Open Scope Z_scope.

(** A turn of the loop: the branch [select!] takes, with the result of the send
    that follows.  With no line to come ([recv] fails) and no frame to come
    ([next] is [None]) no branch is left, and [select!] panics. *)
Inductive server_event :=
  | StdinLine (input : rstring) (sent : io_result unit)
  | FrameArrived (msg : io_result DeviceMessage) (sent : io_result unit)
  | NoBranchLeft.

Inductive server_status := ServerWaiting (last_ctl_resp_status : DeviceControlResponse) | ServerPanic.

Definition toggle (r : DeviceControlResponse) : DeviceControlResponse :=
  match r with DevOk => DevNotSupported | DevNotSupported => DevOk end.

(** The loop of [handle_conn]: the messages sent, and where it stands. *)
Fixpoint handle_conn (events : list server_event) (last_ctl_resp_status : DeviceControlResponse) :
    list DeviceMessage * server_status :=
  match events with
  | [] => ([], ServerWaiting last_ctl_resp_status)
  | StdinLine input sent :: events =>
      match sent with
      | Err _ => ([], ServerPanic)
      | Ok _ =>
          let '(out, st) := handle_conn events last_ctl_resp_status in (from_slice input :: out, st)
      end
  | FrameArrived (Ok (ControlReq _)) sent :: events =>
      let last_ctl_resp_status := toggle last_ctl_resp_status in
      match sent with
      | Err _ => ([], ServerPanic)
      | Ok _ =>
          let '(out, st) := handle_conn events last_ctl_resp_status in
          (ControlRes last_ctl_resp_status :: out, st)
      end
  | FrameArrived _ _ :: events => handle_conn events last_ctl_resp_status
  | NoBranchLeft :: _ => ([], ServerPanic)
  end.

(** [let mut last_ctl_resp_status = DeviceControlResponse::NotSupported]. *)
Definition run_conn (events : list server_event) : list DeviceMessage * server_status :=
  handle_conn events DevNotSupported.

(** ** [main] *)

(** What [main] and the task that reads the standard input meet. *)
Inductive server_input :=
  | StdinRead (r : io_result (list u8))
  | ServerAccepted (r : io_result unit).

(** The lines each connection has been sent so far, in the order they were
    accepted, and whether the task still reads: it ends at the end of the
    input, and panics when reading fails. *)
Record server := mkServer { sv_conns : list (list rstring); sv_reading : bool }.

(** One turn; nothing when [main] returns.  [send] does not fail, since [main]
    holds a receiver. *)
Definition server_turn (i : server_input) (s : server) : option server :=
  match i with
  | StdinRead _ =>
      if negb (sv_reading s) then Some s else
      match i with
      | StdinRead (Ok (b :: buf)) =>
          let input := from_utf8_lossy (b :: buf) in
          Some (mkServer (map (fun lines => lines ++ [input]) (sv_conns s)) true)
      | _ => Some (mkServer (sv_conns s) false)
      end
  | ServerAccepted (Ok _) => Some (mkServer (sv_conns s ++ [[]]) (sv_reading s))
  | ServerAccepted (Err _) => None
  end.

Fixpoint server_run (inputs : list server_input) (s : server) : option server :=
  match inputs with
  | [] => Some s
  | i :: inputs => s ← server_turn i s; server_run inputs s
  end.

Definition server_main (bind : io_result unit) (inputs : list server_input) : option server :=
  match bind with
  | Err _ => None
  | Ok _ => server_run inputs (mkServer [] true)
  end.

(** ** What it answers *)

Definition control_request (e : server_event) : option DeviceControlRequest :=
  match e with FrameArrived (Ok (ControlReq r)) _ => Some r | _ => None end.
Definition typed (e : server_event) : option rstring :=
  match e with StdinLine s _ => Some s | _ => None end.
Definition control_response (m : DeviceMessage) : option DeviceControlResponse :=
  match m with ControlRes r => Some r | _ => None end.
Definition data_sent (m : DeviceMessage) : option (list u8) :=
  match m with Data _ _ => Some (payload m) | _ => None end.

(** [n] answers in alternation. *)
Fixpoint alternate (n : nat) (r : DeviceControlResponse) : list DeviceControlResponse :=
  match n with O => [] | S n => toggle r :: alternate n (toggle r) end.

(** The sends of the turn succeed. *)
Definition turn_ok (e : server_event) : Prop :=
  match e with
  | StdinLine _ sent => sent = Ok tt
  | FrameArrived (Ok (ControlReq _)) sent => sent = Ok tt
  | FrameArrived _ _ => True
  | NoBranchLeft => False
  end.

Lemma handle_conn_ok events r :
  Forall turn_ok events ->
  exists out r', handle_conn events r = (out, ServerWaiting r') /\
    omap control_response out = alternate (length (omap control_request events)) r /\
    omap data_sent out = map (take MAX_MESSAGE_LEN) (omap typed events).
Proof.
  intros H. revert r. induction H as [|e events He _ IH]; intros r; [by eexists _, _|].
  destruct e as [s sent|[m|e] sent|]; [| |destruct (IH r) as (out & r' & E & Hc & Hd); by exists out, r'|done].
  - cbn in He. subst sent. destruct (IH r) as (out & r' & E & Hc & Hd). cbn. rewrite E.
    eexists _, _. split_and!; [done|done|]. cbn. by rewrite Hd, <-payload_from_slice.
  - destruct m as [n data|b d st p hw|req|res];
      try (destruct (IH r) as (out & r' & E & Hc & Hd); by exists out, r').
    cbn in He. subst sent. destruct (IH (toggle r)) as (out & r' & E & Hc & Hd). cbn. rewrite E.
    eexists _, _. split_and!; [done| |done]. cbn. by rewrite Hc.
Qed.

Lemma alternate_lookup n r i :
  (i < n)%nat -> alternate n r !! i = Some (if Nat.even i then toggle r else r).
Proof.
  revert n r. induction i as [i IH] using (induction_ltof1 _ id). unfold ltof, id in IH.
  intros [|[|n]] r Hi; [lia| |].
  - by destruct i; [|lia].
  - destruct i as [|[|i]]; [done|by destruct r|]. cbn [alternate lookup list_lookup].
    change (Nat.even (S (S i))) with (Nat.even i). rewrite <-(IH i ltac:(lia) n) by lia.
    cbn. by destruct r.
Qed.

(** The chunks of the standard input, before its end. *)
Definition chunk (i : server_input) : option (list u8) :=
  match i with StdinRead (Ok bytes) => Some bytes | _ => None end.

Definition input_ok (i : server_input) : Prop :=
  match i with StdinRead (Ok (_ :: _)) | ServerAccepted (Ok _) => True | _ => False end.

Lemma server_run_lines inputs : forall conns,
  Forall input_ok inputs ->
  exists new, server_run inputs (mkServer conns true) =
    Some (mkServer (map (fun lines => lines ++ map from_utf8_lossy (omap chunk inputs)) conns ++ new) true).
Proof.
  induction inputs as [|i inputs IH]; intros conns Hok; cbn [server_run omap list_omap map].
  - exists []. rewrite app_nil_r, (map_ext _ id) by (intros; by rewrite app_nil_r). by rewrite map_id.
  - apply Forall_cons in Hok as [Hi Hok]. destruct i as [[[|b buf]|e]|[[]|e]]; try done;
      cbn [server_turn negb sv_reading sv_conns mbind option_bind chunk].
    + destruct (IH (map (fun lines => lines ++ [from_utf8_lossy (b :: buf)]) conns) Hok) as (new & ->).
      exists new. rewrite map_map. do 3 f_equal. apply map_ext. intros lines. by rewrite <-(assoc_L (++)).
    + destruct (IH (conns ++ [[]]) Hok) as (new & ->). rewrite map_app, <-(assoc_L (++)). by eexists.
Qed.

(** ** Properties *)

(** Everything typed reaches every device connected: a connection is sent each
    chunk read from the standard input after it was accepted, once and in
    order, as text; and a chunk that is UTF-8 is sent to the device as it
    is. *)
Theorem test_server_broadcasts before inputs :
  Forall input_ok before -> Forall input_ok inputs ->
  exists older newer, server_main (Ok tt) (before ++ ServerAccepted (Ok tt) :: inputs) =
      Some (mkServer (older ++ map from_utf8_lossy (omap chunk inputs) :: newer) true) /\
    (forall bytes, utf8_valid bytes = true -> (length bytes <= MAX_MESSAGE_LEN)%nat ->
       payload (from_slice (from_utf8_lossy bytes)) = bytes).
Proof.
  intros Hb Hi. assert (forall ins s, server_run (ins ++ ServerAccepted (Ok tt) :: inputs) s =
    s' ← server_run ins s; server_run (ServerAccepted (Ok tt) :: inputs) s') as Happ.
  { induction ins as [|i ins IH]; intros s; [done|]. cbn. destruct (server_turn i s); cbn; [apply IH|done]. }
  unfold server_main. rewrite Happ. destruct (server_run_lines before [] Hb) as (conns & ->).
  cbn [mbind option_bind map app server_run server_turn sv_conns sv_reading].
  destruct (server_run_lines inputs (conns ++ [[]]) Hi) as (newer & ->).
  rewrite map_app, <-(assoc_L (++)). cbn [map app]. eexists _, newer. split; [done|]. intros bytes Hv Hl.
  rewrite payload_from_slice, (proj1 (proj2 (from_utf8_lossy_spec bytes)) Hv). by apply take_ge.
Qed.

(** A read may end in the middle of a character: then both halves are replaced,
    and text that is UTF-8 does not reach the device as it was typed. *)
Example split_character :
  utf8_valid [xc3; xa9] = true /\
  server_main (Ok tt) [ServerAccepted (Ok tt); StdinRead (Ok [xc3]); StdinRead (Ok [xa9])] =
    Some (mkServer [[replacement; replacement]] true).
Proof. by vm_compute. Qed.

(** While its sends succeed, the server answers every control request once
    and in order, [Ok] to the first, third, fifth and [NotSupported] to the
    others, and sends the first 255 bytes of every line typed, in order. *)
Theorem test_server_answers events :
  Forall turn_ok events ->
  exists out r, run_conn events = (out, ServerWaiting r) /\
    length (omap control_response out) = length (omap control_request events) /\
    (forall i, (i < length (omap control_request events))%nat ->
       omap control_response out !! i = Some (if Nat.even i then DevOk else DevNotSupported)) /\
    omap data_sent out = map (take MAX_MESSAGE_LEN) (omap typed events).
Proof.
  intros (out & r & E & Hc & Hd)%(handle_conn_ok _ DevNotSupported). exists out, r. rewrite Hc.
  split_and!; [done| |intros i Hi; by apply alternate_lookup|done].
  clear. generalize (omap control_request events) as l. generalize DevNotSupported as r.
  intros r l. revert r. induction l as [|x l IH]; intros r; [done|]. cbn. by rewrite IH.
Qed.

(** ** Witnesses *)

Module TestServerWitness.
Lemma test_server_answers_witness : exists out r,
  run_conn [FrameArrived (Ok (ControlReq DevReset)) (Ok tt); StdinLine (lit "hi") (Ok tt);
    FrameArrived (Ok (ControlReq DevReset)) (Ok tt)] = (out, ServerWaiting r) /\
  length (omap control_response out) = 2%nat.
Proof.
  destruct (test_server_answers
    [FrameArrived (Ok (ControlReq DevReset)) (Ok tt); StdinLine (lit "hi") (Ok tt);
     FrameArrived (Ok (ControlReq DevReset)) (Ok tt)] ltac:(by repeat constructor))
    as (out & r & E & Hl & _). by exists out, r.
Defined.

Lemma test_server_broadcasts_witness : exists older newer,
  server_main (Ok tt) [ServerAccepted (Ok tt); StdinRead (Ok (lit "a")); ServerAccepted (Ok tt); StdinRead (Ok (lit "hi"))] =
    Some (mkServer (older ++ [lit "hi"] :: newer) true).
Proof.
  destruct (test_server_broadcasts [ServerAccepted (Ok tt); StdinRead (Ok (lit "a"))] [StdinRead (Ok (lit "hi"))])
    as (older & newer & E & _); [by repeat constructor..|].
  exists older, newer. exact E.
Defined.
End TestServerWitness.
